(* ===== verification/_CoqProject ===== *)
-Q . S2P
Prelude.v
Ring.v
Riscv.v
Mem.v
Bytes.v
Kalloc.v
Vm.v
PageTable.v
UserVm.v
UserCopy.v
VmSpec.v
Spinlock.v
Access.v
Pipe.v
Uart.v
Console.v
Sleeplock.v
Bio.v
BlockCache.v
BioSpec.v
Log.v
LogDisk.v
LogSpec.v
LogOps.v
TxDisk.v
Fs.v
FsBlocks.v
FsFile.v
FsRw.v
FsSpec.v
FsDir.v
File.v
FileSpec.v
FsPath.v
FsDemo.v
Triple.v
Kprintf.v
Proc.v
ProcSpec.v
ProcProps.v
Virtio.v
VirtioSpec.v
Exec.v
Syscall.v
Trap.v
Boot.v
Ulib.v
Grep.v
Sh.v
ShSpec.v
ShRun.v
Umalloc.v
UmallocSpec.v
Primes.v
Mkfs.v
MkfsSpec.v
MkfsBoot.v
Usys.v
Coreutils.v
CoreSpec.v
