(* ===== verification/Prelude.v ===== *)
(** * xv6-riscv: a verification library

    The program is the xv6 teaching kernel for RISC-V with its user programs.  The parts
    of the kernel form layers, from physical memory to system calls, and the files of this
    library follow them.

    ** The kernel and its model

    - Machine: [Riscv] holds the constants and macros of kernel/riscv.h and memlayout.h;
      [Mem] is byte-addressed memory with kernel/string.c on it; [Bytes] is fields of a
      byte array, as the disk structures use them.
    - Memory: [Kalloc] (kalloc.c) keeps the free list in the free pages; [Vm] (vm.c) walks
      and edits Sv39 page tables that live in the same memory.  [PageTable] is the
      invariant of a page table, [UserVm] and [UserCopy] the effect of the operations on
      what a process reads, [VmSpec] the contracts.
    - Locks: [Spinlock] (spinlock.c) as the single memory accesses of several harts, and
      as sequential functions; [Sleeplock] (sleeplock.c).
    - Character devices: [Uart] (uart.c), [Console] (console.c), [Pipe] (pipe.c), over the
      ring buffers of [Ring].  They reach user memory through the interface [UserAccess]
      of [Access], which vm.c implements.  [Kprintf] is kernel/printf.c.
    - Disk: [Bio] (bio.c) keeps its least-recently-used list as links in memory; [BioSpec]
      proves that it implements the interface [BufCache] of [BlockCache].  [Log] (log.c)
      is written over that interface; [LogDisk], [LogSpec] and [LogOps] give the meaning
      of the log on the disk, crash safety, and transactions.  [Virtio] and [VirtioSpec]
      are virtio_disk.c with the device and the interrupt handler as one transition system.
    - Files: [Fs] (fs.c) is written over the interface [TxDisk], the disk as seen inside a
      transaction; [FsBlocks], [FsFile], [FsRw] and [FsSpec] relate it to files as
      sequences of bytes, [FsDir] to directories as maps from names to inodes, and [FsPath]
      to paths, with the inode cache as a multiset of references.  [File] (file.c) is the
      open-file table; [FileSpec] puts filewrite, log and crashes together; [FsDemo] is a
      small disk for the witnesses.
    - Processes: [Proc] (proc.c); [Triple] is a small program logic, [ProcSpec] the
      invariant of the process table, [ProcProps] its consequences.  [Exec] (exec.c),
      [Syscall] (syscall.c, sysproc.c, sysfile.c), [Trap] (trap.c, plic.c) and [Boot]
      (start.c, main.c) sit on top.
    - User programs: [Ulib] (user/ulib.c, user/printf.c), [Grep] (user/grep.c) and
      [Primes] (user/primes.c, its processes and pipes as one transition system).  [Sh] is
      the shell (user/sh.c) with its tokens in memory and its commands as trees; [ShSpec]
      is about its parser and [ShRun] about what it starts.  [Umalloc] (user/umalloc.c)
      keeps the headers of its free list in memory; [UmallocSpec] is its invariant.
      [Usys] is the system call interface of user/user.h and the programs written over it;
      [Coreutils] is cat, echo, wc, ls, find, xargs, sleep, kill, ln, rm, mkdir, init,
      zombie, pingpong, forktest and stressfs, and do_rand of grind.c; [CoreSpec] states
      what the kernel promises them and what find and xargs do with it.
    - The disk image: [Mkfs] is mkfs/mkfs.c, [MkfsSpec] what holds of the image it writes,
      [MkfsBoot] the kernel that mounts it and reads a file.

    ** How the code is translated

    A C integer of width w is a [Z], with the wrap-around of its type written out
    ([u8 .. u64], [i16], [i32]).  A function is a computation [M S A] on the state [S] of
    its component.  Its outcome is [Ok] with a result, [Panic] with the message of the
    source, [Block] when it goes to sleep on a channel, or [Diverge]; undefined behaviour
    of C is [Diverge] too.  A component runs on the state of a larger one by [zoom].  The
    code between two points where a process can lose the CPU is one computation, as it runs
    under the locks of the source; loops of several processes are explicit sequences of
    such steps.

    Loops that are not structural take fuel; the amount is written where the loop is
    called, and the theorems show that the loop ends before it runs out (for example the
    number of pages of a range, the blocks of a write, the length of a buffer).  A theorem
    that says what an operation returns also says that it returns.

    Code outside the sources is a parameter: the addresses the linker assigns ([Linker],
    [Symbols]), the values device registers return, what read delivers.  The disk of
    [VirtioSpec] takes requests in order and completes them in any order, as the virtio
    specification of a block device says.

    ** What is proved

    - Memory: a page is never handed out twice; uvmalloc, uvmcopy, copyout, copyin and
      copyinstr do to the memory a process sees what their contracts say, also when memory
      runs out; the string routines on overlapping buffers.
    - Locks: mutual exclusion under every interleaving, the exact panics, interrupts off
      while a lock is held.
    - Devices: pipes and the console deliver bytes in order; the line discipline; the disk
      driver carries out every request and never frees a descriptor twice.
    - Disk: the cache returns current blocks in least-recently-used order; a transaction is
      atomic under a crash after any disk write, any number of crashes during recovery
      included.
    - Files: readi and writei on the abstract content of files; a crash in filewrite leaves
      a prefix of its transactions; dirlink adds a name to a directory; namex follows a
      path and leaves exactly the references it should; the inode cache stays well formed
      under any sequence of calls.
    - Processes: the process table is well formed under every sequence of system calls and
      interrupts; an exiting process is noticed by its parent; a scheduler pass runs every
      runnable process; returning to user space is safe.
    - User programs: the matcher of grep decides its language and grep prints the matching
      lines; the library's memmove agrees with the kernel's; printed numbers are read back.
      The shell's parser ends on every line and reads back what a command prints as; a line
      of pipelines, lists and redirections starts the programs it names.  The blocks malloc
      hands out never overlap and keep their contents.  The prime sieve prints the primes
      under every schedule of its processes and never deadlocks.  find prints the files of
      a name below a directory, and leaks a descriptor per directory; xargs runs its command
      for each line; do_rand is the generator its comment names.  These rest on [SysLaws],
      whose laws are not derived from the kernel's system calls; a small executable kernel
      satisfies them.
    - The image mkfs writes satisfies the invariants the kernel's file system starts from:
      the layout, an empty log, a free map that is exact, and the files with their contents.
      A kernel that boots from it finds every file by its path and reads its bytes.
    - Errors: several theorems state what the code does where it does not do what it means
      to (a full UART buffer in consolewrite, a killed pipe writer, reference counts after
      recovery, the log reservation, kill of pid 0).

    ** Not modelled

    Assembly (entry.S, swtch.S, trampoline.S, kernelvec.S, initcode.S, usys.pl) is outside
    a model of the C code; its effect is the boundary of the steps in [Proc] and [Trap].
    kernel/ramdisk.c and user/xargs2.c are not part of the build.  usertests and the rest of
    grind are lists of system calls that exercise the kernel and have no contract of their
    own.  A fork in [Coreutils] is followed in one process only. *)

From stdpp Require Import base gmap list list_numbers strings numbers.
From Stdlib Require Import ZArith Lia.
Open Scope Z_scope.

(** ** Machine integers

    A w-bit C integer is a [Z] in range; every operation of the source that can
    leave the range is followed by the wrap-around of its type. *)

Definition wrap (w z : Z) : Z := z mod 2 ^ w.
Definition u8 : Z -> Z := wrap 8.
Definition u16 : Z -> Z := wrap 16.
Definition u32 : Z -> Z := wrap 32.
Definition u64 : Z -> Z := wrap 64.

(** Two's-complement conversion to a signed w-bit integer. *)
Definition sext (w z : Z) : Z :=
  (z + 2 ^ (w - 1)) mod 2 ^ w - 2 ^ (w - 1).
Definition i8 : Z -> Z := sext 8.
Definition i16 : Z -> Z := sext 16.
Definition i32 : Z -> Z := sext 32.

Definition in_range (w z : Z) : Prop := 0 <= z < 2 ^ w.

Lemma wrap_range w z : 0 <= w -> in_range w (wrap w z).
Proof. intros. unfold in_range, wrap. apply Z.mod_pos_bound. apply Z.pow_pos_nonneg; lia. Qed.

Lemma wrap_small w z : in_range w z -> wrap w z = z.
Proof. apply Z.mod_small. Qed.

Lemma u8_range z : 0 <= u8 z < 256.
Proof. apply (wrap_range 8); lia. Qed.
Lemma u32_range z : 0 <= u32 z < 2 ^ 32.
Proof. apply (wrap_range 32); lia. Qed.
Lemma u64_range z : 0 <= u64 z < 2 ^ 64.
Proof. apply (wrap_range 64); lia. Qed.
Lemma u8_small z : 0 <= z < 256 -> u8 z = z.
Proof. apply (wrap_small 8). Qed.
Lemma u16_small z : 0 <= z < 2 ^ 16 -> u16 z = z.
Proof. apply (wrap_small 16). Qed.
Lemma u32_small z : 0 <= z < 2 ^ 32 -> u32 z = z.
Proof. apply (wrap_small 32). Qed.
Lemma u64_small z : 0 <= z < 2 ^ 64 -> u64 z = z.
Proof. apply (wrap_small 64). Qed.

Lemma sext_range w z : 0 < w -> - 2 ^ (w - 1) <= sext w z < 2 ^ (w - 1).
Proof.
  intros. unfold sext.
  assert (2 ^ w = 2 * 2 ^ (w - 1)) as E by (rewrite <- Z.pow_succ_r by lia; f_equal; lia).
  pose proof (Z.mod_pos_bound (z + 2 ^ (w - 1)) (2 ^ w)).
  assert (0 < 2 ^ (w - 1)) by (apply Z.pow_pos_nonneg; lia). lia.
Qed.

Lemma i32_small z : - 2 ^ 31 <= z < 2 ^ 31 -> i32 z = z.
Proof. intros. unfold i32, sext. rewrite Z.mod_small; lia. Qed.

(** ** Sleep channels

    [sleep(chan, lk)] and [wakeup(chan)] use addresses of kernel objects as
    channels; the objects the sources use are named here. *)
Inductive chan :=
| CLog                          (* &log                    log.c *)
| CPipeRead (pi : Z)            (* &pi->nread              pipe.c *)
| CPipeWrite (pi : Z)           (* &pi->nwrite             pipe.c *)
| CConsR                        (* &cons.r                 console.c *)
| CUartTxR                      (* &uart_tx_r              uart.c *)
| CTicks                        (* &ticks                  trap.c, sysproc.c *)
| CProc (p : nat)               (* a struct proc           proc.c *)
| CBufLock (b : nat)            (* &b->lock                bio.c *)
| CInodeLock (i : nat)          (* &ip->lock               fs.c *)
| CBuf (b : nat)                (* a struct buf            virtio_disk.c *)
| CDiskFree.                    (* &disk.free[0]           virtio_disk.c *)

#[export] Instance chan_eq_dec : EqDecision chan.
Proof. solve_decision. Defined.

(** ** Outcomes and the kernel monad

    A kernel function run from a state either returns ([Ok]), calls [panic]
    ([Panic], with the message the source gives), gives up the CPU in
    [sleep(chan, lk)] ([Block], with the state at that point), or exhausts the
    bound given to a loop that is not structurally recursive ([Diverge]). *)
Inductive outcome (S A : Type) : Type :=
| Ok (a : A) (s : S)
| Panic (msg : string)
| Block (c : chan) (s : S)
| Diverge.
Arguments Ok {S A} a s.
Arguments Panic {S A} msg.
Arguments Block {S A} c s.
Arguments Diverge {S A}.

Definition M (S A : Type) : Type := S -> outcome S A.

Definition ret {S A} (a : A) : M S A := fun s => Ok a s.

Definition bind {S A B} (m : M S A) (k : A -> M S B) : M S B :=
  fun s =>
    match m s with
    | Ok a s' => k a s'
    | Panic msg => Panic msg
    | Block c s' => Block c s'
    | Diverge => Diverge
    end.

Definition panic {S A} (msg : string) : M S A := fun _ => Panic msg.
Definition block {S A} (c : chan) : M S A := fun s => Block c s.
Definition diverge {S A} : M S A := fun _ => Diverge.
(** C leaves the continuation undefined. *)
Definition undefined {S A} : M S A := diverge.
Definition get {S} : M S S := fun s => Ok s s.
Definition put {S} (s' : S) : M S unit := fun _ => Ok tt s'.
Definition gets {S A} (f : S -> A) : M S A := fun s => Ok (f s) s.
Definition modify {S} (f : S -> S) : M S unit := fun s => Ok tt (f s).

(** Run a computation on a component of a larger state. *)
Definition zoom {S T A} (g : S -> T) (p : T -> S -> S) (m : M T A) : M S A :=
  fun s =>
    match m (g s) with
    | Ok a t => Ok a (p t s)
    | Panic msg => Panic msg
    | Block c t => Block c (p t s)
    | Diverge => Diverge
    end.

Create HintDb xv6.

Declare Scope xv6_scope.
Delimit Scope xv6_scope with xv6.
Notation "'let!' x := m 'in' k" := (bind m (fun x => k))
  (at level 200, x pattern, m at level 100, k at level 200) : xv6_scope.
Notation "m ;; k" := (bind m (fun _ => k)) : xv6_scope.
Open Scope xv6_scope.

Section MonadLemmas.
Context {S A B : Type}.
Implicit Types (m : M S A) (k : A -> M S B).

Lemma bind_Ok_inv m k s b s' :
  bind m k s = Ok b s' -> exists a s1, m s = Ok a s1 /\ k a s1 = Ok b s'.
Proof. unfold bind. destruct (m s); intros; try discriminate. eauto. Qed.

Lemma bind_Ok m k s a s1 : m s = Ok a s1 -> bind m k s = k a s1.
Proof. unfold bind. intros ->. done. Qed.

Lemma bind_Panic_inv m k s msg :
  bind m k s = Panic msg ->
  m s = Panic msg \/ exists a s1, m s = Ok a s1 /\ k a s1 = Panic msg.
Proof. unfold bind. destruct (m s); intros; try discriminate; eauto. left. congruence. Qed.
End MonadLemmas.

Lemma bind_bind {S A B C} (m : M S A) (k : A -> M S B) (h : B -> M S C) s :
  bind (bind m k) h s = bind m (fun a => bind (k a) h) s.
Proof. unfold bind. by destruct (m s). Qed.

(** Decompose a successful run of a monadic computation into the runs of its
    parts. *)
Ltac inv_ok :=
  repeat match goal with
  | H : bind _ _ _ = Ok _ _ |- _ =>
      let a := fresh "a" in let s := fresh "s" in
      let H1 := fresh "Hm" in let H2 := fresh "Hk" in
      apply bind_Ok_inv in H as (a & s & H1 & H2)
  | H : ret _ _ = Ok _ _ |- _ => unfold ret in H
  | H : get _ = Ok _ _ |- _ => unfold get in H
  | H : put _ _ = Ok _ _ |- _ => unfold put in H
  | H : gets _ _ = Ok _ _ |- _ => unfold gets in H
  | H : modify _ _ = Ok _ _ |- _ => unfold modify in H
  | H : panic _ _ = Ok _ _ |- _ => discriminate H
  | H : block _ _ = Ok _ _ |- _ => discriminate H
  | H : diverge _ = Ok _ _ |- _ => discriminate H
  | H : Ok _ _ = Ok _ _ |- _ => injection H; clear H; intros; subst
  | H : Panic _ = Ok _ _ |- _ => discriminate H
  | H : Block _ _ = Ok _ _ |- _ => discriminate H
  | H : Diverge = Ok _ _ |- _ => discriminate H
  end.

(** Case analysis on the boolean tests of the source. *)
Ltac case_bool :=
  match goal with
  | |- context [if ?b then _ else _] =>
      lazymatch type of b with bool => destruct b eqn:? end
  | H : context [if ?b then _ else _] |- _ =>
      lazymatch type of b with bool => destruct b eqn:? end
  end.

(** Turn boolean comparisons into arithmetic facts. *)
Ltac zb :=
  repeat match goal with
  | H : (_ && _) = true |- _ => apply andb_true_iff in H as [? ?]
  | H : (_ && _) = false |- _ => apply andb_false_iff in H
  | H : (_ || _) = false |- _ => apply orb_false_iff in H as [? ?]
  | H : (_ || _) = true |- _ => apply orb_true_iff in H
  | H : negb _ = true |- _ => apply negb_true_iff in H
  | H : negb _ = false |- _ => apply negb_false_iff in H
  | H : (_ =? _) = true |- _ => apply Z.eqb_eq in H
  | H : (_ =? _) = false |- _ => apply Z.eqb_neq in H
  | H : (_ <? _) = true |- _ => apply Z.ltb_lt in H
  | H : (_ <? _) = false |- _ => apply Z.ltb_ge in H
  | H : (_ <=? _) = true |- _ => apply Z.leb_le in H
  | H : (_ <=? _) = false |- _ => apply Z.leb_gt in H
  end.

(** ** Bit-level reasoning

    [zbits] proves equalities between bit expressions on [Z] by comparing every
    bit. *)
Lemma testbit_wrap w z i : 0 <= w -> Z.testbit (wrap w z) i = (i <? w) && Z.testbit z i.
Proof. apply Z.testbit_mod_pow2. Qed.

Lemma testbit_out w z i : 0 <= z < 2 ^ w -> 0 <= w <= i -> Z.testbit z i = false.
Proof.
  intros Hz Hi. rewrite <- (Z.mod_small z (2 ^ w)) by done.
  rewrite Z.testbit_mod_pow2 by lia. destruct (Z.ltb_spec i w); [lia | done].
Qed.

Lemma shiftr_shiftl_align z k : 0 <= k -> z mod 2 ^ k = 0 -> Z.shiftl (Z.shiftr z k) k = z.
Proof.
  intros Hk Hz. rewrite Z.shiftl_mul_pow2, Z.shiftr_div_pow2 by done.
  pose proof (Z.pow_pos_nonneg 2 k ltac:(lia) Hk).
  pose proof (Z.div_mod z (2 ^ k)). lia.
Qed.

Lemma land_lnot_ones z k :
  0 <= k -> Z.land z (Z.lnot (Z.ones k)) = z - z mod 2 ^ k.
Proof.
  intros Hk. rewrite <- Z.ldiff_land, Z.ldiff_ones_r by done.
  rewrite Z.shiftl_mul_pow2, Z.shiftr_div_pow2 by done.
  pose proof (Z.pow_pos_nonneg 2 k ltac:(lia) Hk).
  pose proof (Z.div_mod z (2 ^ k)). lia.
Qed.

(** Addition of a multiple of [2^k] and a [k]-bit number is a bitwise or. *)
Lemma lor_disjoint_add a b k :
  0 <= k -> 0 <= b < 2 ^ k -> Z.lor (a * 2 ^ k) b = a * 2 ^ k + b.
Proof.
  intros Hk Hb. symmetry. rewrite Z.add_nocarry_lxor.
  - rewrite <- Z.lxor_lor; [done|].
    apply Z.bits_inj'. intros i Hi. rewrite Z.land_spec, Z.bits_0.
    destruct (Z.ltb_spec i k).
    + rewrite Z.mul_pow2_bits_low by done. done.
    + rewrite (testbit_out k b i) by lia. apply andb_false_r.
  - apply Z.bits_inj'. intros i Hi. rewrite Z.land_spec, Z.bits_0.
    destruct (Z.ltb_spec i k).
    + rewrite Z.mul_pow2_bits_low by done. done.
    + rewrite (testbit_out k b i) by lia. apply andb_false_r.
Qed.
