(* ===== verification/Ring.v ===== *)
(** * Ring buffers

    The pipe, the console and the UART driver keep bytes in circular arrays.
    [ring sz d start len] is the content of [len] slots of the array [d] of [sz]
    slots, from position [start] on. *)
From stdpp Require Import base list numbers list_numbers.
From Stdlib Require Import ZArith Lia.
From S2P Require Import Prelude.
Open Scope Z_scope.

Definition ring (sz : Z) (d : list Z) (start len : Z) : list Z :=
  (fun j => d !!! Z.to_nat ((start + Z.of_nat j) mod sz)) <$> seq 0 (Z.to_nat len).

Section Ring.
Context (sz : Z) (Hsz : 0 < sz).

Lemma length_ring d start len : 0 <= len -> Z.of_nat (length (ring sz d start len)) = len.
Proof. intros. unfold ring. rewrite length_fmap, length_seq. lia. Qed.

Lemma ring_index n : (Z.to_nat (n mod sz) < Z.to_nat sz)%nat.
Proof. pose proof (Z.mod_pos_bound n sz Hsz). lia. Qed.

Lemma ring_start d start start' len :
  start mod sz = start' mod sz -> ring sz d start len = ring sz d start' len.
Proof.
  intros E. apply list_fmap_ext. intros i j _. do 2 f_equal.
  rewrite Z.add_mod, E, <- Z.add_mod by lia. done.
Qed.

(** Appending one slot at the end. *)
Lemma ring_snoc d start len :
  0 <= len ->
  ring sz d start (len + 1) = ring sz d start len ++ [d !!! Z.to_nat ((start + len) mod sz)].
Proof.
  intros H. unfold ring. replace (Z.to_nat (len + 1)) with (Z.to_nat len + 1)%nat by lia.
  rewrite seq_app, fmap_app. cbn [seq fmap list_fmap plus]. do 5 f_equal. lia.
Qed.

Lemma ring_cons d start len :
  0 < len -> ring sz d start len = d !!! Z.to_nat (start mod sz) :: ring sz d (start + 1) (len - 1).
Proof.
  intros H. unfold ring. replace (Z.to_nat len) with (S (Z.to_nat (len - 1))) by lia.
  cbn [seq fmap list_fmap]. rewrite Z.add_0_r. f_equal.
  rewrite <- fmap_S_seq, <- list_fmap_compose. apply list_fmap_ext. intros i j _. cbn [compose].
  do 3 f_equal. lia.
Qed.

Lemma ring_app d start len1 len2 :
  0 <= len1 -> 0 <= len2 ->
  ring sz d start (len1 + len2) = ring sz d start len1 ++ ring sz d (start + len1) len2.
Proof.
  intros H1 H2. unfold ring. rewrite Z2Nat.inj_add, seq_app, fmap_app by done. f_equal.
  rewrite <- (Nat.add_0_r (0 + Z.to_nat len1)), <- fmap_add_seq, <- list_fmap_compose.
  apply list_fmap_ext. intros i j _. cbn [compose]. do 3 f_equal. lia.
Qed.

(** A write outside the slots, and at the next free one. *)
Lemma ring_insert_ne d start len i b :
  0 <= len <= sz -> 0 <= i < sz ->
  (forall j, 0 <= j < len -> (start + j) mod sz <> i) ->
  ring sz (<[Z.to_nat i := b]> d) start len = ring sz d start len.
Proof.
  intros Hl Hi H. apply list_fmap_ext. intros k j [-> Hj]%lookup_seq.
  apply list_lookup_total_insert_ne. pose proof (Z.mod_pos_bound (start + Z.of_nat (0 + k)) sz Hsz).
  specialize (H (Z.of_nat (0 + k)) ltac:(lia)). lia.
Qed.

Lemma ring_distinct start i j : 0 <= i < j -> j < i + sz -> (start + i) mod sz <> (start + j) mod sz.
Proof.
  intros Hi Hj E. pose proof (Z.div_mod (start + i) sz ltac:(lia)) as H1.
  pose proof (Z.div_mod (start + j) sz ltac:(lia)) as H2. rewrite E in H1.
  assert (sz * ((start + j) / sz - (start + i) / sz) = j - i) as Hk by (rewrite Z.mul_sub_distr_l; lia).
  set (k := (start + j) / sz - (start + i) / sz) in *. destruct (Z_le_gt_dec k 0); nia.
Qed.

Lemma ring_put d start len b :
  length d = Z.to_nat sz -> 0 <= len < sz ->
  ring sz (<[Z.to_nat ((start + len) mod sz) := b]> d) start (len + 1) = ring sz d start len ++ [b].
Proof.
  intros Hd Hl. rewrite ring_snoc by lia. f_equal.
  - apply ring_insert_ne; [lia|apply Z.mod_pos_bound; lia|]. intros j Hj. apply ring_distinct; lia.
  - f_equal. apply list_lookup_total_insert_eq. rewrite Hd. apply ring_index.
Qed.

Lemma ring_bytes d start len :
  length d = Z.to_nat sz -> Forall (fun b => 0 <= b < 256) d -> Forall (fun b => 0 <= b < 256) (ring sz d start len).
Proof.
  intros Hd HF. apply Forall_fmap, Forall_true. intros j. cbn.
  destruct (lookup_lt_is_Some_2 d (Z.to_nat ((start + Z.of_nat j) mod sz))) as [b Hb]; [rewrite Hd; apply ring_index|].
  rewrite (list_lookup_total_correct _ _ _ Hb). exact (Forall_lookup_1 _ _ _ _ HF Hb).
Qed.

End Ring.
