(* ===== verification/Riscv.v ===== *)
(** * kernel/riscv.h and kernel/memlayout.h

    The Sv39 page and page-table-entry macros, and the physical and virtual
    memory layout, with the arithmetic facts the virtual-memory code relies on.
    Addresses and PTEs are 64-bit words. *)
From stdpp Require Import base numbers.
From Stdlib Require Import ZArith Lia.
From S2P Require Import Prelude.
Open Scope Z_scope.

(** ** memlayout.h *)
Definition UART0 : Z := 0x10000000.
Definition UART0_IRQ : Z := 10.
Definition VIRTIO0 : Z := 0x10001000.
Definition VIRTIO0_IRQ : Z := 1.
Definition CLINT : Z := 0x2000000.
Definition CLINT_MTIMECMP (hartid : Z) : Z := CLINT + 0x4000 + 8 * hartid.
Definition CLINT_MTIME : Z := CLINT + 0xBFF8.
Definition PLIC : Z := 0x0c000000.
Definition PLIC_SENABLE (hart : Z) : Z := PLIC + 0x2080 + hart * 0x100.
Definition PLIC_SPRIORITY (hart : Z) : Z := PLIC + 0x201000 + hart * 0x2000.
Definition PLIC_SCLAIM (hart : Z) : Z := PLIC + 0x201004 + hart * 0x2000.
Definition KERNBASE : Z := 0x80000000.
Definition PHYSTOP : Z := KERNBASE + 128 * 1024 * 1024.

(** ** riscv.h: pages and PTEs *)
Definition PGSIZE : Z := 4096.
Definition PGSHIFT : Z := 12.

Definition PGROUNDUP (sz : Z) : Z := Z.land (u64 (sz + PGSIZE - 1)) (Z.lnot (PGSIZE - 1)).
Definition PGROUNDDOWN (a : Z) : Z := Z.land a (Z.lnot (PGSIZE - 1)).

Definition PTE_V : Z := Z.shiftl 1 0.
Definition PTE_R : Z := Z.shiftl 1 1.
Definition PTE_W : Z := Z.shiftl 1 2.
Definition PTE_X : Z := Z.shiftl 1 3.
Definition PTE_U : Z := Z.shiftl 1 4.

Definition PA2PTE (pa : Z) : Z := u64 (Z.shiftl (Z.shiftr pa 12) 10).
Definition PTE2PA (pte : Z) : Z := u64 (Z.shiftl (Z.shiftr pte 10) 12).
Definition PTE_FLAGS (pte : Z) : Z := Z.land pte 0x3FF.

Definition PXMASK : Z := 0x1FF.
Definition PXSHIFT (level : Z) : Z := PGSHIFT + 9 * level.
Definition PX (level va : Z) : Z := Z.land (Z.shiftr va (PXSHIFT level)) PXMASK.

Definition MAXVA : Z := Z.shiftl 1 (9 + 9 + 9 + 12 - 1).

Definition SATP_SV39 : Z := Z.shiftl 8 60.
Definition MAKE_SATP (pagetable : Z) : Z := Z.lor SATP_SV39 (Z.shiftr pagetable 12).

Definition TRAMPOLINE : Z := MAXVA - PGSIZE.
Definition KSTACK (p : Z) : Z := TRAMPOLINE - (p + 1) * 2 * PGSIZE.
Definition TRAPFRAME : Z := TRAMPOLINE - PGSIZE.

(** [pte & PTE_x] as a test. *)
Definition has (pte flag : Z) : bool := negb (Z.land pte flag =? 0).

(** ** Arithmetic of the macros *)

Lemma PGROUNDDOWN_eq a : PGROUNDDOWN a = a - a mod PGSIZE.
Proof. apply (land_lnot_ones a 12). lia. Qed.

Lemma PGROUNDDOWN_aligned a : PGROUNDDOWN a mod PGSIZE = 0.
Proof. rewrite PGROUNDDOWN_eq. unfold PGSIZE. Z.div_mod_to_equations. lia. Qed.

Lemma PGROUNDDOWN_bounds a : PGROUNDDOWN a <= a < PGROUNDDOWN a + PGSIZE.
Proof. rewrite PGROUNDDOWN_eq. unfold PGSIZE. Z.div_mod_to_equations. lia. Qed.

Lemma PGROUNDDOWN_id a : a mod PGSIZE = 0 -> PGROUNDDOWN a = a.
Proof. rewrite PGROUNDDOWN_eq. lia. Qed.

Lemma PGROUNDDOWN_nonneg a : 0 <= a -> 0 <= PGROUNDDOWN a.
Proof. rewrite PGROUNDDOWN_eq. unfold PGSIZE. intros. Z.div_mod_to_equations. lia. Qed.

Lemma PGROUNDUP_eq sz :
  0 <= sz -> sz + PGSIZE - 1 < 2 ^ 64 -> PGROUNDUP sz = PGROUNDDOWN (sz + PGSIZE - 1).
Proof. intros. unfold PGROUNDUP. rewrite u64_small; [done|]. unfold PGSIZE in *. lia. Qed.

Lemma PGROUNDUP_bounds sz :
  0 <= sz -> sz + PGSIZE - 1 < 2 ^ 64 -> sz <= PGROUNDUP sz < sz + PGSIZE.
Proof.
  intros. rewrite PGROUNDUP_eq by done.
  pose proof (PGROUNDDOWN_bounds (sz + PGSIZE - 1)). unfold PGSIZE in *. lia.
Qed.

Lemma PGROUNDUP_aligned sz : PGROUNDUP sz mod PGSIZE = 0.
Proof. apply PGROUNDDOWN_aligned. Qed.

Lemma PGROUNDUP_id sz :
  0 <= sz -> sz + PGSIZE - 1 < 2 ^ 64 -> sz mod PGSIZE = 0 -> PGROUNDUP sz = sz.
Proof.
  intros H1 H2 H3. pose proof (PGROUNDUP_bounds sz H1 H2). pose proof (PGROUNDUP_aligned sz).
  unfold PGSIZE in *. Z.div_mod_to_equations. lia.
Qed.

Lemma PX_eq level va : 0 <= level -> PX level va = (va / 2 ^ (12 + 9 * level)) mod 512.
Proof.
  intros. unfold PX, PXSHIFT, PGSHIFT. rewrite (Z.land_ones _ 9), Z.shiftr_div_pow2 by lia. done.
Qed.

Lemma PX_bound level va : 0 <= PX level va < 512.
Proof.
  unfold PX. rewrite (Z.land_ones _ 9) by lia. apply Z.mod_pos_bound. done.
Qed.

(** A page below [MAXVA] is determined by its three 9-bit indices. *)
Lemma PX_inj va va' :
  0 <= va < MAXVA -> 0 <= va' < MAXVA ->
  PX 2 va = PX 2 va' -> PX 1 va = PX 1 va' -> PX 0 va = PX 0 va' ->
  PGROUNDDOWN va = PGROUNDDOWN va'.
Proof.
  rewrite !PX_eq, !PGROUNDDOWN_eq by lia. change MAXVA with (2 ^ 38). unfold PGSIZE.
  change (2 ^ (12 + 9 * 2)) with 1073741824. change (2 ^ (12 + 9 * 1)) with 2097152.
  change (2 ^ (12 + 9 * 0)) with 4096. change (2 ^ 38) with 274877906944.
  intros. Z.div_mod_to_equations. lia.
Qed.

(** The indices only depend on the page of the address. *)
Lemma PX_PGROUNDDOWN level va : 0 <= level -> PX level (PGROUNDDOWN va) = PX level va.
Proof.
  intros. rewrite !PX_eq, PGROUNDDOWN_eq by done. f_equal. unfold PGSIZE.
  rewrite Z.pow_add_r by lia. change (2 ^ 12) with 4096.
  rewrite <- !Z.div_div by (try apply Z.pow_pos_nonneg; lia). f_equal.
  Z.div_mod_to_equations. lia.
Qed.

Lemma PA2PTE_eq pa :
  0 <= pa < 2 ^ 64 -> PA2PTE pa = pa / 4096 * 1024.
Proof.
  intros. unfold PA2PTE. rewrite Z.shiftl_mul_pow2, Z.shiftr_div_pow2 by lia.
  change (2 ^ 12) with 4096. change (2 ^ 10) with 1024. apply u64_small.
  Z.div_mod_to_equations. lia.
Qed.

Lemma PTE_lor_add pa f :
  0 <= pa < 2 ^ 64 -> 0 <= f < 1024 -> Z.lor (PA2PTE pa) f = pa / 4096 * 1024 + f.
Proof. intros. rewrite PA2PTE_eq by done. apply (lor_disjoint_add (pa / 4096) f 10); lia. Qed.

Lemma PTE2PA_mk pa f :
  0 <= pa < 2 ^ 64 -> pa mod PGSIZE = 0 -> 0 <= f < 1024 ->
  PTE2PA (Z.lor (PA2PTE pa) f) = pa.
Proof.
  intros Hpa Ha Hf. rewrite PTE_lor_add by done.
  unfold PTE2PA. rewrite Z.shiftl_mul_pow2, Z.shiftr_div_pow2 by lia.
  change (2 ^ 10) with 1024. change (2 ^ 12) with 4096. unfold PGSIZE in Ha.
  rewrite u64_small; Z.div_mod_to_equations; lia.
Qed.

Lemma PTE_FLAGS_mk pa f :
  0 <= pa < 2 ^ 64 -> 0 <= f < 1024 -> PTE_FLAGS (Z.lor (PA2PTE pa) f) = f.
Proof.
  intros Hpa Hf. rewrite PTE_lor_add by done. unfold PTE_FLAGS.
  rewrite (Z.land_ones _ 10) by lia. change (2 ^ 10) with 1024.
  rewrite Z.add_comm, Z.mod_add by done. by apply Z.mod_small.
Qed.

Lemma pte_mk_range pa f :
  0 <= pa < 2 ^ 64 -> 0 <= f < 1024 -> in_range 64 (Z.lor (PA2PTE pa) f).
Proof.
  intros Hpa Hf. rewrite PTE_lor_add by done. unfold in_range. Z.div_mod_to_equations. lia.
Qed.

Lemma PTE2PA_aligned pte : PTE2PA pte mod PGSIZE = 0.
Proof.
  unfold PTE2PA, u64, wrap, PGSIZE. rewrite Z.shiftl_mul_pow2 by lia.
  change (2 ^ 12) with 4096. change (2 ^ 64) with (4503599627370496 * 4096).
  rewrite Z.mul_mod_distr_r by done. apply Z.mod_mul. done.
Qed.

(** Bits of a PTE survive the flag field. *)
Lemma has_flags pte f : 0 <= f < 1024 -> has pte f = has (PTE_FLAGS pte) f.
Proof.
  intros Hf. unfold has, PTE_FLAGS. do 2 f_equal.
  rewrite <- Z.land_assoc, (Z.land_comm 0x3FF f). change 0x3FF with (Z.ones 10).
  rewrite (Z.land_ones f 10), Z.mod_small; done || lia.
Qed.

Lemma has_0 f : has 0 f = false.
Proof. unfold has. by rewrite Z.land_0_l. Qed.

Lemma has_V_mk pa f :
  0 <= pa < 2 ^ 64 -> 0 <= f < 1024 -> has (Z.lor (PA2PTE pa) (Z.lor f PTE_V)) PTE_V = true.
Proof.
  intros. unfold has. apply negb_true_iff, Z.eqb_neq. intros E.
  assert (Z.testbit (Z.land (Z.lor (PA2PTE pa) (Z.lor f PTE_V)) PTE_V) 0 = true) as T.
  { rewrite Z.land_spec, !Z.lor_spec. change (Z.testbit PTE_V 0) with true.
    by rewrite !orb_true_r. }
  by rewrite E in T.
Qed.
