(* ===== verification/Mem.v ===== *)
(** * Physical memory and kernel/string.c

    Memory is a finite map from byte addresses to bytes; an address that was
    never written reads as zero.  The C string routines are loops over it, in
    the order in which the source reads and writes.  [char] is unsigned on
    RISC-V. *)
From stdpp Require Import base gmap list list_numbers numbers.
From Stdlib Require Import ZArith Lia.
From S2P Require Import Prelude.
Open Scope Z_scope.

Abbreviation mem := (gmap Z Z).

Definition load8 (m : mem) (a : Z) : Z := default 0 (m !! a).
Definition store8 (m : mem) (a v : Z) : mem := <[a := u8 v]> m.

Fixpoint loadn (m : mem) (a : Z) (n : nat) : list Z :=
  match n with
  | O => []
  | S n' => load8 m a :: loadn m (a + 1) n'
  end.

Fixpoint storen (m : mem) (a : Z) (bs : list Z) : mem :=
  match bs with
  | [] => m
  | b :: bs' => storen (store8 m a b) (a + 1) bs'
  end.

(** 64-bit and 32-bit little-endian accesses. *)
Definition load64 (m : mem) (a : Z) : Z := little_endian_to_Z 8 (loadn m a 8).
Definition store64 (m : mem) (a v : Z) : mem := storen m a (Z_to_little_endian 8 8 v).
Definition load32 (m : mem) (a : Z) : Z := little_endian_to_Z 8 (loadn m a 4).
Definition store32 (m : mem) (a v : Z) : mem := storen m a (Z_to_little_endian 4 8 v).

Module CString.

(** [for(i = 0; i < n; i++) cdst[i] = c;] *)
Fixpoint memset_loop (m : mem) (cdst c : Z) (i : Z) (k : nat) : mem :=
  match k with
  | O => m
  | S k' => memset_loop (store8 m (cdst + i) c) cdst c (i + 1) k'
  end.
Definition memset (m : mem) (dst c n : Z) : mem := memset_loop m dst c 0 (Z.to_nat n).

Fixpoint memcmp_loop (m : mem) (s1 s2 : Z) (n : nat) : Z :=
  match n with
  | O => 0
  | S n' =>
      if negb (load8 m s1 =? load8 m s2) then load8 m s1 - load8 m s2
      else memcmp_loop m (s1 + 1) (s2 + 1) n'
  end.
Definition memcmp (m : mem) (v1 v2 n : Z) : Z := memcmp_loop m v1 v2 (Z.to_nat n).

(** [while(n-- > 0) *--d = *--s;] *)
Fixpoint copy_backward (m : mem) (d s : Z) (n : nat) : mem :=
  match n with
  | O => m
  | S n' => copy_backward (store8 m (d - 1) (load8 m (s - 1))) (d - 1) (s - 1) n'
  end.

(** [while(n-- > 0) *d++ = *s++;] *)
Fixpoint copy_forward (m : mem) (d s : Z) (n : nat) : mem :=
  match n with
  | O => m
  | S n' => copy_forward (store8 m d (load8 m s)) (d + 1) (s + 1) n'
  end.

Definition memmove (m : mem) (dst src n : Z) : mem :=
  if (src <? dst) && (dst <? src + n)
  then copy_backward m (dst + n) (src + n) (Z.to_nat n)
  else copy_forward m dst src (Z.to_nat n).

Definition memcpy (m : mem) (dst src n : Z) : mem := memmove m dst src n.

(** [while(n > 0 && *p && *p == *q) n--, p++, q++;] *)
Fixpoint strncmp_loop (m : mem) (p q : Z) (n : nat) : Z :=
  match n with
  | O => 0
  | S n' =>
      if negb (load8 m p =? 0) && (load8 m p =? load8 m q)
      then strncmp_loop m (p + 1) (q + 1) n'
      else load8 m p - load8 m q
  end.
Definition strncmp (m : mem) (p q n : Z) : Z := strncmp_loop m p q (Z.to_nat n).

(** [while(n-- > 0) *s++ = 0;] *)
Fixpoint strncpy_pad (m : mem) (s : Z) (n : nat) : mem :=
  match n with
  | O => m
  | S n' => strncpy_pad (store8 m s 0) (s + 1) n'
  end.

(** [while(n-- > 0 && ( *s++ = *t++) != 0) ;] and the padding loop after it.
    When the first loop stops at the test [n-- > 0], [n] is negative and the
    second loop does nothing. *)
Fixpoint strncpy_loop (m : mem) (s t : Z) (n : nat) : mem :=
  match n with
  | O => m
  | S n' =>
      let m' := store8 m s (load8 m t) in
      if negb (load8 m t =? 0) then strncpy_loop m' (s + 1) (t + 1) n'
      else strncpy_pad m' (s + 1) n'
  end.
Definition strncpy (m : mem) (s t n : Z) : mem := strncpy_loop m s t (Z.to_nat n).

(** [while(--n > 0 && ( *s++ = *t++) != 0) ; *s = 0;] *)
Fixpoint safestrcpy_loop (m : mem) (s t : Z) (n : nat) : mem :=
  match n with
  | O => store8 m s 0
  | S n' =>
      let m' := store8 m s (load8 m t) in
      if negb (load8 m t =? 0) then safestrcpy_loop m' (s + 1) (t + 1) n'
      else store8 m' (s + 1) 0
  end.
Definition safestrcpy (m : mem) (s t n : Z) : mem :=
  if n <=? 0 then m else safestrcpy_loop m s t (Z.to_nat (n - 1)).

(** [for(n = 0; s[n]; n++) ;], with a bound on the length of the string. *)
Fixpoint strlen_loop (m : mem) (s : Z) (n : Z) (fuel : nat) : option Z :=
  match fuel with
  | O => None
  | S f => if load8 m (s + n) =? 0 then Some n else strlen_loop m s (n + 1) f
  end.
Definition strlen (m : mem) (s : Z) (fuel : nat) : option Z := strlen_loop m s 0 fuel.

End CString.

(** ** Read-over-write *)

(** Every stored value is a byte. *)
Definition byte_mem (m : mem) : Prop := map_Forall (fun _ v => 0 <= v < 256) m.

Lemma byte_mem_empty : byte_mem ∅.
Proof. apply map_Forall_empty. Qed.

Lemma byte_mem_store8 m a v : byte_mem m -> byte_mem (store8 m a v).
Proof. intros. apply map_Forall_insert_2; [apply u8_range | done]. Qed.

Lemma load8_byte m a : byte_mem m -> 0 <= load8 m a < 256.
Proof.
  intros Hm. unfold load8. destruct (m !! a) eqn:E; cbn; [by apply (Hm a) | lia].
Qed.

Lemma load8_store8_eq m a v : load8 (store8 m a v) a = u8 v.
Proof. unfold load8, store8. by rewrite lookup_insert_eq. Qed.

Lemma load8_store8_ne m a b v : a <> b -> load8 (store8 m a v) b = load8 m b.
Proof. intros. unfold load8, store8. by rewrite lookup_insert_ne. Qed.

Lemma load8_store8 m a b v :
  load8 (store8 m a v) b = if a =? b then u8 v else load8 m b.
Proof.
  destruct (Z.eqb_spec a b); [subst; apply load8_store8_eq | by apply load8_store8_ne].
Qed.

Lemma length_loadn m a n : length (loadn m a n) = n.
Proof. revert a; induction n; intros; cbn; auto. Qed.

Lemma loadn_ext m m' a n :
  (forall x, a <= x < a + Z.of_nat n -> load8 m x = load8 m' x) -> loadn m a n = loadn m' a n.
Proof.
  revert a; induction n as [|n IH]; intros a H; cbn; [done|].
  f_equal; [apply H; lia | apply IH; intros; apply H; lia].
Qed.

Lemma loadn_lookup m a n i :
  (i < n)%nat -> loadn m a n !! i = Some (load8 m (a + Z.of_nat i)).
Proof.
  revert a i; induction n as [|n IH]; intros a i H; [lia|]. destruct i; cbn -[Z.of_nat].
  - do 2 f_equal; lia.
  - rewrite IH by lia. do 2 f_equal; lia.
Qed.

Lemma loadn_app m a n k :
  loadn m a (n + k) = loadn m a n ++ loadn m (a + Z.of_nat n) k.
Proof.
  revert a; induction n as [|n IH]; intros; cbn -[Z.of_nat].
  - f_equal; lia.
  - rewrite IH. do 3 f_equal; lia.
Qed.

Lemma loadn_bytes m a n : byte_mem m -> Forall (fun b => 0 <= b < 256) (loadn m a n).
Proof. intros Hm; revert a; induction n; intros; cbn; constructor; auto using load8_byte. Qed.

Lemma load8_storen_out m a bs x :
  ~ (a <= x < a + Z.of_nat (length bs)) -> load8 (storen m a bs) x = load8 m x.
Proof.
  revert m a; induction bs as [|b bs IH]; intros m a H; cbn -[Z.of_nat] in *; [done|].
  rewrite IH by lia. apply load8_store8_ne. lia.
Qed.

Lemma loadn_storen_eq m a bs :
  Forall (fun b => 0 <= b < 256) bs -> loadn (storen m a bs) a (length bs) = bs.
Proof.
  revert m a; induction bs as [|b bs IH]; intros m a H; cbn; [done|].
  inversion H; subst. f_equal; [|by apply IH].
  rewrite load8_storen_out by lia. rewrite load8_store8_eq. by apply u8_small.
Qed.

Lemma loadn_storen_ne m a bs b n :
  b + Z.of_nat n <= a \/ a + Z.of_nat (length bs) <= b ->
  loadn (storen m a bs) b n = loadn m b n.
Proof. intros H. apply loadn_ext. intros x Hx. apply load8_storen_out. lia. Qed.

Lemma byte_mem_storen m a bs : byte_mem m -> byte_mem (storen m a bs).
Proof. revert m a; induction bs; intros; cbn; auto using byte_mem_store8. Qed.

Lemma le_bytes (k z : Z) :
  0 <= k -> Forall (fun b => 0 <= b < 256) (Z_to_little_endian k 8 z).
Proof. intros. apply (Z_to_little_endian_bound k 8 z); lia. Qed.

Lemma length_le (k z : Z) : 0 <= k -> length (Z_to_little_endian k 8 z) = Z.to_nat k.
Proof. intros. rewrite <- (Nat2Z.id (length _)), length_Z_to_little_endian by lia. done. Qed.

Lemma load64_store64_eq m a v : in_range 64 v -> load64 (store64 m a v) a = v.
Proof.
  intros Hv. unfold load64, store64.
  pose proof (loadn_storen_eq m a (Z_to_little_endian 8 8 v) (le_bytes 8 v ltac:(lia))) as E.
  rewrite length_le in E by lia. rewrite (E : loadn _ _ 8 = _).
  rewrite little_endian_to_Z_to_little_endian by lia. by apply Z.mod_small.
Qed.

Lemma load64_store64_ne m a b v :
  b + 8 <= a \/ a + 8 <= b -> load64 (store64 m a v) b = load64 m b.
Proof.
  intros H. unfold load64, store64. rewrite loadn_storen_ne; [done|].
  rewrite length_le by lia. lia.
Qed.

Lemma load8_store64_out m a v x :
  ~ (a <= x < a + 8) -> load8 (store64 m a v) x = load8 m x.
Proof. intros H. apply load8_storen_out. rewrite length_le by lia. lia. Qed.

Lemma byte_mem_store64 m a v : byte_mem m -> byte_mem (store64 m a v).
Proof. apply byte_mem_storen. Qed.

Lemma load64_range m a : byte_mem m -> in_range 64 (load64 m a).
Proof.
  intros Hm. unfold in_range, load64.
  pose proof (little_endian_to_Z_bound 8 (loadn m a 8) ltac:(lia) (loadn_bytes m a 8 Hm)) as H.
  rewrite length_loadn in H. exact H.
Qed.

Lemma load64_ext m m' a :
  (forall x, a <= x < a + 8 -> load8 m x = load8 m' x) -> load64 m a = load64 m' a.
Proof. intros H. unfold load64. by rewrite (loadn_ext m m'). Qed.

#[export] Hint Resolve byte_mem_empty byte_mem_store8 byte_mem_storen byte_mem_store64 : xv6.

(** ** The string routines *)
Module CStringFacts.
Import CString.

Lemma load8_memset_loop m d c i k x :
  load8 (memset_loop m d c i k) x =
  if (d + i <=? x) && (x <? d + i + Z.of_nat k) then u8 c else load8 m x.
Proof.
  revert m i; induction k as [|k IH]; intros m i; cbn -[Z.of_nat].
  - destruct (Z.leb_spec (d + i) x), (Z.ltb_spec x (d + i + Z.of_nat 0)); cbn; done || lia.
  - rewrite IH, load8_store8.
    destruct (Z.eqb_spec (d + i) x), (Z.leb_spec (d + (i + 1)) x),
      (Z.ltb_spec x (d + (i + 1) + Z.of_nat k)), (Z.leb_spec (d + i) x),
      (Z.ltb_spec x (d + i + Z.of_nat (S k))); cbn; done || lia.
Qed.

Lemma load8_memset m d c n x :
  0 <= n ->
  load8 (memset m d c n) x = if (d <=? x) && (x <? d + n) then u8 c else load8 m x.
Proof.
  intros. unfold memset. rewrite load8_memset_loop, Z2Nat.id, Z.add_0_r by done. done.
Qed.

Lemma byte_mem_memset m d c n : byte_mem m -> byte_mem (memset m d c n).
Proof.
  unfold memset. generalize 0 at 1. revert m.
  induction (Z.to_nat n); intros; cbn; auto with xv6.
Qed.

Lemma load8_copy_forward m d s n x :
  byte_mem m -> d <= s \/ s + Z.of_nat n <= d ->
  load8 (copy_forward m d s n) x =
  if (d <=? x) && (x <? d + Z.of_nat n) then load8 m (s + (x - d)) else load8 m x.
Proof.
  revert m d s; induction n as [|n IH]; intros m d s Hm Hds; cbn -[Z.of_nat].
  - destruct (Z.leb_spec d x), (Z.ltb_spec x (d + Z.of_nat 0)); cbn; done || lia.
  - rewrite IH by (auto with xv6; lia). rewrite !load8_store8.
    rewrite (u8_small (load8 m s)) by (by apply load8_byte).
    destruct (Z.leb_spec (d + 1) x), (Z.ltb_spec x (d + 1 + Z.of_nat n)),
      (Z.leb_spec d x), (Z.ltb_spec x (d + Z.of_nat (S n))),
      (Z.eqb_spec d (s + 1 + (x - (d + 1)))), (Z.eqb_spec d x);
      cbn; try lia; try done; f_equal; lia.
Qed.

Lemma load8_copy_backward m d s n x :
  byte_mem m -> s < d ->
  load8 (copy_backward m d s n) x =
  if (d - Z.of_nat n <=? x) && (x <? d) then load8 m (s - d + x) else load8 m x.
Proof.
  revert m d s; induction n as [|n IH]; intros m d s Hm Hds; cbn -[Z.of_nat].
  - destruct (Z.leb_spec (d - Z.of_nat 0) x), (Z.ltb_spec x d); cbn; done || lia.
  - rewrite IH by (auto with xv6; lia). rewrite !load8_store8.
    rewrite (u8_small (load8 m (s - 1))) by (by apply load8_byte).
    destruct (Z.leb_spec (d - 1 - Z.of_nat n) x), (Z.ltb_spec x (d - 1)),
      (Z.leb_spec (d - Z.of_nat (S n)) x), (Z.ltb_spec x d),
      (Z.eqb_spec (d - 1) (s - 1 - (d - 1) + x)), (Z.eqb_spec (d - 1) x);
      cbn; try lia; try done; f_equal; lia.
Qed.

Lemma load8_memmove m d s n x :
  byte_mem m -> 0 <= n ->
  load8 (memmove m d s n) x =
  if (d <=? x) && (x <? d + n) then load8 m (s + (x - d)) else load8 m x.
Proof.
  intros Hm Hn. unfold memmove.
  destruct (Z.ltb_spec s d), (Z.ltb_spec d (s + n)); cbn;
    [rewrite load8_copy_backward by (done || lia)
    | rewrite load8_copy_forward by (done || lia) ..].
  all: rewrite Z2Nat.id by done.
  - destruct (Z.leb_spec d x), (Z.ltb_spec x (d + n)),
      (Z.leb_spec (d + n - n) x); cbn; try lia; try done; f_equal; lia.
  - done.
  - done.
  - done.
Qed.

Lemma byte_mem_copy_forward m d s n : byte_mem m -> byte_mem (copy_forward m d s n).
Proof. revert m d s; induction n; intros; cbn; auto with xv6. Qed.
Lemma byte_mem_copy_backward m d s n : byte_mem m -> byte_mem (copy_backward m d s n).
Proof. revert m d s; induction n; intros; cbn; auto with xv6. Qed.
Lemma byte_mem_memmove m d s n : byte_mem m -> byte_mem (memmove m d s n).
Proof.
  intros. unfold memmove. case_bool; auto using byte_mem_copy_forward, byte_mem_copy_backward.
Qed.

(** The C string held by a byte buffer: the bytes before the first NUL. *)
Fixpoint cstr (bs : list Z) : list Z :=
  match bs with
  | [] => []
  | b :: bs' => if b =? 0 then [] else b :: cstr bs'
  end.

Lemma length_cstr bs : (length (cstr bs) <= length bs)%nat.
Proof. induction bs; cbn; [lia|]. case_bool; cbn; lia. Qed.

Lemma cstr_cons_nz b bs : b <> 0 -> cstr (b :: bs) = b :: cstr bs.
Proof. intros. cbn. destruct (Z.eqb_spec b 0); done. Qed.

Lemma memcmp_loop_spec m p q n :
  memcmp_loop m p q n = 0 /\ loadn m p n = loadn m q n \/
  exists i, (i < n)%nat /\ loadn m p i = loadn m q i /\
    load8 m (p + Z.of_nat i) <> load8 m (q + Z.of_nat i) /\
    memcmp_loop m p q n = load8 m (p + Z.of_nat i) - load8 m (q + Z.of_nat i).
Proof.
  revert p q; induction n as [|n IH]; intros p q; cbn -[Z.of_nat]; [by left|].
  destruct (Z.eqb_spec (load8 m p) (load8 m q)) as [E|E]; cbn -[Z.of_nat].
  - destruct (IH (p + 1) (q + 1)) as [[H1 H2]|(i & Hi & H1 & H2 & H3)].
    + left. split; [done|]. by rewrite E, H2.
    + right. exists (S i). rewrite H3. cbn -[Z.of_nat]. rewrite H1, E.
      replace (p + Z.of_nat (S i)) with (p + 1 + Z.of_nat i) by lia.
      replace (q + Z.of_nat (S i)) with (q + 1 + Z.of_nat i) by lia. auto with lia.
  - right. exists O. cbn. rewrite !Z.add_0_r. auto with lia.
Qed.

Lemma strncmp_loop_spec m p q n :
  strncmp_loop m p q n = 0 <-> cstr (loadn m p n) = cstr (loadn m q n).
Proof.
  revert p q; induction n as [|n IH]; intros p q; cbn; [done|].
  destruct (Z.eqb_spec (load8 m p) 0) as [E0|E0]; cbn.
  - destruct (Z.eqb_spec (load8 m q) 0); split; intros; try done; lia.
  - destruct (Z.eqb_spec (load8 m p) (load8 m q)) as [E|E]; cbn.
    + rewrite IH. destruct (Z.eqb_spec (load8 m q) 0); [lia|]. rewrite E.
      split; [intros ->; done | by intros [=]].
    + destruct (Z.eqb_spec (load8 m q) 0); split; intros; try done; try lia; congruence.
Qed.

Lemma load8_strncpy_pad m s n x :
  load8 (strncpy_pad m s n) x =
  if (s <=? x) && (x <? s + Z.of_nat n) then 0 else load8 m x.
Proof.
  revert m s; induction n as [|n IH]; intros m s; cbn -[Z.of_nat].
  - destruct (Z.leb_spec s x), (Z.ltb_spec x (s + Z.of_nat 0)); cbn; done || lia.
  - rewrite IH, load8_store8.
    destruct (Z.eqb_spec s x), (Z.leb_spec (s + 1) x), (Z.ltb_spec x (s + 1 + Z.of_nat n)),
      (Z.leb_spec s x), (Z.ltb_spec x (s + Z.of_nat (S n))); cbn; done || lia.
Qed.

Lemma loadn_strncpy_pad m s n : loadn (strncpy_pad m s n) s n = replicate n 0.
Proof.
  apply list_eq. intros i. destruct (decide (i < n)%nat).
  - rewrite loadn_lookup, lookup_replicate_2 by done. rewrite load8_strncpy_pad.
    destruct (Z.leb_spec s (s + Z.of_nat i)), (Z.ltb_spec (s + Z.of_nat i) (s + Z.of_nat n));
      cbn; done || lia.
  - rewrite !lookup_ge_None_2; [done | rewrite length_replicate; lia | rewrite length_loadn; lia].
Qed.

(** [strncpy] fills its [n]-byte destination with the source string, padded
    with zeroes; it writes nothing else. *)
Lemma strncpy_loop_spec m s t n :
  byte_mem m -> s + Z.of_nat n <= t \/ t + Z.of_nat n <= s ->
  let str := cstr (loadn m t n) in
  loadn (strncpy_loop m s t n) s n = str ++ replicate (n - length str) 0 /\
  forall x, ~ (s <= x < s + Z.of_nat n) -> load8 (strncpy_loop m s t n) x = load8 m x.
Proof.
  revert m s t; induction n as [|n IH]; intros m s t Hm Hst; cbn -[Z.of_nat]; [done|].
  pose proof (load8_byte m t Hm) as Hb.
  destruct (Z.eqb_spec (load8 m t) 0) as [E|E]; cbn -[Z.of_nat].
  - rewrite E. split.
    + f_equal; [rewrite load8_strncpy_pad, load8_store8_eq; by case_bool
               | apply loadn_strncpy_pad].
    + intros x Hx. rewrite load8_strncpy_pad, load8_store8_ne by lia.
      destruct (Z.leb_spec (s + 1) x), (Z.ltb_spec x (s + 1 + Z.of_nat n)); cbn; done || lia.
  - destruct (IH (store8 m s (load8 m t)) (s + 1) (t + 1)) as [IH1 IH2];
      [auto with xv6 | lia |].
    rewrite (loadn_ext (store8 m s (load8 m t)) m) in IH1 by
      (intros; apply load8_store8_ne; lia).
    split.
    + rewrite IH1, IH2 by lia. rewrite load8_store8_eq, u8_small by done. done.
    + intros x Hx. rewrite IH2 by lia. apply load8_store8_ne. lia.
Qed.

(** [safestrcpy] with room for [n + 1] bytes: the destination then holds the
    source string cut to [n] bytes, NUL-terminated inside the buffer. *)
Lemma safestrcpy_loop_spec m s t n :
  byte_mem m -> s + Z.of_nat n < t \/ t + Z.of_nat n <= s ->
  let m' := safestrcpy_loop m s t n in
  cstr (loadn m' s (S n)) = cstr (loadn m t n) /\
  load8 m' (s + Z.of_nat (length (cstr (loadn m t n)))) = 0 /\
  forall x, ~ (s <= x <= s + Z.of_nat n) -> load8 m' x = load8 m x.
Proof.
  revert m s t; induction n as [|n IH]; intros m s t Hm Hst; cbn -[Z.of_nat].
  - rewrite Z.add_0_r, load8_store8_eq. cbn. split; [done|]. split; [done|].
    intros. apply load8_store8_ne. lia.
  - pose proof (load8_byte m t Hm) as Hb.
    destruct (Z.eqb_spec (load8 m t) 0) as [E|E]; cbn -[Z.of_nat].
    + rewrite E, Z.add_0_r. repeat split.
      * rewrite load8_store8_ne by lia. by rewrite load8_store8_eq.
      * rewrite load8_store8_ne by lia. by rewrite load8_store8_eq.
      * intros. rewrite !load8_store8_ne by lia. done.
    + destruct (IH (store8 m s (load8 m t)) (s + 1) (t + 1)) as (IH1 & IH2 & IH3);
        [auto with xv6 | lia |].
      rewrite (loadn_ext (store8 m s (load8 m t)) m) in IH1, IH2 by
        (intros; apply load8_store8_ne; lia).
      rewrite (IH3 s) by lia. rewrite load8_store8_eq, u8_small by done.
      destruct (Z.eqb_spec (load8 m t) 0); [done|]. repeat split.
      * f_equal. apply IH1.
      * rewrite <- IH2. f_equal. lia.
      * intros x Hx. rewrite IH3 by lia. apply load8_store8_ne. lia.
Qed.

Lemma strlen_loop_spec m s n fuel k :
  load8 m (s + (n + Z.of_nat k)) = 0 ->
  (forall i, 0 <= i < Z.of_nat k -> load8 m (s + (n + i)) <> 0) ->
  (k < fuel)%nat -> strlen_loop m s n fuel = Some (n + Z.of_nat k).
Proof.
  revert n fuel; induction k as [|k IH]; intros n fuel H0 Hn Hf;
    (destruct fuel as [|fuel]; [lia|]); cbn -[Z.of_nat].
  - rewrite Z.add_0_r in *. by rewrite H0.
  - destruct (Z.eqb_spec (load8 m (s + n)) 0) as [E|E].
    { destruct (Hn 0); [lia|]. by rewrite Z.add_0_r. }
    rewrite (IH (n + 1)); [f_equal; lia | | | lia].
    + rewrite <- H0. do 2 f_equal. lia.
    + intros i Hi. replace (s + (n + 1 + i)) with (s + (n + (i + 1))) by lia.
      apply Hn. lia.
Qed.

End CStringFacts.
#[export] Hint Resolve CStringFacts.byte_mem_memset CStringFacts.byte_mem_memmove : xv6.

#[global] Arguments load8 : simpl never.
#[global] Arguments store8 : simpl never.
#[global] Arguments load64 : simpl never.
#[global] Arguments store64 : simpl never.
#[global] Arguments load32 : simpl never.
#[global] Arguments store32 : simpl never.
#[global] Arguments CString.memset : simpl never.
#[global] Arguments CString.memmove : simpl never.
#[global] Opaque CString.memset CString.memmove load64 store64 load32 store32 load8 store8.

(** ** Contracts of kernel/string.c *)

(** [memmove] copies [n] bytes as if through a temporary buffer, also when
    source and destination overlap, and writes nothing else. *)
Theorem memmove_overlap m dst src n :
  byte_mem m -> 0 <= n ->
  let m' := CString.memmove m dst src n in
  loadn m' dst (Z.to_nat n) = loadn m src (Z.to_nat n) /\
  forall x, ~ (dst <= x < dst + n) -> load8 m' x = load8 m x.
Proof.
  intros Hm Hn m'. split.
  - apply (list_eq_same_length _ _ (Z.to_nat n)); [by rewrite !length_loadn..|].
    intros i a b Hi. rewrite !loadn_lookup by done. intros [= <-] [= <-]. unfold m'.
    rewrite CStringFacts.load8_memmove by done.
    destruct (Z.leb_spec dst (dst + Z.of_nat i)), (Z.ltb_spec (dst + Z.of_nat i) (dst + n)); cbn; try lia.
    f_equal. lia.
  - intros x Hx. unfold m'. rewrite CStringFacts.load8_memmove by done.
    destruct (Z.leb_spec dst x), (Z.ltb_spec x (dst + n)); cbn; done || lia.
Qed.

(** [safestrcpy] into an [n]-byte buffer leaves there the source string cut to
    [n-1] bytes, always terminated by a NUL inside the buffer, and writes nothing
    outside the buffer. *)
Theorem safestrcpy_terminates m s t n :
  byte_mem m -> 0 < n -> s + n <= t \/ t + n <= s ->
  let m' := CString.safestrcpy m s t n in
  let str := CStringFacts.cstr (loadn m t (Z.to_nat (n - 1))) in
  CStringFacts.cstr (loadn m' s (Z.to_nat n)) = str /\
  Z.of_nat (length str) < n /\ load8 m' (s + Z.of_nat (length str)) = 0 /\
  forall x, ~ (s <= x < s + n) -> load8 m' x = load8 m x.
Proof.
  intros Hm Hn Hd m' str. unfold m', CString.safestrcpy. destruct (Z.leb_spec n 0); [lia|].
  destruct (CStringFacts.safestrcpy_loop_spec m s t (Z.to_nat (n - 1)) Hm) as (H1 & H2 & H3); [lia|].
  pose proof (CStringFacts.length_cstr (loadn m t (Z.to_nat (n - 1)))) as Hl.
  rewrite length_loadn in Hl. fold str in H1, H2, Hl.
  replace (S (Z.to_nat (n - 1))) with (Z.to_nat n) in H1 by lia.
  split; [done|]. split; [lia|]. split; [done|]. intros x Hx. apply H3. lia.
Qed.

(** A memory with the bytes of "xv6!" at address 100. *)
Definition demo_mem : mem := storen ∅ 100 [120; 118; 54; 33; 0].

Lemma demo_mem_bytes : byte_mem demo_mem.
Proof. apply byte_mem_storen, byte_mem_empty. Qed.

Lemma memmove_overlap_witness :
  loadn (CString.memmove demo_mem 102 100 5) 102 5 = [120; 118; 54; 33; 0].
Proof.
  exact (proj1 (memmove_overlap demo_mem 102 100 5 demo_mem_bytes ltac:(lia))).
Defined.

Lemma safestrcpy_terminates_witness :
  CStringFacts.cstr (loadn (CString.safestrcpy demo_mem 200 100 4) 200 4) = [120; 118; 54].
Proof.
  exact (proj1 (safestrcpy_terminates demo_mem 200 100 4 demo_mem_bytes ltac:(lia) ltac:(lia))).
Defined.
