(* ===== verification/Bytes.v ===== *)
(** * Fields of a byte array

    On-disk structures are fields at fixed offsets of a block, a list of bytes;
    integers are little-endian. *)
From stdpp Require Import base list numbers list_numbers.
From Stdlib Require Import ZArith Lia.
From S2P Require Import Prelude Mem.
Open Scope Z_scope.

Definition bytes (d : list Z) : Prop := Forall (fun b => 0 <= b < 256) d.

(** [n] bytes at offset [o], and storing bytes there. *)
Definition getn (o n : nat) (d : list Z) : list Z := take n (drop o d).
Definition putn (o : nat) (bs : list Z) (d : list Z) : list Z := list_inserts o bs d.

Definition get32 (o : nat) (d : list Z) : Z := little_endian_to_Z 8 (getn o 4 d).
Definition put32 (o : nat) (v : Z) (d : list Z) : list Z := putn o (Z_to_little_endian 4 8 v) d.
Definition get16 (o : nat) (d : list Z) : Z := little_endian_to_Z 8 (getn o 2 d).
Definition put16 (o : nat) (v : Z) (d : list Z) : list Z := putn o (Z_to_little_endian 2 8 v) d.

Lemma length_putn o bs d : length (putn o bs d) = length d.
Proof. apply length_inserts. Qed.
Lemma length_put32 o v d : length (put32 o v d) = length d.
Proof. apply length_putn. Qed.
Lemma length_put16 o v d : length (put16 o v d) = length d.
Proof. apply length_putn. Qed.

Lemma getn_lookup o n d i : getn o n d !! i = if decide (i < n)%nat then d !! (o + i)%nat else None.
Proof.
  unfold getn. case_decide; [rewrite lookup_take_lt, lookup_drop by done | rewrite lookup_take_ge by lia]; done.
Qed.

Lemma length_getn o n d : (o + n <= length d)%nat -> length (getn o n d) = n.
Proof. intros. unfold getn. rewrite length_take, length_drop. lia. Qed.

Lemma putn_lookup o bs d i :
  putn o bs d !! i =
  if decide (o <= i < o + length bs /\ i < length d)%nat then bs !! (i - o)%nat else d !! i.
Proof.
  unfold putn. case_decide as H.
  - apply list_lookup_inserts; lia.
  - destruct (decide (i < length d)%nat) as [Hi|Hi].
    + destruct (decide (i < o)%nat); [apply list_lookup_inserts_lt | apply list_lookup_inserts_ge]; lia.
    + rewrite !lookup_ge_None_2; rewrite ?length_inserts; lia || done.
Qed.

Lemma getn_putn_eq o bs d : (o + length bs <= length d)%nat -> getn o (length bs) (putn o bs d) = bs.
Proof.
  intros H. apply list_eq. intros i. rewrite getn_lookup, putn_lookup. case_decide.
  - rewrite decide_True by lia. f_equal. lia.
  - rewrite lookup_ge_None_2 by lia. done.
Qed.

Lemma getn_putn_ne o n o' bs d :
  (o + n <= o' \/ o' + length bs <= o)%nat -> getn o n (putn o' bs d) = getn o n d.
Proof.
  intros H. apply list_eq. intros i. rewrite !getn_lookup, putn_lookup. case_decide; [|done].
  rewrite decide_False by lia. done.
Qed.

Lemma putn_bytes o bs d : bytes bs -> bytes d -> bytes (putn o bs d).
Proof.
  intros Hb Hd. apply Forall_lookup_2. intros i x. rewrite putn_lookup.
  case_decide; intros; [by eapply (Forall_lookup_1 _ _ _ _ Hb) | by eapply (Forall_lookup_1 _ _ _ _ Hd)].
Qed.

Lemma putn_insert o b d : putn o [b] d = <[o := b]> d.
Proof. done. Qed.

Lemma le_roundtrip (k z : Z) : 0 <= k -> 0 <= z < 2 ^ (k * 8) -> little_endian_to_Z 8 (Z_to_little_endian k 8 z) = z.
Proof. intros. rewrite little_endian_to_Z_to_little_endian by lia. by apply Z.mod_small. Qed.

Section Field32.
Context (o : nat) (d : list Z).

Lemma get32_put32_eq v : (o + 4 <= length d)%nat -> 0 <= v < 2 ^ 32 -> get32 o (put32 o v d) = v.
Proof.
  intros. unfold get32, put32. pose proof (getn_putn_eq o (Z_to_little_endian 4 8 v) d) as E.
  rewrite length_le in E by done. change (Z.to_nat _) with 4%nat in E. rewrite E by lia. by apply le_roundtrip.
Qed.

Lemma get32_putn_ne o' bs : (o + 4 <= o' \/ o' + length bs <= o)%nat -> get32 o (putn o' bs d) = get32 o d.
Proof. intros. unfold get32. by rewrite getn_putn_ne. Qed.

Lemma get32_put32_ne o' v : (o + 4 <= o' \/ o' + 4 <= o)%nat -> get32 o (put32 o' v d) = get32 o d.
Proof. intros. apply get32_putn_ne. rewrite length_le by done. lia. Qed.

Lemma get32_put16_ne o' v : (o + 4 <= o' \/ o' + 2 <= o)%nat -> get32 o (put16 o' v d) = get32 o d.
Proof. intros. apply get32_putn_ne. rewrite length_le by done. lia. Qed.

Lemma put32_bytes v : bytes d -> bytes (put32 o v d).
Proof. apply putn_bytes. by apply le_bytes. Qed.
End Field32.

Section Field16.
Context (o : nat) (d : list Z).

Lemma get16_put16_eq v : (o + 2 <= length d)%nat -> 0 <= v < 2 ^ 16 -> get16 o (put16 o v d) = v.
Proof.
  intros. unfold get16, put16. pose proof (getn_putn_eq o (Z_to_little_endian 2 8 v) d) as E.
  rewrite length_le in E by done. change (Z.to_nat _) with 2%nat in E. rewrite E by lia. by apply le_roundtrip.
Qed.

Lemma get16_putn_ne o' bs : (o + 2 <= o' \/ o' + length bs <= o)%nat -> get16 o (putn o' bs d) = get16 o d.
Proof. intros. unfold get16. by rewrite getn_putn_ne. Qed.

Lemma get16_put16_ne o' v : (o + 2 <= o' \/ o' + 2 <= o)%nat -> get16 o (put16 o' v d) = get16 o d.
Proof. intros. apply get16_putn_ne. rewrite length_le by done. lia. Qed.

Lemma get16_put32_ne o' v : (o + 2 <= o' \/ o' + 4 <= o)%nat -> get16 o (put32 o' v d) = get16 o d.
Proof. intros. apply get16_putn_ne. rewrite length_le by done. lia. Qed.

Lemma put16_bytes v : bytes d -> bytes (put16 o v d).
Proof. apply putn_bytes. by apply le_bytes. Qed.
End Field16.

Lemma get32_range o d : bytes d -> 0 <= get32 o d < 2 ^ 32.
Proof.
  intros H. unfold get32. set (l := getn o 4 d).
  assert (Forall (fun b => 0 <= b < 2 ^ 8) l) as Hl by (apply Forall_take, Forall_drop, H).
  pose proof (little_endian_to_Z_bound 8 l ltac:(lia) Hl) as Hb.
  assert (length l <= 4)%nat by (subst l; unfold getn; rewrite length_take; lia).
  assert (2 ^ (Z.of_nat (length l) * 8) <= 2 ^ 32) by (apply Z.pow_le_mono_r; lia). lia.
Qed.
