(* ===== verification/Kalloc.v ===== *)
(** * kernel/kalloc.c: the physical page allocator

    The free list is threaded through the free pages themselves: the first word
    of a free page is [struct run]'s [next] pointer.  Symbols that the linker
    script (kernel/kernel.ld) provides are parameters of the model. *)
From stdpp Require Import base gmap list numbers strings.
From Stdlib Require Import ZArith Lia.
From S2P Require Import Prelude Riscv Mem.
Open Scope Z_scope.

(** [end], [etext] and [trampoline] of kernel.ld. *)
Class Linker := { end_ : Z; etext : Z; trampoline : Z }.

(** What kernel.ld guarantees of them: [etext] and [trampoline] are page aligned,
    text comes before data, and the image lies in RAM. *)
Class LinkerOk (L : Linker) : Prop := {
  etext_aligned : etext mod PGSIZE = 0;
  trampoline_aligned : trampoline mod PGSIZE = 0;
  trampoline_text : KERNBASE <= trampoline < etext;
  etext_end : etext <= end_;
  end_ram : end_ <= PHYSTOP
}.

(** [struct { struct spinlock lock; struct run *freelist; } kmem], with the
    physical memory in which the runs live. *)
Record kmem_st := mk_kmem { kmem : mem; freelist : Z }.

Definition set_mem (m : mem) (s : kmem_st) : kmem_st := mk_kmem m (freelist s).

Section Kalloc.
Context {L : Linker}.

Definition kfree (pa : Z) : M kmem_st unit := fun s =>
  if negb (pa mod PGSIZE =? 0) || (pa <? end_) || (PHYSTOP <=? pa)
  then Panic "kfree"
  else
    (* Fill with junk to catch dangling refs. *)
    let m := CString.memset (kmem s) pa 1 PGSIZE in
    (* r->next = kmem.freelist; kmem.freelist = r; *)
    Ok tt (mk_kmem (store64 m pa (freelist s)) pa).

Definition kalloc : M kmem_st Z := fun s =>
  let r := freelist s in
  if negb (r =? 0)
  then Ok r (mk_kmem (CString.memset (kmem s) r 5 PGSIZE) (load64 (kmem s) r))
  else Ok 0 s.

(** [for(; p + PGSIZE <= (char* )pa_end; p += PGSIZE) kfree(p);] *)
Fixpoint freerange_loop (fuel : nat) (p pa_end : Z) : M kmem_st unit :=
  match fuel with
  | O => diverge
  | S f =>
      if p + PGSIZE <=? pa_end
      then kfree p ;; freerange_loop f (p + PGSIZE) pa_end
      else ret tt
  end.

Definition freerange (pa_start pa_end : Z) : M kmem_st unit :=
  let p := PGROUNDUP pa_start in
  freerange_loop (S (Z.to_nat ((pa_end - p) / PGSIZE))) p pa_end.

Definition kinit : M kmem_st unit := freerange end_ PHYSTOP.

End Kalloc.

(** ** The free-list invariant *)

Definition page_disjoint (p q : Z) : Prop := p + PGSIZE <= q \/ q + PGSIZE <= p.

Lemma aligned_disjoint p q :
  p mod PGSIZE = 0 -> q mod PGSIZE = 0 -> p <> q -> page_disjoint p q.
Proof. unfold page_disjoint, PGSIZE. intros. Z.div_mod_to_equations. lia. Qed.

(** [chain m p l]: following [next] from [p] visits exactly [l]. *)
Fixpoint chain (m : mem) (p : Z) (l : list Z) : Prop :=
  match l with
  | [] => p = 0
  | q :: l' => p = q /\ p <> 0 /\ chain m (load64 m p) l'
  end.

Lemma chain_ext m m' p l :
  Forall (fun q => load64 m' q = load64 m q) l -> chain m p l -> chain m' p l.
Proof.
  revert p; induction l as [|q l IH]; intros p Hl; cbn; [done|].
  apply Forall_cons in Hl as [E Hl]. intros (Ep & Hq & Hc). subst p. rewrite E. auto.
Qed.

Section KallocSpec.
Context {L : Linker} {LOk : LinkerOk L}.

(** A page the allocator manages. *)
Definition page_ok (p : Z) : Prop := p mod PGSIZE = 0 /\ end_ <= p < PHYSTOP.

#[export] Instance page_ok_dec p : Decision (page_ok p).
Proof. unfold page_ok. apply _. Defined.

Lemma end_pos : 0 < end_.
Proof. destruct LOk as [_ _ H1 H2 _]. unfold KERNBASE in *. lia. Qed.

Lemma page_ok_pos p : page_ok p -> 0 < p.
Proof. intros [_ H]. pose proof end_pos. lia. Qed.

Lemma page_ok_range p : page_ok p -> 0 < p /\ p + PGSIZE <= PHYSTOP.
Proof.
  intros Hp. split; [by apply page_ok_pos|]. destruct Hp as [Ha Hr].
  unfold PGSIZE, PHYSTOP, KERNBASE in *. Z.div_mod_to_equations. lia.
Qed.

Record kalloc_inv (s : kmem_st) (l : list Z) : Prop := {
  ki_bytes : byte_mem (kmem s);
  ki_chain : chain (kmem s) (freelist s) l;
  ki_nodup : NoDup l;
  ki_pages : Forall page_ok l
}.

(** Memory changed at most inside the page [p]. *)
Definition only_page (p : Z) (m m' : mem) : Prop :=
  forall x, ~ (p <= x < p + PGSIZE) -> load8 m' x = load8 m x.

Lemma only_page_load64 p m m' a :
  only_page p m m' -> a + 8 <= p \/ p + PGSIZE <= a -> load64 m' a = load64 m a.
Proof. intros H Ha. apply load64_ext. intros. apply H. lia. Qed.

Lemma only_page_other p q m m' :
  only_page p m m' -> page_ok p -> page_ok q -> p <> q -> load64 m' q = load64 m q.
Proof.
  intros H Hp Hq Hne. apply (only_page_load64 p); [done|].
  destruct (aligned_disjoint p q (proj1 Hp) (proj1 Hq) Hne); unfold PGSIZE in *; lia.
Qed.

Lemma only_page_chain p q m m' l :
  only_page p m m' -> page_ok p -> Forall page_ok l -> p ∉ l -> chain m q l -> chain m' q l.
Proof.
  intros H Hp Hl Hnin. apply chain_ext. rewrite Forall_forall in *. intros x Hx.
  apply (only_page_other p x m m' H); auto. set_solver.
Qed.

Lemma memset_only_page m p c : only_page p m (CString.memset m p c PGSIZE).
Proof.
  intros x Hx. rewrite CStringFacts.load8_memset by done.
  destruct (Z.leb_spec p x), (Z.ltb_spec x (p + PGSIZE)); cbn; done || lia.
Qed.

Lemma store64_only_page m p i v :
  0 <= i -> i + 8 <= PGSIZE -> only_page p m (store64 m (p + i) v).
Proof. intros Hi Hi' x Hx. apply load8_store64_out. lia. Qed.

Lemma only_page_trans p m m' m'' : only_page p m m' -> only_page p m' m'' -> only_page p m m''.
Proof. intros H1 H2 x Hx. by rewrite H2, H1. Qed.

Lemma kalloc_inv_write s l p m' :
  kalloc_inv s l -> byte_mem m' -> only_page p (kmem s) m' -> page_ok p -> p ∉ l ->
  kalloc_inv (set_mem m' s) l.
Proof.
  intros [Hb Hc Hnd Hok] Hm' Ho Hp Hnin. split; cbn; try done.
  by apply (only_page_chain p _ (kmem s)).
Qed.

Lemma kalloc_empty s : kalloc_inv s [] -> kalloc s = Ok 0 s.
Proof. intros [_ H _ _]. cbn in H. unfold kalloc. by rewrite H. Qed.

Lemma kalloc_cons s p l :
  kalloc_inv s (p :: l) ->
  exists s', kalloc s = Ok p s' /\ kalloc_inv s' l /\ page_ok p /\ (p ∉ l) /\
    only_page p (kmem s) (kmem s') /\
    (forall x, p <= x < p + PGSIZE -> load8 (kmem s') x = 5).
Proof.
  intros [Hb (Ep & Hp0 & Hc) Hnd Hok].
  apply NoDup_cons in Hnd as [Hnin Hnd]. apply Forall_cons in Hok as [Hp Hok].
  unfold kalloc. rewrite Ep in *. destruct (Z.eqb_spec p 0); [done|]. cbn.
  eexists; split; [done|]. split; [constructor; cbn|].
  - auto with xv6.
  - by apply (only_page_chain p _ (kmem s)); [apply memset_only_page|..].
  - done.
  - done.
  - split; [done|]. split; [done|]. split; [apply memset_only_page|].
    intros x Hx. cbn. rewrite CStringFacts.load8_memset by done.
    destruct (Z.leb_spec p x), (Z.ltb_spec x (p + PGSIZE)); cbn; done || lia.
Qed.

Lemma kfree_ok s p l :
  kalloc_inv s l -> page_ok p -> p ∉ l ->
  exists s', kfree p s = Ok tt s' /\ kalloc_inv s' (p :: l) /\ only_page p (kmem s) (kmem s').
Proof.
  intros [Hb Hc Hnd Hok] Hp Hnin. pose proof (page_ok_pos p Hp) as Hpos.
  destruct Hp as [Ha Hr]. unfold kfree.
  destruct (Z.eqb_spec (p mod PGSIZE) 0), (Z.ltb_spec p end_), (Z.leb_spec PHYSTOP p);
    cbn; try lia.
  assert (in_range 64 (freelist s)) as Hfl.
  { destruct l as [|q l]; cbn in Hc; [rewrite Hc; by unfold in_range|].
    destruct Hc as (-> & _). apply Forall_cons in Hok as [Hq _].
    pose proof (page_ok_range _ Hq). unfold in_range, PHYSTOP, KERNBASE, PGSIZE in *. lia. }
  assert (only_page p (kmem s)
            (store64 (CString.memset (kmem s) p 1 PGSIZE) p (freelist s))) as Honly.
  { eapply only_page_trans; [apply memset_only_page|].
    pose proof (store64_only_page (CString.memset (kmem s) p 1 PGSIZE) p 0 (freelist s)) as H'.
    rewrite Z.add_0_r in H'. by apply H'. }
  eexists; split; [done|]. split; [constructor; cbn | done].
  - auto with xv6.
  - split; [done|]. split; [lia|]. rewrite load64_store64_eq by done.
    by apply (only_page_chain p _ (kmem s)).
  - by constructor.
  - constructor; done.
Qed.

End KallocSpec.

(** ** Boot: [kinit] hands every page of RAM above the kernel to the allocator *)

Fixpoint pages (p : Z) (k : nat) : list Z :=
  match k with
  | O => []
  | S k' => p :: pages (p + PGSIZE) k'
  end.

Lemma elem_of_pages p k q :
  q ∈ pages p k <-> exists i, 0 <= i < Z.of_nat k /\ q = p + i * PGSIZE.
Proof.
  unfold PGSIZE. revert p; induction k as [|k IH]; intros p; cbn [pages]; unfold PGSIZE in *.
  - split; [by intros ?%elem_of_nil | intros (i & Hi & _); lia].
  - rewrite elem_of_cons, IH. split.
    + intros [->|(i & Hi & ->)]; [exists 0; lia | exists (i + 1); lia].
    + intros (i & Hi & ->). destruct (decide (i = 0)) as [->|]; [left; lia|].
      right. exists (i - 1). lia.
Qed.

Section KinitSpec.
Context {L : Linker} {LOk : LinkerOk L}.

Lemma freerange_loop_ok k fuel p pa_end s l :
  kalloc_inv s l -> p mod PGSIZE = 0 -> end_ <= p -> pa_end <= PHYSTOP ->
  p + Z.of_nat k * PGSIZE <= pa_end < p + Z.of_nat k * PGSIZE + PGSIZE ->
  (forall q, q ∈ l -> q < p) -> (k < fuel)%nat ->
  exists s', freerange_loop fuel p pa_end s = Ok tt s' /\
             kalloc_inv s' (rev (pages p k) ++ l).
Proof.
  revert fuel p s l; induction k as [|k IH]; intros fuel p s l Hinv Ha He Hp Hk Hl Hf;
    (destruct fuel as [|fuel]; [lia|]); cbn [freerange_loop pages rev].
  - destruct (Z.leb_spec (p + PGSIZE) pa_end); [lia|]. eexists; split; done.
  - destruct (Z.leb_spec (p + PGSIZE) pa_end); [|unfold PGSIZE in *; lia].
    destruct (kfree_ok s p l Hinv) as (s1 & E1 & Hinv1 & _).
    { split; [done|]. unfold PGSIZE in *. lia. }
    { intros Hin. specialize (Hl p Hin). lia. }
    erewrite bind_Ok by done.
    destruct (IH fuel (p + PGSIZE) s1 (p :: l) Hinv1) as (s' & E' & Hinv').
    + unfold PGSIZE in *. Z.div_mod_to_equations. lia.
    + unfold PGSIZE. lia.
    + done.
    + unfold PGSIZE in *. lia.
    + intros q [->|Hq]%elem_of_cons; [unfold PGSIZE; lia|]. specialize (Hl q Hq).
      unfold PGSIZE. lia.
    + lia.
    + exists s'. split; [done|]. by rewrite <- app_assoc.
Qed.

Definition all_pages : list Z :=
  pages (PGROUNDUP end_) (Z.to_nat ((PHYSTOP - PGROUNDUP end_) / PGSIZE)).

Lemma end_range : 0 <= end_ /\ end_ + PGSIZE - 1 < 2 ^ 64.
Proof.
  pose proof end_pos. pose proof (end_ram (L := L)).
  unfold PHYSTOP, KERNBASE, PGSIZE in *. lia.
Qed.

Lemma PGROUNDUP_end : end_ <= PGROUNDUP end_ <= PHYSTOP.
Proof.
  pose proof (end_ram (L := L)).
  pose proof (PGROUNDUP_bounds end_ (proj1 end_range) (proj2 end_range)).
  pose proof (PGROUNDUP_aligned end_). unfold PHYSTOP, KERNBASE, PGSIZE in *.
  Z.div_mod_to_equations. lia.
Qed.

Lemma elem_of_all_pages p : p ∈ all_pages <-> page_ok p.
Proof.
  unfold all_pages. rewrite elem_of_pages. pose proof PGROUNDUP_end as He.
  pose proof (PGROUNDUP_aligned end_) as Ha.
  assert (0 <= (PHYSTOP - PGROUNDUP end_) / PGSIZE) by
    (apply Z.div_pos; unfold PGSIZE; lia).
  rewrite Z2Nat.id by done. unfold page_ok. split.
  - intros (i & Hi & ->). unfold PGSIZE, PHYSTOP, KERNBASE in *. Z.div_mod_to_equations. lia.
  - intros [Hp Hr]. exists ((p - PGROUNDUP end_) / PGSIZE).
    assert (PGROUNDUP end_ <= p).
    { pose proof (PGROUNDUP_bounds end_ (proj1 end_range) (proj2 end_range)).
      unfold PGSIZE in *. Z.div_mod_to_equations. lia. }
    unfold PGSIZE, PHYSTOP, KERNBASE in *. Z.div_mod_to_equations. lia.
Qed.

Lemma kinit_ok m :
  byte_mem m ->
  exists s, kinit (mk_kmem m 0) = Ok tt s /\ kalloc_inv s (rev all_pages).
Proof.
  intros Hm. unfold kinit, freerange.
  pose proof PGROUNDUP_end as He. pose proof (PGROUNDUP_aligned end_) as Ha.
  destruct (freerange_loop_ok (Z.to_nat ((PHYSTOP - PGROUNDUP end_) / PGSIZE))
              (S (Z.to_nat ((PHYSTOP - PGROUNDUP end_) / PGSIZE)))
              (PGROUNDUP end_) PHYSTOP (mk_kmem m 0) []) as (s & E & Hinv); try done; try lia.
  - split; cbn; done || constructor.
  - rewrite Z2Nat.id by (apply Z.div_pos; unfold PGSIZE; lia).
    unfold PGSIZE in *. Z.div_mod_to_equations. lia.
  - by intros q ?%elem_of_nil.
  - exists s. split; [done|]. by rewrite app_nil_r in Hinv.
Qed.

(** ** Ownership along an execution

    A configuration pairs the allocator with the set of pages currently handed
    out.  Clients may allocate, free a page they own, and write to a page they
    own. *)
Inductive kstep : kmem_st * gset Z -> kmem_st * gset Z -> Prop :=
| kstep_alloc s s' p A : kalloc s = Ok p s' -> p <> 0 -> kstep (s, A) (s', {[p]} ∪ A)
| kstep_oom s s' A : kalloc s = Ok 0 s' -> kstep (s, A) (s', A)
| kstep_free s s' p A : p ∈ A -> kfree p s = Ok tt s' -> kstep (s, A) (s', A ∖ {[p]})
| kstep_write s p i v A :
    p ∈ A -> 0 <= i < PGSIZE ->
    kstep (s, A) (set_mem (store8 (kmem s) (p + i) v) s, A).

Inductive kreach (m : mem) : kmem_st * gset Z -> Prop :=
| kreach_init s : kinit (mk_kmem m 0) = Ok tt s -> kreach m (s, ∅)
| kreach_step c c' : kreach m c -> kstep c c' -> kreach m c'.

(** Free pages and handed-out pages partition the managed pages. *)
Definition kpartition (c : kmem_st * gset Z) : Prop :=
  exists l, kalloc_inv c.1 l /\ (forall p, p ∈ l -> p ∉ c.2) /\
            (forall p, page_ok p <-> p ∈ l \/ p ∈ c.2).

Lemma kpartition_step c c' : kpartition c -> kstep c c' -> kpartition c'.
Proof.
  intros (l & Hinv & Hdis & Hall) Hst. inversion Hst; subst; cbn in *.
  - destruct l as [|q l]; [rewrite kalloc_empty in H by done; congruence|].
    destruct (kalloc_cons s q l Hinv) as (s1 & E & Hinv1 & Hok & Hnin & _).
    rewrite E in H. injection H as <- <-. exists l. cbn. split; [done|]. split.
    + intros x Hx. specialize (Hdis x). set_solver.
    + intros x. rewrite Hall. set_solver.
  - destruct l as [|q l].
    + rewrite kalloc_empty in H by done. injection H as <-. exists []. auto.
    + destruct (kalloc_cons s q l Hinv) as (s1 & E & _ & Hok & _).
      rewrite E in H. injection H as -> ->. pose proof (page_ok_pos 0 Hok). lia.
  - assert (page_ok p) as Hok by (apply Hall; auto).
    destruct (kfree_ok s p l Hinv Hok) as (s1 & E & Hinv1 & _).
    { intros Hin. by apply (Hdis p). }
    rewrite E in H0. injection H0 as <-. exists (p :: l). cbn. split; [done|]. split.
    + intros x Hx. specialize (Hdis x). set_solver.
    + intros x. rewrite Hall. destruct (decide (x = p)); set_solver.
  - exists l. cbn. split; [|auto]. destruct Hinv as [Hb Hc Hnd Hok].
    assert (page_ok p) as Hp by (apply Hall; auto).
    split; cbn; [auto with xv6 | | done | done].
    apply (only_page_chain p _ (kmem s)); try done.
    + intros x Hx. apply load8_store8_ne. lia.
    + intros Hin. by apply (Hdis p).
Qed.

Lemma kreach_partition m c : byte_mem m -> kreach m c -> kpartition c.
Proof.
  intros Hm. induction 1 as [s E|c c' _ IH Hst]; [|by eapply kpartition_step].
  destruct (kinit_ok m Hm) as (s' & E' & Hinv). rewrite E' in E. injection E as <-.
  exists (rev all_pages). cbn. split; [done|]. split; [set_solver|].
  intros p. rewrite <- elem_of_all_pages, !list_elem_of_In, <- in_rev. set_solver.
Qed.

End KinitSpec.

(** ** The allocator's contract *)

Section KallocContract.
Context {L : Linker} {LOk : LinkerOk L}.

(** C28: at every point of an execution that starts with [kinit] and in which
    clients free and write only pages they hold, [kalloc] returns a page that
    nobody holds, inside RAM, page aligned and filled with the byte 5, and it
    returns 0 only when every page of RAM above the kernel is handed out; [kfree]
    of a held page does not panic. *)
Theorem kalloc_exclusive m s A :
  byte_mem m -> kreach m (s, A) ->
  (exists p s', kalloc s = Ok p s' /\
     (p = 0 /\ s' = s /\ (forall q, page_ok q -> q ∈ A) \/
      page_ok p /\ (p ∉ A) /\ forall i, 0 <= i < PGSIZE -> load8 (kmem s') (p + i) = 5)) /\
  forall p, p ∈ A -> exists s', kfree p s = Ok tt s'.
Proof.
  intros Hm Hr. destruct (kreach_partition m _ Hm Hr) as (l & Hinv & Hdis & Hall).
  cbn [fst snd] in *. split.
  - destruct l as [|p l].
    + exists 0, s. split; [by apply kalloc_empty|]. left. split; [done|]. split; [done|].
      intros q Hq. apply Hall in Hq as [Hq|]; [set_solver|done].
    + destruct (kalloc_cons s p l Hinv) as (s' & E & _ & Hok & _ & _ & Hfill).
      exists p, s'. split; [done|]. right. split; [done|]. split; [apply Hdis; set_solver|].
      intros i Hi. apply Hfill. lia.
  - intros p Hp. destruct (kfree_ok s p l Hinv) as (s' & E & _); [apply Hall; auto| |eauto].
    intros Hin. by apply (Hdis p).
Qed.

End KallocContract.

(** A machine with 16 pages of RAM above the kernel. *)
Definition demo_linker : Linker :=
  {| end_ := PHYSTOP - 16 * PGSIZE; etext := KERNBASE + 0x8000; trampoline := KERNBASE + 0x7000 |}.

Lemma demo_linker_ok : LinkerOk demo_linker.
Proof. split; done. Qed.

Lemma kalloc_exclusive_witness :
  exists s, kreach (L := demo_linker) ∅ (s, ∅) /\
    exists p s', kalloc s = Ok p s' /\
     (p = 0 /\ s' = s /\ (forall q, page_ok (L := demo_linker) q -> q ∈ (∅ : gset Z)) \/
      page_ok (L := demo_linker) p /\ (p ∉ (∅ : gset Z)) /\
      forall i, 0 <= i < PGSIZE -> load8 (kmem s') (p + i) = 5).
Proof.
  destruct (kinit_ok (LOk := demo_linker_ok) ∅ byte_mem_empty) as (s & E & _).
  exists s. split; [by apply kreach_init|].
  apply (proj1 (kalloc_exclusive (LOk := demo_linker_ok) ∅ s ∅ byte_mem_empty (kreach_init ∅ s E))).
Defined.
