(* ===== verification/Vm.v ===== *)
(** * kernel/vm.c: Sv39 page tables and copies between kernel and user memory

    Page tables live in physical memory ([kmem_st]); every function of vm.c is a
    computation over it.  A NULL pointer is 0.  Kernel objects that are not
    pages (a caller's buffer) are lists of bytes: [copyout] takes the bytes it
    copies, [copyin] and [copyinstr] return the bytes they put in the buffer. *)
From stdpp Require Import base gmap list numbers strings.
From Stdlib Require Import ZArith Lia.
From S2P Require Import Prelude Riscv Mem Kalloc.
Open Scope Z_scope.

Definition rd64 (a : Z) : M kmem_st Z := gets (fun s => load64 (kmem s) a).
Definition wr64 (a v : Z) : M kmem_st unit := modify (fun s => set_mem (store64 (kmem s) a v) s).
Definition kmemset (dst c n : Z) : M kmem_st unit :=
  modify (fun s => set_mem (CString.memset (kmem s) dst c n) s).
Definition kmemmove (dst src n : Z) : M kmem_st unit :=
  modify (fun s => set_mem (CString.memmove (kmem s) dst src n) s).
(** [memmove] from a kernel object into a page, and out of one. *)
Definition kcopy_to (dst : Z) (bs : list Z) : M kmem_st unit :=
  modify (fun s => set_mem (storen (kmem s) dst bs) s).
Definition kcopy_from (src n : Z) : M kmem_st (list Z) :=
  gets (fun s => loadn (kmem s) src (Z.to_nat n)).

Section Vm.
Context {L : Linker}.

(** [for(int level = 2; level > 0; level--) { ... }  return &pagetable[PX(0, va)];] *)
Fixpoint walk_loop (pagetable va : Z) (alloc : bool) (level : nat) : M kmem_st Z :=
  match level with
  | O => ret (pagetable + 8 * PX 0 va)
  | S level' =>
      let pte := pagetable + 8 * PX (Z.of_nat level) va in
      let! v := rd64 pte in
      if has v PTE_V then walk_loop (PTE2PA v) va alloc level'
      else if negb alloc then ret 0
      else
        let! pt := kalloc in
        if pt =? 0 then ret 0
        else
          kmemset pt 0 PGSIZE ;;
          wr64 pte (Z.lor (PA2PTE pt) PTE_V) ;;
          walk_loop pt va alloc level'
  end.

Definition walk (pagetable va : Z) (alloc : bool) : M kmem_st Z :=
  if MAXVA <=? va then panic "walk" else walk_loop pagetable va alloc 2.

Definition walkaddr (pagetable va : Z) : M kmem_st Z :=
  if MAXVA <=? va then ret 0
  else
    let! pte := walk pagetable va false in
    if pte =? 0 then ret 0
    else
      let! v := rd64 pte in
      if negb (has v PTE_V) then ret 0
      else if negb (has v PTE_U) then ret 0
      else ret (PTE2PA v).

Fixpoint mappages_loop (fuel : nat) (pagetable a last pa perm : Z) : M kmem_st Z :=
  match fuel with
  | O => diverge
  | S f =>
      let! pte := walk pagetable a true in
      if pte =? 0 then ret (-1)
      else
        let! v := rd64 pte in
        if has v PTE_V then panic "remap"
        else
          wr64 pte (Z.lor (PA2PTE pa) (Z.lor perm PTE_V)) ;;
          if a =? last then ret 0
          else mappages_loop f pagetable (u64 (a + PGSIZE)) last (u64 (pa + PGSIZE)) perm
  end.

(** The [for(;;)] loop ends at [a == last], or, when [last] is below [a], at the
    latest when [walk] rejects an address above [MAXVA]. *)
Definition mappages_bound (a last : Z) : nat :=
  S (Z.to_nat (if a <=? last then (last - a) / PGSIZE else (MAXVA - a) / PGSIZE + 1)).

Definition mappages (pagetable va size pa perm : Z) : M kmem_st Z :=
  let a := PGROUNDDOWN va in
  let last := PGROUNDDOWN (u64 (va + size - 1)) in
  mappages_loop (mappages_bound a last) pagetable a last pa perm.

(** The kernel page table [kernel_pagetable] is passed explicitly. *)
Definition kvmmap (kernel_pagetable va pa sz perm : Z) : M kmem_st unit :=
  let! r := mappages kernel_pagetable va sz pa perm in
  if negb (r =? 0) then panic "kvmmap" else ret tt.

Definition kvminit : M kmem_st Z :=
  let! kernel_pagetable := kalloc in
  kmemset kernel_pagetable 0 PGSIZE ;;
  kvmmap kernel_pagetable UART0 UART0 PGSIZE (Z.lor PTE_R PTE_W) ;;
  kvmmap kernel_pagetable VIRTIO0 VIRTIO0 PGSIZE (Z.lor PTE_R PTE_W) ;;
  kvmmap kernel_pagetable CLINT CLINT 0x10000 (Z.lor PTE_R PTE_W) ;;
  kvmmap kernel_pagetable PLIC PLIC 0x400000 (Z.lor PTE_R PTE_W) ;;
  kvmmap kernel_pagetable KERNBASE KERNBASE (etext - KERNBASE) (Z.lor PTE_R PTE_X) ;;
  kvmmap kernel_pagetable etext etext (PHYSTOP - etext) (Z.lor PTE_R PTE_W) ;;
  kvmmap kernel_pagetable TRAMPOLINE trampoline PGSIZE (Z.lor PTE_R PTE_X) ;;
  ret kernel_pagetable.

Definition kvmpa (kernel_pagetable va : Z) : M kmem_st Z :=
  let off := va mod PGSIZE in
  let! pte := walk kernel_pagetable va false in
  if pte =? 0 then panic "kvmpa"
  else
    let! v := rd64 pte in
    if negb (has v PTE_V) then panic "kvmpa"
    else ret (u64 (PTE2PA v + off)).

(** [for(a = va; a < va + npages*PGSIZE; a += PGSIZE) { ... }] *)
Fixpoint uvmunmap_loop (fuel : nat) (pagetable a end_va : Z) (do_free : bool) : M kmem_st unit :=
  match fuel with
  | O => diverge
  | S f =>
      if a <? end_va then
        let! pte := walk pagetable a false in
        if pte =? 0 then panic "uvmunmap: walk"
        else
          let! v := rd64 pte in
          if negb (has v PTE_V) then panic "uvmunmap: not mapped"
          else if PTE_FLAGS v =? PTE_V then panic "uvmunmap: not a leaf"
          else
            (if do_free then kfree (PTE2PA v) else ret tt) ;;
            wr64 pte 0 ;;
            uvmunmap_loop f pagetable (u64 (a + PGSIZE)) end_va do_free
      else ret tt
  end.

Definition uvmunmap_bound (va end_va : Z) : nat :=
  S (Z.to_nat ((end_va - va + PGSIZE - 1) / PGSIZE)).

Definition uvmunmap (pagetable va npages : Z) (do_free : bool) : M kmem_st unit :=
  if negb (va mod PGSIZE =? 0) then panic "uvmunmap: not aligned"
  else
    let end_va := u64 (va + u64 (npages * PGSIZE)) in
    uvmunmap_loop (uvmunmap_bound va end_va) pagetable va end_va do_free.

Definition uvmcreate : M kmem_st Z :=
  let! pagetable := kalloc in
  if pagetable =? 0 then ret 0
  else kmemset pagetable 0 PGSIZE ;; ret pagetable.

(** [src] is the [sz]-byte kernel array with the program. *)
Definition uvminit (pagetable : Z) (src : list Z) (sz : Z) : M kmem_st unit :=
  if PGSIZE <=? sz then panic "inituvm: more than a page"
  else
    let! mem := kalloc in
    kmemset mem 0 PGSIZE ;;
    let! _ := mappages pagetable 0 PGSIZE mem (Z.lor PTE_W (Z.lor PTE_R (Z.lor PTE_X PTE_U))) in
    kcopy_to mem (take (Z.to_nat sz) src).

Definition uvmdealloc (pagetable oldsz newsz : Z) : M kmem_st Z :=
  if oldsz <=? newsz then ret oldsz
  else
    (if PGROUNDUP newsz <? PGROUNDUP oldsz then
       let npages := i32 ((PGROUNDUP oldsz - PGROUNDUP newsz) / PGSIZE) in
       uvmunmap pagetable (PGROUNDUP newsz) (u64 npages) true
     else ret tt) ;;
    ret newsz.

Definition PTE_WXRU : Z := Z.lor PTE_W (Z.lor PTE_X (Z.lor PTE_R PTE_U)).

(** [for(a = oldsz; a < newsz; a += PGSIZE) { ... }  return newsz;] *)
Fixpoint uvmalloc_loop (fuel : nat) (pagetable a oldsz newsz : Z) : M kmem_st Z :=
  match fuel with
  | O => diverge
  | S f =>
      if a <? newsz then
        let! mem := kalloc in
        if mem =? 0 then
          let! _ := uvmdealloc pagetable a oldsz in ret 0
        else
          kmemset mem 0 PGSIZE ;;
          let! r := mappages pagetable a PGSIZE mem PTE_WXRU in
          if negb (r =? 0) then
            kfree mem ;;
            let! _ := uvmdealloc pagetable a oldsz in ret 0
          else uvmalloc_loop f pagetable (u64 (a + PGSIZE)) oldsz newsz
      else ret newsz
  end.

Definition uvmalloc_bound (oldsz newsz : Z) : nat :=
  S (Z.to_nat ((newsz - oldsz + PGSIZE - 1) / PGSIZE)).

Definition uvmalloc (pagetable oldsz newsz : Z) : M kmem_st Z :=
  if newsz <? oldsz then ret oldsz
  else
    let oldsz := PGROUNDUP oldsz in
    uvmalloc_loop (uvmalloc_bound oldsz newsz) pagetable oldsz oldsz newsz.

(** [for(int i = 0; i < 512; i++) { ... }]; [fw] is the recursive call. *)
Fixpoint freewalk_loop (fw : Z -> M kmem_st unit) (pagetable i : Z) (k : nat) : M kmem_st unit :=
  match k with
  | O => ret tt
  | S k' =>
      let! pte := rd64 (pagetable + 8 * i) in
      (if has pte PTE_V && (Z.land pte (Z.lor PTE_R (Z.lor PTE_W PTE_X)) =? 0) then
         fw (PTE2PA pte) ;; wr64 (pagetable + 8 * i) 0
       else if has pte PTE_V then panic "freewalk: leaf"
       else ret tt) ;;
      freewalk_loop fw pagetable (i + 1) k'
  end.

(** The recursion descends one page-table level per call. *)
Fixpoint freewalk (levels : nat) (pagetable : Z) : M kmem_st unit :=
  match levels with
  | O => diverge
  | S l => freewalk_loop (freewalk l) pagetable 0 512 ;; kfree pagetable
  end.

Definition uvmfree (pagetable sz : Z) : M kmem_st unit :=
  (if 0 <? sz then uvmunmap pagetable 0 (PGROUNDUP sz / PGSIZE) true else ret tt) ;;
  freewalk 3 pagetable.

Fixpoint uvmcopy_loop (fuel : nat) (old new i sz : Z) : M kmem_st Z :=
  match fuel with
  | O => diverge
  | S f =>
      if i <? sz then
        let! pte := walk old i false in
        if pte =? 0 then panic "uvmcopy: pte should exist"
        else
          let! v := rd64 pte in
          if negb (has v PTE_V) then panic "uvmcopy: page not present"
          else
            let pa := PTE2PA v in
            let flags := PTE_FLAGS v in
            let! mem := kalloc in
            if mem =? 0 then uvmunmap new 0 (i / PGSIZE) true ;; ret (-1)
            else
              kmemmove mem pa PGSIZE ;;
              let! r := mappages new i PGSIZE mem flags in
              if negb (r =? 0) then
                kfree mem ;; uvmunmap new 0 (i / PGSIZE) true ;; ret (-1)
              else uvmcopy_loop f old new (u64 (i + PGSIZE)) sz
      else ret 0
  end.

Definition uvmcopy (old new sz : Z) : M kmem_st Z :=
  uvmcopy_loop (S (Z.to_nat ((sz + PGSIZE - 1) / PGSIZE))) old new 0 sz.

Definition uvmclear (pagetable va : Z) : M kmem_st unit :=
  let! pte := walk pagetable va false in
  if pte =? 0 then panic "uvmclear"
  else
    let! v := rd64 pte in
    wr64 pte (Z.land v (u64 (Z.lnot PTE_U))).

Fixpoint copyout_loop (fuel : nat) (pagetable dstva : Z) (src : list Z) : M kmem_st Z :=
  match fuel with
  | O => diverge
  | S f =>
      match src with
      | [] => ret 0
      | _ :: _ =>
          let va0 := PGROUNDDOWN dstva in
          let! pa0 := walkaddr pagetable va0 in
          if pa0 =? 0 then ret (-1)
          else
            let n := Z.min (PGSIZE - (dstva - va0)) (Z.of_nat (length src)) in
            kcopy_to (pa0 + (dstva - va0)) (take (Z.to_nat n) src) ;;
            copyout_loop f pagetable (u64 (va0 + PGSIZE)) (drop (Z.to_nat n) src)
      end
  end.

(** [src] holds the [len] bytes to copy. *)
Definition copyout (pagetable dstva : Z) (src : list Z) : M kmem_st Z :=
  copyout_loop (S (length src)) pagetable dstva src.

(** Returns the status and the bytes copied to [dst] so far. *)
Fixpoint copyin_loop (fuel : nat) (pagetable srcva len : Z) : M kmem_st (Z * list Z) :=
  match fuel with
  | O => diverge
  | S f =>
      if 0 <? len then
        let va0 := PGROUNDDOWN srcva in
        let! pa0 := walkaddr pagetable va0 in
        if pa0 =? 0 then ret (-1, [])
        else
          let n := Z.min (PGSIZE - (srcva - va0)) len in
          let! bs := kcopy_from (pa0 + (srcva - va0)) n in
          let! (r, rest) := copyin_loop f pagetable (u64 (va0 + PGSIZE)) (len - n) in
          ret (r, bs ++ rest)
      else ret (0, [])
  end.

Definition copyin (pagetable srcva len : Z) : M kmem_st (Z * list Z) :=
  copyin_loop (S (Z.to_nat len)) pagetable srcva len.

(** The inner loop of [copyinstr]: [n] bytes from [p] up to a NUL.  Returns
    [got_null] and the bytes stored through [dst]. *)
Fixpoint copyinstr_page (m : mem) (p : Z) (n : nat) : bool * list Z :=
  match n with
  | O => (false, [])
  | S n' =>
      if load8 m p =? 0 then (true, [0])
      else let '(g, bs) := copyinstr_page m (p + 1) n' in (g, load8 m p :: bs)
  end.

Fixpoint copyinstr_loop (fuel : nat) (pagetable srcva max : Z) : M kmem_st (Z * list Z) :=
  match fuel with
  | O => diverge
  | S f =>
      if 0 <? max then
        let va0 := PGROUNDDOWN srcva in
        let! pa0 := walkaddr pagetable va0 in
        if pa0 =? 0 then ret (-1, [])
        else
          let n := Z.min (PGSIZE - (srcva - va0)) max in
          let! (got_null, bs) :=
             gets (fun s => copyinstr_page (kmem s) (pa0 + (srcva - va0)) (Z.to_nat n)) in
          if (got_null : bool) then ret (0, bs)
          else
            let! (r, rest) := copyinstr_loop f pagetable (u64 (va0 + PGSIZE)) (max - n) in
            ret (r, bs ++ rest)
      else ret (-1, [])
  end.

Definition copyinstr (pagetable srcva max : Z) : M kmem_st (Z * list Z) :=
  copyinstr_loop (S (Z.to_nat max)) pagetable srcva max.

End Vm.
