(* ===== verification/PageTable.v ===== *)
(** * Page-table invariant and the theorems about kernel/vm.c's mapping code

    A ghost map [T : gmap Z nat] gives every page-table page its Sv39 level (a
    root is at level 2).  [pt_wf] says that the valid entries of a page at level
    [l+1] point to distinct pages of level [l].  [pt_leaf] is the abstract page
    table: the PTE that translates a virtual address, 0 when there is none. *)
From stdpp Require Import base gmap list numbers strings.
From Stdlib Require Import ZArith Lia.
From S2P Require Import Prelude Riscv Mem Kalloc Vm.
Open Scope Z_scope.

Definition pte (m : mem) (p i : Z) : Z := load64 m (p + 8 * i).

Fixpoint pt_leaf (m : mem) (p va : Z) (level : nat) : Z :=
  match level with
  | O => pte m p (PX 0 va)
  | S l =>
      let v := pte m p (PX (Z.of_nat level) va) in
      if has v PTE_V then pt_leaf m (PTE2PA v) va l else 0
  end.

(** The page of level 0 in which the entry for [va] sits. *)
Fixpoint pt_walk (m : mem) (p va : Z) (level : nat) : option Z :=
  match level with
  | O => Some p
  | S l =>
      let v := pte m p (PX (Z.of_nat level) va) in
      if has v PTE_V then pt_walk m (PTE2PA v) va l else None
  end.

Lemma pt_leaf_walk m p va l :
  pt_leaf m p va l =
  match pt_walk m p va l with Some t => pte m t (PX 0 va) | None => 0 end.
Proof. revert p; induction l as [|l IH]; intros p; cbn; [done|]. by case_bool. Qed.

Section PageTable.
Context {L : Linker} {LOk : LinkerOk L}.
Implicit Types (T : gmap Z nat).

(** An interior entry points to a page of the next level. *)
Definition slot_ok (m : mem) T (p : Z) (l : nat) (i : Z) : Prop :=
  has (pte m p i) PTE_V = true ->
  PTE_FLAGS (pte m p i) = PTE_V /\ T !! PTE2PA (pte m p i) = Some l.

(** [X] is a set of entries the invariant says nothing about: entries whose
    subtree is being torn down. *)
Record pt_wf_ex (m : mem) T (X : gset (Z * Z)) : Prop := {
  pw_pages : forall p l, T !! p = Some l -> page_ok p;
  pw_child : forall p l i,
    T !! p = Some (S l) -> 0 <= i < 512 -> (p, i) ∉ X -> slot_ok m T p l i;
  pw_inj : forall p l i p' l' i',
    T !! p = Some (S l) -> T !! p' = Some (S l') ->
    0 <= i < 512 -> 0 <= i' < 512 -> (p, i) ∉ X -> (p', i') ∉ X ->
    has (pte m p i) PTE_V = true -> has (pte m p' i') PTE_V = true ->
    PTE2PA (pte m p i) = PTE2PA (pte m p' i') -> p = p' /\ i = i'
}.

Abbreviation pt_wf m T := (pt_wf_ex m T ∅).

Lemma pt_child m T p l i :
  pt_wf m T -> T !! p = Some (S l) -> 0 <= i < 512 -> has (pte m p i) PTE_V = true ->
  T !! PTE2PA (pte m p i) = Some l.
Proof. intros Hwf Hp Hi V. by apply (pw_child _ _ _ Hwf p l i Hp Hi (not_elem_of_empty _)). Qed.

Lemma pt_inj m T p l i p' l' i' :
  pt_wf m T -> T !! p = Some (S l) -> T !! p' = Some (S l') ->
  0 <= i < 512 -> 0 <= i' < 512 ->
  has (pte m p i) PTE_V = true -> has (pte m p' i') PTE_V = true ->
  PTE2PA (pte m p i) = PTE2PA (pte m p' i') -> p = p' /\ i = i'.
Proof.
  intros Hwf Hp Hp' Hi Hi'.
  by apply (pw_inj _ _ _ Hwf p l i p' l' i'); try apply not_elem_of_empty.
Qed.

(** The allocator and the page tables together. *)
Record vm_inv_ex (s : kmem_st) (free : list Z) T (X : gset (Z * Z)) : Prop := {
  vi_kalloc : kalloc_inv s free;
  vi_wf : pt_wf_ex (kmem s) T X;
  vi_free : forall p, p ∈ free -> T !! p = None
}.

Abbreviation vm_inv s free T := (vm_inv_ex s free T ∅).

(** Memory outside the pages of [T] is unchanged. *)
Definition frame T (m m' : mem) : Prop :=
  forall x, (forall p l, T !! p = Some l -> ~ (p <= x < p + PGSIZE)) -> load8 m' x = load8 m x.

(** ** Entries and pages *)

Lemma slot_in_page i : 0 <= i < 512 -> 0 <= 8 * i /\ 8 * i + 8 <= PGSIZE.
Proof. unfold PGSIZE. lia. Qed.

Lemma pte_only_page p q m m' i :
  only_page p m m' -> page_ok p -> page_ok q -> p <> q -> 0 <= i < 512 ->
  pte m' q i = pte m q i.
Proof.
  intros H Hp Hq Hne Hi. apply (only_page_load64 p); [done|].
  destruct (aligned_disjoint p q (proj1 Hp) (proj1 Hq) Hne); unfold PGSIZE in *; lia.
Qed.

Lemma pte_store_eq m p i v : in_range 64 v -> pte (store64 m (p + 8 * i) v) p i = v.
Proof. apply load64_store64_eq. Qed.

Lemma pte_store_ne m p i q j v :
  page_ok p -> page_ok q -> 0 <= i < 512 -> 0 <= j < 512 -> (p, i) <> (q, j) ->
  pte (store64 m (p + 8 * i) v) q j = pte m q j.
Proof.
  intros Hp Hq Hi Hj Hne. destruct (decide (p = q)) as [->|Hpq].
  - apply load64_store64_ne. assert (i <> j) by congruence. lia.
  - apply (pte_only_page p); auto. by apply store64_only_page; apply slot_in_page.
Qed.

Lemma pte_memset0 m p i :
  0 <= i < 512 -> pte (CString.memset m p 0 PGSIZE) p i = 0.
Proof.
  intros Hi. unfold pte.
  rewrite (load64_ext _ (∅ : mem)).
  { by vm_compute. }
  intros x Hx. rewrite CStringFacts.load8_memset by done. unfold PGSIZE.
  destruct (Z.leb_spec p x), (Z.ltb_spec x (p + 4096)); cbn; try lia. done.
Qed.

(** ** Walking without allocation *)

Lemma walk_loop_noalloc p va l s :
  walk_loop p va false l s =
  Ok (match pt_walk (kmem s) p va l with Some t => t + 8 * PX 0 va | None => 0 end) s.
Proof.
  revert p; induction l as [|l IH]; intros p; [done|].
  cbn [walk_loop pt_walk]. unfold rd64, gets, bind. fold (pte (kmem s) p (PX (Z.of_nat (S l)) va)).
  case_bool; [apply IH | done].
Qed.

Lemma walk_noalloc p va s :
  va < MAXVA ->
  walk p va false s =
  Ok (match pt_walk (kmem s) p va 2 with Some t => t + 8 * PX 0 va | None => 0 end) s.
Proof.
  intros. unfold walk. destruct (Z.leb_spec MAXVA va); [lia|]. apply walk_loop_noalloc.
Qed.

Lemma pt_walk_level m T p va l t :
  pt_wf m T -> T !! p = Some l -> pt_walk m p va l = Some t -> T !! t = Some O.
Proof.
  intros Hwf. revert p; induction l as [|l IH]; intros p Hp; cbn [pt_walk]; [congruence|].
  case_bool; [|done]. apply IH.
  eauto using pt_child, PX_bound.
Qed.

(** Two walks that reach the same page took the same path. *)
Lemma pt_walk_inj m T p p' va va' l t :
  pt_wf m T -> T !! p = Some l -> T !! p' = Some l ->
  pt_walk m p va l = Some t -> pt_walk m p' va' l = Some t ->
  p = p' /\ forall k, 0 < k <= Z.of_nat l -> PX k va = PX k va'.
Proof.
  intros Hwf. revert p p'; induction l as [|l IH]; intros p p' Hp Hp'; cbn [pt_walk].
  - intros [= ->] [= ->]. split; [done | lia].
  - destruct (has (pte m p _) PTE_V) eqn:V; [|done].
    destruct (has (pte m p' _) PTE_V) eqn:V'; [|done]. intros W W'.
    pose proof (pt_child _ _ _ _ _ Hwf Hp (PX_bound _ va) V) as C.
    pose proof (pt_child _ _ _ _ _ Hwf Hp' (PX_bound _ va') V') as C'.
    destruct (IH _ _ C C' W W') as [E Hk].
    destruct (pt_inj _ _ _ _ _ _ _ _ Hwf Hp Hp' (PX_bound _ _) (PX_bound _ _) V V' E)
      as [-> Ei].
    split; [done|]. intros k Hk'. destruct (decide (k = Z.of_nat (S l))) as [->|]; [done|].
    apply Hk. lia.
Qed.

(** ** Writing the entry of a level-0 page *)

Lemma pt_walk_store_leaf m T t i v p va l :
  pt_wf m T -> T !! t = Some O -> 0 <= i < 512 -> T !! p = Some l ->
  pt_walk (store64 m (t + 8 * i) v) p va l = pt_walk m p va l.
Proof.
  intros Hwf Ht Hi. revert p; induction l as [|l IH]; intros p Hp; cbn [pt_walk]; [done|].
  rewrite pte_store_ne; eauto using pw_pages, PX_bound.
  - case_bool; [|done]. apply IH. eauto using pt_child, PX_bound.
  - intros [= -> ->]. congruence.
Qed.

Lemma pt_wf_store_leaf m T t i v :
  pt_wf m T -> T !! t = Some O -> 0 <= i < 512 -> pt_wf (store64 m (t + 8 * i) v) T.
Proof.
  intros Hwf Ht Hi. pose proof (pw_pages _ _ _ Hwf) as Hpg.
  assert (forall p l j, T !! p = Some (S l) -> 0 <= j < 512 ->
            pte (store64 m (t + 8 * i) v) p j = pte m p j) as E.
  { intros p l j Hp Hj. apply pte_store_ne; eauto. intros [= -> ->]. congruence. }
  split; [done| |].
  - intros p l j Hp Hj HX. unfold slot_ok. erewrite E by done.
    by apply (pw_child _ _ _ Hwf).
  - intros p l j p' l' j' Hp Hp' Hj Hj' HX HX'. erewrite !E by done.
    by eapply (pw_inj _ _ _ Hwf).
Qed.

Lemma pt_leaf_store_leaf m T t i v root root' va va' :
  pt_wf m T -> T !! root = Some 2%nat -> T !! root' = Some 2%nat ->
  pt_walk m root va 2 = Some t -> i = PX 0 va -> in_range 64 v ->
  0 <= va < MAXVA -> 0 <= va' < MAXVA ->
  pt_leaf (store64 m (t + 8 * i) v) root' va' 2 =
  if decide (root' = root /\ PGROUNDDOWN va' = PGROUNDDOWN va) then v
  else pt_leaf m root' va' 2.
Proof.
  intros Hwf Hr Hr' W -> Hv Hva Hva'.
  pose proof (pt_walk_level _ _ _ _ _ _ Hwf Hr W) as Ht.
  rewrite !pt_leaf_walk. erewrite pt_walk_store_leaf by eauto using PX_bound.
  case_decide as D.
  - destruct D as [-> E].
    assert (pt_walk m root va' 2 = pt_walk m root va 2) as ->.
    { cbn [pt_walk]. rewrite <- (PX_PGROUNDDOWN _ va'), E, PX_PGROUNDDOWN by lia.
      case_bool; [|done].
      by rewrite <- (PX_PGROUNDDOWN _ va'), E, PX_PGROUNDDOWN by lia. }
    rewrite W. rewrite <- (PX_PGROUNDDOWN 0 va'), E, PX_PGROUNDDOWN by lia.
    by apply pte_store_eq.
  - destruct (pt_walk m root' va' 2) as [t'|] eqn:W'; [|done].
    pose proof (pt_walk_level _ _ _ _ _ _ Hwf Hr' W') as Ht'.
    apply pte_store_ne; eauto using pw_pages, PX_bound.
    intros [= -> E0]. destruct D.
    destruct (pt_walk_inj _ _ _ _ _ _ _ _ Hwf Hr' Hr W' W) as [-> Hk].
    split; [done|]. apply PX_inj; auto; apply Hk; lia.
Qed.

(** ** Adding a page-table page *)

Section AddChild.
Context (m m1 : mem) (T : gmap Z nat) (p : Z) (l : nat) (i q : Z).
Hypothesis Hwf : pt_wf m T.
Hypothesis Hp : T !! p = Some (S l).
Hypothesis Hi : 0 <= i < 512.
Hypothesis Hinv : has (pte m p i) PTE_V = false.
Hypothesis Hq : page_ok q.
Hypothesis HqT : T !! q = None.
(** [m1]: the fresh page [q] is zeroed, nothing else changed. *)
Hypothesis Hm1 : only_page q m m1.
Hypothesis Hzero : forall j, 0 <= j < 512 -> pte m1 q j = 0.

Let m' := store64 m1 (p + 8 * i) (Z.lor (PA2PTE q) PTE_V).

Lemma child_q_range : 0 <= q < 2 ^ 64.
Proof.
  pose proof (page_ok_range q Hq). unfold PHYSTOP, KERNBASE, PGSIZE in *. lia.
Qed.

Lemma child_slot_new : pte m' p i = Z.lor (PA2PTE q) PTE_V.
Proof. apply pte_store_eq, pte_mk_range; [apply child_q_range | done]. Qed.

Lemma child_slot_pa : PTE2PA (Z.lor (PA2PTE q) PTE_V) = q.
Proof. apply PTE2PA_mk; [apply child_q_range | apply Hq | done]. Qed.

Lemma child_slot_flags : PTE_FLAGS (Z.lor (PA2PTE q) PTE_V) = PTE_V.
Proof. apply PTE_FLAGS_mk; [apply child_q_range | done]. Qed.

Lemma child_slot_valid : has (Z.lor (PA2PTE q) PTE_V) PTE_V = true.
Proof. rewrite has_flags by done. by rewrite child_slot_flags. Qed.

Lemma child_slot_old p0 l0 j :
  T !! p0 = Some l0 -> 0 <= j < 512 -> (p, i) <> (p0, j) -> pte m' p0 j = pte m p0 j.
Proof.
  intros Hp0 Hj Hne. unfold m'.
  rewrite pte_store_ne; eauto using pw_pages.
  apply (pte_only_page q); eauto using pw_pages. congruence.
Qed.

Lemma child_page_zero j : 0 <= j < 512 -> pte m' q j = 0.
Proof.
  intros Hj. unfold m'. rewrite pte_store_ne; eauto using pw_pages. congruence.
Qed.

Lemma child_slot_cases p0 l0 j :
  <[q := l]> T !! p0 = Some (S l0) -> 0 <= j < 512 -> has (pte m' p0 j) PTE_V = true ->
  (p0 = p /\ j = i /\ l0 = l /\ PTE2PA (pte m' p0 j) = q /\ PTE_FLAGS (pte m' p0 j) = PTE_V) \/
  (T !! p0 = Some (S l0) /\ pte m' p0 j = pte m p0 j /\ has (pte m p0 j) PTE_V = true /\
   T !! PTE2PA (pte m' p0 j) = Some l0).
Proof.
  intros Hl0 Hj V. destruct (decide (p0 = q)) as [->|Hne].
  { rewrite child_page_zero, has_0 in V by done. done. }
  rewrite lookup_insert_ne in Hl0 by done.
  destruct (decide ((p, i) = (p0, j))) as [[= <- <-]|Hne'].
  - left. rewrite Hp in Hl0. injection Hl0 as <-.
    rewrite child_slot_new. auto using child_slot_pa, child_slot_flags.
  - right. erewrite child_slot_old in V by eauto. erewrite child_slot_old by eauto.
    eauto using pt_child.
Qed.

Lemma add_child_wf : pt_wf m' (<[q := l]> T).
Proof.
  split.
  - intros p0 l0 H. apply lookup_insert_Some in H as [[<- _]|[_ H]]; eauto using pw_pages.
  - intros p0 l0 j H Hj HX V.
    destruct (child_slot_cases p0 l0 j H Hj V) as [(-> & -> & -> & E1 & E2)|(H' & E & V' & C)].
    + split; [done|]. rewrite E1. apply lookup_insert_eq.
    + split.
      * rewrite E. by apply (pw_child _ _ _ Hwf p0 l0 j H' Hj (not_elem_of_empty _)).
      * rewrite lookup_insert_ne by congruence. done.
  - intros p0 l0 j p0' l0' j' H H' Hj Hj' _ _ V V' E.
    destruct (child_slot_cases p0 l0 j H Hj V) as [(-> & -> & -> & E1 & _)|(H1 & E1 & V1 & C1)],
      (child_slot_cases p0' l0' j' H' Hj' V') as [(-> & -> & -> & E2 & _)|(H2 & E2 & V2 & C2)].
    + done.
    + congruence.
    + congruence.
    + apply (pt_inj m T p0 l0 j p0' l0' j'); congruence.
Qed.

Lemma pt_leaf_zero_page va l0 : pt_leaf m' q va l0 = 0.
Proof.
  destruct l0; cbn [pt_leaf]; [apply child_page_zero, PX_bound|].
  rewrite child_page_zero by apply PX_bound. by rewrite has_0.
Qed.

Lemma add_child_leaf p0 l0 va : T !! p0 = Some l0 -> pt_leaf m' p0 va l0 = pt_leaf m p0 va l0.
Proof.
  revert p0; induction l0 as [|l0 IH]; intros p0 H0; cbn [pt_leaf].
  - eapply child_slot_old; eauto using PX_bound. intros [= -> _]. congruence.
  - set (j := PX (Z.of_nat (S l0)) va).
    assert (0 <= j < 512) as Hj by apply PX_bound.
    destruct (decide ((p, i) = (p0, j))) as [[= <- <-]|Hne].
    + rewrite Hinv, child_slot_new, child_slot_valid, child_slot_pa. apply pt_leaf_zero_page.
    + erewrite child_slot_old by eauto. case_bool; [|done]. eauto using pt_child.
Qed.

Lemma add_child_frame : frame (<[q := l]> T) m m'.
Proof.
  intros x Hx. unfold m'.
  assert (q <> p) by congruence.
  pose proof (Hx p (S l)) as Hxp. pose proof (Hx q l) as Hxq.
  rewrite lookup_insert_ne in Hxp by done. rewrite lookup_insert_eq in Hxq.
  pose proof (store64_only_page m1 p (8 * i) (Z.lor (PA2PTE q) PTE_V)) as H1.
  rewrite H1; [apply Hm1; auto | apply slot_in_page; done .. | auto].
Qed.

End AddChild.

(** ** Growth: page-table pages taken from the free list *)

Record grow (s : kmem_st) (free : list Z) T (s' : kmem_st) (free' : list Z) (T' : gmap Z nat)
  : Prop := {
  gr_inv : vm_inv s' free' T';
  gr_sub : T ⊆ T';
  gr_used : exists used, free = used ++ free' /\
              forall p, is_Some (T' !! p) <-> is_Some (T !! p) \/ p ∈ used;
  gr_frame : frame T' (kmem s) (kmem s');
  gr_keep : forall p l j, T !! p = Some (S l) -> 0 <= j < 512 ->
              has (pte (kmem s) p j) PTE_V = true -> pte (kmem s') p j = pte (kmem s) p j
}.

Lemma frame_mono T T' m m' : T ⊆ T' -> frame T m m' -> frame T' m m'.
Proof.
  intros Hsub H x Hx. apply H. intros p l Hp. apply (Hx p l).
  by eapply lookup_weaken.
Qed.

Lemma frame_trans T m m' m'' : frame T m m' -> frame T m' m'' -> frame T m m''.
Proof. intros H1 H2 x Hx. by rewrite H2, H1. Qed.

Lemma grow_refl s free T : vm_inv s free T -> grow s free T s free T.
Proof.
  intros H. split; [done|done| |by intros x _|done]. exists []. split; [done|].
  intros p. split; [auto|]. intros [?|?%elem_of_nil]; done.
Qed.

Lemma grow_trans s free T s1 free1 T1 s2 free2 T2 :
  grow s free T s1 free1 T1 -> grow s1 free1 T1 s2 free2 T2 -> grow s free T s2 free2 T2.
Proof.
  intros [H1 H2 (u & Eu & Hu) H4 H5] [H1' H2' (u' & Eu' & Hu') H4' H5']. split.
  - done.
  - by etrans.
  - exists (u ++ u'). split; [rewrite <- app_assoc; congruence|].
    intros p. rewrite Hu', Hu, elem_of_app. tauto.
  - eapply frame_trans; [by eapply frame_mono | done].
  - intros p l j Hp Hj V. rewrite <- (H5 p l j) by done.
    apply (H5' p l j); [by eapply lookup_weaken | done | by rewrite (H5 p l j)].
Qed.

(** The allocation step of [walk]: take [q] off the free list, zero it and link
    it at entry [i] of [p]. *)
Lemma alloc_child s free T p l i :
  vm_inv s free T -> T !! p = Some (S l) -> 0 <= i < 512 ->
  has (pte (kmem s) p i) PTE_V = false ->
  match free with
  | [] => kalloc s = Ok 0 s
  | q :: free1 =>
      q <> 0 /\ exists s1, kalloc s = Ok q s1 /\
        let s2 := set_mem (store64 (CString.memset (kmem s1) q 0 PGSIZE) (p + 8 * i)
                             (Z.lor (PA2PTE q) PTE_V)) s1 in
        grow s free T s2 free1 (<[q := l]> T) /\
        pte (kmem s2) p i = Z.lor (PA2PTE q) PTE_V /\
        (forall p0 l0 va, T !! p0 = Some l0 ->
           pt_leaf (kmem s2) p0 va l0 = pt_leaf (kmem s) p0 va l0)
  end.
Proof.
  intros [Hk Hwf Hfr] Hp Hi V. destruct free as [|q free1]; [by apply kalloc_empty|].
  destruct (kalloc_cons s q free1 Hk) as (s1 & E & Hk1 & Hq & Hnin & Honly & _).
  assert (T !! q = None) as HqT by (apply Hfr; set_solver).
  assert (p ∉ q :: free1) as Hpf by (intros Hin; rewrite Hfr in Hp by done; done).
  pose proof (page_ok_pos q Hq). split; [lia|]. exists s1. split; [done|].
  set (m1 := CString.memset (kmem s1) q 0 PGSIZE).
  assert (only_page q (kmem s) m1) as Hm1
    by (eapply only_page_trans; [done | apply memset_only_page]).
  assert (forall j, 0 <= j < 512 -> pte m1 q j = 0) as Hz by (intros; by apply pte_memset0).
  cbn. split; [|split].
  - split.
    + split.
      * assert (kalloc_inv (set_mem m1 s1) free1) as Hk2.
        { apply (kalloc_inv_write s1 free1 q);
            [assumption | | apply memset_only_page | assumption | assumption].
          apply CStringFacts.byte_mem_memset, Hk1. }
        apply (kalloc_inv_write (set_mem m1 s1) free1 p); auto.
        -- apply byte_mem_store64. by destruct Hk2.
        -- by apply store64_only_page; apply slot_in_page.
        -- eauto using pw_pages.
        -- set_solver.
      * by apply (add_child_wf (kmem s)).
      * intros x Hx. rewrite lookup_insert_ne by (intros ->; done). apply Hfr. set_solver.
    + by apply insert_subseteq.
    + exists [q]. split; [done|]. intros x. rewrite list_elem_of_singleton.
      destruct (decide (x = q)) as [->|]; [rewrite lookup_insert_eq | rewrite lookup_insert_ne by done];
        naive_solver.
    + by apply (add_child_frame (kmem s)).
    + intros p0 l0 j Hp0 Hj V0. apply (child_slot_old (kmem s) _ T p l i q) with (l0 := S l0); auto.
      intros [= -> ->]. congruence.
  - by apply child_slot_new.
  - intros. by apply (add_child_leaf (kmem s) m1 T p l i q).
Qed.

Lemma walk_loop_alloc l s free T p va :
  vm_inv s free T -> T !! p = Some l ->
  exists r s' free' T',
    walk_loop p va true l s = Ok r s' /\ grow s free T s' free' T' /\
    (forall p0 l0 va', T !! p0 = Some l0 ->
       pt_leaf (kmem s') p0 va' l0 = pt_leaf (kmem s) p0 va' l0) /\
    (r = 0 /\ free' = [] \/
     exists t, r = t + 8 * PX 0 va /\ pt_walk (kmem s') p va l = Some t /\ T' !! t = Some O).
Proof.
  revert s free T p; induction l as [|l IH]; intros s free T p Hinv Hp; cbn [walk_loop pt_walk].
  { exists (p + 8 * PX 0 va), s, free, T. split; [done|].
    split; [by apply grow_refl|]. split; [done|]. right. eauto. }
  set (i := PX (Z.of_nat (S l)) va). assert (0 <= i < 512) as Hi by apply PX_bound.
  unfold rd64 at 1, gets, bind at 1. fold (pte (kmem s) p i).
  destruct (has (pte (kmem s) p i) PTE_V) eqn:V.
  - destruct (IH s free T (PTE2PA (pte (kmem s) p i)) Hinv) as (r & s' & free' & T' & E & Hg & Hl & Hr);
      [by eapply pt_child; [apply Hinv|..]|].
    exists r, s', free', T'. split; [done|]. split; [done|]. split; [done|].
    rewrite (gr_keep _ _ _ _ _ _ Hg p l i) by done. by rewrite V.
  - pose proof (alloc_child s free T p l i Hinv Hp Hi V) as HA.
    destruct free as [|q free1]; cbn [negb].
    { exists 0, s, [], T. erewrite bind_Ok by done. split; [done|].
      split; [by apply grow_refl|]. split; [done|]. by left. }
    destruct HA as (Hq0 & s1 & E1 & Hg1 & Hslot & Hl1).
    erewrite bind_Ok by done. destruct (Z.eqb_spec q 0); [contradiction|].
    unfold kmemset, wr64, modify. unfold bind at 1 2. cbn [kmem set_mem].
    match goal with |- context [walk_loop q va true l ?st] => set (s2 := st) end.
    change (set_mem (store64 (CString.memset (kmem s1) q 0 PGSIZE) (p + 8 * i)
                       (Z.lor (PA2PTE q) PTE_V)) s1) with s2 in Hg1, Hslot, Hl1.
    destruct (IH s2 free1 (<[q := l]> T) q) as (r & s' & free' & T' & E & Hg & Hl & Hr);
      [apply Hg1 | apply lookup_insert_eq |].
    assert (T ⊆ <[q := l]> T) as Hsub by apply Hg1.
    exists r, s', free', T'. split; [done|]. split; [by eapply grow_trans|]. split.
    + intros p0 l0 va' H0. rewrite Hl by (by eapply lookup_weaken). by apply Hl1.
    + assert (page_ok q) as Hq.
      { eapply pw_pages; [apply Hg1 | apply lookup_insert_eq]. }
      rewrite (gr_keep _ _ _ _ _ _ Hg p l i); [|by eapply lookup_weaken | done |].
      * rewrite Hslot.
        by rewrite child_slot_valid, child_slot_pa.
      * rewrite Hslot.
        by apply child_slot_valid.
Qed.

(** ** [mappages] *)

Definition mkpte (pa perm : Z) : Z := Z.lor (PA2PTE pa) (Z.lor perm PTE_V).

Lemma perm_V_range perm : 0 <= perm < 1024 -> 0 <= Z.lor perm PTE_V < 1024.
Proof.
  intros H. change PTE_V with 1. split; [apply Z.lor_nonneg; lia|].
  apply (Z.log2_lt_cancel _ 1024). rewrite Z.log2_lor by lia.
  apply Z.max_lub_lt; [|done]. destruct (decide (perm = 0)) as [->|]; [done|].
  apply (Z.log2_lt_pow2 perm 10); lia.
Qed.

Lemma mkpte_range pa perm : 0 <= pa < 2 ^ 64 -> 0 <= perm < 1024 -> in_range 64 (mkpte pa perm).
Proof. intros. apply pte_mk_range; [done|]. by apply perm_V_range. Qed.

Lemma mkpte_valid pa perm : 0 <= pa < 2 ^ 64 -> 0 <= perm < 1024 -> has (mkpte pa perm) PTE_V = true.
Proof. apply has_V_mk. Qed.

Lemma mkpte_pa pa perm :
  0 <= pa < 2 ^ 64 -> pa mod PGSIZE = 0 -> 0 <= perm < 1024 -> PTE2PA (mkpte pa perm) = pa.
Proof. intros. apply PTE2PA_mk; auto using perm_V_range. Qed.

Lemma mkpte_flags pa perm :
  0 <= pa < 2 ^ 64 -> 0 <= perm < 1024 -> PTE_FLAGS (mkpte pa perm) = Z.lor perm PTE_V.
Proof. intros. apply PTE_FLAGS_mk; auto using perm_V_range. Qed.

Lemma store_leaf_inv s free T t i v :
  vm_inv s free T -> T !! t = Some O -> 0 <= i < 512 ->
  vm_inv (set_mem (store64 (kmem s) (t + 8 * i) v) s) free T.
Proof.
  intros [Hk Hwf Hfr] Ht Hi. split; [|by apply pt_wf_store_leaf | done].
  apply (kalloc_inv_write s free t); [done | | | eauto using pw_pages |].
  - apply byte_mem_store64. apply Hk.
  - apply store64_only_page; by apply slot_in_page.
  - intros Hin. rewrite Hfr in Ht by done. done.
Qed.

Lemma store_leaf_frame m T t i v :
  T !! t = Some O -> 0 <= i < 512 -> frame T m (store64 m (t + 8 * i) v).
Proof.
  intros Ht Hi x Hx. apply load8_store64_out. specialize (Hx t O Ht).
  pose proof (slot_in_page i Hi). lia.
Qed.

Lemma store_leaf_grow s free T t i v :
  vm_inv s free T -> T !! t = Some O -> 0 <= i < 512 ->
  grow s free T (set_mem (store64 (kmem s) (t + 8 * i) v) s) free T.
Proof.
  intros Hinv Ht Hi. split; [by apply store_leaf_inv | done | | by apply store_leaf_frame |].
  - exists []. split; [done|]. intros p. split; [auto|]. intros [?|?%elem_of_nil]; done.
  - intros p l j Hp Hj _. apply pte_store_ne; [eapply pw_pages; [apply Hinv|done] ..| done | done |].
    intros [= -> ->]. congruence.
Qed.

Lemma leaf_addr_nonzero T m t va : pt_wf m T -> T !! t = Some O -> t + 8 * PX 0 va <> 0.
Proof.
  intros Hwf Ht. pose proof (page_ok_pos t (pw_pages _ _ _ Hwf t O Ht)).
  pose proof (PX_bound 0 va). lia.
Qed.

(** One iteration of [mappages]: [walk] finds or makes the entry, and the entry
    is filled. *)
Lemma mappages_step s free T root a pa perm :
  vm_inv s free T -> T !! root = Some 2%nat -> 0 <= a < MAXVA ->
  0 <= pa < 2 ^ 64 -> 0 <= perm < 1024 ->
  has (pt_leaf (kmem s) root a 2) PTE_V = false ->
  exists r s1 free1 T1,
    walk root a true s = Ok r s1 /\ grow s free T s1 free1 T1 /\
    (forall p0 l0 va', T !! p0 = Some l0 ->
       pt_leaf (kmem s1) p0 va' l0 = pt_leaf (kmem s) p0 va' l0) /\
    (r = 0 /\ free1 = [] \/
     r <> 0 /\ has (load64 (kmem s1) r) PTE_V = false /\
     let s2 := set_mem (store64 (kmem s1) r (mkpte pa perm)) s1 in
     grow s free T s2 free1 T1 /\
     forall root' va, T !! root' = Some 2%nat -> 0 <= va < MAXVA ->
       pt_leaf (kmem s2) root' va 2 =
       if decide (root' = root /\ PGROUNDDOWN va = PGROUNDDOWN a) then mkpte pa perm
       else pt_leaf (kmem s) root' va 2).
Proof.
  intros Hinv Hr Ha Hpa Hperm Hun. unfold walk. destruct (Z.leb_spec MAXVA a); [lia|].
  destruct (walk_loop_alloc 2 s free T root a Hinv Hr)
    as (r & s1 & free1 & T1 & E & Hg & Hl & Hres).
  exists r, s1, free1, T1. do 3 (split; [done|]).
  destruct Hres as [?|(t & -> & W & Ht)]; [by left|]. right.
  pose proof (gr_inv _ _ _ _ _ _ Hg) as Hinv1. pose proof (vi_wf _ _ _ _ Hinv1) as Hwf1.
  assert (T1 !! root = Some 2%nat) as Hr1 by (eapply lookup_weaken; [done | apply Hg]).
  split; [by eapply leaf_addr_nonzero|]. split.
  { rewrite <- (Hl root 2%nat a Hr), pt_leaf_walk, W in Hun. exact Hun. }
  split.
  - eapply grow_trans; [done|]. apply store_leaf_grow; auto using PX_bound.
  - intros root' va Hr' Hva.
    assert (T1 !! root' = Some 2%nat) as Hr1' by (eapply lookup_weaken; [done | apply Hg]).
    cbn [kmem set_mem].
    rewrite (pt_leaf_store_leaf _ T1 t (PX 0 a) _ root root' a va);
      auto using mkpte_range. case_decide; [done|]. by apply Hl.
Qed.

Lemma mappages_loop_ok k fuel s free T root a last pa perm :
  vm_inv s free T -> T !! root = Some 2%nat ->
  a mod PGSIZE = 0 -> 0 <= a -> last = a + Z.of_nat k * PGSIZE -> last < MAXVA ->
  0 <= pa -> pa + Z.of_nat k * PGSIZE < 2 ^ 64 -> 0 <= perm < 1024 -> (k < fuel)%nat ->
  (forall va, a <= va < last + PGSIZE -> has (pt_leaf (kmem s) root va 2) PTE_V = false) ->
  exists r s' free' T' n,
    mappages_loop fuel root a last pa perm s = Ok r s' /\ grow s free T s' free' T' /\
    (r = 0 /\ n = Z.of_nat k + 1 \/ r = -1 /\ 0 <= n <= Z.of_nat k /\ free' = []) /\
    forall root' va, T !! root' = Some 2%nat -> 0 <= va < MAXVA ->
      pt_leaf (kmem s') root' va 2 =
      if decide (root' = root /\ a <= va < a + n * PGSIZE)
      then mkpte (pa + (PGROUNDDOWN va - a)) perm
      else pt_leaf (kmem s) root' va 2.
Proof.
  revert fuel s free T a pa; induction k as [|k IH];
    intros fuel s free T a pa Hinv Hr Ha Ha0 Hlast HlM Hpa Hpa64 Hperm Hf Hun;
    (destruct fuel as [|fuel]; [lia|]); cbn [mappages_loop].
  all: destruct (mappages_step s free T root a pa perm Hinv Hr)
         as (r & s1 & free1 & T1 & E & Hg1 & Hl1 & Hres);
       [unfold PGSIZE in *; lia | unfold PGSIZE in *; lia | done
       | apply Hun; unfold PGSIZE in *; lia |].
  all: erewrite bind_Ok by done; destruct Hres as [[-> Hnil]|(Hr0 & HV & Hg2 & Hl2)].
  1,3: exists (-1), s1, free1, T1, 0; split; [done|]; split; [done|];
       split; [right; split; [done|]; split; [lia | done]|]; intros root' va Hr' Hva;
       (case_decide as D; [unfold PGSIZE in D; lia | by apply Hl1]).
  all: destruct (Z.eqb_spec r 0); [contradiction|].
  all: unfold rd64, gets; unfold bind at 1; rewrite HV; unfold wr64, modify; unfold bind at 1.
  all: fold (mkpte pa perm); cbn zeta in Hg2, Hl2.
  - destruct (Z.eqb_spec a last); [|lia].
    eexists 0, _, free1, T1, 1. split; [done|]. split; [done|]. split; [left; lia|].
    intros root' va Hr' Hva. rewrite Hl2 by done.
    pose proof (PGROUNDDOWN_bounds va). pose proof (PGROUNDDOWN_aligned va).
    rewrite (PGROUNDDOWN_id a) by done.
    repeat case_decide; unfold PGSIZE in *; try done; Z.div_mod_to_equations; try lia.
    f_equal. lia.
  - destruct (Z.eqb_spec a last); [unfold PGSIZE in *; lia|].
    set (s2 := set_mem (store64 (kmem s1) r (mkpte pa perm)) s1) in *.
    rewrite (u64_small (a + PGSIZE)) by
      (unfold PGSIZE in *; change MAXVA with (2 ^ 38) in HlM; lia).
    rewrite (u64_small (pa + PGSIZE)) by (unfold PGSIZE in *; lia).
    assert (T ⊆ T1) as Hsub by apply Hg2.
    destruct (IH fuel s2 free1 T1 (a + PGSIZE) (pa + PGSIZE))
      as (r' & s' & free' & T' & n' & E' & Hg' & Hres' & Hl').
    + apply Hg2.
    + by eapply lookup_weaken.
    + unfold PGSIZE in *. Z.div_mod_to_equations. lia.
    + unfold PGSIZE. lia.
    + lia.
    + done.
    + unfold PGSIZE. lia.
    + unfold PGSIZE in *. lia.
    + done.
    + lia.
    + intros va Hva. rewrite Hl2 by (done || unfold PGSIZE in *; change MAXVA with (2 ^ 38) in *;
        Z.div_mod_to_equations; lia).
      case_decide as D; [|apply Hun; unfold PGSIZE in *; lia].
      destruct D as [_ D]. rewrite (PGROUNDDOWN_id a) in D by done.
      pose proof (PGROUNDDOWN_bounds va). lia.
    + exists r', s', free', T', (n' + 1). split; [done|]. split; [by eapply grow_trans|].
      assert (0 <= n') by lia. split.
      { destruct Hres' as [[-> ->]|(-> & ? & ->)]; [left; lia | right; auto with lia]. }
      intros root' va Hr' Hva. rewrite Hl' by (done || by eapply lookup_weaken).
      rewrite Hl2 by done.
      pose proof (PGROUNDDOWN_bounds va). pose proof (PGROUNDDOWN_aligned va).
      rewrite (PGROUNDDOWN_id a) by done.
      repeat case_decide; unfold PGSIZE in *; try done; try (f_equal; lia);
        Z.div_mod_to_equations; lia.
Qed.

Lemma mappages_ok s free T root va size pa perm :
  vm_inv s free T -> T !! root = Some 2%nat ->
  0 <= va -> 0 < size -> va + size <= MAXVA ->
  0 <= pa -> pa + (va - PGROUNDDOWN va) + size <= 2 ^ 64 -> 0 <= perm < 1024 ->
  let a := PGROUNDDOWN va in
  let last := PGROUNDDOWN (va + size - 1) in
  (forall va, a <= va < last + PGSIZE -> has (pt_leaf (kmem s) root va 2) PTE_V = false) ->
  exists r s' free' T' n,
    mappages root va size pa perm s = Ok r s' /\ grow s free T s' free' T' /\
    (r = 0 /\ a + n * PGSIZE = last + PGSIZE \/
     r = -1 /\ 0 <= n /\ a + n * PGSIZE <= last /\ free' = []) /\
    forall root' va, T !! root' = Some 2%nat -> 0 <= va < MAXVA ->
      pt_leaf (kmem s') root' va 2 =
      if decide (root' = root /\ a <= va < a + n * PGSIZE)
      then mkpte (pa + (PGROUNDDOWN va - a)) perm
      else pt_leaf (kmem s) root' va 2.
Proof.
  intros Hinv Hr Hva Hsz HM Hpa Hpa64 Hperm a last Hun. unfold mappages.
  rewrite (u64_small (va + size - 1)) by (change MAXVA with (2 ^ 38) in *; lia).
  fold a last. unfold mappages_bound.
  pose proof (PGROUNDDOWN_bounds va). pose proof (PGROUNDDOWN_bounds (va + size - 1)).
  pose proof (PGROUNDDOWN_aligned va). pose proof (PGROUNDDOWN_aligned (va + size - 1)).
  pose proof (PGROUNDDOWN_nonneg va Hva). fold a in H, H1, H3. fold last in H0, H2.
  assert (a <= last) as Hle by (unfold PGSIZE in *; Z.div_mod_to_equations; lia).
  destruct (Z.leb_spec a last); [|lia].
  assert (last = a + Z.of_nat (Z.to_nat ((last - a) / PGSIZE)) * PGSIZE) as Elast.
  { rewrite Z2Nat.id by (apply Z.div_pos; unfold PGSIZE; lia).
    unfold PGSIZE in *; Z.div_mod_to_equations; lia. }
  destruct (mappages_loop_ok (Z.to_nat ((last - a) / PGSIZE))
              (S (Z.to_nat ((last - a) / PGSIZE))) s free T root a last pa perm)
    as (r & s' & free' & T' & n & E & Hg & Hres & Hl); auto; try lia.
  exists r, s', free', T', n. split; [done|]. split; [done|]. split; [|done].
  destruct Hres as [[-> ->]|(-> & Hn & ->)]; [left | right];
    repeat split; unfold PGSIZE in *; done || lia.
Qed.

(** ** Changes outside the page tables *)

Definition frameP (P : Z -> Prop) (m m' : mem) : Prop :=
  forall x, (forall p, P p -> ~ (p <= x < p + PGSIZE)) -> load8 m' x = load8 m x.

Lemma frame_frameP T m m' : frame T m m' <-> frameP (fun p => is_Some (T !! p)) m m'.
Proof.
  unfold frame, frameP. split; intros H x Hx; apply H.
  - intros p l Hp. apply Hx. eauto.
  - intros p [l Hp]. by apply (Hx p l).
Qed.

Lemma frameP_mono (P Q : Z -> Prop) m m' : (forall p, P p -> Q p) -> frameP P m m' -> frameP Q m m'.
Proof. intros HPQ H x Hx. apply H. intros p Hp. apply Hx. auto. Qed.

Lemma frameP_trans P m m' m'' : frameP P m m' -> frameP P m' m'' -> frameP P m m''.
Proof. intros H1 H2 x Hx. by rewrite H2, H1. Qed.

Lemma only_page_frameP p m m' : only_page p m m' <-> frameP (eq p) m m'.
Proof.
  unfold only_page, frameP. split; intros H x Hx; apply H.
  - by apply Hx.
  - intros q <-. done.
Qed.

Section Agree.
Context (m m' : mem) (T : gmap Z nat).
Hypothesis Hag : forall p l j, T !! p = Some l -> 0 <= j < 512 -> pte m' p j = pte m p j.

Lemma pt_wf_agree X : pt_wf_ex m T X -> pt_wf_ex m' T X.
Proof.
  intros [H1 H2 H3]. split; [done| |].
  - intros p l i Hp Hi HX. unfold slot_ok. rewrite (Hag p (S l)) by done. by apply H2.
  - intros p l i p' l' i' Hp Hp' Hi Hi' HX HX'.
    rewrite (Hag p (S l)), (Hag p' (S l')) by done. by eapply H3.
Qed.

Lemma pt_leaf_agree p l va : pt_wf m T -> T !! p = Some l -> pt_leaf m' p va l = pt_leaf m p va l.
Proof.
  intros Hwf. revert p; induction l as [|l IH]; intros p Hp; cbn [pt_leaf].
  - by eapply Hag; [|apply PX_bound].
  - rewrite (Hag p (S l)) by (done || apply PX_bound). case_bool; [|done].
    eauto using pt_child, PX_bound.
Qed.
End Agree.

Lemma pte_frameP P m m' T p l j :
  frameP P m m' -> pt_wf m T -> (forall q, P q -> page_ok q /\ T !! q = None) ->
  T !! p = Some l -> 0 <= j < 512 -> pte m' p j = pte m p j.
Proof.
  intros HF Hwf HP Hp Hj. apply load64_ext. intros x Hx. apply HF. intros q Hq.
  destruct (HP q Hq) as [Hqok HqT].
  pose proof (pw_pages _ _ _ Hwf p l Hp) as Hpok.
  assert (q <> p) as Hne by congruence.
  pose proof (aligned_disjoint q p (proj1 Hqok) (proj1 Hpok) Hne) as [|];
    unfold PGSIZE in *; lia.
Qed.

Lemma kfree_vm s free T p :
  vm_inv s free T -> page_ok p -> p ∉ free -> T !! p = None ->
  exists s', kfree p s = Ok tt s' /\ vm_inv s' (p :: free) T /\
    frameP (eq p) (kmem s) (kmem s') /\
    forall q l va, T !! q = Some l -> pt_leaf (kmem s') q va l = pt_leaf (kmem s) q va l.
Proof.
  intros [Hk Hwf Hfr] Hp Hnin HT.
  destruct (kfree_ok s p free Hk Hp Hnin) as (s' & E & Hk' & Honly).
  apply only_page_frameP in Honly.
  assert (forall q l j, T !! q = Some l -> 0 <= j < 512 ->
            pte (kmem s') q j = pte (kmem s) q j) as Hag.
  { intros. eapply pte_frameP; eauto. by intros ? <-. }
  exists s'. split; [done|]. split; [split|split; [done|]].
  - done.
  - by eapply pt_wf_agree.
  - intros q [->|Hq]%elem_of_cons; auto.
  - intros q l va Hq. by eapply pt_leaf_agree.
Qed.

(** ** [uvmunmap] *)

(** The pages [pgs] are mapped as leaves at [a], [a + PGSIZE], ... *)
Definition mapped_at (m : mem) (root a : Z) (pgs : list Z) : Prop :=
  forall j pg, pgs !! j = Some pg ->
    let v := pt_leaf m root (a + Z.of_nat j * PGSIZE) 2 in
    has v PTE_V = true /\ PTE_FLAGS v <> PTE_V /\ PTE2PA v = pg.

(** Pages that may be freed: managed, and neither free nor page-table pages. *)
Definition owned (free : list Z) T (pgs : list Z) : Prop :=
  NoDup pgs /\ forall pg, pg ∈ pgs -> page_ok pg /\ (pg ∉ free) /\ T !! pg = None.

Lemma mapped_at_tail m m' root a pg pgs :
  mapped_at m root a (pg :: pgs) ->
  (forall va, a + PGSIZE <= va < a + PGSIZE + Z.of_nat (length pgs) * PGSIZE ->
     pt_leaf m' root va 2 = pt_leaf m root va 2) ->
  mapped_at m' root (a + PGSIZE) pgs.
Proof.
  intros H Heq j pg' Hj. specialize (H (S j) pg' Hj).
  pose proof (lookup_lt_Some _ _ _ Hj).
  replace (a + Z.of_nat (S j) * PGSIZE) with (a + PGSIZE + Z.of_nat j * PGSIZE) in H
    by (unfold PGSIZE; lia).
  cbv zeta. rewrite Heq; [exact H | unfold PGSIZE; lia].
Qed.

Lemma owned_cons free T pg pgs : owned free T (pg :: pgs) -> owned (pg :: free) T pgs.
Proof.
  intros [Hnd H]. apply NoDup_cons in Hnd as [Hnin Hnd]. split; [done|].
  intros q Hq. destruct (H q) as (H1 & H2 & H3); [set_solver|]. split; [done|]. split; [|done].
  intros [->|?]%elem_of_cons; done.
Qed.

(** One iteration of [uvmunmap]. *)
Lemma uvmunmap_step (do_free : bool) s free T root a pg :
  vm_inv s free T -> T !! root = Some 2%nat -> 0 <= a < MAXVA ->
  let v := pt_leaf (kmem s) root a 2 in
  has v PTE_V = true -> PTE2PA v = pg -> 
  (do_free = true -> owned free T [pg]) ->
  exists t s2, pt_walk (kmem s) root a 2 = Some t /\ t + 8 * PX 0 a <> 0 /\
    ((if do_free then kfree pg else ret tt) ;; wr64 (t + 8 * PX 0 a) 0) s = Ok tt s2 /\
    vm_inv s2 (if do_free then pg :: free else free) T /\
    frameP (fun p => is_Some (T !! p) \/ do_free = true /\ p = pg) (kmem s) (kmem s2) /\
    forall root' va, T !! root' = Some 2%nat -> 0 <= va < MAXVA ->
      pt_leaf (kmem s2) root' va 2 =
      if decide (root' = root /\ PGROUNDDOWN va = PGROUNDDOWN a) then 0
      else pt_leaf (kmem s) root' va 2.
Proof.
  intros Hinv Hr Ha v HV HP Hown. unfold v in *. rewrite pt_leaf_walk in HV.
  destruct (pt_walk (kmem s) root a 2) as [t|] eqn:W; [|by rewrite has_0 in HV].
  pose proof (vi_wf _ _ _ _ Hinv) as Hwf.
  pose proof (pt_walk_level _ _ _ _ _ _ Hwf Hr W) as Ht.
  assert (exists s1, (if do_free then kfree pg else ret tt) s = Ok tt s1 /\
            vm_inv s1 (if do_free then pg :: free else free) T /\
            frameP (fun p => do_free = true /\ p = pg) (kmem s) (kmem s1) /\
            pt_walk (kmem s1) root a 2 = Some t /\
            forall q l va, T !! q = Some l -> pt_leaf (kmem s1) q va l = pt_leaf (kmem s) q va l)
    as (s1 & E1 & Hinv1 & HF1 & W1 & Hl1).
  { destruct do_free; [|exists s; do 2 (split; [done|]); split; [by intros x _ | done]].
    destruct (Hown eq_refl) as [_ Ho]. destruct (Ho pg) as (Hok & Hnin & HT); [set_solver|].
    destruct (kfree_vm s free T pg Hinv Hok Hnin HT) as (s1 & E & Hinv1 & HF & Hl).
    exists s1. split; [done|]. split; [done|]. split.
    { eapply frameP_mono; [|exact HF]. by intros ? <-. }
    split; [|done]. rewrite <- W. cbn [pt_walk].
    assert (forall p l j, T !! p = Some l -> 0 <= j < 512 ->
              pte (kmem s1) p j = pte (kmem s) p j) as Hag.
    { intros. eapply pte_frameP; eauto. by intros ? <-. }
    rewrite (Hag root 2%nat) by (done || apply PX_bound). case_bool; [|done].
    pose proof (pt_child _ _ _ _ _ Hwf Hr (PX_bound _ a) Heqb) as C.
    by rewrite (Hag _ 1%nat) by (done || apply PX_bound). }
  exists t. eexists. split; [done|]. split; [by eapply leaf_addr_nonzero|].
  split; [erewrite bind_Ok by done; done|]. cbn [kmem set_mem].
  split; [by apply store_leaf_inv; [| |apply PX_bound]|]. split.
  - eapply frameP_trans; [eapply frameP_mono; [|exact HF1]; auto|].
    eapply frameP_mono; [|apply frame_frameP, store_leaf_frame; [done | apply PX_bound]]; auto.
  - intros root' va Hr' Hva.
    rewrite (pt_leaf_store_leaf _ T t (PX 0 a) 0 root root' a va); auto; [|apply Hinv1|done].
    case_decide; [done|]. by apply Hl1.
Qed.

Lemma uvmunmap_loop_ok do_free pgs fuel s free T root a end_va :
  vm_inv s free T -> T !! root = Some 2%nat ->
  a mod PGSIZE = 0 -> 0 <= a -> end_va = a + Z.of_nat (length pgs) * PGSIZE ->
  end_va <= MAXVA -> (length pgs < fuel)%nat ->
  mapped_at (kmem s) root a pgs -> (do_free = true -> owned free T pgs) ->
  exists s', uvmunmap_loop fuel root a end_va do_free s = Ok tt s' /\
    vm_inv s' (if do_free then rev pgs ++ free else free) T /\
    frameP (fun p => is_Some (T !! p) \/ do_free = true /\ p ∈ pgs) (kmem s) (kmem s') /\
    forall root' va, T !! root' = Some 2%nat -> 0 <= va < MAXVA ->
      pt_leaf (kmem s') root' va 2 =
      if decide (root' = root /\ a <= va < end_va) then 0 else pt_leaf (kmem s) root' va 2.
Proof.
  revert fuel s free a; induction pgs as [|pg pgs IH];
    intros fuel s free a Hinv Hr Ha Ha0 Hend HM Hf Hmap Hown;
    (destruct fuel as [|fuel]; [lia|]); cbn [uvmunmap_loop length rev] in *.
  { destruct (Z.ltb_spec a end_va); [unfold PGSIZE in *; lia|].
    exists s. split; [done|]. split; [by destruct do_free|]. split; [by intros x _|].
    intros. case_decide; [lia | done]. }
  destruct (Z.ltb_spec a end_va); [|unfold PGSIZE in *; lia].
  destruct (Hmap O pg eq_refl) as (HV & HF & HP). rewrite Z.add_0_r in HV, HF, HP.
  destruct (uvmunmap_step do_free s free T root a pg) as (t & s2 & W & Hnz & E2 & Hinv2 & HF2 & Hl2);
    [done | done | lia | done | done | |].
  { intros Hdf. destruct (Hown Hdf) as [_ Ho]. split; [apply NoDup_singleton|].
    intros q ->%list_elem_of_singleton. apply Ho. set_solver. }
  rewrite pt_leaf_walk, W in HV, HF, HP.
  erewrite bind_Ok by (apply walk_noalloc; lia). rewrite W.
  destruct (Z.eqb_spec (t + 8 * PX 0 a) 0); [contradiction|].
  unfold rd64, gets; unfold bind at 1. fold (pte (kmem s) t (PX 0 a)). rewrite HV, HP.
  destruct (Z.eqb_spec (PTE_FLAGS (pte (kmem s) t (PX 0 a))) PTE_V); [contradiction|].
  cbn [negb]. rewrite <- bind_bind. erewrite bind_Ok by exact E2.
  rewrite (u64_small (a + PGSIZE)) by (change MAXVA with (2 ^ 38) in *; unfold PGSIZE in *; lia).
  destruct (IH fuel s2 (if do_free then pg :: free else free) (a + PGSIZE))
    as (s' & E' & Hinv' & HF' & Hl').
  - done.
  - done.
  - unfold PGSIZE in *. Z.div_mod_to_equations. lia.
  - unfold PGSIZE. lia.
  - unfold PGSIZE in *. lia.
  - done.
  - lia.
  - eapply mapped_at_tail; [done|]. intros va Hva. rewrite Hl2 by (done || unfold PGSIZE in *; lia).
    case_decide as D; [|done]. destruct D as [_ D]. rewrite (PGROUNDDOWN_id a) in D by done.
    pose proof (PGROUNDDOWN_bounds va). unfold PGSIZE in *. lia.
  - intros ->. apply owned_cons. auto.
  - exists s'. split; [done|]. split; [|split].
    + destruct do_free; [by rewrite <- app_assoc | done].
    + eapply frameP_trans; eapply frameP_mono; [|exact HF2| |exact HF']; cbn; intros q;
        rewrite elem_of_cons; tauto.
    + intros root' va Hr' Hva. rewrite Hl', Hl2 by done.
      pose proof (PGROUNDDOWN_bounds va). pose proof (PGROUNDDOWN_aligned va).
      rewrite (PGROUNDDOWN_id a) by done.
      repeat case_decide; unfold PGSIZE in *; try done; Z.div_mod_to_equations; lia.
Qed.

Lemma uvmunmap_ok do_free pgs s free T root va npages :
  vm_inv s free T -> T !! root = Some 2%nat ->
  va mod PGSIZE = 0 -> 0 <= va -> npages = Z.of_nat (length pgs) ->
  va + npages * PGSIZE <= MAXVA ->
  mapped_at (kmem s) root va pgs -> (do_free = true -> owned free T pgs) ->
  exists s', uvmunmap root va npages do_free s = Ok tt s' /\
    vm_inv s' (if do_free then rev pgs ++ free else free) T /\
    frameP (fun p => is_Some (T !! p) \/ do_free = true /\ p ∈ pgs) (kmem s) (kmem s') /\
    forall root' va', T !! root' = Some 2%nat -> 0 <= va' < MAXVA ->
      pt_leaf (kmem s') root' va' 2 =
      if decide (root' = root /\ va <= va' < va + npages * PGSIZE) then 0
      else pt_leaf (kmem s) root' va' 2.
Proof.
  intros Hinv Hr Ha Hva -> HM Hmap Hown. unfold uvmunmap.
  destruct (Z.eqb_spec (va mod PGSIZE) 0); [|lia]. cbn [negb].
  change MAXVA with (2 ^ 38) in HM.
  rewrite (u64_small (_ * _)) by (unfold PGSIZE in *; lia).
  rewrite u64_small by (unfold PGSIZE in *; lia).
  apply uvmunmap_loop_ok; auto. unfold uvmunmap_bound, PGSIZE.
  Z.div_mod_to_equations. lia.
Qed.

End PageTable.

Abbreviation pt_wf m T := (pt_wf_ex m T ∅).
Abbreviation vm_inv s free T := (vm_inv_ex s free T ∅).
