(* ===== verification/UserVm.v ===== *)
(** * kernel/vm.c: growing, shrinking, copying and freeing user memory

    Theorems about [uvmalloc], [uvmdealloc], [uvmcopy], [walkaddr], [copyout],
    [copyin] and [copyinstr], on top of the page-table invariant. *)
From stdpp Require Import base gmap list numbers strings sorting.
From Stdlib Require Import ZArith Lia.
From S2P Require Import Prelude Riscv Mem Kalloc Vm PageTable.
Open Scope Z_scope.

Section UserVm.
Context {L : Linker} {LOk : LinkerOk L}.
Implicit Types (T : gmap Z nat).

(** ** Pages taken from and returned to the allocator *)

Lemma page_disjoint_frame (P : Z -> Prop) m m' q x :
  frameP P m m' -> (forall p, P p -> page_ok p /\ p <> q) -> page_ok q ->
  q <= x < q + PGSIZE -> load8 m' x = load8 m x.
Proof.
  intros HF HP Hq Hx. apply HF. intros p Hp Hxp. destruct (HP p Hp) as [Hpok Hne].
  destruct (aligned_disjoint p q (proj1 Hpok) (proj1 Hq) Hne); lia.
Qed.

Lemma kalloc_vm s q free T :
  vm_inv s (q :: free) T ->
  q <> 0 /\ exists s1, kalloc s = Ok q s1 /\ vm_inv s1 free T /\ page_ok q /\ (q ∉ free) /\
    T !! q = None /\ frameP (eq q) (kmem s) (kmem s1) /\
    forall p l va, T !! p = Some l -> pt_leaf (kmem s1) p va l = pt_leaf (kmem s) p va l.
Proof.
  intros [Hk Hwf Hfr].
  destruct (kalloc_cons s q free Hk) as (s1 & E & Hk1 & Hq & Hnin & Honly & _).
  pose proof (page_ok_pos q Hq). split; [lia|].
  apply only_page_frameP in Honly.
  assert (T !! q = None) as HqT by (apply Hfr; set_solver).
  assert (forall p l j, T !! p = Some l -> 0 <= j < 512 ->
            pte (kmem s1) p j = pte (kmem s) p j) as Hag.
  { intros. eapply pte_frameP; eauto. by intros ? <-. }
  exists s1. split; [done|]. split; [split|].
  - done.
  - by eapply pt_wf_agree.
  - intros p Hp. apply Hfr. set_solver.
  - do 4 (split; [done|]). intros p l va Hp. by eapply pt_leaf_agree.
Qed.

(** Writing inside a page that is neither free nor a page-table page. *)
Lemma data_write s free T q m' :
  vm_inv s free T -> page_ok q -> q ∉ free -> T !! q = None ->
  byte_mem m' -> only_page q (kmem s) m' ->
  vm_inv (set_mem m' s) free T /\
  forall p l va, T !! p = Some l -> pt_leaf m' p va l = pt_leaf (kmem s) p va l.
Proof.
  intros [Hk Hwf Hfr] Hq Hnin HT Hb Ho.
  assert (forall p l j, T !! p = Some l -> 0 <= j < 512 ->
            pte m' p j = pte (kmem s) p j) as Hag.
  { intros. apply only_page_frameP in Ho. eapply pte_frameP; eauto. by intros ? <-. }
  split; [split|].
  - by apply (kalloc_inv_write s free q).
  - by eapply pt_wf_agree.
  - done.
  - intros p l va Hp. by eapply pt_leaf_agree.
Qed.

Definition zero_page (m : mem) (q : Z) : Prop := forall x, q <= x < q + PGSIZE -> load8 m x = 0.

Lemma zero_page_memset m q : zero_page (CString.memset m q 0 PGSIZE) q.
Proof.
  intros x Hx. rewrite CStringFacts.load8_memset by done.
  destruct (Z.leb_spec q x), (Z.ltb_spec x (q + PGSIZE)); cbn; done || lia.
Qed.

Lemma page_ok_pa q : page_ok q -> 0 <= q /\ q + PGSIZE <= 2 ^ 64.
Proof.
  intros H. pose proof (page_ok_range q H). unfold PHYSTOP, KERNBASE, PGSIZE in *. lia.
Qed.

(** [mappages] of one page. *)
Lemma mappages_one s free T root a pa perm :
  vm_inv s free T -> T !! root = Some 2%nat -> a mod PGSIZE = 0 -> 0 <= a ->
  a + PGSIZE <= MAXVA -> page_ok pa -> 0 <= perm < 1024 ->
  (forall va, a <= va < a + PGSIZE -> has (pt_leaf (kmem s) root va 2) PTE_V = false) ->
  exists r s' free' T',
    mappages root a PGSIZE pa perm s = Ok r s' /\ grow s free T s' free' T' /\
    (r = 0 /\ (forall root' va, T !! root' = Some 2%nat -> 0 <= va < MAXVA ->
        pt_leaf (kmem s') root' va 2 =
        if decide (root' = root /\ a <= va < a + PGSIZE) then mkpte pa perm
        else pt_leaf (kmem s) root' va 2) \/
     r = -1 /\ free' = [] /\ (forall root' va, T !! root' = Some 2%nat -> 0 <= va < MAXVA ->
        pt_leaf (kmem s') root' va 2 = pt_leaf (kmem s) root' va 2)).
Proof.
  intros Hinv Hr Ha Ha0 HM Hpa Hperm Hun.
  assert (PGROUNDDOWN (a + PGSIZE - 1) = a) as El.
  { rewrite PGROUNDDOWN_eq. unfold PGSIZE in *. Z.div_mod_to_equations. lia. }
  pose proof (page_ok_pa pa Hpa).
  destruct (mappages_ok s free T root a PGSIZE pa perm) as (r & s' & free' & T' & n & E & Hg & Hres & Hl);
    try done; try (unfold PGSIZE in *; lia).
  { rewrite PGROUNDDOWN_id by done. lia. }
  { rewrite El, PGROUNDDOWN_id by done. done. }
  rewrite El in Hres. rewrite (PGROUNDDOWN_id a) in * by done.
  exists r, s', free', T'. split; [done|]. split; [done|].
  destruct Hres as [[-> Hn]|(-> & Hn0 & Hn & ->)]; [left | right]; (split; [done|]).
  - assert (n = 1) as -> by (unfold PGSIZE in *; lia).
    intros root' va Hr' Hva. rewrite Hl, Z.mul_1_l by done. case_decide as D; [|done].
    f_equal. pose proof (PGROUNDDOWN_bounds va). pose proof (PGROUNDDOWN_aligned va).
    unfold PGSIZE in *. Z.div_mod_to_equations. lia.
  - split; [done|]. assert (n = 0) as -> by (unfold PGSIZE in *; lia).
    intros root' va Hr' Hva. rewrite Hl by done. case_decide; [lia | done].
Qed.

(** ** [uvmdealloc] *)

Lemma uvmdealloc_aligned pgs s free T root o :
  vm_inv s free T -> T !! root = Some 2%nat -> o mod PGSIZE = 0 -> 0 <= o ->
  o + Z.of_nat (length pgs) * PGSIZE <= MAXVA ->
  mapped_at (kmem s) root o pgs -> owned free T pgs ->
  exists s', uvmdealloc root (o + Z.of_nat (length pgs) * PGSIZE) o s = 
      Ok o s' /\
    vm_inv s' (rev pgs ++ free) T /\
    frameP (fun p => is_Some (T !! p) \/ p ∈ pgs) (kmem s) (kmem s') /\
    forall root' va', T !! root' = Some 2%nat -> 0 <= va' < MAXVA ->
      pt_leaf (kmem s') root' va' 2 =
      if decide (root' = root /\ o <= va' < o + Z.of_nat (length pgs) * PGSIZE) then 0
      else pt_leaf (kmem s) root' va' 2.
Proof.
  intros Hinv Hr Ho Ho0 HM Hmap Hown. unfold uvmdealloc.
  set (e := o + Z.of_nat (length pgs) * PGSIZE) in *.
  change MAXVA with (2 ^ 38) in *.
  assert (e mod PGSIZE = 0) as He by (unfold e, PGSIZE in *; Z.div_mod_to_equations; lia).
  destruct (Z.leb_spec e o).
  { assert (pgs = []) as -> by (destruct pgs; [done|]; cbn [length] in *; unfold e, PGSIZE in *; lia).
    exists s. cbn in e. assert (e = o) as -> by lia. split; [done|].
    split; [done|]. split; [by intros x _|]. intros. case_decide; [lia | done]. }
  rewrite !PGROUNDUP_id by (unfold PGSIZE in *; lia).
  destruct (Z.ltb_spec o e); [|lia].
  assert ((e - o) / PGSIZE = Z.of_nat (length pgs)) as En.
  { unfold e, PGSIZE in *. Z.div_mod_to_equations. lia. }
  rewrite En, i32_small, u64_small by (unfold e, PGSIZE in *; lia).
  destruct (uvmunmap_ok true pgs s free T root o (Z.of_nat (length pgs)))
    as (s' & E & Hinv' & HF & Hl); auto.
  exists s'. erewrite bind_Ok by done. split; [done|]. split; [done|]. split; [|done].
  eapply frameP_mono; [|exact HF]. intros p [?|[_ ?]]; auto.
Qed.

(** ** Allocate a page, fill it, map it

    The common body of [uvmalloc], [uvmcopy] and [uvminit]; [fill] is what the
    caller does to the new page. *)

Definition same_leaves T (m m' : mem) : Prop :=
  forall root va, T !! root = Some 2%nat -> 0 <= va < MAXVA ->
    pt_leaf m' root va 2 = pt_leaf m root va 2.

Definition leaves_set T (m m' : mem) (root a pte : Z) : Prop :=
  forall root' va, T !! root' = Some 2%nat -> 0 <= va < MAXVA ->
    pt_leaf m' root' va 2 =
    if decide (root' = root /\ a <= va < a + PGSIZE) then pte else pt_leaf m root' va 2.

Lemma alloc_map_ok (fill : Z -> mem -> mem) s q free T root a perm :
  vm_inv s (q :: free) T -> T !! root = Some 2%nat -> a mod PGSIZE = 0 -> 0 <= a ->
  a + PGSIZE <= MAXVA -> 0 <= perm < 1024 ->
  (forall va, a <= va < a + PGSIZE -> has (pt_leaf (kmem s) root va 2) PTE_V = false) ->
  (forall m, byte_mem m -> byte_mem (fill q m)) -> (forall m, byte_mem m -> only_page q m (fill q m)) ->
  q <> 0 /\ exists s1 r s2 free2 T2 tabs,
    kalloc s = Ok q s1 /\
    mappages root a PGSIZE q perm (set_mem (fill q (kmem s1)) s1) = Ok r s2 /\
    page_ok q /\ T !! q = None /\ T ⊆ T2 /\ free = tabs ++ free2 /\
    (forall p, is_Some (T2 !! p) <-> is_Some (T !! p) \/ p ∈ tabs) /\
    only_page q (kmem s) (kmem s1) /\
    frameP (fun p => is_Some (T2 !! p) \/ p = q) (kmem s) (kmem s2) /\
    (r = 0 /\ vm_inv s2 free2 T2 /\
       (forall x, q <= x < q + PGSIZE -> load8 (kmem s2) x = load8 (fill q (kmem s1)) x) /\
       leaves_set T (kmem s) (kmem s2) root a (mkpte q perm) \/
     r = -1 /\ exists s3, kfree q s2 = Ok tt s3 /\ vm_inv s3 (q :: free2) T2 /\
       frameP (fun p => is_Some (T2 !! p) \/ p = q) (kmem s) (kmem s3) /\
       same_leaves T (kmem s) (kmem s3)).
Proof.
  intros Hinv Hr Ha Ha0 HM Hperm Hun Hbyte Hfill.
  destruct (kalloc_vm s q free T Hinv) as (Hnz & s1 & E & Hinv1 & Hq & Hnin & HT & HF & Hl).
  split; [done|].
  destruct (data_write s1 free T q (fill q (kmem s1))) as [Hinv1' Hl']; try done.
  { apply Hbyte, Hinv1. } { apply Hfill, Hinv1. }
  set (s1' := set_mem (fill q (kmem s1)) s1) in *.
  destruct (mappages_one s1' free T root a q perm) as (r & s2 & free2 & T2 & Em & Hg & Hres); try done.
  { intros va Hva. cbn [kmem s1' set_mem]. rewrite Hl', Hl by done. by apply Hun. }
  destruct (gr_used _ _ _ _ _ _ Hg) as (tabs & Hfree & Hdom).
  exists s1, r, s2, free2, T2, tabs. do 4 (split; [done|]). split; [apply Hg|].
  do 2 (split; [done|]). split; [by apply only_page_frameP|].
  assert (T2 !! q = None) as HqT2.
  { apply eq_None_not_Some. rewrite Hdom. intros [[? ?]|?]; [congruence|]. set_solver. }
  assert (frameP (fun p => is_Some (T2 !! p) \/ p = q) (kmem s) (kmem s2)) as HF2.
  { eapply frameP_trans; [|eapply frameP_mono; [|apply frame_frameP, Hg]]; [|by left].
    eapply frameP_trans; [eapply frameP_mono; [|exact HF]|
      eapply frameP_mono; [|apply only_page_frameP, Hfill, Hinv1]]; by right. }
  split; [done|].
  assert (same_leaves T (kmem s) (kmem s1')) as Hl1.
  { intros r0 va Hr0 Hva. cbn [kmem s1' set_mem]. rewrite Hl', Hl by done. done. }
  destruct Hres as [[-> Hlv]|(-> & _ & Hlv)]; [left|right]; (split; [done|]).
  - split; [apply Hg|]. split.
    + intros x Hx. eapply (page_disjoint_frame _ (kmem s1') (kmem s2)); [apply frame_frameP, Hg| |done|done].
      intros p [l Hp]. split; [eapply pw_pages, Hp; apply Hg | congruence].
    + intros r0 va Hr0 Hva. rewrite Hlv by done. case_decide; [done|]. by apply Hl1.
  - destruct (kfree_vm s2 free2 T2 q) as (s3 & E3 & Hinv3 & HF3 & Hl3); try done.
    { apply Hg. } { set_solver. }
    exists s3. do 2 (split; [done|]). split.
    + eapply frameP_trans; [exact HF2|]. eapply frameP_mono; [|exact HF3]. by right.
    + intros r0 va Hr0 Hva. rewrite Hl3; [|eapply lookup_weaken, Hg; done].
      rewrite Hlv by done. by apply Hl1.
Qed.

(** ** The address space as a function

    [vmap m root va] is the valid leaf entry for [va], if there is one. *)

Definition vmap (m : mem) (root va : Z) : option Z :=
  let v := pt_leaf m root va 2 in if has v PTE_V then Some v else None.

Lemma vmap_Some m root va v : vmap m root va = Some v -> pt_leaf m root va 2 = v /\ has v PTE_V = true.
Proof. unfold vmap. case_bool; [|done]. intros [= <-]. done. Qed.

Lemma vmap_None m root va : vmap m root va = None -> has (pt_leaf m root va 2) PTE_V = false.
Proof. unfold vmap. by case_bool. Qed.

Lemma in_page_index o va : (va - o) / PGSIZE * PGSIZE <= va - o < (va - o) / PGSIZE * PGSIZE + PGSIZE.
Proof. unfold PGSIZE. Z.div_mod_to_equations. lia. Qed.

(** Pages [pgs], all free in the state [s0], have been filled and mapped one
    after the other from [o] on in the table [root], with permissions [perm j] and
    contents [content j] for the [j]-th one; page-table pages [tabs] came from
    the free list too; no other mapping and no other memory changed. *)
Section Prefix.
Context (s0 : kmem_st) (free0 : list Z) (T0 : gmap Z nat) (root o : Z).
Context (perm : nat -> Z) (content : nat -> Z -> Z).

Definition region_leaf (pgs : list Z) (va : Z) : option Z :=
  let j := Z.to_nat ((va - o) / PGSIZE) in
  (fun pg => mkpte pg (perm j)) <$> pgs !! j.

Record mapped_prefix (s : kmem_st) (free : list Z) T (pgs : list Z) : Prop := {
  mp_inv : vm_inv s free T;
  mp_sub : T0 ⊆ T;
  mp_pages : exists tabs, free0 ≡ₚ pgs ++ tabs ++ free /\
               forall p, is_Some (T !! p) <-> is_Some (T0 !! p) \/ p ∈ tabs;
  mp_leaf : forall root' va, T0 !! root' = Some 2%nat -> 0 <= va < MAXVA ->
    vmap (kmem s) root' va =
    if decide (root' = root /\ o <= va < o + Z.of_nat (length pgs) * PGSIZE)
    then region_leaf pgs va else vmap (kmem s0) root' va;
  mp_frame : frameP (fun p => is_Some (T0 !! p) \/ p ∈ free0) (kmem s0) (kmem s);
  mp_data : forall j pg, pgs !! j = Some pg ->
    forall x, 0 <= x < PGSIZE -> load8 (kmem s) (pg + x) = content j x
}.

Lemma mp_refl : vm_inv s0 free0 T0 -> mapped_prefix s0 free0 T0 [].
Proof.
  intros H. split; [done|done| | | |].
  - exists []. split; [done|]. set_solver.
  - intros. case_decide; [cbn in *; lia | done].
  - by intros x _.
  - done.
Qed.

Hypothesis Hinv0 : vm_inv s0 free0 T0.
Hypothesis Hroot : T0 !! root = Some 2%nat.
Hypothesis Ho : o mod PGSIZE = 0.
Hypothesis Ho0 : 0 <= o.
Hypothesis Hperm : forall j, 0 <= perm j < 1024 /\ Z.lor (perm j) PTE_V <> PTE_V.

Lemma mp_free0 p : p ∈ free0 -> page_ok p /\ T0 !! p = None.
Proof.
  intros Hp. destruct Hinv0 as [[_ _ _ Hpg] _ Hfr]. rewrite Forall_forall in Hpg. auto.
Qed.

Lemma mp_owned s free T pgs : mapped_prefix s free T pgs -> owned free T pgs.
Proof.
  intros [Hi _ (tabs & Hp & Hdom) _ _ _].
  pose proof (ki_nodup _ _ (vi_kalloc _ _ _ _ Hinv0)) as Hnd. rewrite Hp in Hnd.
  apply NoDup_app in Hnd as (Hnd1 & Hd1 & Hnd2). split; [done|].
  intros pg Hpg. assert (pg ∈ free0) as Hpg0 by (rewrite Hp; set_solver).
  destruct (mp_free0 pg Hpg0) as [Hok HT0]. split; [done|]. specialize (Hd1 pg Hpg).
  split; [set_solver|]. apply eq_None_not_Some. rewrite Hdom.
  intros [[? ?]|?]; [congruence | set_solver].
Qed.

Lemma mp_mapped_at s free T pgs :
  mapped_prefix s free T pgs -> o + Z.of_nat (length pgs) * PGSIZE <= MAXVA ->
  mapped_at (kmem s) root o pgs.
Proof.
  intros H HM j pg Hj. pose proof (lookup_lt_Some _ _ _ Hj).
  pose proof (mp_owned _ _ _ _ H) as [_ Hown].
  destruct (Hown pg) as (Hok & _); [by eapply list_elem_of_lookup_2|].
  pose proof (page_ok_pa pg Hok). destruct (Hperm j) as [Hp1 Hp2].
  pose proof (mp_leaf _ _ _ _ H root (o + Z.of_nat j * PGSIZE) Hroot) as HL.
  rewrite decide_True in HL by (split; [done | unfold PGSIZE in *; nia]).
  unfold region_leaf in HL.
  replace (Z.to_nat ((o + Z.of_nat j * PGSIZE - o) / PGSIZE)) with j in HL
    by (unfold PGSIZE; Z.div_mod_to_equations; lia).
  rewrite Hj in HL. apply vmap_Some in HL as [HL HV]; [|unfold PGSIZE in *; nia].
  cbv zeta. rewrite HL. split; [done|]. destruct Hok as [Hal _].
  rewrite mkpte_flags, mkpte_pa by (done || (unfold PGSIZE in *; lia)). done.
Qed.

(** Unmapping the region again gives its pages back and restores the mapping. *)
Lemma mp_undo s free T pgs s' :
  mapped_prefix s free T pgs ->
  (forall va, o <= va < o + Z.of_nat (length pgs) * PGSIZE -> vmap (kmem s0) root va = None) ->
  vm_inv s' (rev pgs ++ free) T ->
  frameP (fun p => is_Some (T !! p) \/ p ∈ pgs) (kmem s) (kmem s') ->
  (forall root' va', T !! root' = Some 2%nat -> 0 <= va' < MAXVA ->
    pt_leaf (kmem s') root' va' 2 =
    if decide (root' = root /\ o <= va' < o + Z.of_nat (length pgs) * PGSIZE) then 0
    else pt_leaf (kmem s) root' va' 2) ->
  mapped_prefix s' (rev pgs ++ free) T [].
Proof.
  intros [Hi Hsub (tabs & Hp & Hdom) Hlf HF Hd] Hun Hi' HF' Hl'. split; try done.
  - exists tabs. split; [|done]. rewrite Hp. cbn [app]. rewrite <- (Permutation_rev pgs).
    apply Permutation_app_swap_app.
  - intros root' va Hr' Hva. rewrite (decide_False (P := root' = root /\ _)) by (cbn; lia).
    unfold vmap at 1. rewrite Hl' by (done || by eapply lookup_weaken).
    case_decide as D; [destruct D as [-> D]; by rewrite Hun|].
    specialize (Hlf root' va Hr' Hva). rewrite decide_False in Hlf by done. exact Hlf.
  - eapply frameP_trans; [exact HF|]. eapply frameP_mono; [|exact HF'].
    intros p. cbv beta. rewrite Hdom, Hp. set_solver.
Qed.

(** One more page. *)
Lemma mp_snoc s q free T pgs s2 free2 T2 tabs2 :
  mapped_prefix s (q :: free) T pgs ->
  vm_inv s2 free2 T2 -> T ⊆ T2 -> free = tabs2 ++ free2 ->
  (forall p, is_Some (T2 !! p) <-> is_Some (T !! p) \/ p ∈ tabs2) ->
  frameP (fun p => is_Some (T2 !! p) \/ p = q) (kmem s) (kmem s2) ->
  leaves_set T (kmem s) (kmem s2) root (o + Z.of_nat (length pgs) * PGSIZE)
    (mkpte q (perm (length pgs))) ->
  (forall x, 0 <= x < PGSIZE -> load8 (kmem s2) (q + x) = content (length pgs) x) ->
  mapped_prefix s2 free2 T2 (pgs ++ [q]).
Proof.
  intros H Hi2 Hsub2 Hfree Hdom2 HF2 Hl2 Hc2.
  pose proof (mp_owned _ _ _ _ H) as [_ Hown].
  destruct H as [Hi Hsub (tabs & Hp & Hdom) Hlf HF Hd].
  assert (q ∈ free0) as Hq0 by (rewrite Hp; set_solver).
  destruct (mp_free0 q Hq0) as [Hqok _]. pose proof (page_ok_pa q Hqok).
  split; [done|by etrans| | | |].
  - exists (tabs ++ tabs2). split; [|intros p; rewrite Hdom2, Hdom; set_solver].
    rewrite Hp, Hfree, <- !app_assoc. f_equiv. cbn. by rewrite <- Permutation_middle.
  - intros root' va Hr' Hva. unfold vmap at 1.
    rewrite Hl2 by (done || by eapply lookup_weaken).
    rewrite length_app. cbn [length]. pose proof (in_page_index o va) as Hj.
    unfold region_leaf. set (j := (va - o) / PGSIZE) in *.
    case_decide as D1.
    + rewrite decide_True by (unfold PGSIZE in *; lia).
      assert (Z.to_nat j = length pgs) as -> by (unfold PGSIZE in *; lia).
      rewrite list_lookup_middle by done. cbn. rewrite mkpte_valid by (done || apply Hperm || lia). done.
    + trans (vmap (kmem s) root' va); [done|]. rewrite Hlf by done.
      case_decide as D2; [rewrite decide_True by (unfold PGSIZE in *; lia)|
                          rewrite decide_False by (unfold PGSIZE in *; lia); done].
      unfold region_leaf. fold j. by rewrite lookup_app_l by (unfold PGSIZE in *; lia).
  - eapply frameP_trans; [exact HF|]. eapply frameP_mono; [|exact HF2].
    intros p. cbv beta. rewrite Hdom2, Hdom, Hp. set_solver.
  - intros j pg [Hj|[Hj Ej]]%lookup_app_Some x Hx.
    + rewrite <- (Hd j pg Hj x Hx). destruct (Hown pg) as (Hok & Hnf & HnT); [by eapply list_elem_of_lookup_2|].
      eapply page_disjoint_frame; [exact HF2| |exact Hok|lia].
      intros p [Hp2| ->]; [|split; [done|set_solver]]. split.
      * destruct Hp2 as [l Hl]. eapply pw_pages, Hl; apply Hi2.
      * intros ->. apply Hdom2 in Hp2 as [[? ?]|?]; [congruence | set_solver].
    + apply list_lookup_singleton_Some in Ej as [E1 <-].
      assert (j = length pgs) as -> by lia. auto.
Qed.

(** A page was allocated and freed again, with page-table pages left behind. *)
Lemma mp_same s q free T pgs s2 free2 T2 tabs2 :
  mapped_prefix s (q :: free) T pgs ->
  vm_inv s2 (q :: free2) T2 -> T ⊆ T2 -> free = tabs2 ++ free2 ->
  (forall p, is_Some (T2 !! p) <-> is_Some (T !! p) \/ p ∈ tabs2) ->
  frameP (fun p => is_Some (T2 !! p) \/ p = q) (kmem s) (kmem s2) ->
  same_leaves T (kmem s) (kmem s2) ->
  mapped_prefix s2 (q :: free2) T2 pgs.
Proof.
  intros H Hi2 Hsub2 Hfree Hdom2 HF2 Hl2.
  pose proof (mp_owned _ _ _ _ H) as [_ Hown].
  destruct H as [Hi Hsub (tabs & Hp & Hdom) Hlf HF Hd].
  split; [done|by etrans| | | |].
  - exists (tabs ++ tabs2). split; [|intros p; rewrite Hdom2, Hdom; set_solver].
    rewrite Hp, Hfree, <- !app_assoc. do 2 f_equiv. by rewrite <- Permutation_middle.
  - intros root' va Hr' Hva. unfold vmap at 1.
    rewrite Hl2 by (done || by eapply lookup_weaken). by apply Hlf.
  - eapply frameP_trans; [exact HF|]. eapply frameP_mono; [|exact HF2].
    intros p. cbv beta. rewrite Hdom2, Hdom, Hp. set_solver.
  - intros j pg Hj x Hx. rewrite <- (Hd j pg Hj x Hx).
    destruct (Hown pg) as (Hok & Hnf & HnT); [by eapply list_elem_of_lookup_2|].
    eapply page_disjoint_frame; [exact HF2| |exact Hok|lia].
    intros p [Hp2| ->].
    + split; [destruct Hp2 as [l Hl]; eapply pw_pages, Hl; apply Hi2|].
      intros ->. apply Hdom2 in Hp2 as [[? ?]|?]; [congruence | set_solver].
    + split; [|set_solver]. apply mp_free0. rewrite Hp. set_solver.
Qed.

(** The next page of the region is still unmapped. *)
Lemma mp_next_unmapped s free T pgs va :
  mapped_prefix s free T pgs -> va < MAXVA ->
  o + Z.of_nat (length pgs) * PGSIZE <= va -> vmap (kmem s0) root va = None ->
  has (pt_leaf (kmem s) root va 2) PTE_V = false.
Proof.
  intros H HM Hva Hun. apply vmap_None.
  rewrite (mp_leaf _ _ _ _ H), decide_False by (unfold PGSIZE in *; lia || done). done.
Qed.

(** One iteration: allocate, fill and map the next page, or fail and free it. *)
Lemma mp_page (fill : Z -> mem -> mem) s q free T pgs :
  mapped_prefix s (q :: free) T pgs ->
  let a := o + Z.of_nat (length pgs) * PGSIZE in
  a + PGSIZE <= MAXVA ->
  (forall va, a <= va < a + PGSIZE -> vmap (kmem s0) root va = None) ->
  (forall m, byte_mem m -> byte_mem (fill q m)) ->
  (forall m, byte_mem m -> only_page q m (fill q m)) ->
  (forall m x, page_ok q -> byte_mem m -> only_page q (kmem s) m -> 0 <= x < PGSIZE ->
     load8 (fill q m) (q + x) = content (length pgs) x) ->
  q <> 0 /\ exists s1 r s2,
    kalloc s = Ok q s1 /\
    mappages root a PGSIZE q (perm (length pgs)) (set_mem (fill q (kmem s1)) s1) = Ok r s2 /\
    (r = 0 /\ (exists free2 T2, mapped_prefix s2 free2 T2 (pgs ++ [q])) \/
     r = -1 /\ exists s3 free3 T3, kfree q s2 = Ok tt s3 /\ mapped_prefix s3 free3 T3 pgs).
Proof.
  intros H a HM Hun Hbyte Hfill Hcontent.
  destruct (alloc_map_ok fill s q free T root a (perm (length pgs)))
    as (Hnz & s1 & r & s2 & free2 & T2 & tabs & Ek & Em & Hq & HqT & Hsub & Hfree & Hdom & Ho1 & HF & Hres).
  { apply H. } { eapply lookup_weaken, H. done. }
  { unfold a, PGSIZE in *. Z.div_mod_to_equations. lia. }
  { unfold a, PGSIZE in *. lia. } { done. } { apply Hperm. }
  { intros va Hva. eapply mp_next_unmapped; [exact H|lia|unfold a in *; lia|auto]. }
  { done. } { done. }
  split; [done|]. exists s1, r, s2. split; [done|]. split; [done|].
  destruct Hres as [(-> & Hi2 & Hdata & Hl)|(-> & s3 & E3 & Hi3 & HF3 & Hl3)]; [left|right]; (split; [done|]).
  - exists free2, T2. eapply mp_snoc; eauto. intros x Hx. rewrite Hdata by lia.
    destruct (kalloc_cons s q free (vi_kalloc _ _ _ _ (mp_inv _ _ _ _ H))) as (s1' & Ek' & Hk1 & _).
    rewrite Ek in Ek'. injection Ek' as <-. apply Hcontent; auto. apply Hk1.
  - exists s3, (q :: free2), T2. split; [done|]. by eapply mp_same.
Qed.

End Prefix.

Arguments mp_inv {_ _ _ _ _ _ _ _ _ _ _} _.
Arguments mp_sub {_ _ _ _ _ _ _ _ _ _ _} _.
Arguments mp_leaf {_ _ _ _ _ _ _ _ _ _ _} _.
Arguments mp_pages {_ _ _ _ _ _ _ _ _ _ _} _.
Arguments mp_frame {_ _ _ _ _ _ _ _ _ _ _} _.
Arguments mp_data {_ _ _ _ _ _ _ _ _ _ _} _.
Arguments mp_owned {_ _ _ _ _ _ _} _ _ _ _ _ {_ _ _ _} _.
Arguments mp_mapped_at {_ _ _ _ _ _ _} _ _ _ _ _ {_ _ _ _} _ _.
Arguments mp_undo {_ _ _ _ _ _ _} _ _ _ _ _ {_ _ _ _ _} _ _ _ _ _.
Arguments mp_page {_ _ _ _ _ _ _} _ _ _ _ _ _ {_ _ _ _ _} _ _ _ _ _ _.

Lemma PTE_WXRU_perm : 0 <= PTE_WXRU < 1024 /\ Z.lor PTE_WXRU PTE_V <> PTE_V.
Proof. done. Qed.

(** ** [uvmalloc] *)

Section Uvmalloc.
Context (s0 : kmem_st) (free0 : list Z) (T0 : gmap Z nat) (root o newsz : Z).
Hypothesis Hinv0 : vm_inv s0 free0 T0.
Hypothesis Hroot : T0 !! root = Some 2%nat.
Hypothesis Ho : o mod PGSIZE = 0.
Hypothesis Ho0 : 0 <= o.

Let zeroed := mapped_prefix s0 free0 T0 root o (fun _ => PTE_WXRU) (fun _ _ => 0).

Lemma uvmalloc_undo s free T pgs :
  zeroed s free T pgs -> o + Z.of_nat (length pgs) * PGSIZE <= MAXVA ->
  (forall va, o <= va < o + Z.of_nat (length pgs) * PGSIZE -> vmap (kmem s0) root va = None) ->
  exists s' free', uvmdealloc root (o + Z.of_nat (length pgs) * PGSIZE) o s = Ok o s' /\
    zeroed s' free' T [].
Proof.
  intros H HM Hun. pose proof PTE_WXRU_perm as HP.
  destruct (uvmdealloc_aligned pgs s free T root o) as (s' & E & Hi & HF & Hl); try done.
  - apply H.
  - eapply lookup_weaken, (mp_sub H). done.
  - by apply (mp_mapped_at Hinv0 Hroot Ho Ho0 (fun _ => HP) H).
  - apply (mp_owned Hinv0 Hroot Ho Ho0 (fun _ => HP) H).
  - exists s', (rev pgs ++ free). split; [done|].
    apply (mp_undo Hinv0 Hroot Ho Ho0 (fun _ => HP) H Hun Hi HF Hl).
Qed.

Lemma uvmalloc_loop_ok k fuel s free T pgs :
  zeroed s free T pgs ->
  let a := o + Z.of_nat (length pgs) * PGSIZE in
  newsz <= a + Z.of_nat k * PGSIZE < newsz + PGSIZE \/ k = O /\ newsz <= a ->
  a + Z.of_nat k * PGSIZE <= MAXVA -> (k < fuel)%nat ->
  (forall va, o <= va < a + Z.of_nat k * PGSIZE -> vmap (kmem s0) root va = None) ->
  exists r s' free' T' pgs', uvmalloc_loop fuel root a o newsz s = Ok r s' /\
    zeroed s' free' T' pgs' /\
    (r = newsz /\ length pgs' = (length pgs + k)%nat \/ r = 0 /\ pgs' = []).
Proof.
  revert fuel s free T pgs. induction k as [|k IH]; intros [|fuel] s free T pgs H a Hk HM Hfuel Hun;
    try lia; cbn [uvmalloc_loop].
  { destruct (Z.ltb_spec a newsz); [lia|]. exists newsz, s, free, T, pgs. split; [done|].
    split; [done|]. left. split; [done|lia]. }
  destruct (Z.ltb_spec a newsz); [|unfold PGSIZE in *; lia].
  assert (forall s free T, zeroed s free T pgs ->
    exists s' free', uvmdealloc root a o s = Ok o s' /\ zeroed s' free' T []) as Hundo.
  { intros s' free' T' H'. apply (uvmalloc_undo s' free' T' pgs H'); [unfold PGSIZE in *; lia|].
    intros va Hva. apply Hun. unfold PGSIZE in *; lia. }
  destruct free as [|q free].
  { pose proof (kalloc_empty s (vi_kalloc _ _ _ _ (mp_inv H))) as Ek.
    erewrite bind_Ok by exact Ek. cbn [Z.eqb].
    destruct (Hundo _ _ _ H) as (s' & free' & E & H'). erewrite bind_Ok by exact E.
    exists 0, s', free', T, []. split; [done|]. split; [done|]. by right. }
  destruct (mp_page Hinv0 Hroot Ho Ho0 (fun _ => PTE_WXRU_perm)
              (fun q m => CString.memset m q 0 PGSIZE) H) as (Hnz & s1 & r & s2 & Ek & Em & Hres).
  { fold a. unfold PGSIZE in *. lia. }
  { intros va Hva. apply Hun. unfold a, PGSIZE in *. lia. }
  { intros. apply CStringFacts.byte_mem_memset; assumption. }
  { intros m _. apply memset_only_page. }
  { intros m x _ _ _ Hx. apply zero_page_memset. lia. }
  erewrite bind_Ok by exact Ek. destruct (Z.eqb_spec q 0); [done|].
  erewrite bind_Ok by reflexivity. erewrite bind_Ok by exact Em.
  destruct Hres as [(-> & free2 & T2 & H2)|(-> & s3 & free3 & T3 & E3 & H3)]; cbn [Z.eqb negb].
  - replace (u64 (a + PGSIZE)) with (o + Z.of_nat (length (pgs ++ [q])) * PGSIZE).
    2:{ change MAXVA with (2 ^ 38) in *. rewrite length_app, u64_small by (unfold a, PGSIZE in *; lia).
        unfold a, PGSIZE. cbn. lia. }
    destruct (IH fuel s2 free2 T2 (pgs ++ [q]) H2) as (r & s' & free' & T' & pgs' & E & H' & Hr);
      rewrite ?length_app in *; cbn [length] in *; try (unfold a, PGSIZE in *; lia).
    { intros va Hva. apply Hun. unfold a, PGSIZE in *. lia. }
    exists r, s', free', T', pgs'. split; [done|]. split; [done|].
    destruct Hr as [[-> ?]|?]; [left; split; [done|lia] | by right].
  - erewrite bind_Ok by exact E3. destruct (Hundo _ _ _ H3) as (s' & free' & E & H').
    erewrite bind_Ok by exact E. exists 0, s', free', T3, []. split; [done|]. split; [done|]. by right.
Qed.

End Uvmalloc.

(** [uvmalloc]: on success the new part of the address space is mapped to
    zeroed pages that were free; on failure nothing stays mapped. *)
Lemma uvmalloc_ok s free T root oldsz newsz :
  vm_inv s free T -> T !! root = Some 2%nat -> 0 <= oldsz <= newsz -> newsz <= MAXVA ->
  (forall va, PGROUNDUP oldsz <= va < PGROUNDUP newsz -> vmap (kmem s) root va = None) ->
  exists r s' free' T' pgs, uvmalloc root oldsz newsz s = Ok r s' /\
    mapped_prefix s free T root (PGROUNDUP oldsz) (fun _ => PTE_WXRU) (fun _ _ => 0) s' free' T' pgs /\
    (r = newsz /\ PGROUNDUP oldsz + Z.of_nat (length pgs) * PGSIZE = PGROUNDUP newsz \/
     r = 0 /\ pgs = []).
Proof.
  intros Hinv Hr Hsz HM Hun. unfold uvmalloc. destruct (Z.ltb_spec newsz oldsz); [lia|].
  assert (MAXVA mod PGSIZE = 0) as HMa by done. change MAXVA with (2 ^ 38) in *.
  pose proof (PGROUNDUP_bounds oldsz ltac:(lia) ltac:(unfold PGSIZE; lia)).
  pose proof (PGROUNDUP_bounds newsz ltac:(lia) ltac:(unfold PGSIZE; lia)).
  pose proof (PGROUNDUP_aligned oldsz). pose proof (PGROUNDUP_aligned newsz).
  set (o := PGROUNDUP oldsz) in *. set (e := PGROUNDUP newsz) in *.
  assert (o + Z.of_nat (Z.to_nat ((e - o) / PGSIZE)) * PGSIZE = e) as Ek
    by (unfold PGSIZE in *; Z.div_mod_to_equations; lia).
  assert (e <= 2 ^ 38) by (unfold PGSIZE in *; Z.div_mod_to_equations; lia).
  destruct (uvmalloc_loop_ok s free T root o newsz Hinv Hr ltac:(done) ltac:(lia)
              (Z.to_nat ((e - o) / PGSIZE)) (uvmalloc_bound o newsz) s free T [])
    as (r & s' & free' & T' & pgs & E & Hmp & Hres); cbn [length]; rewrite ?Z.add_0_r, ?Ek.
  - by apply mp_refl.
  - lia.
  - done.
  - unfold uvmalloc_bound, PGSIZE in *. Z.div_mod_to_equations. lia.
  - done.
  - cbn [length] in E. rewrite Z.add_0_r in E. exists r, s', free', T', pgs.
    split; [done|]. split; [done|]. destruct Hres as [[-> El]|?]; [left|by right].
    split; [done|]. rewrite El. exact Ek.
Qed.

(** ** Reading translations *)

(** [walk] without allocation finds the entry of a mapped address. *)
Lemma walk_mapped s T root va v :
  pt_wf (kmem s) T -> T !! root = Some 2%nat -> va < MAXVA -> vmap (kmem s) root va = Some v ->
  exists pte, walk root va false s = Ok pte s /\ pte <> 0 /\ load64 (kmem s) pte = v.
Proof.
  intros Hwf Hr Hva [<- HV]%vmap_Some. rewrite walk_noalloc by done.
  rewrite pt_leaf_walk in *. destruct (pt_walk (kmem s) root va 2) as [t|] eqn:Et.
  - exists (t + 8 * PX 0 va). split; [done|]. split; [|done].
    eapply leaf_addr_nonzero; [done|]. by eapply pt_walk_level.
  - by rewrite has_0 in HV.
Qed.

(** The physical page a user access to [va] goes to, 0 when there is none. *)
Definition user_page (m : mem) (root va : Z) : Z :=
  if (va <? 0) || (MAXVA <=? va) then 0
  else match vmap m root va with
       | Some v => if has v PTE_U then PTE2PA v else 0
       | None => 0
       end.

Lemma walkaddr_ok s T root va :
  pt_wf (kmem s) T -> T !! root = Some 2%nat -> 0 <= va ->
  walkaddr root va s = Ok (user_page (kmem s) root va) s.
Proof.
  intros Hwf Hr Hva. unfold walkaddr, user_page. destruct (Z.ltb_spec va 0); [lia|]. cbn [orb].
  destruct (Z.leb_spec MAXVA va); [done|].
  rewrite (bind_Ok _ _ _ _ _ (walk_noalloc root va s ltac:(done))).
  unfold vmap. rewrite pt_leaf_walk. destruct (pt_walk (kmem s) root va 2) as [t|] eqn:Et.
  - destruct (Z.eqb_spec (t + 8 * PX 0 va) 0) as [E|].
    { exfalso. revert E. eapply leaf_addr_nonzero; [done|]. by eapply pt_walk_level. }
    unfold rd64. unfold bind, gets. fold (pte (kmem s) t (PX 0 va)).
    destruct (has (pte _ _ _) PTE_V); [|done]. by destruct (has _ PTE_U).
  - cbn. by rewrite has_0.
Qed.

(** ** [uvmcopy] *)

Lemma memmove_only_page m q pa : byte_mem m -> only_page q m (CString.memmove m q pa PGSIZE).
Proof.
  intros Hm x Hx. rewrite CStringFacts.load8_memmove by done.
  destruct (Z.leb_spec q x), (Z.ltb_spec x (q + PGSIZE)); cbn; done || lia.
Qed.

Lemma copy_page_bytes m0 m q pa x :
  byte_mem m -> only_page q m0 m -> page_ok q -> page_ok pa -> q <> pa -> 0 <= x < PGSIZE ->
  load8 (CString.memmove m q pa PGSIZE) (q + x) = load8 m0 (pa + x).
Proof.
  intros Hm Ho Hq Hpa Hne Hx. rewrite CStringFacts.load8_memmove by done.
  destruct (Z.leb_spec q (q + x)), (Z.ltb_spec (q + x) (q + PGSIZE)); cbn; try lia.
  replace (pa + (q + x - q)) with (pa + x) by lia. apply Ho.
  destruct (aligned_disjoint q pa (proj1 Hq) (proj1 Hpa) Hne); lia.
Qed.

Section Uvmcopy.
Context (s0 : kmem_st) (free0 : list Z) (T0 : gmap Z nat) (old new sz : Z) (src : nat -> Z).
Hypothesis Hinv0 : vm_inv s0 free0 T0.
Hypothesis Hold : T0 !! old = Some 2%nat.
Hypothesis Hnew : T0 !! new = Some 2%nat.
Hypothesis Hne : old <> new.
(** [src j] is the entry of the [j]-th page of the parent. *)
Hypothesis Hsz : 0 <= sz <= MAXVA.
Hypothesis Hsrc : forall j, Z.of_nat j * PGSIZE < sz ->
  vmap (kmem s0) old (Z.of_nat j * PGSIZE) = Some (src j).
Hypothesis Hsrcp : forall j, Z.of_nat j * PGSIZE < sz ->
  page_ok (PTE2PA (src j)) /\ T0 !! PTE2PA (src j) = None /\ PTE2PA (src j) ∉ free0.
Hypothesis Hsrcv : forall j, has (src j) PTE_V = true /\ PTE_FLAGS (src j) <> PTE_V.

Let copied := mapped_prefix s0 free0 T0 new 0 (fun j => PTE_FLAGS (src j))
                (fun j x => load8 (kmem s0) (PTE2PA (src j) + x)).

Lemma zero_aligned : 0 mod PGSIZE = 0.
Proof. done. Qed.

Lemma flags_lor_V v : has v PTE_V = true -> Z.lor (PTE_FLAGS v) PTE_V = PTE_FLAGS v.
Proof.
  intros Hv. rewrite has_flags in Hv by done. unfold has in Hv. apply negb_true_iff, Z.eqb_neq in Hv.
  apply Z.bits_inj'. intros i Hi. rewrite Z.lor_spec. change PTE_V with (2 ^ 0) in *.
  rewrite Z.pow2_bits_eqb by lia. destruct (Z.eqb_spec 0 i) as [<-|]; [|by rewrite orb_false_r].
  rewrite orb_true_r. symmetry. destruct (Z.testbit (PTE_FLAGS v) 0) eqn:E; [done|].
  destruct Hv. apply Z.bits_inj'. intros j Hj. rewrite Z.land_spec, Z.bits_0, Z.pow2_bits_eqb by lia.
  destruct (Z.eqb_spec 0 j) as [<-|]; [by rewrite E | by rewrite andb_false_r].
Qed.

Lemma flags_range v : 0 <= PTE_FLAGS v < 1024.
Proof. unfold PTE_FLAGS. rewrite (Z.land_ones _ 10) by lia. apply Z.mod_pos_bound. done. Qed.

Lemma copy_perm j : 0 <= PTE_FLAGS (src j) < 1024 /\ Z.lor (PTE_FLAGS (src j)) PTE_V <> PTE_V.
Proof. rewrite flags_lor_V by apply Hsrcv. split; [apply flags_range | apply Hsrcv]. Qed.

Lemma uvmcopy_undo s free T pgs :
  copied s free T pgs -> Z.of_nat (length pgs) * PGSIZE <= MAXVA ->
  (forall va, 0 <= va < Z.of_nat (length pgs) * PGSIZE -> vmap (kmem s0) new va = None) ->
  exists s' free', uvmunmap new 0 (Z.of_nat (length pgs) * PGSIZE / PGSIZE) true s = Ok tt s' /\
    copied s' free' T [].
Proof.
  intros H HM Hun. rewrite Z.div_mul by done.
  destruct (uvmunmap_ok true pgs s free T new 0 (Z.of_nat (length pgs))) as (s' & E & Hi & HF & Hl);
    try (done || lia).
  - apply H.
  - eapply lookup_weaken, (mp_sub H). done.
  - by apply (mp_mapped_at Hinv0 Hnew zero_aligned (Z.le_refl 0) copy_perm H).
  - intros _. apply (mp_owned Hinv0 Hnew zero_aligned (Z.le_refl 0) copy_perm H).
  - exists s', (rev pgs ++ free). split; [done|].
    apply (mp_undo Hinv0 Hnew zero_aligned (Z.le_refl 0) copy_perm H); [done|done| |exact Hl].
    eapply frameP_mono; [|exact HF]. intros p [?|[_ ?]]; auto.
Qed.

(** The parent's pages are still there. *)
Lemma copied_src s free T pgs j :
  copied s free T pgs -> Z.of_nat j * PGSIZE < sz ->
  vmap (kmem s) old (Z.of_nat j * PGSIZE) = Some (src j) /\
  forall x, 0 <= x < PGSIZE ->
    load8 (kmem s) (PTE2PA (src j) + x) = load8 (kmem s0) (PTE2PA (src j) + x).
Proof.
  intros H Hj. split.
  - rewrite (mp_leaf H), decide_False by (tauto || done || (unfold PGSIZE in *; lia)). auto.
  - intros x Hx. destruct (Hsrcp j Hj) as (Hok & HT & Hfr).
    eapply page_disjoint_frame; [apply (mp_frame H)| |exact Hok|lia].
    intros p [[l Hp]|Hp].
    + split; [eapply pw_pages, Hp; apply Hinv0 | congruence].
    + split; [by eapply (mp_free0 s0 free0 T0) | congruence].
Qed.

Lemma uvmcopy_loop_ok k fuel s free T pgs :
  copied s free T pgs ->
  let i := Z.of_nat (length pgs) * PGSIZE in
  sz <= i + Z.of_nat k * PGSIZE < sz + PGSIZE -> (k < fuel)%nat ->
  (forall va, 0 <= va < i + Z.of_nat k * PGSIZE -> vmap (kmem s0) new va = None) ->
  exists r s' free' T' pgs', uvmcopy_loop fuel old new i sz s = Ok r s' /\
    copied s' free' T' pgs' /\
    (r = 0 /\ length pgs' = (length pgs + k)%nat \/ r = -1 /\ pgs' = []).
Proof.
  assert (MAXVA mod PGSIZE = 0) as HMa by done.
  revert fuel s free T pgs. induction k as [|k IH]; intros [|fuel] s free T pgs H i Hk Hfuel Hun;
    try lia; cbn [uvmcopy_loop].
  { destruct (Z.ltb_spec i sz); [lia|]. exists 0, s, free, T, pgs. split; [done|].
    split; [done|]. left. split; [done|lia]. }
  destruct (Z.ltb_spec i sz) as [Hi|]; [|unfold PGSIZE in *; lia].
  assert (i + PGSIZE <= MAXVA) as HiM by (unfold i, PGSIZE in *; Z.div_mod_to_equations; lia).
  destruct (copied_src s free T pgs (length pgs) H Hi) as [Hleaf Hbytes].
  assert (T !! new = Some 2%nat /\ T !! old = Some 2%nat) as [HnT HoT]
    by (split; eapply lookup_weaken, (mp_sub H); done).
  destruct (walk_mapped s T old i (src (length pgs))) as (pte & Ew & Hpte & Ev);
    [apply (mp_inv H)|done|unfold PGSIZE in *; lia|done|].
  erewrite bind_Ok by exact Ew. destruct (Z.eqb_spec pte 0); [done|].
  erewrite bind_Ok by reflexivity. rewrite Ev.
  destruct (Hsrcv (length pgs)) as [HV _]. rewrite HV. cbn [negb]. cbv zeta.
  set (v := src (length pgs)) in *.
  assert (forall s free T, copied s free T pgs ->
    exists s' free', uvmunmap new 0 (i / PGSIZE) true s = Ok tt s' /\ copied s' free' T []) as Hundo.
  { intros s' free' T' H'. apply (uvmcopy_undo s' free' T' pgs H'); [unfold PGSIZE in *; lia|].
    intros va Hva. apply Hun. unfold PGSIZE in *; lia. }
  destruct free as [|q free].
  { pose proof (kalloc_empty s (vi_kalloc _ _ _ _ (mp_inv H))) as Ek.
    erewrite bind_Ok by exact Ek. cbn [Z.eqb].
    destruct (Hundo _ _ _ H) as (s' & free' & E & H'). erewrite bind_Ok by exact E.
    exists (-1), s', free', T, []. split; [done|]. split; [done|]. by right. }
  destruct (mp_page Hinv0 Hnew zero_aligned (Z.le_refl 0) copy_perm
              (fun q m => CString.memmove m q (PTE2PA v) PGSIZE) H) as (Hnz & s1 & r & s2 & Ek & Em & Hres).
  { cbn [Z.add]. done. }
  { intros va Hva. apply Hun. unfold i, PGSIZE in *. lia. }
  { intros. apply CStringFacts.byte_mem_memmove; assumption. }
  { intros m. apply memmove_only_page. }
  { intros m x Hq Hm Ho Hx. rewrite <- Hbytes by done. destruct (Hsrcp _ Hi) as (Hok & _ & Hfr).
    apply copy_page_bytes; auto. intros ->. apply Hfr.
    destruct (mp_pages H) as (tabs & -> & _). set_solver. }
  erewrite bind_Ok by exact Ek. destruct (Z.eqb_spec q 0); [done|].
  erewrite bind_Ok by reflexivity. erewrite bind_Ok by exact Em.
  destruct Hres as [(-> & free2 & T2 & H2)|(-> & s3 & free3 & T3 & E3 & H3)]; cbn [Z.eqb negb].
  - replace (u64 (i + PGSIZE)) with (Z.of_nat (length (pgs ++ [q])) * PGSIZE).
    2:{ change MAXVA with (2 ^ 38) in *. rewrite length_app, u64_small by (unfold i, PGSIZE in *; lia).
        unfold i, PGSIZE. cbn. lia. }
    destruct (IH fuel s2 free2 T2 (pgs ++ [q]) H2) as (r & s' & free' & T' & pgs' & E & H' & Hr);
      rewrite ?length_app in *; cbn [length] in *; try (unfold i, PGSIZE in *; lia).
    { intros va Hva. apply Hun. unfold i, PGSIZE in *. lia. }
    exists r, s', free', T', pgs'. split; [done|]. split; [done|].
    destruct Hr as [[-> ?]|?]; [left; split; [done|lia] | by right].
  - erewrite bind_Ok by exact E3. destruct (Hundo _ _ _ H3) as (s' & free' & E & H').
    erewrite bind_Ok by exact E. exists (-1), s', free', T3, []. split; [done|]. split; [done|]. by right.
Qed.

End Uvmcopy.

(** The entry of the [j]-th page below [sz] (a dummy readable entry above it). *)
Definition src_pte (m : mem) (root sz : Z) (j : nat) : Z :=
  if Z.of_nat j * PGSIZE <? sz then pt_leaf m root (Z.of_nat j * PGSIZE) 2 else Z.lor PTE_V PTE_R.

(** [uvmcopy]: the child gets a fresh copy of every page of the parent, with the
    same permissions, or nothing. *)
Lemma uvmcopy_ok s free T old new sz :
  vm_inv s free T -> T !! old = Some 2%nat -> T !! new = Some 2%nat -> old <> new ->
  0 <= sz <= MAXVA ->
  (forall j, Z.of_nat j * PGSIZE < sz ->
     let v := pt_leaf (kmem s) old (Z.of_nat j * PGSIZE) 2 in
     has v PTE_V = true /\ PTE_FLAGS v <> PTE_V /\ page_ok (PTE2PA v) /\
     T !! PTE2PA v = None /\ PTE2PA v ∉ free) ->
  (forall va, 0 <= va < PGROUNDUP sz -> vmap (kmem s) new va = None) ->
  exists r s' free' T' pgs, uvmcopy old new sz s = Ok r s' /\
    mapped_prefix s free T new 0 (fun j => PTE_FLAGS (src_pte (kmem s) old sz j))
      (fun j x => load8 (kmem s) (PTE2PA (src_pte (kmem s) old sz j) + x)) s' free' T' pgs /\
    (r = 0 /\ Z.of_nat (length pgs) * PGSIZE = PGROUNDUP sz \/ r = -1 /\ pgs = []).
Proof.
  intros Hinv Hold Hnew Hne Hsz Hsrc Hun. change MAXVA with (2 ^ 38) in *.
  pose proof (PGROUNDUP_bounds sz ltac:(lia) ltac:(unfold PGSIZE; lia)).
  pose proof (PGROUNDUP_aligned sz). set (e := PGROUNDUP sz) in *.
  assert (forall j, Z.of_nat j * PGSIZE < sz ->
    src_pte (kmem s) old sz j = pt_leaf (kmem s) old (Z.of_nat j * PGSIZE) 2) as Hs.
  { intros j Hj. unfold src_pte. destruct (Z.ltb_spec (Z.of_nat j * PGSIZE) sz); [done|lia]. }
  assert (0 + Z.of_nat (Z.to_nat ((sz + PGSIZE - 1) / PGSIZE)) * PGSIZE = e) as Ek
    by (unfold PGSIZE in *; Z.div_mod_to_equations; lia).
  destruct (uvmcopy_loop_ok s free T old new sz (src_pte (kmem s) old sz) Hinv Hold Hnew Hne)
    with (k := Z.to_nat ((sz + PGSIZE - 1) / PGSIZE)) (fuel := S (Z.to_nat ((sz + PGSIZE - 1) / PGSIZE)))
         (s := s) (free := free) (T := T) (pgs := @nil Z)
    as (r & s' & free' & T' & pgs & E & Hmp & Hres); cbn [length] in *; rewrite ?Z.mul_0_l, ?Ek; try (done || lia).
  - intros j Hj. unfold vmap. rewrite Hs by done. destruct (Hsrc j Hj) as [-> _]. done.
  - intros j Hj. rewrite Hs by done. destruct (Hsrc j Hj) as (_ & _ & ?). done.
  - intros j. unfold src_pte. destruct (Z.ltb_spec (Z.of_nat j * PGSIZE) sz) as [Hj|]; [|done].
    destruct (Hsrc j Hj) as (? & ? & _). done.
  - by apply mp_refl.
  - exists r, s', free', T', pgs. split; [done|]. split; [done|].
    destruct Hres as [[-> El]|?]; [left; split; [done|lia] | by right].
Qed.

(** ** [uvmcreate] *)

Lemma zero_page_pte m q j : zero_page m q -> 0 <= j < 512 -> pte m q j = 0.
Proof.
  intros H Hj. unfold pte. rewrite (load64_ext _ (CString.memset m q 0 PGSIZE)).
  - by apply pte_memset0.
  - intros x Hx. rewrite H by (unfold PGSIZE; lia). symmetry. apply zero_page_memset. unfold PGSIZE. lia.
Qed.

Lemma zero_page_vmap m q va : zero_page m q -> vmap m q va = None.
Proof.
  intros H. unfold vmap. cbn [pt_leaf]. rewrite zero_page_pte by (done || apply PX_bound).
  by rewrite has_0.
Qed.

(** A new root page maps nothing. *)
Lemma uvmcreate_ok s q free T :
  vm_inv s (q :: free) T ->
  exists s', uvmcreate s = Ok q s' /\ vm_inv s' free (<[q := 2%nat]> T) /\ T !! q = None /\
    (forall va, vmap (kmem s') q va = None) /\ frameP (eq q) (kmem s) (kmem s') /\
    forall p l va, T !! p = Some l -> pt_leaf (kmem s') p va l = pt_leaf (kmem s) p va l.
Proof.
  intros Hinv. destruct (kalloc_vm s q free T Hinv) as (Hnz & s1 & E & Hinv1 & Hq & Hnin & HT & HF & Hl).
  unfold uvmcreate. erewrite bind_Ok by exact E. destruct (Z.eqb_spec q 0); [done|].
  erewrite bind_Ok by reflexivity.
  destruct (data_write s1 free T q (CString.memset (kmem s1) q 0 PGSIZE)) as [Hinv2 Hl2].
  1-4: assumption. { apply CStringFacts.byte_mem_memset, Hinv1. } { apply memset_only_page. }
  set (s2 := set_mem _ s1) in *. assert (zero_page (kmem s2) q) as Hz by apply zero_page_memset.
  exists s2. split; [done|]. split; [|split; [done|split; [|split]]].
  - destruct Hinv2 as [Hk [W1 W2 W3] Hf]. split; [done| |].
    + assert (forall p l i, <[q := 2%nat]> T !! p = Some (S l) -> 0 <= i < 512 ->
        has (pte (kmem s2) p i) PTE_V = true -> T !! p = Some (S l)) as Hold.
      { intros p l i [[<- _]|[_ Hp]]%lookup_insert_Some Hi; [|done].
        rewrite zero_page_pte, has_0 by done. done. }
      split.
      * intros p l [[<- _]|[_ Hp]]%lookup_insert_Some; eauto.
      * intros p l i Hp Hi HX HV. destruct (W2 p l i (Hold p l i Hp Hi HV) Hi HX HV) as [HFl Hc].
        split; [done|]. rewrite lookup_insert_ne by congruence. done.
      * intros p l i p' l' i' Hp Hp' Hi Hi' HX HX' HV HV'.
        exact (W3 p l i p' l' i' (Hold p l i Hp Hi HV) (Hold p' l' i' Hp' Hi' HV') Hi Hi' HX HX' HV HV').
    + intros p Hp. rewrite lookup_insert_ne by congruence. auto.
  - intros va. by apply zero_page_vmap.
  - eapply frameP_trans; [exact HF|]. apply only_page_frameP, memset_only_page.
  - intros p l va Hp. cbn [kmem s2 set_mem]. rewrite Hl2 by done. by apply Hl.
Qed.

End UserVm.

Arguments mp_inv {_ _ _ _ _ _ _ _ _ _ _ _} _.
Arguments mp_sub {_ _ _ _ _ _ _ _ _ _ _ _} _.
Arguments mp_leaf {_ _ _ _ _ _ _ _ _ _ _ _} _.
Arguments mp_pages {_ _ _ _ _ _ _ _ _ _ _ _} _.
Arguments mp_frame {_ _ _ _ _ _ _ _ _ _ _ _} _.
Arguments mp_data {_ _ _ _ _ _ _ _ _ _ _ _} _.
Arguments mp_owned {_ _ _ _ _ _ _ _ _} _ _ _ _ _ {_ _ _ _} _.
Arguments mp_mapped_at {_ _ _ _ _ _ _ _ _} _ _ _ _ _ {_ _ _ _} _ _.
Arguments mp_undo {_ _ _ _ _ _ _ _ _} _ _ _ _ _ {_ _ _ _ _} _ _ _ _ _.
Arguments mp_page {_ _ _ _ _ _ _ _ _} _ _ _ _ _ _ {_ _ _ _ _} _ _ _ _ _ _.
