(* ===== verification/UserCopy.v ===== *)
(** * kernel/vm.c: [copyout], [copyin], [copyinstr]

    A process sees its memory through its page table: [ubyte m root va] is the
    byte a user access to [va] reads, [None] where it has no user mapping.  The
    copy routines are specified against this view: they stop at the first byte
    that is not mapped. *)
From stdpp Require Import base gmap list numbers strings.
From Stdlib Require Import ZArith Lia.
From S2P Require Import Prelude Riscv Mem Kalloc Vm PageTable UserVm.
Open Scope Z_scope.

Definition ubyte (m : mem) (root va : Z) : option Z :=
  let va0 := PGROUNDDOWN va in
  let pa0 := user_page m root va0 in
  if pa0 =? 0 then None else Some (load8 m (pa0 + (va - va0))).

Lemma PGROUNDDOWN_same va va' :
  PGROUNDDOWN va <= va' < PGROUNDDOWN va + PGSIZE -> PGROUNDDOWN va' = PGROUNDDOWN va.
Proof.
  pose proof (PGROUNDDOWN_aligned va). pose proof (PGROUNDDOWN_aligned va').
  pose proof (PGROUNDDOWN_bounds va'). unfold PGSIZE in *. Z.div_mod_to_equations. lia.
Qed.

Lemma user_page_MAXVA m root va : user_page m root va <> 0 -> va < MAXVA.
Proof. unfold user_page. destruct (Z.leb_spec MAXVA va); [by rewrite orb_true_r|done]. Qed.

Lemma user_page_nonneg m root va : user_page m root va <> 0 -> 0 <= va.
Proof. unfold user_page. by destruct (Z.ltb_spec va 0). Qed.

(** [user_page] as a function of the valid leaf entry. *)
Definition leaf_page (v : option Z) : Z :=
  match v with Some v => if has v PTE_U then PTE2PA v else 0 | None => 0 end.

Lemma user_page_leaf m root va :
  0 <= va < MAXVA -> user_page m root va = leaf_page (vmap m root va).
Proof.
  intros H. unfold user_page. destruct (Z.ltb_spec va 0), (Z.leb_spec MAXVA va); cbn; done || lia.
Qed.

(** The bytes of one page. *)
Lemma ubyte_page m root va va' :
  user_page m root (PGROUNDDOWN va) <> 0 ->
  PGROUNDDOWN va <= va' < PGROUNDDOWN va + PGSIZE ->
  ubyte m root va' = Some (load8 m (user_page m root (PGROUNDDOWN va) + (va' - PGROUNDDOWN va))).
Proof.
  intros Hp Hva. unfold ubyte. rewrite (PGROUNDDOWN_same va va' Hva).
  by destruct (Z.eqb_spec (user_page m root (PGROUNDDOWN va)) 0).
Qed.

Lemma ubyte_unmapped m root va : user_page m root (PGROUNDDOWN va) = 0 -> ubyte m root va = None.
Proof. intros H. unfold ubyte. by rewrite H. Qed.

(** Size of the part of [len] bytes at [va] that lies in the page of [va]. *)
Lemma chunk_bounds va len :
  0 < len -> 0 < Z.min (PGSIZE - (va - PGROUNDDOWN va)) len <= len.
Proof. pose proof (PGROUNDDOWN_bounds va). lia. Qed.

(** The next page, when there is one. *)
Lemma next_page va :
  0 <= va -> PGROUNDDOWN va < MAXVA -> u64 (PGROUNDDOWN va + PGSIZE) = PGROUNDDOWN va + PGSIZE.
Proof.
  intros H HM. pose proof (PGROUNDDOWN_nonneg va H). change MAXVA with (2 ^ 38) in *.
  apply u64_small. unfold PGSIZE. lia.
Qed.

Lemma has_lor a b f : has a f = true -> has (Z.lor a b) f = true.
Proof.
  unfold has. rewrite !negb_true_iff, !Z.eqb_neq. intros H E. apply H.
  apply Z.bits_inj'. intros i Hi. apply (f_equal (fun z => Z.testbit z i)) in E.
  rewrite Z.land_spec, Z.lor_spec, Z.bits_0 in *.
  by destruct (Z.testbit a i), (Z.testbit b i), (Z.testbit f i).
Qed.

Section UserCopy.
Context {L : Linker} {LOk : LinkerOk L}.
Implicit Types (T : gmap Z nat).

(** ** [copyin] *)

(** [bs] are the user bytes at [va], [va+1], ... *)
Definition ubytes (m : mem) (root va : Z) (bs : list Z) : Prop :=
  forall i b, bs !! i = Some b -> ubyte m root (va + Z.of_nat i) = Some b.

Lemma ubytes_app m root va bs bs' :
  ubytes m root va bs -> ubytes m root (va + Z.of_nat (length bs)) bs' -> ubytes m root va (bs ++ bs').
Proof.
  intros H1 H2 i b [Hi|[Hi Hb]]%lookup_app_Some; [by apply H1|].
  replace (va + Z.of_nat i) with (va + Z.of_nat (length bs) + Z.of_nat (i - length bs)) by lia. by apply H2.
Qed.

Lemma ubytes_chunk m root va n :
  user_page m root (PGROUNDDOWN va) <> 0 -> 0 <= n <= PGSIZE - (va - PGROUNDDOWN va) ->
  ubytes m root va (loadn m (user_page m root (PGROUNDDOWN va) + (va - PGROUNDDOWN va)) (Z.to_nat n)).
Proof.
  intros Hp Hn i b Hi. pose proof (PGROUNDDOWN_bounds va).
  pose proof (lookup_lt_Some _ _ _ Hi) as Hlt. rewrite length_loadn in Hlt.
  rewrite loadn_lookup in Hi by lia. injection Hi as <-.
  rewrite (ubyte_page m root va) by (done || lia). do 2 f_equal. lia.
Qed.

Lemma copyin_loop_ok fuel s T root srcva len :
  pt_wf (kmem s) T -> T !! root = Some 2%nat -> 0 <= srcva -> 0 <= len -> (Z.to_nat len < fuel)%nat ->
  exists r bs, copyin_loop fuel root srcva len s = Ok (r, bs) s /\
    ubytes (kmem s) root srcva bs /\
    (r = 0 /\ Z.of_nat (length bs) = len \/
     r = -1 /\ Z.of_nat (length bs) < len /\
     ubyte (kmem s) root (srcva + Z.of_nat (length bs)) = None).
Proof.
  intros Hwf Hr. revert srcva len. induction fuel as [|fuel IH]; intros va len Hva Hlen Hf; [lia|].
  cbn [copyin_loop]. destruct (Z.ltb_spec 0 len) as [Hl|].
  2:{ exists 0, []. split; [done|]. split; [done|]. left. cbn. lia. }
  cbv zeta. rewrite (bind_Ok _ _ _ _ _ (walkaddr_ok s T root (PGROUNDDOWN va) Hwf Hr (PGROUNDDOWN_nonneg va Hva))).
  destruct (Z.eqb_spec (user_page (kmem s) root (PGROUNDDOWN va)) 0) as [Hz|Hz].
  { exists (-1), []. split; [done|]. split; [done|]. right. cbn. rewrite Z.add_0_r.
    auto using ubyte_unmapped. }
  pose proof (chunk_bounds va len Hl) as Hn. pose proof (PGROUNDDOWN_bounds va).
  rewrite next_page by eauto using user_page_MAXVA.
  set (n := Z.min _ _) in *. erewrite bind_Ok by reflexivity.
  set (bs := loadn _ _ _).
  assert (length bs = Z.to_nat n) as Hbs by apply length_loadn.
  assert (ubytes (kmem s) root va bs) as Hub by (apply ubytes_chunk; [done|lia]).
  destruct (IH (PGROUNDDOWN va + PGSIZE) (len - n)) as (r & bs' & E & Hub' & Hres); try lia.
  erewrite bind_Ok by exact E. exists r, (bs ++ bs'). split; [done|].
  rewrite length_app. 
  destruct (decide (len = n)) as [En|Hne].
  - destruct Hres as [[-> Hl']|(_ & ? & _)]; [|lia]. destruct bs'; [|cbn [length] in Hl'; lia].
    rewrite app_nil_r. split; [done|]. left. cbn. lia.
  - assert (PGROUNDDOWN va + PGSIZE = va + Z.of_nat (length bs)) as Ev by lia.
    split; [apply ubytes_app; [done|by rewrite <- Ev]|].
    destruct Hres as [[-> ?]|(-> & ? & Hnone)]; [left|right]; (split; [done|]); [lia|].
    split; [lia|]. rewrite <- Hnone. f_equal. lia.
Qed.

(** [copyin] reads exactly the bytes the process sees; it fails, after copying
    what precedes it, at the first byte that is not mapped. *)
Lemma copyin_ok s T root srcva len :
  pt_wf (kmem s) T -> T !! root = Some 2%nat -> 0 <= srcva -> 0 <= len ->
  exists r bs, copyin root srcva len s = Ok (r, bs) s /\
    ubytes (kmem s) root srcva bs /\
    (r = 0 /\ Z.of_nat (length bs) = len \/
     r = -1 /\ Z.of_nat (length bs) < len /\
     ubyte (kmem s) root (srcva + Z.of_nat (length bs)) = None).
Proof. intros. unfold copyin. eapply copyin_loop_ok; eauto. Qed.

(** ** [copyout] *)

(** The user pages of an address space are neither free nor page tables, and no
    page is mapped twice. *)
Record user_ok (s : kmem_st) (free : list Z) T (root : Z) : Prop := {
  uo_page : forall va, let p := user_page (kmem s) root (PGROUNDDOWN va) in
    p <> 0 -> page_ok p /\ (p ∉ free) /\ T !! p = None;
  uo_inj : forall va va', user_page (kmem s) root (PGROUNDDOWN va) <> 0 ->
    user_page (kmem s) root (PGROUNDDOWN va) = user_page (kmem s) root (PGROUNDDOWN va') ->
    PGROUNDDOWN va = PGROUNDDOWN va'
}.

Lemma load8_storen_in m a bs i b :
  Forall (fun b => 0 <= b < 256) bs -> bs !! i = Some b ->
  load8 (storen m a bs) (a + Z.of_nat i) = b.
Proof.
  intros HF Hi. pose proof (lookup_lt_Some _ _ _ Hi).
  assert (loadn (storen m a bs) a (length bs) !! i = Some b) as H' by (rewrite loadn_storen_eq by done; done).
  rewrite loadn_lookup in H' by done. congruence.
Qed.

(** Writing [bs] at the user address [va], inside one page. *)
Section Chunk.
Context (s : kmem_st) (free : list Z) (T : gmap Z nat) (root va : Z) (bs : list Z).
Hypothesis Hinv : vm_inv s free T.
Hypothesis Hr : T !! root = Some 2%nat.
Hypothesis Hu : user_ok s free T root.
Hypothesis Hb : Forall (fun b => 0 <= b < 256) bs.
Hypothesis Hn : Z.of_nat (length bs) <= PGSIZE - (va - PGROUNDDOWN va).
Let pa0 := user_page (kmem s) root (PGROUNDDOWN va).
Hypothesis Hpa : pa0 <> 0.
Let m' := storen (kmem s) (pa0 + (va - PGROUNDDOWN va)) bs.

Lemma chunk_only_page : only_page pa0 (kmem s) m'.
Proof.
  intros x Hx. apply load8_storen_out. pose proof (PGROUNDDOWN_bounds va). lia.
Qed.

Lemma chunk_inv :
  vm_inv (set_mem m' s) free T /\
  forall p l va, T !! p = Some l -> pt_leaf m' p va l = pt_leaf (kmem s) p va l.
Proof.
  destruct (uo_page _ _ _ _ Hu va Hpa) as (H1 & H2 & H3).
  eapply data_write; eauto using chunk_only_page. apply byte_mem_storen, Hinv.
Qed.

Lemma chunk_user_page va' : user_page m' root va' = user_page (kmem s) root va'.
Proof. unfold user_page, vmap. by rewrite (proj2 chunk_inv) by done. Qed.

Lemma chunk_user_ok : user_ok (set_mem m' s) free T root.
Proof.
  destruct Hu as [H1 H2]. split; cbn [kmem set_mem].
  - intros va'. rewrite chunk_user_page. apply H1.
  - intros va' va''. rewrite !chunk_user_page. apply H2.
Qed.

Lemma chunk_ubyte va' :
  ubyte m' root va' =
  if decide (va <= va' < va + Z.of_nat (length bs)) then bs !! Z.to_nat (va' - va)
  else ubyte (kmem s) root va'.
Proof.
  pose proof (PGROUNDDOWN_bounds va). pose proof (PGROUNDDOWN_bounds va').
  case_decide as D.
  - rewrite (ubyte_page m' root va va') by (rewrite ?chunk_user_page; done || lia).
    rewrite chunk_user_page. destruct (lookup_lt_is_Some_2 bs (Z.to_nat (va' - va))) as [b Eb]; [lia|].
    rewrite Eb. f_equal. erewrite <- (load8_storen_in (kmem s) _ bs); [|done|exact Eb].
    unfold m'. f_equal. fold pa0. lia.
  - unfold ubyte. rewrite chunk_user_page. case_bool; [done|]. f_equal. zb.
    destruct (decide (PGROUNDDOWN va' = PGROUNDDOWN va)) as [E|E].
    + apply load8_storen_out. rewrite E. fold pa0. lia.
    + apply chunk_only_page. intros Hx.
      destruct (uo_page _ _ _ _ Hu va Hpa) as [[Ha _] _].
      destruct (uo_page _ _ _ _ Hu va' ltac:(done)) as [[Ha' _] _].
      destruct (decide (pa0 = user_page (kmem s) root (PGROUNDDOWN va'))) as [Ep|Ep].
      * apply E. symmetry. by apply (uo_inj _ _ _ _ Hu).
      * fold pa0 in Ha. destruct (aligned_disjoint _ _ Ha Ha' Ep); lia.
Qed.

End Chunk.

(** The first [n] bytes of [src] have been written at the user address [dstva];
    nothing else the process sees, no translation and no memory outside the
    process's own pages changed. *)
Record copied_out (s : kmem_st) (free : list Z) T (root dstva : Z) (src : list Z) (s' : kmem_st) (n : nat)
  : Prop := {
  co_inv : vm_inv s' free T;
  co_user : user_ok s' free T root;
  co_page : forall va, user_page (kmem s') root va = user_page (kmem s) root va;
  co_leaf : forall p va, T !! p = Some 2%nat -> pt_leaf (kmem s') p va 2 = pt_leaf (kmem s) p va 2;
  co_frame : frameP (fun p => p <> 0 /\ exists va, p = user_page (kmem s) root va) (kmem s) (kmem s');
  co_bytes : forall va, ubyte (kmem s') root va =
      if decide (dstva <= va < dstva + Z.of_nat n) then src !! Z.to_nat (va - dstva)
      else ubyte (kmem s) root va
}.

Lemma co_refl s free T root dstva src :
  vm_inv s free T -> user_ok s free T root -> copied_out s free T root dstva src s 0.
Proof.
  intros H1 H2. split; try done. intros va. case_decide; [lia|done].
Qed.

Lemma co_trans s free T root dstva src1 s1 src2 s2 n2 :
  copied_out s free T root dstva src1 s1 (length src1) ->
  copied_out s1 free T root (dstva + Z.of_nat (length src1)) src2 s2 n2 ->
  copied_out s free T root dstva (src1 ++ src2) s2 (length src1 + n2).
Proof.
  intros [A1 A2 A3 A4 A5 A6] [B1 B2 B3 B4 B5 B6]. split; try done.
  - intros va. by rewrite B3.
  - intros p va Hp. by rewrite B4, A4.
  - eapply frameP_trans; [exact A5|]. eapply frameP_mono; [|exact B5].
    intros p [Hp [va ->]]. split; [done|]. exists va. apply A3.
  - intros va. rewrite B6, A6. rewrite Nat2Z.inj_add. repeat case_decide; try lia; try done.
    + rewrite lookup_app_r by lia. f_equal. lia.
    + by rewrite lookup_app_l by lia.
Qed.

Lemma co_chunk s free T root va src :
  vm_inv s free T -> T !! root = Some 2%nat -> user_ok s free T root ->
  Forall (fun b => 0 <= b < 256) src ->
  Z.of_nat (length src) <= PGSIZE - (va - PGROUNDDOWN va) ->
  let pa0 := user_page (kmem s) root (PGROUNDDOWN va) in
  pa0 <> 0 ->
  copied_out s free T root va src
    (set_mem (storen (kmem s) (pa0 + (va - PGROUNDDOWN va)) src) s) (length src).
Proof.
  intros Hinv Hr Hu Hb Hn pa0 Hpa. split; cbn [kmem set_mem].
  - by apply chunk_inv.
  - by apply chunk_user_ok.
  - intros. by eapply chunk_user_page.
  - intros p va' Hp. by apply (chunk_inv s free T root va src).
  - eapply frameP_mono; [|apply only_page_frameP; eapply chunk_only_page; eauto].
    intros p <-. split; [done|]. by eexists.
  - intros. by eapply chunk_ubyte.
Qed.

Lemma copyout_loop_ok fuel s free T root dstva src :
  vm_inv s free T -> T !! root = Some 2%nat -> user_ok s free T root ->
  Forall (fun b => 0 <= b < 256) src -> 0 <= dstva -> (length src < fuel)%nat ->
  exists r s' n, copyout_loop fuel root dstva src s = Ok r s' /\
    copied_out s free T root dstva src s' n /\
    (r = 0 /\ n = length src \/
     r = -1 /\ (n < length src)%nat /\ ubyte (kmem s) root (dstva + Z.of_nat n) = None).
Proof.
  revert s dstva src. induction fuel as [|fuel IH]; intros s va src Hinv Hr Hu Hb Hva Hf; [lia|].
  cbn [copyout_loop]. destruct src as [|b0 src0] eqn:Esrc.
  { exists 0, s, O. split; [done|]. split; [by apply co_refl|]. by left. }
  rewrite <- Esrc in *. assert (0 < Z.of_nat (length src)) as Hl by (rewrite Esrc; cbn; lia).
  clear b0 src0 Esrc. cbv zeta.
  rewrite (bind_Ok _ _ _ _ _ (walkaddr_ok s T root (PGROUNDDOWN va) (vi_wf _ _ _ _ Hinv) Hr (PGROUNDDOWN_nonneg va Hva))).
  destruct (Z.eqb_spec (user_page (kmem s) root (PGROUNDDOWN va)) 0) as [Hz|Hz].
  { exists (-1), s, O. split; [done|]. split; [by apply co_refl|]. right. rewrite Z.add_0_r.
    split; [done|]. split; [lia|]. by apply ubyte_unmapped. }
  pose proof (chunk_bounds va _ Hl) as Hn. pose proof (PGROUNDDOWN_bounds va).
  rewrite next_page by eauto using user_page_MAXVA.
  set (n := Z.min _ _) in *. erewrite bind_Ok by reflexivity.
  assert (length (take (Z.to_nat n) src) = Z.to_nat n) as El by (rewrite length_take; lia).
  pose proof (co_chunk s free T root va (take (Z.to_nat n) src) Hinv Hr Hu
                ltac:(by apply Forall_take) ltac:(lia) Hz) as Hco. cbv zeta in Hco.
  set (s1 := set_mem _ s) in *.
  destruct (IH s1 (PGROUNDDOWN va + PGSIZE) (drop (Z.to_nat n) src)) as (r & s' & k & E & Hco' & Hres);
    [apply Hco|done|apply Hco|by apply Forall_drop|lia|rewrite length_drop; lia|].
  rewrite E. rewrite length_drop in Hres. destruct (decide (Z.of_nat (length src) = n)) as [En|Hne].
  - assert (drop (Z.to_nat n) src = []) as Ed by (apply drop_ge; lia).
    destruct Hres as [[-> Hk]|(_ & ? & _)]; [|lia]. destruct fuel; [lia|].
    rewrite Ed in E. injection E as <-. exists 0, s1, (length src). split; [done|].
    split; [|by left]. rewrite take_ge in Hco by lia. exact Hco.
  - replace (PGROUNDDOWN va + PGSIZE) with (va + Z.of_nat (length (take (Z.to_nat n) src))) in * by lia.
    pose proof (co_trans _ _ _ _ _ _ _ _ _ _ Hco Hco') as Ht. rewrite take_drop in Ht.
    exists r, s', (length (take (Z.to_nat n) src) + k)%nat. split; [done|]. split; [done|].
    destruct Hres as [[-> ?]|(-> & ? & Hnone)]; [left|right]; (split; [done|]); [lia|]. split; [lia|].
    rewrite (co_bytes _ _ _ _ _ _ _ _ Hco), decide_False in Hnone by lia.
    rewrite <- Hnone. f_equal. lia.
Qed.

Lemma copyout_ok s free T root dstva src :
  vm_inv s free T -> T !! root = Some 2%nat -> user_ok s free T root ->
  Forall (fun b => 0 <= b < 256) src -> 0 <= dstva ->
  exists r s' n, copyout root dstva src s = Ok r s' /\
    copied_out s free T root dstva src s' n /\
    (r = 0 /\ n = length src \/
     r = -1 /\ (n < length src)%nat /\ ubyte (kmem s) root (dstva + Z.of_nat n) = None).
Proof. intros. unfold copyout. eapply copyout_loop_ok; eauto. Qed.

(** ** [copyinstr] *)

Lemma copyinstr_page_ok m p n g bs :
  copyinstr_page m p n = (g, bs) ->
  bs = loadn m p (length bs) /\
  (g = true /\ (exists str, bs = str ++ [0] /\ Forall (fun b => b <> 0) str) /\ (length bs <= n)%nat \/
   g = false /\ Forall (fun b => b <> 0) bs /\ length bs = n).
Proof.
  revert p g bs. induction n as [|n IH]; intros p g bs; cbn [copyinstr_page].
  { intros [= <- <-]. split; [done|]. by right. }
  destruct (Z.eqb_spec (load8 m p) 0) as [Hz|Hz].
  { intros [= <- <-]. cbn [length loadn]. rewrite Hz. split; [done|]. left. split; [done|].
    split; [by exists []|lia]. }
  destruct (copyinstr_page m (p + 1) n) as [g' bs'] eqn:E. intros [= <- <-].
  destruct (IH _ _ _ E) as [Hbs Hres]. cbn [length loadn]. split; [congruence|].
  destruct Hres as [(-> & (str & -> & Hs) & Hn)|(-> & Hs & Hn)]; [left|right]; (split; [done|]).
  - split; [|lia]. exists (load8 m p :: str). split; [done|]. by constructor.
  - split; [by constructor|lia].
Qed.

Lemma copyinstr_loop_ok fuel s T root srcva max :
  pt_wf (kmem s) T -> T !! root = Some 2%nat -> 0 <= srcva -> 0 <= max -> (Z.to_nat max < fuel)%nat ->
  exists r bs, copyinstr_loop fuel root srcva max s = Ok (r, bs) s /\
    ubytes (kmem s) root srcva bs /\
    (r = 0 /\ (exists str, bs = str ++ [0] /\ Forall (fun b => b <> 0) str) /\
       Z.of_nat (length bs) <= max \/
     r = -1 /\ Forall (fun b => b <> 0) bs /\
       (Z.of_nat (length bs) = max \/
        Z.of_nat (length bs) < max /\ ubyte (kmem s) root (srcva + Z.of_nat (length bs)) = None)).
Proof.
  intros Hwf Hr. revert srcva max. induction fuel as [|fuel IH]; intros va max Hva Hmax Hf; [lia|].
  cbn [copyinstr_loop]. destruct (Z.ltb_spec 0 max) as [Hl|].
  2:{ exists (-1), []. split; [done|]. split; [done|]. right. split; [done|]. split; [done|]. left. cbn. lia. }
  cbv zeta. rewrite (bind_Ok _ _ _ _ _ (walkaddr_ok s T root (PGROUNDDOWN va) Hwf Hr (PGROUNDDOWN_nonneg va Hva))).
  destruct (Z.eqb_spec (user_page (kmem s) root (PGROUNDDOWN va)) 0) as [Hz|Hz].
  { exists (-1), []. split; [done|]. split; [done|]. right. split; [done|]. split; [done|].
    right. cbn. rewrite Z.add_0_r. auto using ubyte_unmapped. }
  pose proof (chunk_bounds va max Hl) as Hn. pose proof (PGROUNDDOWN_bounds va).
  rewrite next_page by eauto using user_page_MAXVA.
  set (n := Z.min _ _) in *. erewrite bind_Ok by reflexivity.
  destruct (copyinstr_page _ _ _) as [g bs] eqn:Epage.
  apply copyinstr_page_ok in Epage as [Hbs Hres].
  assert (ubytes (kmem s) root va bs) as Hub.
  { rewrite Hbs. rewrite <- (Nat2Z.id (length bs)). apply ubytes_chunk; [done|].
    destruct Hres as [(_ & _ & ?)|(_ & _ & ?)]; lia. }
  destruct Hres as [(-> & Hstr & Hlen)|(-> & Hnz & Hlen)]; cbn [ret].
  { exists 0, bs. split; [done|]. split; [done|]. left. split; [done|]. split; [done|lia]. }
  destruct (IH (PGROUNDDOWN va + PGSIZE) (max - n)) as (r & bs' & E & Hub' & Hres); try lia.
  erewrite bind_Ok by exact E. exists r, (bs ++ bs'). split; [done|]. rewrite length_app.
  destruct (decide (max = n)) as [En|Hne].
  - assert (bs' = [] /\ r = -1) as [-> ->].
    { destruct Hres as [(-> & (str & -> & _) & Hl')|(-> & _ & Hl')].
      - rewrite length_app in Hl'. cbn in Hl'. lia.
      - split; [|done]. destruct bs'; [done|]. cbn [length] in Hl'. exfalso. lia. }
    rewrite app_nil_r. split; [done|]. right. split; [done|]. split; [done|]. left. cbn. lia.
  - assert (PGROUNDDOWN va + PGSIZE = va + Z.of_nat (length bs)) as Ev by lia.
    split; [apply ubytes_app; [done|by rewrite <- Ev]|].
    destruct Hres as [(-> & (str & -> & Hs) & ?)|(-> & Hs & Hend)]; [left|right]; (split; [done|]).
    + split; [|lia]. exists (bs ++ str). rewrite app_assoc. split; [done|]. by apply Forall_app.
    + split; [by apply Forall_app|]. destruct Hend as [?|[? Hnone]]; [left; lia|right].
      split; [lia|]. rewrite <- Hnone. f_equal. lia.
Qed.

(** Writing with [copyout] and reading back with [copyin]. *)
Lemma copied_out_ubytes s free T root dstva src s' :
  copied_out s free T root dstva src s' (length src) -> ubytes (kmem s') root dstva src.
Proof.
  intros H i b Hi. pose proof (lookup_lt_Some _ _ _ Hi).
  rewrite (co_bytes _ _ _ _ _ _ _ _ H), decide_True by lia.
  rewrite <- Hi. f_equal. lia.
Qed.

Lemma ubytes_inj m root va bs bs' :
  ubytes m root va bs -> ubytes m root va bs' -> length bs = length bs' -> bs = bs'.
Proof.
  intros H1 H2 Hl. apply (list_eq_same_length _ _ (length bs)); [done|done|].
  intros i x y _ Hx Hy. apply H1 in Hx. apply H2 in Hy. congruence.
Qed.

(** ** What a process sees after its address space grew or was copied *)

Section View.
Context (s0 : kmem_st) (free0 : list Z) (T0 : gmap Z nat) (root o : Z).
Context (perm : nat -> Z) (content : nat -> Z -> Z) (s : kmem_st) (free : list Z) (T : gmap Z nat)
        (pgs : list Z).
Hypothesis Hinv0 : vm_inv s0 free0 T0.
Hypothesis Hroot : T0 !! root = Some 2%nat.
Hypothesis Ho : o mod PGSIZE = 0.
Hypothesis Ho0 : 0 <= o.
Hypothesis Hperm : forall j, 0 <= perm j < 1024 /\ Z.lor (perm j) PTE_V <> PTE_V.
Hypothesis Hmp : mapped_prefix s0 free0 T0 root o perm content s free T pgs.
Let e := o + Z.of_nat (length pgs) * PGSIZE.

Lemma view_page_old root' va :
  T0 !! root' = Some 2%nat -> ~ (root' = root /\ o <= va < e) ->
  user_page (kmem s) root' (PGROUNDDOWN va) = user_page (kmem s0) root' (PGROUNDDOWN va).
Proof.
  intros Hr' Hout. pose proof (PGROUNDDOWN_bounds va). pose proof (PGROUNDDOWN_aligned va).
  unfold user_page. destruct (Z.ltb_spec (PGROUNDDOWN va) 0); [done|].
  destruct (Z.leb_spec MAXVA (PGROUNDDOWN va)); [done|]. cbn [orb].
  rewrite (mp_leaf Hmp), decide_False; [done| |done|lia].
  intros [-> Hin]. apply Hout. split; [done|]. unfold e, PGSIZE in *. Z.div_mod_to_equations. lia.
Qed.

Lemma view_page_new va :
  o <= va < e -> e <= MAXVA ->
  exists pg, pgs !! Z.to_nat ((va - o) / PGSIZE) = Some pg /\ page_ok pg /\
    user_page (kmem s) root (PGROUNDDOWN va) =
    if has (mkpte pg (perm (Z.to_nat ((va - o) / PGSIZE)))) PTE_U then pg else 0.
Proof.
  intros Hva HM. pose proof (PGROUNDDOWN_bounds va). pose proof (PGROUNDDOWN_aligned va).
  assert (PGROUNDDOWN va = o + (va - o) / PGSIZE * PGSIZE) as Ed
    by (unfold PGSIZE in *; Z.div_mod_to_equations; lia).
  assert (0 <= (va - o) / PGSIZE < Z.of_nat (length pgs)) as Hj
    by (unfold e, PGSIZE in *; Z.div_mod_to_equations; lia).
  destruct (lookup_lt_is_Some_2 pgs (Z.to_nat ((va - o) / PGSIZE))) as [pg Hpg]; [lia|].
  pose proof (mp_owned Hinv0 Hroot Ho Ho0 Hperm Hmp) as [_ Hown].
  destruct (Hown pg) as (Hok & _); [by eapply list_elem_of_lookup_2|].
  exists pg. split; [done|]. split; [done|]. pose proof (page_ok_pa pg Hok).
  rewrite user_page_leaf by (unfold PGSIZE in *; lia).
  rewrite (mp_leaf Hmp), decide_True by (unfold e, PGSIZE in *; done || lia).
  unfold region_leaf. rewrite Ed.
  replace (o + (va - o) / PGSIZE * PGSIZE - o) with ((va - o) / PGSIZE * PGSIZE) by lia.
  rewrite Z.div_mul by done. rewrite Hpg. cbn.
  set (j := Z.to_nat ((va - o) / PGSIZE)) in *. destruct (Hperm j) as [Hp1 _].
  rewrite mkpte_pa by (done || apply Hok || (unfold PGSIZE in *; lia)). done.
Qed.

Lemma view_old root' va :
  T0 !! root' = Some 2%nat -> user_ok s0 free0 T0 root' ->
  ~ (root' = root /\ o <= va < e) -> ubyte (kmem s) root' va = ubyte (kmem s0) root' va.
Proof.
  intros Hr' Hu Hout. pose proof (PGROUNDDOWN_bounds va).
  unfold ubyte. rewrite view_page_old by done. case_bool; [done|]. zb. f_equal.
  destruct (uo_page _ _ _ _ Hu va ltac:(done)) as (Hok & Hnf & HnT).
  eapply page_disjoint_frame; [apply (mp_frame Hmp)| |exact Hok|lia].
  intros p [[l Hp]|Hp].
  - split; [eapply pw_pages, Hp; apply Hinv0 | congruence].
  - split; [by eapply (mp_free0 s0 free0 T0) | congruence].
Qed.

Lemma view_new va :
  o <= va < e -> e <= MAXVA -> has (perm (Z.to_nat ((va - o) / PGSIZE))) PTE_U = true ->
  ubyte (kmem s) root va = Some (content (Z.to_nat ((va - o) / PGSIZE)) ((va - o) mod PGSIZE)).
Proof.
  intros Hva HM HU. destruct (view_page_new va Hva HM) as (pg & Hpg & Hok & Hup).
  pose proof (page_ok_pa pg Hok). pose proof (page_ok_pos pg Hok).
  set (j := Z.to_nat ((va - o) / PGSIZE)) in *. destruct (Hperm j) as [Hp1 _].
  rewrite has_flags, mkpte_flags, has_lor in Hup by (done || (unfold PGSIZE in *; lia)).
  unfold ubyte. rewrite Hup. destruct (Z.eqb_spec pg 0); [lia|]. f_equal.
  rewrite <- (mp_data Hmp _ pg Hpg) by (apply Z.mod_pos_bound; done). f_equal.
  rewrite PGROUNDDOWN_eq. f_equal.
  replace ((va - o) mod PGSIZE) with (va mod PGSIZE); [lia|].
  rewrite Zminus_mod, Ho, Z.sub_0_r, Z.mod_mod by done. done.
Qed.

Lemma view_page_cases root' va :
  T0 !! root' = Some 2%nat -> e <= MAXVA ->
  let p := user_page (kmem s) root' (PGROUNDDOWN va) in
  p <> 0 ->
  root' = root /\ o <= va < e /\ pgs !! Z.to_nat ((va - o) / PGSIZE) = Some p \/
  user_page (kmem s0) root' (PGROUNDDOWN va) = p.
Proof.
  intros Hr' HM p Hp. destruct (decide (root' = root /\ o <= va < e)) as [[-> Hin]|Hout].
  - left. destruct (view_page_new va Hin HM) as (pg & Hpg & _ & Hup). split; [done|]. split; [done|].
    unfold p in *. rewrite Hup in *. case_bool; congruence.
  - right. unfold p. by rewrite view_page_old.
Qed.

Lemma view_old_page p : p ∉ free0 -> T0 !! p = None -> (p ∉ free) /\ T !! p = None.
Proof.
  intros Hf HT. destruct (mp_pages Hmp) as (tabs & Hp & Hdom). rewrite Hp in Hf.
  split; [set_solver|]. apply eq_None_not_Some. rewrite Hdom. intros [[? ?]|?]; [congruence|set_solver].
Qed.

Lemma view_new_page p : p ∈ pgs -> p ∈ free0.
Proof. intros H. destruct (mp_pages Hmp) as (tabs & -> & _). set_solver. Qed.

(** The address spaces stay well formed. *)
Lemma view_user_ok root' :
  T0 !! root' = Some 2%nat -> e <= MAXVA -> user_ok s0 free0 T0 root' -> user_ok s free T root'.
Proof.
  intros Hr' HM Hu. pose proof (mp_owned Hinv0 Hroot Ho Ho0 Hperm Hmp) as [Hnd Hown]. split.
  - intros va p Hp. destruct (view_page_cases root' va Hr' HM Hp) as [(-> & _ & Hpg)|Hold].
    + apply Hown. by eapply list_elem_of_lookup_2.
    + fold p in Hold. rewrite <- Hold in Hp. destruct (uo_page _ _ _ _ Hu va Hp) as (H1 & H2 & H3).
      rewrite Hold in *. split; [done|]. by apply view_old_page.
  - intros va va' Hp Heq.
    assert (user_page (kmem s) root' (PGROUNDDOWN va') <> 0) as Hp' by congruence.
    destruct (view_page_cases root' va Hr' HM Hp) as [(Er & Hin & Hpg)|Hold],
      (view_page_cases root' va' Hr' HM Hp') as [(Er' & Hin' & Hpg')|Hold'].
    + rewrite <- Heq in Hpg'. pose proof (NoDup_lookup _ _ _ _ Hnd Hpg Hpg') as Hj.
      rewrite !PGROUNDDOWN_eq. unfold PGSIZE in *. Z.div_mod_to_equations. lia.
    + exfalso. rewrite <- Hold' in Hp'. destruct (uo_page _ _ _ _ Hu va' Hp') as (_ & Hnf & _).
      apply Hnf. rewrite Hold', <- Heq. eapply view_new_page, list_elem_of_lookup_2, Hpg.
    + exfalso. rewrite <- Hold in Hp. destruct (uo_page _ _ _ _ Hu va Hp) as (_ & Hnf & _).
      apply Hnf. rewrite Hold, Heq. eapply view_new_page, list_elem_of_lookup_2, Hpg'.
    + apply (uo_inj _ _ _ _ Hu); congruence.
Qed.

End View.

End UserCopy.
