(* ===== verification/VmSpec.v ===== *)
(** * What kernel/vm.c promises to the rest of the kernel

    The contracts of the user-memory operations, stated on what a process reads
    through its page table ([ubyte]). *)
From stdpp Require Import base gmap list numbers strings.
From Stdlib Require Import ZArith Lia.
From S2P Require Import Prelude Riscv Mem Kalloc Vm PageTable UserVm UserCopy.
Open Scope Z_scope.

Section VmSpec.
Context {L : Linker} {LOk : LinkerOk L}.
Implicit Types (T : gmap Z nat).

(** C18: [uvmalloc] either maps the new part of the address space to zero bytes or
    returns 0 and leaves it unmapped; in both cases everything else the process,
    or any other process, can read is unchanged, and the page tables and the free
    list stay well formed. *)
Theorem uvmalloc_user_view s free T root oldsz newsz :
  vm_inv s free T -> T !! root = Some 2%nat -> user_ok s free T root ->
  0 <= oldsz <= newsz -> newsz <= MAXVA ->
  (forall va, PGROUNDUP oldsz <= va < PGROUNDUP newsz -> vmap (kmem s) root va = None) ->
  exists r s' free' T', uvmalloc root oldsz newsz s = Ok r s' /\
    vm_inv s' free' T' /\ T ⊆ T' /\ user_ok s' free' T' root /\
    (r = newsz /\ (forall va, PGROUNDUP oldsz <= va < PGROUNDUP newsz -> ubyte (kmem s') root va = Some 0) \/
     r = 0 /\ forall va, 0 <= va < MAXVA -> vmap (kmem s') root va = vmap (kmem s) root va) /\
    (forall va, ~ (PGROUNDUP oldsz <= va < PGROUNDUP newsz) ->
       ubyte (kmem s') root va = ubyte (kmem s) root va) /\
    (forall root' va, root' <> root -> T !! root' = Some 2%nat -> user_ok s free T root' ->
       ubyte (kmem s') root' va = ubyte (kmem s) root' va).
Proof.
  intros Hinv Hr Hu Hsz HM Hun.
  destruct (uvmalloc_ok s free T root oldsz newsz Hinv Hr Hsz HM Hun) as (r & s' & free' & T' & pgs & E & Hmp & Hres).
  exists r, s', free', T'. split; [done|]. split; [apply Hmp|]. split; [apply Hmp|].
  assert (MAXVA mod PGSIZE = 0) as HMa by done.
  pose proof (PGROUNDUP_aligned oldsz) as Ho. pose proof (PGROUNDUP_aligned newsz).
  assert (oldsz <= PGROUNDUP oldsz /\ newsz <= PGROUNDUP newsz < newsz + PGSIZE /\ PGROUNDUP oldsz <= PGROUNDUP newsz)
    as (Ho0 & Hn & Hon).
  { change MAXVA with (2 ^ 38) in *.
    pose proof (PGROUNDUP_bounds oldsz ltac:(lia) ltac:(unfold PGSIZE; lia)).
    pose proof (PGROUNDUP_bounds newsz ltac:(lia) ltac:(unfold PGSIZE; lia)).
    unfold PGSIZE in *. Z.div_mod_to_equations. lia. }
  set (o := PGROUNDUP oldsz) in *. set (n := PGROUNDUP newsz) in *.
  assert (n <= MAXVA) by (change MAXVA with (2 ^ 38) in *; unfold PGSIZE in *; Z.div_mod_to_equations; lia).
  assert (o + Z.of_nat (length pgs) * PGSIZE <= n) as Hlen.
  { destruct Hres as [[_ ->]|[_ ->]]; cbn; lia. }
  assert (0 <= o) as Ho0' by lia.
  pose proof PTE_WXRU_perm as HP.
  split; [eapply (view_user_ok s free T root o (fun _ => PTE_WXRU) (fun _ _ => 0)); eauto; lia|].
  split; [|split].
  - destruct Hres as [[-> Hl]|[-> ->]]; [left|right]; (split; [done|]).
    + intros va Hva.
      rewrite (view_new s free T root o (fun _ => PTE_WXRU) (fun _ _ => 0) s' free' T' pgs); auto; lia.
    + intros va Hva. rewrite (mp_leaf Hmp) by done. rewrite decide_False by (cbn; lia). done.
  - intros va Hva. apply (view_old s free T root o (fun _ => PTE_WXRU) (fun _ _ => 0) s' free' T' pgs); auto. lia.
  - intros root' va Hne Hr' Hu'. apply (view_old s free T root o (fun _ => PTE_WXRU) (fun _ _ => 0) s' free' T' pgs); auto.
    tauto.
Qed.

(** C30: bytes written to user memory with [copyout] are the bytes [copyin] reads
    back from the same addresses. *)
Theorem copyout_copyin_roundtrip s free T root dstva src s' :
  vm_inv s free T -> T !! root = Some 2%nat -> user_ok s free T root ->
  Forall (fun b => 0 <= b < 256) src -> 0 <= dstva ->
  copyout root dstva src s = Ok 0 s' ->
  copyin root dstva (Z.of_nat (length src)) s' = Ok (0, src) s'.
Proof.
  intros Hinv Hr Hu Hb Hva E.
  destruct (copyout_ok s free T root dstva src Hinv Hr Hu Hb Hva) as (r & s1 & n & E1 & Hco & Hres).
  rewrite E in E1. injection E1 as <- <-. destruct Hres as [[_ ->]|[? _]]; [|lia].
  pose proof (copied_out_ubytes _ _ _ _ _ _ _ Hco) as Hub.
  destruct (copyin_ok s' T root dstva (Z.of_nat (length src))) as (r & bs & E2 & Hub2 & Hres);
    [apply Hco|done|done|lia|].
  destruct Hres as [[-> Hl]|(-> & Hl & Hnone)].
  - rewrite E2. do 2 f_equal. eapply ubytes_inj; eauto. lia.
  - destruct (lookup_lt_is_Some_2 src (length bs)) as [b Hb']; [lia|]. apply Hub in Hb'. congruence.
Qed.

(** C31: [copyinstr] copies a NUL-terminated string of at most [max] bytes
    (terminator included) exactly as the process sees it and returns 0; it returns
    -1 only when there is no NUL among the first [max] bytes or when a byte before
    the NUL is not mapped. *)
Theorem copyinstr_spec s T root srcva max :
  pt_wf (kmem s) T -> T !! root = Some 2%nat -> 0 <= srcva -> 0 <= max ->
  exists r bs, copyinstr root srcva max s = Ok (r, bs) s /\
    ubytes (kmem s) root srcva bs /\
    (r = 0 /\ (exists str, bs = str ++ [0] /\ Forall (fun b => b <> 0) str) /\
       Z.of_nat (length bs) <= max \/
     r = -1 /\ Forall (fun b => b <> 0) bs /\
       (Z.of_nat (length bs) = max \/
        Z.of_nat (length bs) < max /\ ubyte (kmem s) root (srcva + Z.of_nat (length bs)) = None)).
Proof. intros. unfold copyinstr. eapply copyinstr_loop_ok; eauto. Qed.

(** A byte of a mapped page, from its leaf entry. *)
Lemma ubyte_leaf m root va :
  0 <= va < MAXVA ->
  let v := pt_leaf m root (PGROUNDDOWN va) 2 in
  has v PTE_V = true -> PTE2PA v <> 0 ->
  ubyte m root va = if has v PTE_U then Some (load8 m (PTE2PA v + va mod PGSIZE)) else None.
Proof.
  intros Hva v HV Hp. pose proof (PGROUNDDOWN_bounds va). pose proof (PGROUNDDOWN_nonneg va ltac:(lia)).
  unfold ubyte. rewrite user_page_leaf by lia. unfold vmap. fold v. rewrite HV. cbn [leaf_page].
  destruct (has v PTE_U); [|done]. destruct (Z.eqb_spec (PTE2PA v) 0); [done|].
  do 3 f_equal. rewrite PGROUNDDOWN_eq. lia.
Qed.

Lemma page_below va sz :
  0 <= sz <= MAXVA -> 0 <= va < PGROUNDUP sz ->
  let j := Z.to_nat (va / PGSIZE) in
  va < MAXVA /\ PGROUNDDOWN va = Z.of_nat j * PGSIZE /\ Z.of_nat j * PGSIZE < sz.
Proof.
  intros Hsz Hva j. assert (MAXVA mod PGSIZE = 0) as HMa by done. change MAXVA with (2 ^ 38) in *.
  pose proof (PGROUNDUP_bounds sz ltac:(lia) ltac:(unfold PGSIZE; lia)).
  pose proof (PGROUNDUP_aligned sz). rewrite PGROUNDDOWN_eq. unfold j. rewrite Z2Nat.id by (apply Z.div_pos; unfold PGSIZE; lia).
  unfold PGSIZE in *. Z.div_mod_to_equations. lia.
Qed.

Section CopyView.
Context (s : kmem_st) (free : list Z) (T : gmap Z nat) (old new sz : Z) (s' : kmem_st) (free' : list Z)
        (T' : gmap Z nat) (pgs : list Z).
Hypothesis Hinv : vm_inv s free T.
Hypothesis Hold : T !! old = Some 2%nat.
Hypothesis Hnew : T !! new = Some 2%nat.
Hypothesis Hne : old <> new.
Hypothesis Huo : user_ok s free T old.
Hypothesis Hsz : 0 <= sz <= MAXVA.
Hypothesis Hsrc : forall j, Z.of_nat j * PGSIZE < sz ->
  let v := pt_leaf (kmem s) old (Z.of_nat j * PGSIZE) 2 in
  has v PTE_V = true /\ PTE_FLAGS v <> PTE_V /\ page_ok (PTE2PA v) /\
  T !! PTE2PA v = None /\ PTE2PA v ∉ free.
Hypothesis Hemp : forall va, 0 <= va < PGROUNDUP sz -> vmap (kmem s) new va = None.
Hypothesis Hmp : mapped_prefix s free T new 0 (fun j => PTE_FLAGS (src_pte (kmem s) old sz j))
      (fun j x => load8 (kmem s) (PTE2PA (src_pte (kmem s) old sz j) + x)) s' free' T' pgs.

Lemma src_perm j :
  0 <= PTE_FLAGS (src_pte (kmem s) old sz j) < 1024 /\
  Z.lor (PTE_FLAGS (src_pte (kmem s) old sz j)) PTE_V <> PTE_V.
Proof.
  split; [apply flags_range|]. unfold src_pte. destruct (Z.ltb_spec (Z.of_nat j * PGSIZE) sz) as [Hj|]; [|done].
  destruct (Hsrc j Hj) as (HV & HF & _). by rewrite flags_lor_V.
Qed.

Lemma copy_view_new va :
  Z.of_nat (length pgs) * PGSIZE = PGROUNDUP sz -> 0 <= va < PGROUNDUP sz ->
  ubyte (kmem s') new va = ubyte (kmem s) old va.
Proof.
  intros Hlen Hva. destruct (page_below va sz Hsz Hva) as (HvM & Hd & Hj).
  assert (PGROUNDUP sz <= MAXVA) as HM.
  { assert (MAXVA mod PGSIZE = 0) as HMa by done. pose proof (PGROUNDUP_aligned sz). change MAXVA with (2 ^ 38) in *.
    pose proof (PGROUNDUP_bounds sz ltac:(lia) ltac:(unfold PGSIZE; lia)).
    unfold PGSIZE in *. Z.div_mod_to_equations. lia. }
  destruct (Hsrc _ Hj) as (HV & HF & Hok & _). pose proof (page_ok_pos _ Hok) as Hpos.
  rewrite <- Hd in *. rewrite (ubyte_leaf (kmem s) old va) by (done || lia).
  assert (src_pte (kmem s) old sz (Z.to_nat (va / PGSIZE)) = pt_leaf (kmem s) old (PGROUNDDOWN va) 2) as Es.
  { unfold src_pte. destruct (Z.ltb_spec (Z.of_nat (Z.to_nat (va / PGSIZE)) * PGSIZE) sz); [by rewrite Hd|lia]. }
  pose proof (view_page_new _ _ _ _ _ _ _ _ _ _ _ Hinv Hnew zero_aligned (Z.le_refl 0) src_perm Hmp va
                ltac:(lia) ltac:(lia)) as (pg & _ & Hpg & Hup).
  pose proof (view_new _ _ _ _ _ _ _ _ _ _ _ Hinv Hnew zero_aligned (Z.le_refl 0) src_perm Hmp va
                ltac:(lia) ltac:(lia)) as Hvn.
  cbv beta in *. rewrite Z.sub_0_r, Es in *. pose proof (page_ok_pa pg Hpg).
  rewrite has_flags, mkpte_flags, flags_lor_V, <- has_flags in Hup by (done || apply flags_range || (unfold PGSIZE in *; lia)).
  rewrite <- has_flags in Hvn by done. destruct (has _ PTE_U) eqn:HU; [by apply Hvn|].
  by apply ubyte_unmapped.
Qed.

Lemma copy_pages_fresh va va' :
  Z.of_nat (length pgs) * PGSIZE <= MAXVA -> 0 <= va < PGROUNDUP sz ->
  user_page (kmem s') new (PGROUNDDOWN va) <> 0 ->
  user_page (kmem s') new (PGROUNDDOWN va) <> user_page (kmem s') old (PGROUNDDOWN va').
Proof.
  intros HM Hva Hp Heq. pose proof (PGROUNDDOWN_bounds va). pose proof (PGROUNDDOWN_nonneg va ltac:(lia)).
  destruct (page_below va sz Hsz Hva) as (HvM & Hd & Hj).
  assert (user_page (kmem s') old (PGROUNDDOWN va') <> 0) as Hp' by congruence.
  destruct (view_page_cases _ _ _ _ _ _ _ _ _ _ _ Hinv Hnew zero_aligned (Z.le_refl 0) src_perm Hmp
              new va Hnew HM Hp) as [(_ & _ & Hpg)|Hun].
  - destruct (view_page_cases _ _ _ _ _ _ _ _ _ _ _ Hinv Hnew zero_aligned (Z.le_refl 0) src_perm Hmp
                old va' Hold HM Hp') as [(? & _)|Hold']; [done|].
    rewrite <- Hold' in Hp'. destruct (uo_page _ _ _ _ Huo va' Hp') as (_ & Hnf & _).
    apply Hnf. rewrite Hold', <- Heq. 
    apply (view_new_page _ _ _ _ _ _ _ _ _ _ _ Hinv Hnew zero_aligned (Z.le_refl 0) src_perm Hmp).
    by eapply list_elem_of_lookup_2.
  - rewrite user_page_leaf in Hun by lia. rewrite Hemp in Hun by lia. cbn in Hun. congruence.
Qed.

End CopyView.

(** C4: [uvmcopy], which gives a forked child its memory, either makes the child
    read exactly the bytes the parent reads, page by page with the parent's
    permissions and in pages of its own, or returns -1 and leaves the child's
    table empty; what the parent reads does not change. *)
Theorem uvmcopy_user_view s free T old new sz :
  vm_inv s free T -> T !! old = Some 2%nat -> T !! new = Some 2%nat -> old <> new ->
  user_ok s free T old -> user_ok s free T new -> 0 <= sz <= MAXVA ->
  (forall j, Z.of_nat j * PGSIZE < sz ->
     let v := pt_leaf (kmem s) old (Z.of_nat j * PGSIZE) 2 in
     has v PTE_V = true /\ PTE_FLAGS v <> PTE_V /\ page_ok (PTE2PA v) /\
     T !! PTE2PA v = None /\ PTE2PA v ∉ free) ->
  (forall va, 0 <= va < PGROUNDUP sz -> vmap (kmem s) new va = None) ->
  exists r s' free' T', uvmcopy old new sz s = Ok r s' /\
    vm_inv s' free' T' /\ T ⊆ T' /\ user_ok s' free' T' old /\ user_ok s' free' T' new /\
    (forall va, ubyte (kmem s') old va = ubyte (kmem s) old va) /\
    (r = 0 /\ (forall va, 0 <= va < PGROUNDUP sz -> ubyte (kmem s') new va = ubyte (kmem s) old va) /\
       (forall va va', 0 <= va < PGROUNDUP sz ->
          user_page (kmem s') new (PGROUNDDOWN va) <> 0 ->
          user_page (kmem s') new (PGROUNDDOWN va) <> user_page (kmem s') old (PGROUNDDOWN va')) \/
     r = -1 /\ forall va, 0 <= va < PGROUNDUP sz -> ubyte (kmem s') new va = None).
Proof.
  intros Hinv Hold Hnew Hne Huo Hun Hsz Hsrc Hemp.
  destruct (uvmcopy_ok s free T old new sz Hinv Hold Hnew Hne Hsz Hsrc Hemp)
    as (r & s' & free' & T' & pgs & E & Hmp & Hres).
  exists r, s', free', T'. split; [done|]. split; [apply Hmp|]. split; [apply Hmp|].
  pose proof (src_perm s free T old sz Hsrc) as HP.
  assert (Z.of_nat (length pgs) * PGSIZE <= PGROUNDUP sz /\ PGROUNDUP sz <= MAXVA) as [Hlen HM].
  { assert (MAXVA mod PGSIZE = 0) as HMa by done. pose proof (PGROUNDUP_aligned sz).
    change MAXVA with (2 ^ 38) in *.
    pose proof (PGROUNDUP_bounds sz ltac:(lia) ltac:(unfold PGSIZE; lia)).
    destruct Hres as [[_ ->]|[_ ->]]; cbn [length]; unfold PGSIZE in *; Z.div_mod_to_equations; lia. }
  split; [|split; [|split]].
  - apply (view_user_ok _ _ _ _ _ _ _ _ _ _ _ Hinv Hnew zero_aligned (Z.le_refl 0) HP Hmp); auto; lia.
  - apply (view_user_ok _ _ _ _ _ _ _ _ _ _ _ Hinv Hnew zero_aligned (Z.le_refl 0) HP Hmp); auto; lia.
  - intros va. eapply view_old; eauto using zero_aligned. tauto.
  - destruct Hres as [[-> Hl]|[-> ->]]; [left|right]; (split; [done|]).
    + split; [intros; by eapply copy_view_new|]. intros. eapply copy_pages_fresh; eauto. lia.
    + intros va Hva. destruct (page_below va sz Hsz Hva) as (HvM & Hd & Hj). apply ubyte_unmapped.
      rewrite user_page_leaf by (unfold PGSIZE in *; lia).
      rewrite (mp_leaf Hmp), decide_False by (done || cbn; unfold PGSIZE in *; lia).
      rewrite Hemp; [done|]. pose proof (PGROUNDDOWN_bounds va). unfold PGSIZE in *; lia.
Qed.

End VmSpec.

(** ** A running example: a machine with 16 free pages and two processes *)

Lemma user_ok_empty {L : Linker} s free (T : gmap Z nat) root :
  (forall va, vmap (kmem s) root va = None) -> user_ok s free T root.
Proof.
  intros H. assert (forall va, user_page (kmem s) root va = 0) as Hz.
  { intros va. unfold user_page. rewrite H. by case_bool. }
  split; intros va; [|intros va']; rewrite Hz; done.
Qed.

#[local] Existing Instances demo_linker demo_linker_ok.

Lemma demo_empty :
  exists s free T old new, vm_inv s free T /\ T !! old = Some 2%nat /\ T !! new = Some 2%nat /\ old <> new /\
    (forall va, vmap (kmem s) old va = None) /\ (forall va, vmap (kmem s) new va = None) /\
    exists s', uvmalloc old 0 8192 s = Ok 8192 s'.
Proof.
  destruct (kinit_ok ∅ byte_mem_empty) as (s0 & E0 & Hk).
  set (ps := rev all_pages) in *. vm_compute in ps.
  match goal with ps := ?q :: ?r :: ?l |- _ => set (free := l) in ps; set (old := q) in ps; set (new := r) in ps end.
  assert (vm_inv s0 (old :: new :: free) ∅) as Hv.
  { split; [exact Hk| |intros; apply lookup_empty].
    split; [intros ? ?; rewrite lookup_empty; congruence..]. }
  destruct (uvmcreate_ok s0 old (new :: free) ∅ Hv) as (s1 & E1 & Hinv1 & _ & Hun1 & _).
  destruct (uvmcreate_ok s1 new free _ Hinv1) as (s2 & E2 & Hinv2 & Hnew & Hun2 & _ & Hl2).
  exists s2, free, (<[new := 2%nat]> (<[old := 2%nat]> ∅)), old, new.
  assert (old <> new) by done.
  split; [exact Hinv2|]. split; [by rewrite lookup_insert_ne, lookup_insert_eq by done|].
  split; [by rewrite lookup_insert_eq|]. split; [done|]. split.
  { intros va. unfold vmap. rewrite Hl2 by apply lookup_insert_eq. apply Hun1. }
  split; [done|].
  assert (match (kinit ;; let! old := uvmcreate in let! new := uvmcreate in uvmalloc old 0 8192) (mk_kmem ∅ 0) with
          | Ok r _ => r | _ => 0 end = 8192) as Hrun by (vm_compute; reflexivity).
  erewrite bind_Ok in Hrun by exact E0. erewrite bind_Ok in Hrun by exact E1. erewrite bind_Ok in Hrun by exact E2.
  clearbody old. destruct (uvmalloc old 0 8192 s2) as [r s'| | |]; try discriminate. subst r. eauto.
Qed.

(** The parent has two zeroed pages, the child an empty table. *)
Lemma demo_mapped :
  exists s free T old new, vm_inv s free T /\ T !! old = Some 2%nat /\ T !! new = Some 2%nat /\ old <> new /\
    user_ok s free T old /\ user_ok s free T new /\
    (forall va, 0 <= va < 8192 -> ubyte (kmem s) old va = Some 0) /\
    (forall va, 0 <= va < MAXVA -> vmap (kmem s) new va = None) /\
    forall j, Z.of_nat j * PGSIZE < 8192 ->
     let v := pt_leaf (kmem s) old (Z.of_nat j * PGSIZE) 2 in
     has v PTE_V = true /\ PTE_FLAGS v <> PTE_V /\ page_ok (PTE2PA v) /\
     T !! PTE2PA v = None /\ PTE2PA v ∉ free.
Proof.
  destruct demo_empty as (s0 & free0 & T0 & old & new & Hinv0 & Hold & Hnew & Hne & Huo & Hun & s & E).
  destruct (uvmalloc_ok s0 free0 T0 old 0 8192 Hinv0 Hold ltac:(done) ltac:(done) (fun va _ => Huo va))
    as (r & s' & free & T & pgs & E' & Hmp & Hres).
  rewrite E in E'. injection E' as <- <-. destruct Hres as [[_ Hlen]|[? _]]; [|done].
  change (PGROUNDUP 0) with 0 in *. change (PGROUNDUP 8192) with 8192 in *.
  pose proof (mp_owned Hinv0 Hold zero_aligned (Z.le_refl 0) (fun _ => PTE_WXRU_perm) Hmp) as [_ Hown].
  pose proof (mp_mapped_at Hinv0 Hold zero_aligned (Z.le_refl 0) (fun _ => PTE_WXRU_perm) Hmp ltac:(rewrite Hlen; done)) as Hat.
  exists s, free, T, old, new. split; [apply Hmp|]. do 2 (split; [by eapply lookup_weaken, Hmp|]).
  split; [done|]. do 2 (split; [eapply (view_user_ok _ _ _ _ _ _ _ _ _ _ _ Hinv0 Hold zero_aligned (Z.le_refl 0) (fun _ => PTE_WXRU_perm) Hmp);
    [done|rewrite Hlen; done|by apply user_ok_empty]|]). split; [|split].
  - intros va Hva. rewrite (view_new _ _ _ _ _ _ _ _ _ _ _ Hinv0 Hold zero_aligned (Z.le_refl 0) (fun _ => PTE_WXRU_perm) Hmp);
      [done|lia|rewrite Hlen; done|done].
  - intros va Hva. rewrite (mp_leaf Hmp), decide_False by (done || by intros [? _]). done.
  - intros j Hj. destruct (lookup_lt_is_Some_2 pgs j) as [pg Hpg]; [unfold PGSIZE in *; lia|].
    destruct (Hat j pg Hpg) as (HV & HF & <-). split; [done|]. split; [done|].
    destruct (Hown _ (list_elem_of_lookup_2 _ _ _ Hpg)) as (? & ? & ?). done.
Qed.

Lemma uvmalloc_user_view_witness :
  exists s root s', uvmalloc root 0 8192 s = Ok 8192 s' /\
    forall va, 0 <= va < 8192 -> ubyte (kmem s') root va = Some 0.
Proof.
  destruct demo_empty as (s & free & T & root & new & Hinv & Hr & _ & _ & Hu & _ & s' & E).
  exists s, root, s'. split; [exact E|].
  destruct (uvmalloc_user_view s free T root 0 8192 Hinv Hr (user_ok_empty _ _ _ _ Hu)
              ltac:(split; vm_compute; discriminate) ltac:(vm_compute; discriminate) (fun va _ => Hu va))
    as (r & s2 & free' & T' & E2 & _ & _ & _ & Hres & _).
  rewrite E in E2. injection E2 as <- <-.
  destruct Hres as [[_ H]|[H _]]; [exact H | discriminate H].
Defined.

Lemma uvmcopy_user_view_witness :
  exists s old new r s', uvmcopy old new 8192 s = Ok r s' /\
    (forall va, 0 <= va < 8192 -> ubyte (kmem s) old va = Some 0) /\
    (forall va, ubyte (kmem s') old va = ubyte (kmem s) old va).
Proof.
  destruct demo_mapped as (s & free & T & old & new & Hinv & Ho & Hn & Hne & Huo & Hun & Hb & He & Hsrc).
  destruct (uvmcopy_user_view s free T old new 8192 Hinv Ho Hn Hne Huo Hun
              ltac:(split; vm_compute; discriminate) Hsrc) as (r & s' & free' & T' & E & _ & _ & _ & _ & Hv & _).
  - intros va Hva. apply He. change (PGROUNDUP 8192) with 8192 in Hva. change MAXVA with (2 ^ 38). lia.
  - exists s, old, new, r, s'. auto.
Defined.

(** A string that crosses the boundary between the two pages. *)
Lemma copyout_copyin_roundtrip_witness :
  exists s root s', copyout root 4094 [104; 101; 108; 108; 111] s = Ok 0 s' /\
    copyin root 4094 5 s' = Ok (0, [104; 101; 108; 108; 111]) s'.
Proof.
  destruct demo_mapped as (s & free & T & root & _ & Hinv & Hr & _ & _ & Hu & _ & Hb & _).
  assert (Forall (fun b => 0 <= b < 256) [104; 101; 108; 108; 111]) as HF by (repeat constructor; done).
  destruct (copyout_ok s free T root 4094 [104; 101; 108; 108; 111] Hinv Hr Hu HF ltac:(done))
    as (r & s' & n & E & _ & [[-> _]|(_ & Hn & Hnone)]).
  - exists s, root, s'. split; [exact E|].
    exact (copyout_copyin_roundtrip s free T root 4094 _ s' Hinv Hr Hu HF ltac:(done) E).
  - rewrite Hb in Hnone by (cbn in Hn; lia). discriminate.
Defined.

Lemma copyinstr_spec_witness :
  exists s root r bs, copyinstr root 4094 5 s = Ok (r, bs) s /\ ubytes (kmem s) root 4094 bs.
Proof.
  destruct demo_mapped as (s & free & T & root & _ & Hinv & Hr & _).
  destruct (copyinstr_spec s T root 4094 5 (vi_wf _ _ _ _ Hinv) Hr ltac:(lia) ltac:(lia))
    as (r & bs & E & Hub & _). exists s, root, r, bs. auto.
Defined.
