(* ===== verification/Spinlock.v ===== *)
(** * kernel/spinlock.c: spin locks and interrupt masking

    [push_off], [pop_off], [holding] and [initlock] are functions on the state
    of a CPU or of a lock.  [acquire] and [release] are given twice: as
    computations on the whole machine for a CPU that runs undisturbed, and, one
    atomic memory access at a time, as the steps of CPUs that run concurrently
    ([step]).  The mutual-exclusion theorems are about the second form. *)
From stdpp Require Import base gmap list numbers strings.
From Stdlib Require Import ZArith Lia.
From S2P Require Import Prelude.
Open Scope Z_scope.

(** [struct spinlock]; [lcpu] is the field [cpu], [None] for a null pointer. *)
Record spinlock := mk_lock { locked : Z; lname : string; lcpu : option nat }.

(** The fields of [struct cpu] used here, and the SIE bit of [sstatus]. *)
Record cpu := mk_cpu { noff : Z; intena : bool; intr : bool }.

Definition initlock (name : string) : spinlock := mk_lock 0 name None.

Definition push_off (c : cpu) : cpu :=
  let old := intr c in
  mk_cpu (noff c + 1) (if noff c =? 0 then old else intena c) false.

Definition pop_off (c : cpu) : string + cpu :=
  if intr c then inl "pop_off - interruptible"%string
  else if noff c <? 1 then inl "pop_off"%string
  else
    let n := noff c - 1 in
    inr (mk_cpu n (intena c) (if (n =? 0) && intena c then true else intr c)).

Definition holding (id : nat) (lk : spinlock) : bool :=
  negb (locked lk =? 0) && bool_decide (lcpu lk = Some id).

(** ** Machine state *)

(** Where a CPU is: outside the lock code, or inside [acquire] or [release] of a
    lock, just before the named access. *)
Inductive pc :=
| Idle
| APush (lk : Z) | AHold1 (lk : Z) | AHold2 (lk : Z) | ASwap (lk : Z) | ASetCpu (lk : Z)
| RHold1 (lk : Z) | RHold2 (lk : Z) | RClear (lk : Z) | RUnlock (lk : Z) | RPop (lk : Z)
| Stuck (msg : string).

(** [held]: the locks whose critical section the CPU is in.  [depth]: the
    [push_off]s of its own it has not undone.  [base]: the interrupt flag when
    [noff] was last 0.  The three are ghost state. *)
Record cpust := mk_cpust { cs : cpu; cpc : pc; held : list Z; depth : Z; base : bool }.

Record machine := mk_machine { locks : gmap Z spinlock; cpus : gmap nat cpust }.

Definition set_lock (a : Z) (l : spinlock) (m : machine) : machine :=
  mk_machine (<[a := l]> (locks m)) (cpus m).
Definition set_cpu (c : nat) (s : cpust) (m : machine) : machine :=
  mk_machine (locks m) (<[c := s]> (cpus m)).
Definition goto (p : pc) (s : cpust) : cpust := mk_cpust (cs s) p (held s) (depth s) (base s).
Definition with_cs (k : cpu) (s : cpust) : cpust := mk_cpust k (cpc s) (held s) (depth s) (base s).
Definition with_held (h : list Z) (s : cpust) : cpust := mk_cpust (cs s) (cpc s) h (depth s) (base s).

(** ** [acquire] and [release] on one CPU, undisturbed *)

Definition acquire (id : nat) (a : Z) (m : machine) : outcome machine unit :=
  match locks m !! a, cpus m !! id with
  | Some lk, Some s =>
      let m1 := set_cpu id (with_cs (push_off (cs s)) s) m in
      if holding id lk then Panic "acquire"
      else if negb (locked lk =? 0) then Diverge
      else Ok tt (set_lock a (mk_lock 1 (lname lk) (Some id)) m1)
  | _, _ => Panic "fault"
  end.

Definition release (id : nat) (a : Z) (m : machine) : outcome machine unit :=
  match locks m !! a, cpus m !! id with
  | Some lk, Some s =>
      if negb (holding id lk) then Panic "release"
      else
        let m1 := set_lock a (mk_lock 0 (lname lk) None) m in
        match pop_off (cs s) with
        | inl msg => Panic msg
        | inr k => Ok tt (set_cpu id (with_cs k s) m1)
        end
  | _, _ => Panic "fault"
  end.

(** ** The steps of a CPU *)

(** One memory access inside [acquire] or [release]. *)
Definition lock_step (c : nat) (m : machine) : option machine :=
  match cpus m !! c with
  | None => None
  | Some s =>
      let here a f := match locks m !! a with Some lk => f lk | None => None end in
      match cpc s with
      | Idle | Stuck _ => None
      | APush a => Some (set_cpu c (goto (AHold1 a) (with_cs (push_off (cs s)) s)) m)
      | AHold1 a => here a (fun lk =>
          Some (set_cpu c (goto (if locked lk =? 0 then ASwap a else AHold2 a) s) m))
      | AHold2 a => here a (fun lk =>
          Some (set_cpu c (goto (if decide (lcpu lk = Some c) then Stuck "acquire" else ASwap a) s) m))
      | ASwap a => here a (fun lk =>
          Some (set_lock a (mk_lock 1 (lname lk) (lcpu lk))
                 (set_cpu c (goto (if locked lk =? 0 then ASetCpu a else ASwap a) s) m)))
      | ASetCpu a => here a (fun lk =>
          Some (set_lock a (mk_lock (locked lk) (lname lk) (Some c))
                 (set_cpu c (goto Idle (with_held (a :: held s) s)) m)))
      | RHold1 a => here a (fun lk =>
          Some (set_cpu c (goto (if locked lk =? 0 then Stuck "release" else RHold2 a) s) m))
      | RHold2 a => here a (fun lk =>
          Some (set_cpu c (goto (if decide (lcpu lk = Some c) then RClear a else Stuck "release") s) m))
      | RClear a => here a (fun lk =>
          Some (set_lock a (mk_lock (locked lk) (lname lk) None)
                 (set_cpu c (goto (RUnlock a) (with_held (filter (.≠ a) (held s)) s)) m)))
      | RUnlock a => here a (fun lk =>
          Some (set_lock a (mk_lock 0 (lname lk) (lcpu lk)) (set_cpu c (goto (RPop a) s) m)))
      | RPop a =>
          Some (set_cpu c match pop_off (cs s) with
                          | inl msg => goto (Stuck msg) s
                          | inr k => goto Idle (with_cs k s)
                          end m)
      end
  end.

(** What a CPU may do: an access of the lock code, or, outside it, call
    [acquire] or [release] on any lock, call [push_off], undo a [push_off] of its
    own, or enable or disable interrupts while none is masked. *)
Inductive step (c : nat) (m : machine) : machine -> Prop :=
| step_lock m' : lock_step c m = Some m' -> step c m m'
| step_acquire s a :
    cpus m !! c = Some s -> cpc s = Idle -> is_Some (locks m !! a) ->
    step c m (set_cpu c (goto (APush a) s) m)
| step_release s a :
    cpus m !! c = Some s -> cpc s = Idle -> is_Some (locks m !! a) ->
    step c m (set_cpu c (goto (RHold1 a) s) m)
| step_push s :
    cpus m !! c = Some s -> cpc s = Idle ->
    step c m (set_cpu c (mk_cpust (push_off (cs s)) Idle (held s) (depth s + 1) (base s)) m)
| step_pop s k :
    cpus m !! c = Some s -> cpc s = Idle -> 0 < depth s -> pop_off (cs s) = inr k ->
    step c m (set_cpu c (mk_cpust k Idle (held s) (depth s - 1) (base s)) m)
| step_intr s b :
    cpus m !! c = Some s -> cpc s = Idle -> noff (cs s) = 0 ->
    step c m (set_cpu c (mk_cpust (mk_cpu 0 (intena (cs s)) b) Idle (held s) (depth s) b) m).

Definition boot_cpu : cpust := mk_cpust (mk_cpu 0 false false) Idle [] 0 false.

(** [n] CPUs and the given locks, all free. *)
Definition boot (n : nat) (ls : gmap Z string) : machine :=
  mk_machine (initlock <$> ls) (list_to_map ((fun c => (c, boot_cpu)) <$> seq 0 n)).

Inductive reachable (n : nat) (ls : gmap Z string) : machine -> Prop :=
| reach_boot : reachable n ls (boot n ls)
| reach_step c m m' : reachable n ls m -> step c m m' -> reachable n ls m'.

(** ** The invariant *)

(** Locks whose [locked] word this CPU has set and not yet cleared. *)
Definition owned (s : cpust) : list Z :=
  match cpc s with
  | ASetCpu a | RUnlock a => a :: held s
  | _ => held s
  end.

(** [push_off]s made by the lock code and not yet undone, beyond those of [held]. *)
Definition pending (p : pc) : Z :=
  match p with
  | AHold1 _ | AHold2 _ | ASwap _ | ASetCpu _ | RUnlock _ | RPop _ => 1
  | _ => 0
  end.

Record cpu_ok (s : cpust) : Prop := {
  co_nodup : NoDup (owned s);
  co_depth : 0 <= depth s;
  co_noff : (forall msg, cpc s <> Stuck msg) ->
            noff (cs s) = Z.of_nat (length (held s)) + depth s + pending (cpc s);
  co_base0 : noff (cs s) = 0 -> intr (cs s) = base s;
  co_base1 : noff (cs s) <> 0 -> intr (cs s) = false /\ intena (cs s) = base s;
  co_rclear : forall a, cpc s = RClear a -> a ∈ held s
}.

Record inv (m : machine) : Prop := {
  in_cpu : forall c s, cpus m !! c = Some s -> cpu_ok s;
  in_bit : forall a lk, locks m !! a = Some lk -> locked lk = 0 \/ locked lk = 1;
  in_own : forall a lk, locks m !! a = Some lk ->
             (locked lk = 1 <-> exists c s, cpus m !! c = Some s /\ a ∈ owned s);
  in_excl : forall a c s c' s', cpus m !! c = Some s -> cpus m !! c' = Some s' ->
             a ∈ owned s -> a ∈ owned s' -> c = c';
  in_held : forall a lk c s, locks m !! a = Some lk -> cpus m !! c = Some s ->
             (a ∈ held s <-> lcpu lk = Some c)
}.

Lemma set_cpu_lookup c s m c' :
  cpus (set_cpu c s m) !! c' = if decide (c = c') then Some s else cpus m !! c'.
Proof. apply lookup_insert. Qed.

Lemma set_lock_lookup a lk m b :
  locks (set_lock a lk m) !! b = if decide (a = b) then Some lk else locks m !! b.
Proof. apply lookup_insert. Qed.

(** A CPU moves without touching a lock. *)
Lemma inv_cpu c s s' m :
  inv m -> cpus m !! c = Some s -> owned s' = owned s -> held s' = held s -> cpu_ok s' ->
  inv (set_cpu c s' m).
Proof.
  intros [H1 H2 H3 H4 H5] Hc Eo Eh Hok.
  assert (forall c0 s0, cpus (set_cpu c s' m) !! c0 = Some s0 ->
    exists s1, cpus m !! c0 = Some s1 /\ owned s0 = owned s1 /\ held s0 = held s1) as Hold.
  { intros c0 s0. rewrite set_cpu_lookup. case_decide as D; [|eauto]. intros [= <-]. subst. eauto. }
  assert (forall c0 s1, cpus m !! c0 = Some s1 ->
    exists s0, cpus (set_cpu c s' m) !! c0 = Some s0 /\ owned s0 = owned s1) as Hnew.
  { intros c0 s1 E. rewrite set_cpu_lookup. case_decide as D; [|eauto]. subst. exists s'. split; congruence. }
  split.
  - intros c0 s0. rewrite set_cpu_lookup. case_decide; [by intros [= <-] | eauto].
  - done.
  - intros a lk Ha. rewrite H3 by done. split.
    + intros (c0 & s1 & E & Hin). destruct (Hnew c0 s1 E) as (s0 & E0 & Eo0). exists c0, s0. by rewrite Eo0.
    + intros (c0 & s0 & E & Hin). destruct (Hold c0 s0 E) as (s1 & E1 & Eo1 & _). exists c0, s1. by rewrite <- Eo1.
  - intros a c0 s0 c1 s1 E0 E1 Ha0 Ha1.
    destruct (Hold c0 s0 E0) as (t0 & F0 & G0 & _), (Hold c1 s1 E1) as (t1 & F1 & G1 & _).
    rewrite G0 in Ha0. rewrite G1 in Ha1. eauto.
  - intros a lk c0 s0 Ha E. destruct (Hold c0 s0 E) as (s1 & E1 & _ & Eh1). rewrite Eh1. eauto.
Qed.

(** A CPU moves and rewrites the lock [a]. *)
Lemma inv_lock c s s' a lk lk' m :
  inv m -> cpus m !! c = Some s -> locks m !! a = Some lk -> cpu_ok s' ->
  (forall b, b <> a -> (b ∈ owned s' <-> b ∈ owned s) /\ (b ∈ held s' <-> b ∈ held s)) ->
  (locked lk' = 1 /\ a ∈ owned s' /\ (locked lk = 0 \/ a ∈ owned s) \/
   locked lk' = 0 /\ a ∉ owned s' /\ a ∈ owned s \/
   locked lk' = locked lk /\ (a ∈ owned s' <-> a ∈ owned s)) ->
  (a ∈ held s' <-> lcpu lk' = Some c) ->
  (forall c' s1, c' <> c -> cpus m !! c' = Some s1 -> lcpu lk' = Some c' <-> lcpu lk = Some c') ->
  inv (set_lock a lk' (set_cpu c s' m)).
Proof.
  intros [H1 H2 H3 H4 H5] Hc Ha Hok Hb Hbit Hh Hoth.
  pose proof (H2 a lk Ha) as Hz. pose proof (H3 a lk Ha) as Hown.
  assert (a ∈ owned s' -> forall c0 s0, c0 <> c -> cpus m !! c0 = Some s0 -> a ∉ owned s0) as Hexcl.
  { intros Hin c0 s0 Hne E0 Hin0.
    destruct Hbit as [(_ & _ & [Hl|Hl])|[(_ & Hl & _)|(_ & Hl)]]; [|by eapply Hne, H4|done|].
    - assert (locked lk = 1) by (apply Hown; eauto). lia.
    - apply Hl in Hin. by eapply Hne, H4. }
  split; change (cpus (set_lock a lk' (set_cpu c s' m))) with (cpus (set_cpu c s' m));
    change (locks (set_lock a lk' (set_cpu c s' m))) with (locks (set_lock a lk' m)).
  - intros c0 s0. rewrite set_cpu_lookup. case_decide; [by intros [= <-] | eauto].
  - intros b l. rewrite set_lock_lookup. case_decide; [|by apply H2]. intros [= <-].
    destruct Hbit as [(? & _)|[(? & _)|(-> & _)]]; auto.
  - intros b l. rewrite set_lock_lookup. case_decide as D.
    + intros [= <-]. subst b. split.
      * intros E1. destruct (decide (a ∈ owned s')) as [Hin|Hin].
        { exists c, s'. rewrite set_cpu_lookup, decide_True by done. done. }
        destruct Hbit as [(_ & ? & _)|[(? & _)|(E & Hio)]]; [done|lia|].
        rewrite E in E1. apply Hown in E1 as (c0 & s0 & E0 & Hin0). exists c0, s0.
        rewrite set_cpu_lookup. case_decide as D; [|done]. subst. exfalso. apply Hin, Hio.
        by replace s with s0 by congruence.
      * intros (c0 & s0 & E0 & Hin0). rewrite set_cpu_lookup in E0. case_decide as D.
        { injection E0 as <-. destruct Hbit as [(? & _)|[(_ & ? & _)|(-> & Hio)]]; [done|done|].
          apply Hown. exists c, s. by rewrite <- Hio. }
        destruct Hbit as [(? & _)|[(_ & _ & Hl)|(-> & _)]]; [done| |apply Hown; eauto].
        exfalso. apply D. by eapply H4.
    + intros El. rewrite H3 by done. split; intros (c0 & s0 & E0 & Hin0).
      * destruct (decide (c = c0)) as [<-|].
        -- exists c, s'. rewrite set_cpu_lookup, decide_True by done. split; [done|].
           apply Hb; [done|]. by replace s with s0 by congruence.
        -- exists c0, s0. by rewrite set_cpu_lookup, decide_False by done.
      * rewrite set_cpu_lookup in E0. case_decide; [|eauto]. injection E0 as <-. subst c0.
        exists c, s. split; [done|]. by apply Hb.
  - intros b c0 s0 c1 s1. rewrite !set_cpu_lookup. intros E0 E1 Hin0 Hin1.
    destruct (decide (c = c0)) as [D0|D0], (decide (c = c1)) as [D1|D1]; subst; simplify_eq; try done; [| |eauto].
    all: destruct (decide (b = a)) as [->|]; [exfalso; by eapply Hexcl|].
    all: eapply H4; eauto; by apply Hb.
  - intros b l c0 s0. rewrite set_lock_lookup, set_cpu_lookup. intros El E0.
    destruct (decide (a = b)) as [<-|D]; [injection El as <-|];
      (destruct (decide (c = c0)) as [<-|D']; [injection E0 as <-|]).
    + done.
    + rewrite (Hoth c0 s0) by done. eauto.
    + rewrite (proj2 (Hb b ltac:(done))). eauto.
    + eauto.
Qed.

Lemma push_off_ok k : noff (push_off k) = noff k + 1 /\ intr (push_off k) = false /\
  intena (push_off k) = if noff k =? 0 then intr k else intena k.
Proof. done. Qed.

Lemma pop_off_ok k :
  0 < noff k -> intr k = false ->
  pop_off k = inr (mk_cpu (noff k - 1) (intena k) (if (noff k - 1 =? 0) && intena k then true else false)).
Proof.
  intros H E. unfold pop_off. rewrite E. destruct (Z.ltb_spec (noff k) 1); [lia|]. done.
Qed.

(** [push_off] and [pop_off] keep the record of the interrupt flag. *)
Lemma push_base s :
  cpu_ok s -> 0 <= noff (cs s) ->
  noff (push_off (cs s)) <> 0 /\ intr (push_off (cs s)) = false /\ intena (push_off (cs s)) = base s.
Proof.
  intros [_ _ _ H0 H1 _] Hn. destruct (push_off_ok (cs s)) as (-> & -> & ->). split; [lia|]. split; [done|].
  destruct (Z.eqb_spec (noff (cs s)) 0); [auto|]. by apply H1.
Qed.

Lemma pop_base s k :
  cpu_ok s -> 0 < noff (cs s) -> pop_off (cs s) = inr k ->
  noff k = noff (cs s) - 1 /\ (noff k = 0 -> intr k = base s) /\
  (noff k <> 0 -> intr k = false /\ intena k = base s).
Proof.
  intros [_ _ _ _ H1 _] Hn E. destruct H1 as [Hi He]; [lia|]. rewrite pop_off_ok in E by done.
  injection E as <-. cbn. rewrite He. split; [done|].
  destruct (Z.eqb_spec (noff (cs s) - 1) 0); cbn; [|done]. by destruct (base s).
Qed.

Lemma noff_nonneg s : cpu_ok s -> (forall msg, cpc s <> Stuck msg) -> 0 <= noff (cs s).
Proof. intros [_ Hd Hn _ _ _] Hs. rewrite Hn by done. destruct (cpc s); cbn; lia. Qed.

Lemma filter_ne_id (a : Z) (l : list Z) : a ∉ l -> filter (.≠ a) l = l.
Proof.
  induction l as [|b l IH]; intros Hn; [done|]. rewrite filter_cons_True by set_solver.
  f_equal. apply IH. set_solver.
Qed.

Lemma length_filter_ne (a : Z) (l : list Z) :
  NoDup l -> a ∈ l -> Z.of_nat (length (filter (.≠ a) l)) = Z.of_nat (length l) - 1.
Proof.
  induction l as [|b l IH]; intros Hnd Hin; [by apply elem_of_nil in Hin|].
  apply NoDup_cons in Hnd as [Hb Hnd]. destruct (decide (b = a)) as [->|Hne].
  - rewrite filter_cons_False, filter_ne_id by auto. cbn. lia.
  - rewrite filter_cons_True by done. cbn [length]. rewrite Nat2Z.inj_succ, IH; [lia|done|set_solver].
Qed.

(** Moves inside the lock code that do not change what the CPU owns. *)
Lemma cpu_ok_goto s p :
  cpu_ok s -> (forall msg, cpc s <> Stuck msg) -> owned (goto p s) = owned s ->
  pending p = pending (cpc s) \/ (exists msg, p = Stuck msg) ->
  (forall a, p = RClear a -> a ∈ held s) -> cpu_ok (goto p s).
Proof.
  intros [H1 H2 H3 H4 H5 _] Hs Ho Hp Hr. split; cbn [cs cpc held depth base goto]; try done.
  - by rewrite Ho.
  - intros Hns. destruct Hp as [->|[msg ->]]; [auto|]. by destruct (Hns msg).
Qed.

Section LockStep.
Context (c : nat) (s : cpust) (m : machine) (a : Z) (lk : spinlock).
Hypothesis Hinv : inv m.
Hypothesis Hc : cpus m !! c = Some s.
Hypothesis Ha : locks m !! a = Some lk.

Lemma swap_inv :
  cpc s = ASwap a ->
  inv (set_lock a (mk_lock 1 (lname lk) (lcpu lk))
        (set_cpu c (goto (if locked lk =? 0 then ASetCpu a else ASwap a) s) m)).
Proof.
  intros Hpc. pose proof (in_cpu _ Hinv c s Hc) as Hok.
  assert (owned s = held s) as Eo by (unfold owned; by rewrite Hpc).
  destruct (Z.eqb_spec (locked lk) 0) as [Hz|Hz].
  - assert (owned (goto (ASetCpu a) s) = a :: held s) as Eo' by done.
    assert (a ∉ held s) as Hni.
    { intros Hin. assert (locked lk = 1); [|lia]. apply (in_own _ Hinv a lk Ha). exists c, s. by rewrite Eo. }
    apply (inv_lock c s _ a lk); auto; rewrite ?Eo, ?Eo'; cbn [locked lcpu held goto].
    + destruct Hok as [H1 H2 H3 H4 H5 _]. split; cbn; try done.
      * rewrite Eo in H1. by constructor.
      * intros _. rewrite H3, Hpc by (rewrite Hpc; done). done.
    + set_solver.
    + left. split; [done|]. split; [set_solver|auto].
    + apply (in_held _ Hinv a lk c s Ha Hc).
  - assert (owned (goto (ASwap a) s) = held s) as Eo' by done.
    apply (inv_lock c s _ a lk); auto; rewrite ?Eo, ?Eo'; cbn [locked lcpu held goto].
    + apply cpu_ok_goto; rewrite ?Hpc, ?Eo; auto; congruence.
    + done.
    + right. right. destruct (in_bit _ Hinv a lk Ha); [lia|]. done.
    + apply (in_held _ Hinv a lk c s Ha Hc).
Qed.

Lemma set_cpu_inv :
  cpc s = ASetCpu a ->
  inv (set_lock a (mk_lock (locked lk) (lname lk) (Some c))
        (set_cpu c (goto Idle (with_held (a :: held s) s)) m)).
Proof.
  intros Hpc. pose proof (in_cpu _ Hinv c s Hc) as Hok.
  assert (owned s = a :: held s) as Eo by (unfold owned; by rewrite Hpc).
  apply (inv_lock c s _ a lk); auto; cbn [held with_held goto lcpu locked].
  - destruct Hok as [H1 H2 H3 H4 H5 _]. split; cbn; try done.
    + by rewrite Eo in H1.
    + intros _. rewrite H3, Hpc by (rewrite Hpc; done). cbn. lia.
  - intros b Hb. rewrite Eo. cbn. set_solver.
  - right. right. rewrite Eo. done.
  - set_solver.
  - intros c' s1 Hne E1. split; [congruence|]. intros E. exfalso. apply Hne.
    apply (in_excl _ Hinv a c' s1 c s E1 Hc); [|rewrite Eo; set_solver].
    apply (in_held _ Hinv a lk c' s1 Ha E1) in E. unfold owned. destruct (cpc s1); set_solver.
Qed.

Lemma clear_inv :
  cpc s = RClear a ->
  inv (set_lock a (mk_lock (locked lk) (lname lk) None)
        (set_cpu c (goto (RUnlock a) (with_held (filter (.≠ a) (held s)) s)) m)).
Proof.
  intros Hpc. pose proof (in_cpu _ Hinv c s Hc) as Hok.
  assert (owned s = held s) as Eo by (unfold owned; by rewrite Hpc).
  pose proof (co_rclear _ Hok a Hpc) as Hin.
  assert (forall b, b ∈ filter (.≠ a) (held s) <-> b <> a /\ b ∈ held s) as Hf
    by (intros b; by rewrite list_elem_of_filter).
  apply (inv_lock c s _ a lk); auto; cbn [held with_held goto lcpu locked].
  - destruct Hok as [H1 H2 H3 H4 H5 _]. rewrite Eo in H1. split; cbn; try done.
    + constructor; [rewrite Hf; tauto | by apply NoDup_filter].
    + intros _. rewrite H3, Hpc, length_filter_ne by (rewrite ?Hpc; done). cbn. lia.
  - intros b Hb. rewrite Eo. cbn. rewrite elem_of_cons, Hf. tauto.
  - right. right. rewrite Eo. cbn. rewrite elem_of_cons, Hf. tauto.
  - rewrite Hf. split; [tauto | done].
  - intros c' s1 Hne E1. split; [done|]. intros E. exfalso. apply Hne.
    apply (in_held _ Hinv a lk c s Ha Hc) in Hin. congruence.
Qed.

Lemma unlock_inv :
  cpc s = RUnlock a ->
  inv (set_lock a (mk_lock 0 (lname lk) (lcpu lk)) (set_cpu c (goto (RPop a) s) m)).
Proof.
  intros Hpc. pose proof (in_cpu _ Hinv c s Hc) as Hok.
  assert (owned s = a :: held s) as Eo by (unfold owned; by rewrite Hpc).
  pose proof (co_nodup _ Hok) as Hnd. rewrite Eo in Hnd. apply NoDup_cons in Hnd as [Hni Hnd].
  apply (inv_lock c s _ a lk); auto; cbn [held goto lcpu locked].
  - destruct Hok as [H1 H2 H3 H4 H5 _]. split; cbn; try done.
    intros _. rewrite H3, Hpc by (rewrite Hpc; done). done.
  - intros b Hb. rewrite Eo. cbn. set_solver.
  - right. left. rewrite Eo. cbn. set_solver.
  - by apply (in_held _ Hinv a lk c s).
Qed.

End LockStep.

Lemma lock_step_inv c m m' : inv m -> lock_step c m = Some m' -> inv m'.
Proof.
  intros Hinv E. unfold lock_step in E. destruct (cpus m !! c) as [s|] eqn:Hc; [|done].
  pose proof (in_cpu _ Hinv c s Hc) as Hok.
  destruct (cpc s) as [|a|a|a|a|a|a|a|a|a|a|msg0] eqn:Hpc; try done;
    try (destruct (locks m !! a) as [lk|] eqn:Ha; [|done]); injection E as <-;
    pose proof (noff_nonneg s Hok ltac:(congruence)) as Hn;
    try (apply (inv_cpu c s); [done|done|unfold owned; rewrite Hpc; cbn; by repeat case_match|done|]).
  - destruct (push_base s Hok Hn) as (B1 & B2 & B3). destruct Hok as [H1 H2 H3 H4 H5 _]. unfold owned in H1.
    rewrite Hpc in H1. split; cbn [cs cpc held depth base goto with_cs owned]; try done.
    intros _. cbn. rewrite H3, Hpc by congruence. cbn. lia.
  - case_match; (apply cpu_ok_goto; [done|congruence|unfold owned; by rewrite Hpc|rewrite Hpc; by left|done]).
  - case_decide; (apply cpu_ok_goto; [done|congruence|unfold owned; by rewrite Hpc|rewrite Hpc; eauto|done]).
  - by apply swap_inv.
  - by apply set_cpu_inv.
  - case_match; (apply cpu_ok_goto; [done|congruence|unfold owned; by rewrite Hpc|rewrite Hpc; eauto|done]).
  - case_decide; (apply cpu_ok_goto; [done|congruence|unfold owned; by rewrite Hpc|rewrite Hpc; eauto|]); [|done].
    intros b [= <-]. by eapply in_held.
  - by apply clear_inv.
  - by apply unlock_inv.
  - pose proof (co_noff _ Hok ltac:(congruence)) as Hnoff. rewrite Hpc in Hnoff. cbn in Hnoff.
    pose proof (co_depth _ Hok) as Hd. destruct (co_base1 _ Hok ltac:(lia)) as [Hi _].
    rewrite pop_off_ok by (done || lia).
    apply (inv_cpu c s); [done|done|unfold owned; by rewrite Hpc|done|].
    destruct (pop_base s _ Hok ltac:(lia) (pop_off_ok (cs s) ltac:(lia) Hi)) as (B1 & B2 & B3).
    destruct Hok as [H1 H2 H3 H4 H5 _]. unfold owned in H1. rewrite Hpc in H1.
    split; cbn [cs cpc held depth base goto with_cs owned] in *; try done. intros _. cbn in *. lia.
Qed.

Lemma step_inv c m m' : inv m -> step c m m' -> inv m'.
Proof.
  intros Hinv [m1 E|s a Hc Hpc Ha|s a Hc Hpc Ha|s Hc Hpc|s k Hc Hpc Hd Hp|s b Hc Hpc Hn];
    [by eapply lock_step_inv|..]; pose proof (in_cpu _ Hinv c s Hc) as Hok;
    pose proof (noff_nonneg s Hok ltac:(congruence)) as Hnn;
    (apply (inv_cpu c s); [done|done|unfold owned; rewrite Hpc; done|done|]).
  - apply cpu_ok_goto; [done|congruence|unfold owned; by rewrite Hpc|rewrite Hpc; by left|done].
  - apply cpu_ok_goto; [done|congruence|unfold owned; by rewrite Hpc|rewrite Hpc; by left|done].
  - destruct (push_base s Hok Hnn) as (B1 & B2 & B3). destruct Hok as [H1 H2 H3 H4 H5 _].
    unfold owned in H1. rewrite Hpc in H1. split; try done; cbn; [lia|].
    intros _. rewrite H3, Hpc by congruence. cbn. lia.
  - pose proof (co_noff _ Hok ltac:(congruence)) as Hnoff. rewrite Hpc in Hnoff. cbn in Hnoff.
    destruct (pop_base s k Hok ltac:(lia) Hp) as (B1 & B2 & B3).
    destruct Hok as [H1 H2 H3 H4 H5 _]. unfold owned in H1. rewrite Hpc in H1.
    split; try done; cbn; [lia|]. intros _. rewrite B1, Hnoff. lia.
  - destruct Hok as [H1 H2 H3 H4 H5 _]. unfold owned in H1. rewrite Hpc in H1. split; try done. cbn.
    intros _. specialize (H3 ltac:(congruence)). rewrite Hpc in H3. cbn in H3. lia.
Qed.

Lemma boot_inv n ls : inv (boot n ls).
Proof.
  assert (forall c s, cpus (boot n ls) !! c = Some s -> s = boot_cpu) as Hc.
  { intros c s E. apply elem_of_list_to_map_2 in E. apply list_elem_of_fmap in E as (c' & [= -> ->] & _). done. }
  assert (forall a lk, locks (boot n ls) !! a = Some lk -> locked lk = 0 /\ lcpu lk = None) as Hl.
  { intros a lk. cbn. rewrite lookup_fmap. destruct (ls !! a); cbn; [|done]. by intros [= <-]. }
  split.
  - intros c s ->%Hc. split; cbn; done || constructor.
  - intros a lk E. left. by apply (Hl a).
  - intros a lk E. destruct (Hl a lk E) as [-> _]. split; [done|].
    intros (c & s & ->%Hc & Hin). by apply elem_of_nil in Hin.
  - intros a c s c' s' ->%Hc _ Hin. by apply elem_of_nil in Hin.
  - intros a lk c s E ->%Hc. destruct (Hl a lk E) as [_ ->]. cbn. split; [intros ?%elem_of_nil|]; done.
Qed.

Lemma reachable_inv n ls m : reachable n ls m -> inv m.
Proof. induction 1; eauto using boot_inv, step_inv. Qed.

(** ** Running one CPU *)

Fixpoint run (c : nat) (k : nat) (m : machine) : option machine :=
  match k with
  | O => Some m
  | S k' => match lock_step c m with Some m' => run c k' m' | None => None end
  end.

Lemma run_reachable n ls c k m m' : reachable n ls m -> run c k m = Some m' -> reachable n ls m'.
Proof.
  revert m; induction k as [|k IH]; intros m Hr; cbn; [by intros [= <-]|].
  destruct (lock_step c m) as [m1|] eqn:E; [|done]. apply IH. by eapply reach_step, step_lock.
Qed.

Lemma lookup_cpu_same c s m : cpus (set_cpu c s m) !! c = Some s.
Proof. apply lookup_insert_eq. Qed.

Lemma set_cpu_twice c s s' m : set_cpu c s' (set_cpu c s m) = set_cpu c s' m.
Proof. unfold set_cpu. cbn. by rewrite insert_insert_eq. Qed.

Lemma set_cpu_set_lock c s a lk m : set_cpu c s (set_lock a lk m) = set_lock a lk (set_cpu c s m).
Proof. done. Qed.

Lemma set_lock_twice a lk lk' m : set_lock a lk' (set_lock a lk m) = set_lock a lk' m.
Proof. unfold set_lock. cbn. by rewrite insert_insert_eq. Qed.

Lemma locks_set_cpu c s m : locks (set_cpu c s m) = locks m.
Proof. done. Qed.
Lemma cpus_set_lock a lk m : cpus (set_lock a lk m) = cpus m.
Proof. done. Qed.
Lemma lookup_lock_same a lk m : locks (set_lock a lk m) !! a = Some lk.
Proof. apply lookup_insert_eq. Qed.

Create HintDb lockst.
#[export] Hint Rewrite set_cpu_twice set_cpu_set_lock set_lock_twice locks_set_cpu cpus_set_lock
  lookup_lock_same lookup_cpu_same : lockst.

(** One step of a CPU whose state and lock are known. *)
Ltac lock_steps :=
  repeat (cbn [run]; unfold lock_step at 1; autorewrite with lockst;
          cbn [cpc goto with_cs with_held cs held depth base locked lname lcpu];
          repeat match goal with
          | H : locks ?m !! ?a = Some _ |- context [locks ?m !! ?a] => rewrite H
          | H : (_ =? 0) = _ |- _ => rewrite H
          | H : lcpu ?lk = Some ?c |- context [decide (lcpu ?lk = Some ?c)] =>
              rewrite (decide_True (P := lcpu lk = Some c)) by exact H
          | H : pop_off _ = _ |- _ => rewrite H
          end; cbn [Z.eqb]; autorewrite with lockst).

Lemma acquire_steps c a lk s m :
  cpus m !! c = Some s -> cpc s = Idle -> locks m !! a = Some lk -> locked lk = 0 ->
  run c 4 (set_cpu c (goto (APush a) s) m) =
  Some (set_lock a (mk_lock 1 (lname lk) (Some c))
         (set_cpu c (goto Idle (with_held (a :: held s) (with_cs (push_off (cs s)) s))) m)).
Proof.
  intros Hc Hpc Ha Hz. assert ((locked lk =? 0) = true) as Hz' by by apply Z.eqb_eq.
  lock_steps. done.
Qed.

Lemma release_steps c a lk s m k :
  cpus m !! c = Some s -> cpc s = Idle -> locks m !! a = Some lk -> locked lk = 1 -> lcpu lk = Some c ->
  pop_off (cs s) = inr k ->
  run c 5 (set_cpu c (goto (RHold1 a) s) m) =
  Some (set_lock a (mk_lock 0 (lname lk) None)
         (set_cpu c (goto Idle (with_cs k (with_held (filter (.≠ a) (held s)) s))) m)).
Proof.
  intros Hc Hpc Ha Hz Hl Hp. assert ((locked lk =? 0) = false) as Hz' by (apply Z.eqb_neq; lia).
  lock_steps. done.
Qed.

(** ** Contracts *)


(** [holding] is exact for the calling CPU although it reads two fields of a
    lock other CPUs may be writing, so [acquire] panics exactly when this CPU
    already holds the lock and [release] exactly when it does not; [pop_off] never
    panics. *)
Theorem lock_panics_exact n ls m c s m' s' msg :
  reachable n ls m -> cpus m !! c = Some s -> (forall msg, cpc s <> Stuck msg) ->
  lock_step c m = Some m' -> cpus m' !! c = Some s' -> cpc s' = Stuck msg ->
  exists a, (msg = "acquire"%string /\ cpc s = AHold2 a /\ a ∈ held s) \/
            (msg = "release"%string /\ (cpc s = RHold1 a \/ cpc s = RHold2 a) /\ a ∉ held s).
Proof.
  intros Hr Hc Hns E Hc' Hst. apply reachable_inv in Hr. pose proof (in_cpu _ Hr c s Hc) as Hok.
  pose proof (co_noff _ Hok Hns) as Hn. pose proof (co_depth _ Hok) as Hd.
  unfold lock_step in E. rewrite Hc in E.
  destruct (cpc s) as [|a|a|a|a|a|a|a|a|a|a|msg0] eqn:Hpc; try done;
    try (destruct (locks m !! a) as [lk|] eqn:Ha; [|done]); injection E as <-;
    autorewrite with lockst in Hc'; injection Hc' as <-; cbn [cpc goto] in Hst; try done.
  - by case_bool.
  - case_decide as D; [|done]. injection Hst as <-. exists a. left. split; [done|]. split; [done|].
    by eapply in_held.
  - by case_bool.
  - case_bool; [|done]. injection Hst as <-. exists a. right. split; [done|]. split; [by left|].
    intros Hin. zb. assert (locked lk = 1); [|lia]. apply (in_own _ Hr a lk Ha). exists c, s.
    unfold owned. by rewrite Hpc.
  - case_decide as D; [done|]. injection Hst as <-. exists a. right. split; [done|]. split; [by right|].
    intros Hin. apply D. by eapply in_held.
  - cbn in Hn. destruct (co_base1 _ Hok ltac:(lia)) as [Hi _]. rewrite pop_off_ok in Hst by (done || lia). done.
Qed.

(** A CPU that owns a lock runs with interrupts off, and when the last
    [push_off] has been undone the interrupt flag is what it was before the first
    one. *)
Theorem lock_interrupts n ls m c s :
  reachable n ls m -> cpus m !! c = Some s -> (forall msg, cpc s <> Stuck msg) ->
  (owned s <> [] -> intr (cs s) = false) /\
  (noff (cs s) = 0 -> held s = [] /\ depth s = 0 /\ intr (cs s) = base s) /\
  (noff (cs s) <> 0 -> intr (cs s) = false /\ intena (cs s) = base s).
Proof.
  intros Hr Hc Hns. apply reachable_inv in Hr. destruct (in_cpu _ Hr c s Hc) as [_ Hd Hn H0 H1 _].
  specialize (Hn Hns). split; [|split; [|done]].
  - intros Ho. apply H1. unfold owned in Ho. destruct (cpc s); cbn in Hn; destruct (held s); cbn in *; done || lia.
  - intros Hz. rewrite Hz in Hn. destruct (cpc s), (held s); cbn in Hn; auto with lia.
Qed.

(** Run without interference, [acquire] of a free lock and [release] of a held
    lock have in the step-by-step machine exactly the effect of their sequential
    definitions. *)
Theorem lock_steps_refine c a lk s m m' :
  cpus m !! c = Some s -> cpc s = Idle -> locks m !! a = Some lk ->
  (acquire c a m = Ok tt m' ->
   exists m'' s'', run c 4 (set_cpu c (goto (APush a) s) m) = Some m'' /\ locks m'' = locks m' /\
     cpus m'' !! c = Some s'' /\ cs s'' = push_off (cs s) /\ held s'' = a :: held s /\ cpc s'' = Idle) /\
  (locked lk = 1 -> release c a m = Ok tt m' ->
   exists m'' s'', run c 5 (set_cpu c (goto (RHold1 a) s) m) = Some m'' /\ locks m'' = locks m' /\
     cpus m'' !! c = Some s'' /\ pop_off (cs s) = inr (cs s'') /\ cpc s'' = Idle).
Proof.
  intros Hc Hpc Ha. unfold acquire, release. rewrite Ha, Hc. split.
  - case_bool; [done|]. case_bool; [done|]. zb. intros [= <-].
    do 2 eexists. split; [by apply acquire_steps|]. autorewrite with lockst. split; [done|]. split; [done|]. done.
  - intros H1. unfold holding. case_bool; [done|]. zb.
    match goal with H : bool_decide _ = true |- _ => apply bool_decide_eq_true in H end.
    destruct (pop_off (cs s)) as [|k] eqn:Hp; [done|]. intros [= <-].
    do 2 eexists. split; [by eapply release_steps|]. autorewrite with lockst. split; [done|]. split; [done|]. done.
Qed.

(** ** Two CPUs and one lock *)

Definition demo_boot : machine := boot 2 {[ 64 := "kmem"%string ]}.

(** CPU 0 has taken the lock; CPU 1 spins on it. *)
Definition demo_held : machine :=
  set_lock 64 (mk_lock 1 "kmem" (Some 0%nat))
    (set_cpu 0 (goto Idle (with_held [64] (with_cs (push_off (cs boot_cpu)) boot_cpu))) demo_boot).

Lemma demo_held_reachable : reachable 2 {[ 64 := "kmem"%string ]} demo_held.
Proof.
  assert (cpus demo_boot !! 0%nat = Some boot_cpu) as Hc by done.
  assert (locks demo_boot !! 64 = Some (initlock "kmem")) as Ha by done.
  eapply run_reachable; [|apply (acquire_steps 0 64 _ _ _ Hc eq_refl Ha eq_refl)].
  eapply reach_step; [apply reach_boot|]. by apply (step_acquire 0 _ boot_cpu 64).
Qed.


(** CPU 0 acquires the lock a second time. *)
Definition demo_again : machine :=
  set_cpu 0 (goto (AHold2 64) (with_cs (push_off (push_off (cs boot_cpu)))
    (with_held [64] boot_cpu))) demo_held.

Lemma demo_again_reachable : reachable 2 {[ 64 := "kmem"%string ]} demo_again.
Proof.
  eapply (run_reachable 2 _ 0 2); [eapply reach_step; [apply demo_held_reachable|]|].
  - by apply (step_acquire 0 _ (goto Idle (with_held [64] (with_cs (push_off (cs boot_cpu)) boot_cpu))) 64).
  - vm_compute. reflexivity.
Qed.

Lemma lock_panics_exact_witness :
  exists a, ("acquire"%string = "acquire"%string /\ AHold2 64 = AHold2 a /\ a ∈ [64]) \/
            ("acquire"%string = "release"%string /\ (AHold2 64 = RHold1 a \/ AHold2 64 = RHold2 a) /\ a ∉ [64]).
Proof.
  eapply (lock_panics_exact 2 _ demo_again 0 (goto (AHold2 64) (with_cs (push_off (push_off (cs boot_cpu)))
    (with_held [64] boot_cpu))) _ _ "acquire" demo_again_reachable eq_refl);
    [intros msg; discriminate | vm_compute; reflexivity | vm_compute; reflexivity | reflexivity].
Defined.

Lemma lock_interrupts_witness :
  intr (push_off (cs boot_cpu)) = false.
Proof.
  apply (lock_interrupts 2 _ demo_held 0 (goto Idle (with_held [64] (with_cs (push_off (cs boot_cpu)) boot_cpu)))
           demo_held_reachable eq_refl); [intros msg; discriminate | discriminate].
Defined.

Lemma lock_steps_refine_witness :
  exists m'' s'', run 0 4 (set_cpu 0 (goto (APush 64) boot_cpu) demo_boot) = Some m'' /\
    cpus m'' !! 0%nat = Some s'' /\ held s'' = [64].
Proof.
  destruct (lock_steps_refine 0 64 (initlock "kmem") boot_cpu demo_boot
     (set_lock 64 (mk_lock 1 "kmem" (Some 0%nat)) (set_cpu 0 (with_cs (push_off (cs boot_cpu)) boot_cpu) demo_boot))
     eq_refl eq_refl eq_refl) as [H _].
  destruct (H eq_refl) as (m'' & s'' & H1 & _ & H2 & _ & H3 & _). exists m'', s''. auto.
Defined.
