(* ===== verification/Access.v ===== *)
(** * Access to user memory, as the rest of the kernel sees it

    pipe.c, console.c, fs.c and the system calls reach user memory only through
    [copyin], [copyout] and [copyinstr] of vm.c.  [UserAccess] is that interface,
    [UserAccessLaws] what its clients rely on, and [vm_access_laws] the proof
    that vm.c provides it. *)
From stdpp Require Import base gmap list numbers strings.
From Stdlib Require Import ZArith Lia.
From S2P Require Import Prelude Riscv Mem Kalloc Vm PageTable UserVm UserCopy.
Open Scope Z_scope.

Class UserAccess (S : Type) := {
  ua_copyin : Z -> Z -> Z -> M S (Z * list Z);
  ua_copyout : Z -> Z -> list Z -> M S Z;
  ua_copyinstr : Z -> Z -> Z -> M S (Z * list Z);
  (* memmove from and to a kernel address *)
  ua_kread : Z -> Z -> M S (list Z);
  ua_kwrite : Z -> list Z -> M S unit
}.

(** proc.c: copy to or from a user or a kernel address, depending on a flag. *)
Definition either_copyout {S} `{UserAccess S} (pagetable : Z) (user_dst : bool) (dst : Z) (src : list Z) : M S Z :=
  if user_dst then ua_copyout pagetable dst src else ua_kwrite dst src ;; ret 0.

Definition either_copyin {S} `{UserAccess S} (pagetable : Z) (user_src : bool) (src len : Z) : M S (Z * list Z) :=
  if user_src then ua_copyin pagetable src len
  else let! bs := ua_kread src len in ret (0, bs).

(** [ua_ok s P]: the page tables in [P] are well formed in [s].  [ua_view s pt va]:
    the byte a process with page table [pt] reads at [va]. *)
Class UserAccessLaws (S : Type) `{UserAccess S} := {
  ua_ok : S -> gset Z -> Prop;
  ua_view : S -> Z -> Z -> option Z;
  ua_view_byte s P pt va b : ua_ok s P -> pt ∈ P -> ua_view s pt va = Some b -> 0 <= b < 256;
  ua_copyin_ok s P pt va len : ua_ok s P -> pt ∈ P -> 0 <= va -> 0 <= len ->
    exists r bs, ua_copyin pt va len s = Ok (r, bs) s /\
      (forall i b, bs !! i = Some b -> ua_view s pt (va + Z.of_nat i) = Some b) /\
      (r = 0 /\ Z.of_nat (length bs) = len \/
       r = -1 /\ Z.of_nat (length bs) < len /\ ua_view s pt (va + Z.of_nat (length bs)) = None);
  ua_copyout_ok s P pt va src : ua_ok s P -> pt ∈ P -> 0 <= va ->
    Forall (fun b => 0 <= b < 256) src ->
    exists r s' n, ua_copyout pt va src s = Ok r s' /\ ua_ok s' P /\
      (r = 0 /\ n = length src \/
       r = -1 /\ (n < length src)%nat /\ ua_view s pt (va + Z.of_nat n) = None) /\
      forall va', ua_view s' pt va' =
        if decide (va <= va' < va + Z.of_nat n) then src !! Z.to_nat (va' - va) else ua_view s pt va'
}.

#[export] Instance vm_access {L : Linker} : UserAccess kmem_st := {|
  ua_copyin := copyin; ua_copyout := copyout; ua_copyinstr := copyinstr;
  ua_kread := kcopy_from; ua_kwrite := kcopy_to
|}.

(** The page tables [P] under one page-table invariant. *)
Definition vm_access_ok {L : Linker} (s : kmem_st) (P : gset Z) : Prop :=
  exists free T, vm_inv s free T /\ forall pt, pt ∈ P -> T !! pt = Some 2%nat /\ user_ok s free T pt.

(** Writing user pages of one process leaves every page table well formed. *)
Lemma co_user_other {L : Linker} {LOk : LinkerOk L} s free T root dstva src s' n root' :
  copied_out s free T root dstva src s' n -> T !! root' = Some 2%nat ->
  user_ok s free T root' -> user_ok s' free T root'.
Proof.
  intros Hco Hr' [H1 H2].
  assert (forall va, user_page (kmem s') root' va = user_page (kmem s) root' va) as Hup.
  { intros va. unfold user_page, vmap. by rewrite (co_leaf _ _ _ _ _ _ _ _ Hco). }
  split; [intros va p; unfold p; rewrite Hup; apply H1 | intros va va'; rewrite !Hup; apply H2].
Qed.

#[export] Instance vm_access_laws {L : Linker} {LOk : LinkerOk L} : UserAccessLaws kmem_st.
Proof.
  refine {| ua_ok := vm_access_ok; ua_view := fun s pt va => ubyte (kmem s) pt va |}.
  - intros s P pt va b (free & T & Hinv & _) _. unfold ubyte. case_bool; [done|]. intros [= <-].
    apply load8_byte, Hinv.
  - intros s P pt va len (free & T & Hinv & HP) Hpt Hva Hlen. destruct (HP pt Hpt) as [Hr _].
    destruct (copyin_ok s T pt va len (vi_wf _ _ _ _ Hinv) Hr Hva Hlen) as (r & bs & E & Hub & Hres).
    exists r, bs. auto.
  - intros s P pt va src (free & T & Hinv & HP) Hpt Hva Hb. destruct (HP pt Hpt) as [Hr Hu].
    destruct (copyout_ok s free T pt va src Hinv Hr Hu Hb Hva) as (r & s' & n & E & Hco & Hres).
    exists r, s', n. split; [exact E|]. split; [|split; [exact Hres|apply Hco]].
    exists free, T. split; [apply Hco|]. intros pt' Hpt'. destruct (HP pt' Hpt') as [Hr' Hu'].
    split; [done|]. by eapply co_user_other.
Defined.
