(* ===== verification/Pipe.v ===== *)
(** * kernel/pipe.c: pipes

    A pipe is a ring of [PIPESIZE] bytes with two counters that run modulo 2^32.
    [pipewrite] and [piperead] are computations of one critical section each (from
    the [acquire] of the pipe's lock, or the return from [sleep], to the next
    [sleep] or to the [release]); the value [PSleep] says that the caller sleeps
    and with how many bytes done.  They are proved to implement a bounded FIFO
    queue, against the interface of user memory. *)
From stdpp Require Import base gmap list numbers strings.
From Stdlib Require Import ZArith Lia.
From S2P Require Import Prelude Ring Kalloc Vm PageTable UserVm UserCopy VmSpec Access.
Open Scope Z_scope.

Definition PIPESIZE : Z := 512.

Record pipe := mk_pipe {
  data : list Z;
  nread : Z;
  nwrite : Z;
  readopen : Z;
  writeopen : Z
}.

(** The pipe, memory, and the channels passed to [wakeup] so far. *)
Record pipe_st (U : Type) := mk_pst { pi : pipe; um : U; woken : list chan }.
Arguments mk_pst {U}. Arguments pi {U}. Arguments um {U}. Arguments woken {U}.

Inductive pres := PDone (r : Z) | PSleep (i : Z).

Section Pipe.
Context {U : Type} `{UserAccess U}.

Definition set_pi (p : pipe) (s : pipe_st U) : pipe_st U := mk_pst p (um s) (woken s).
Definition on_um {A} (m : M U A) : M (pipe_st U) A :=
  zoom um (fun u s => mk_pst (pi s) u (woken s)) m.
Definition pwakeup (c : chan) : M (pipe_st U) unit :=
  modify (fun s => mk_pst (pi s) (um s) (c :: woken s)).

(** [pi->data[pi->nwrite++ % PIPESIZE] = ch;] *)
Definition pipe_put (ch : Z) (p : pipe) : pipe :=
  mk_pipe (<[Z.to_nat (nwrite p mod PIPESIZE) := u8 ch]> (data p))
          (nread p) (u32 (nwrite p + 1)) (readopen p) (writeopen p).

(** [ch = pi->data[pi->nread++ % PIPESIZE];] *)
Definition pipe_get (p : pipe) : Z * pipe :=
  (data p !!! Z.to_nat (nread p mod PIPESIZE),
   mk_pipe (data p) (u32 (nread p + 1)) (nwrite p) (readopen p) (writeopen p)).

(** The body of [pipewrite] from iteration [i] on, with [k = n - i] iterations
    left; [a] is the address of the pipe. *)
Fixpoint pipewrite_loop (a : Z) (pagetable : Z) (killed : bool) (addr i : Z) (k : nat)
  : M (pipe_st U) pres :=
  match k with
  | O => pwakeup (CPipeRead a) ;; ret (PDone i)
  | S k' =>
      let! p := gets pi in
      if nwrite p =? u32 (nread p + PIPESIZE) then
        if (readopen p =? 0) || killed then ret (PDone (-1))
        else pwakeup (CPipeRead a) ;; ret (PSleep i)
      else
        let! (r, ch) := on_um (ua_copyin pagetable (u64 (addr + i)) 1) in
        if r =? -1 then pwakeup (CPipeRead a) ;; ret (PDone i)
        else
          modify (fun s => set_pi (pipe_put (ch !!! 0%nat) (pi s)) s) ;;
          pipewrite_loop a pagetable killed addr (i + 1) k'
  end.

Definition pipewrite (a pagetable : Z) (killed : bool) (addr n i : Z) : M (pipe_st U) pres :=
  pipewrite_loop a pagetable killed addr i (Z.to_nat (n - i)).

Fixpoint piperead_loop (a : Z) (pagetable addr i : Z) (k : nat) : M (pipe_st U) Z :=
  match k with
  | O => ret i
  | S k' =>
      let! p := gets pi in
      if nread p =? nwrite p then ret i
      else
        let '(ch, p') := pipe_get p in
        modify (set_pi p') ;;
        let! r := on_um (ua_copyout pagetable (u64 (addr + i)) [ch]) in
        if r =? -1 then ret i
        else piperead_loop a pagetable addr (i + 1) k'
  end.

Definition piperead (a pagetable : Z) (killed : bool) (addr n : Z) : M (pipe_st U) pres :=
  let! p := gets pi in
  if (nread p =? nwrite p) && negb (writeopen p =? 0) then
    if killed then ret (PDone (-1)) else ret (PSleep 0)
  else
    let! i := piperead_loop a pagetable addr 0 (Z.to_nat n) in
    pwakeup (CPipeWrite a) ;; ret (PDone i).

(** [kfree] of the page that holds the pipe is the caller's parameter [free]. *)
Definition pipeclose (free : Z -> M U unit) (a : Z) (writable : bool) : M (pipe_st U) unit :=
  (if writable then
     modify (fun s => set_pi (mk_pipe (data (pi s)) (nread (pi s)) (nwrite (pi s)) (readopen (pi s)) 0) s) ;;
     pwakeup (CPipeRead a)
   else
     modify (fun s => set_pi (mk_pipe (data (pi s)) (nread (pi s)) (nwrite (pi s)) 0 (writeopen (pi s))) s) ;;
     pwakeup (CPipeWrite a)) ;;
  let! p := gets pi in
  if (readopen p =? 0) && (writeopen p =? 0) then on_um (free a) else ret tt.

End Pipe.

(** The state [pipealloc] leaves in the page it gets from [kalloc]. *)
Definition pipe_init (d : list Z) : pipe := mk_pipe d 0 0 1 1.

(** ** The pipe as a queue *)

Definition pipe_size (p : pipe) : Z := u32 (nwrite p - nread p).

(** The bytes written and not yet read, oldest first. *)
Definition pipe_queue (p : pipe) : list Z := ring PIPESIZE (data p) (nread p) (pipe_size p).

Record pipe_ok (p : pipe) : Prop := {
  po_data : length (data p) = Z.to_nat PIPESIZE;
  po_bytes : Forall (fun b => 0 <= b < 256) (data p);
  po_nread : in_range 32 (nread p);
  po_nwrite : in_range 32 (nwrite p);
  po_size : pipe_size p <= PIPESIZE
}.

Lemma pipe_size_range p : 0 <= pipe_size p < 2 ^ 32.
Proof. apply u32_range. Qed.

Lemma length_pipe_queue p : Z.of_nat (length (pipe_queue p)) = pipe_size p.
Proof. apply length_ring, pipe_size_range. Qed.

Lemma pipe_full p : pipe_ok p -> (nwrite p =? u32 (nread p + PIPESIZE)) = (pipe_size p =? PIPESIZE).
Proof.
  intros [_ _ Hr Hw Hs]. unfold pipe_size, u32, wrap, in_range, PIPESIZE in *.
  apply eq_true_iff_eq. rewrite !Z.eqb_eq. Z.div_mod_to_equations. lia.
Qed.

Lemma pipe_empty p : pipe_ok p -> (nread p =? nwrite p) = (pipe_size p =? 0).
Proof.
  intros [_ _ Hr Hw Hs]. unfold pipe_size, u32, wrap, in_range in *.
  apply eq_true_iff_eq. rewrite !Z.eqb_eq. Z.div_mod_to_equations. lia.
Qed.

(** The write position, seen from the read position. *)
Lemma pipe_nwrite p :
  pipe_ok p -> nwrite p mod PIPESIZE = (nread p + pipe_size p) mod PIPESIZE.
Proof.
  intros [_ _ Hr Hw Hs]. unfold pipe_size, u32, wrap, in_range, PIPESIZE in *.
  Z.div_mod_to_equations. lia.
Qed.

Lemma pipe_put_size ch p :
  pipe_ok p -> pipe_size p < PIPESIZE -> pipe_size (pipe_put ch p) = pipe_size p + 1.
Proof.
  intros [_ _ Hr Hw _] Hs. unfold pipe_size, pipe_put, u32, wrap, in_range, PIPESIZE in *. cbn.
  Z.div_mod_to_equations. lia.
Qed.

Lemma pipe_get_size p :
  pipe_ok p -> 0 < pipe_size p -> pipe_size (pipe_get p).2 = pipe_size p - 1.
Proof.
  intros [_ _ Hr Hw _] Hs. unfold pipe_size, pipe_get, u32, wrap, in_range in *. cbn.
  Z.div_mod_to_equations. lia.
Qed.

Lemma pipe_put_ok ch p : pipe_ok p -> pipe_size p < PIPESIZE -> pipe_ok (pipe_put ch p).
Proof.
  intros Hok Hs. pose proof (pipe_put_size ch p Hok Hs). destruct Hok as [H1 H2 H3 H4 H5].
  split; cbn; try done.
  - by rewrite length_insert.
  - apply Forall_insert; [done|]. apply u8_range.
  - apply u32_range.
  - unfold PIPESIZE in *. lia.
Qed.

Lemma pipe_put_queue ch p :
  pipe_ok p -> pipe_size p < PIPESIZE -> pipe_queue (pipe_put ch p) = pipe_queue p ++ [u8 ch].
Proof.
  intros Hok Hs. pose proof (pipe_size_range p). unfold pipe_queue. rewrite pipe_put_size by done.
  cbn [data nread pipe_put]. rewrite pipe_nwrite by done. apply ring_put; [done|apply Hok|lia].
Qed.

Lemma pipe_get_ok p : pipe_ok p -> 0 < pipe_size p -> pipe_ok (pipe_get p).2.
Proof.
  intros Hok Hs. pose proof (pipe_get_size p Hok Hs). destruct Hok as [H1 H2 H3 H4 H5].
  split; cbn; try done.
  - apply u32_range.
  - cbn in *. lia.
Qed.

Lemma pipe_get_queue p :
  pipe_ok p -> 0 < pipe_size p -> pipe_queue p = (pipe_get p).1 :: pipe_queue (pipe_get p).2.
Proof.
  intros Hok Hs. unfold pipe_queue. rewrite pipe_get_size, ring_cons by done. f_equal.
  apply ring_start; [done|]. cbn. unfold u32, wrap, PIPESIZE. Z.div_mod_to_equations. lia.
Qed.

Lemma pipe_get_byte p : pipe_ok p -> 0 <= (pipe_get p).1 < 256.
Proof.
  intros Hok. cbn. destruct (lookup_lt_is_Some_2 (data p) (Z.to_nat (nread p mod PIPESIZE))) as [b Hb].
  { rewrite (po_data _ Hok). by apply ring_index. }
  rewrite (list_lookup_total_correct _ _ _ Hb). exact (Forall_lookup_1 _ _ _ _ (po_bytes _ Hok) Hb).
Qed.

(** ** Refinement of the queue operations *)

Section PipeSpec.
Context {U : Type} `{UserAccessLaws U}.
Context (P : gset Z).

(** What a writer can have in [addr + i], [addr + i + 1], ... *)
Definition user_bytes (u : U) (pt addr i : Z) (bs : list Z) : Prop :=
  forall j b, bs !! j = Some b -> ua_view u pt (addr + i + Z.of_nat j) = Some b.

Lemma user_bytes_cons u pt addr i b bs :
  ua_view u pt (addr + i) = Some b -> user_bytes u pt addr (i + 1) bs -> user_bytes u pt addr i (b :: bs).
Proof.
  intros Hb Hbs [|j] c; cbn.
  - intros [= <-]. by rewrite Z.add_0_r.
  - intros Hc. apply Hbs in Hc. rewrite <- Hc. f_equal. lia.
Qed.

(** Reading one byte of user memory. *)
Lemma copyin1 u pt va :
  ua_ok u P -> pt ∈ P -> 0 <= va ->
  (exists b, ua_copyin pt va 1 u = Ok (0, [b]) u /\ ua_view u pt va = Some b) \/
  (ua_copyin pt va 1 u = Ok (-1, []) u /\ ua_view u pt va = None).
Proof.
  intros Hok Hpt Hva. destruct (ua_copyin_ok u P pt va 1 Hok Hpt Hva ltac:(lia)) as (r & bs & E & Hbs & Hres).
  destruct Hres as [[-> Hl]|(-> & Hl & Hn)].
  - destruct bs as [|b [|]]; cbn in Hl; try lia. left. exists b. split; [done|].
    specialize (Hbs 0%nat b eq_refl). by rewrite Z.add_0_r in Hbs.
  - destruct bs; cbn in Hl; [|lia]. right. split; [done|]. by rewrite Z.add_0_r in Hn.
Qed.

Lemma pipewrite_loop_ok a pt killed addr i k w :
  ua_ok (um w) P -> pt ∈ P -> pipe_ok (pi w) -> 0 <= addr -> 0 <= i -> addr + i + Z.of_nat k <= 2 ^ 64 ->
  exists res w' bs, pipewrite_loop a pt killed addr i k w = Ok res w' /\
    um w' = um w /\ pipe_ok (pi w') /\
    pipe_queue (pi w') = pipe_queue (pi w) ++ bs /\ user_bytes (um w) pt addr i bs /\
    readopen (pi w') = readopen (pi w) /\ writeopen (pi w') = writeopen (pi w) /\
    (length bs <= k)%nat /\
    match res with
    | PDone r =>
        r = i + Z.of_nat (length bs) /\ woken w' = CPipeRead a :: woken w /\
          (length bs = k \/ ua_view (um w) pt (addr + r) = None) \/
        r = -1 /\ woken w' = woken w /\ (length bs < k)%nat /\
          pipe_size (pi w') = PIPESIZE /\ (readopen (pi w) = 0 \/ killed = true)
    | PSleep r =>
        r = i + Z.of_nat (length bs) /\ woken w' = CPipeRead a :: woken w /\ (length bs < k)%nat /\
        pipe_size (pi w') = PIPESIZE /\ readopen (pi w) <> 0 /\ killed = false
    end.
Proof.
  intros Hok Hpt. revert i w Hok. induction k as [|k IH]; intros i w Hok Hpi Ha Hi Hb; cbn [pipewrite_loop].
  { eexists _, _, []. split; [done|]. cbn. rewrite app_nil_r. do 7 (split; [done|]). left. auto with lia. }
  erewrite bind_Ok by reflexivity. rewrite pipe_full by done.
  destruct (Z.eqb_spec (pipe_size (pi w)) PIPESIZE) as [Hf|Hf].
  { destruct (Z.eqb_spec (readopen (pi w)) 0) as [Hro|Hro]; [|destruct killed]; cbn [orb];
      eexists _, _, []; (split; [done|]); cbn; rewrite app_nil_r; do 6 (split; [done|]); (split; [lia|]);
      [right; auto with lia | right; auto with lia | auto with lia]. }
  rewrite u64_small by lia.
  destruct (copyin1 (um w) pt (addr + i) Hok Hpt ltac:(lia)) as [(b & E & Hv)|[E Hv]].
  - unfold on_um, zoom, bind. rewrite E. cbn [Z.eqb].
    pose proof (po_size _ Hpi). pose proof (ua_view_byte _ _ _ _ _ Hok Hpt Hv) as Hbyte.
    set (w1 := set_pi (pipe_put ([b] !!! 0%nat) (pi w)) (mk_pst (pi w) (um w) (woken w))).
    destruct (IH (i + 1) w1) as (res & w' & bs & E' & Hu & Hpi' & Hq & Hbs & Hro & Hwo & Hl & Hres);
      [done|by apply pipe_put_ok; [|lia]|done|lia|lia|].
    exists res, w', (b :: bs). split; [exact E'|]. split; [done|]. split; [done|].
    cbn in Hq, Hro, Hwo, Hres. rewrite pipe_put_queue, u8_small in Hq by (done || lia).
    split; [by rewrite Hq, <- app_assoc|]. split; [by apply user_bytes_cons|].
    split; [done|]. split; [done|]. cbn [length]. split; [lia|].
    destruct res as [r|r]; [destruct Hres as [(-> & Hw & Hc)|(-> & Hw & Hk & ?)]; [left|right]|destruct Hres as (-> & Hw & ? & ?)].
    + split; [lia|]. split; [done|]. destruct Hc as [->|Hn]; auto.
    + split; [done|]. split; [done|]. split; [lia|done].
    + split; [lia|]. split; [done|]. split; [lia|done].
  - unfold on_um, zoom, bind. rewrite E. cbn [Z.eqb].
    eexists _, _, []. split; [done|]. cbn. rewrite app_nil_r. do 6 (split; [done|]). split; [lia|].
    left. rewrite Z.add_0_r. auto.
Qed.

(** Writing one byte of user memory. *)
Lemma copyout1 u pt va b :
  ua_ok u P -> pt ∈ P -> 0 <= va -> 0 <= b < 256 ->
  exists r u', ua_copyout pt va [b] u = Ok r u' /\ ua_ok u' P /\
    (r = 0 /\ (forall va', ua_view u' pt va' = if decide (va' = va) then Some b else ua_view u pt va') \/
     r = -1 /\ ua_view u pt va = None /\ forall va', ua_view u' pt va' = ua_view u pt va').
Proof.
  intros Hok Hpt Hva Hb.
  destruct (ua_copyout_ok u P pt va [b] Hok Hpt Hva ltac:(by apply Forall_singleton)) as (r & u' & n & E & Hok' & Hres & Hv).
  exists r, u'. split; [done|]. split; [done|]. destruct Hres as [[-> ->]|(-> & Hn & Hnone)]; [left|right]; (split; [done|]).
  - intros va'. rewrite Hv. cbn [length]. repeat case_decide; try lia; [|done].
    subst. by rewrite Z.sub_diag.
  - cbn in Hn. assert (n = 0%nat) as -> by lia. rewrite Z.add_0_r in Hnone. split; [done|].
    intros va'. rewrite Hv. case_decide; [lia|done].
Qed.

Lemma piperead_loop_ok a pt addr i k w :
  ua_ok (um w) P -> pt ∈ P -> pipe_ok (pi w) -> 0 <= addr -> 0 <= i -> addr + i + Z.of_nat k <= 2 ^ 64 ->
  exists r w' bs, piperead_loop a pt addr i k w = Ok r w' /\
    ua_ok (um w') P /\ pipe_ok (pi w') /\
    pipe_queue (pi w) = bs ++ pipe_queue (pi w') /\ (length bs <= k)%nat /\
    readopen (pi w') = readopen (pi w) /\ writeopen (pi w') = writeopen (pi w) /\
    woken w' = woken w /\ i <= r /\
    (r = i + Z.of_nat (length bs) /\ (length bs = k \/ pipe_queue (pi w') = []) \/
     r + 1 = i + Z.of_nat (length bs) /\ ua_view (um w) pt (addr + r) = None) /\
    forall va, ua_view (um w') pt va =
      if decide (addr + i <= va < addr + r) then bs !! Z.to_nat (va - (addr + i)) else ua_view (um w) pt va.
Proof.
  intros Hok Hpt. revert i w Hok. induction k as [|k IH]; intros i w Hok Hpi Ha Hi Hb; cbn [piperead_loop].
  { exists i, w, []. cbn. do 9 (split; [done || lia|]). split; [left; auto with lia|].
    intros va. case_decide; [lia|done]. }
  erewrite bind_Ok by reflexivity. rewrite pipe_empty by done. pose proof (pipe_size_range (pi w)).
  destruct (Z.eqb_spec (pipe_size (pi w)) 0) as [He|He].
  { exists i, w, []. cbn [length app]. do 4 (split; [done|]). split; [lia|]. do 3 (split; [done|]). split; [lia|].
    split; [|intros va; case_decide; [lia|done]]. left. split; [lia|]. right. apply length_zero_iff_nil.
    pose proof (length_pipe_queue (pi w)). lia. }
  pose proof (pipe_get_ok (pi w) Hpi ltac:(lia)) as Hpi1. pose proof (pipe_get_queue (pi w) Hpi ltac:(lia)) as Hq1.
  pose proof (pipe_get_byte (pi w) Hpi) as Hbyte.
  destruct (pipe_get (pi w)) as [ch p'] eqn:Eg. cbn [fst snd] in *. erewrite bind_Ok by reflexivity.
  rewrite u64_small by lia.
  destruct (copyout1 (um w) pt (addr + i) ch Hok Hpt ltac:(lia) Hbyte) as (r & u' & E & Hok' & Hres).
  unfold on_um, zoom, bind. cbn [um set_pi]. rewrite E. cbn [pi woken].
  destruct Hres as [[-> Hv]|(-> & Hnone & Hv)]; cbn [Z.eqb].
  - destruct (IH (i + 1) (mk_pst p' u' (woken w))) as (r & w' & bs & E' & Hok'' & Hpi' & Hq & Hl & Hro & Hwo & Hwk & Hir & Hres & Hv');
      [done|done|done|lia|lia|].
    exists r, w', (ch :: bs). cbn [pi um length] in *. split; [exact E'|]. split; [done|]. split; [done|].
    split; [by rewrite Hq1, Hq|]. split; [lia|]. split; [by rewrite Hro; injection Eg as _ <-|].
    split; [by rewrite Hwo; injection Eg as _ <-|]. split; [done|]. split; [lia|]. split.
    + destruct Hres as [[-> Hc]|[Hr Hn]]; [left|right].
      * split; [lia|]. destruct Hc as [->|?]; auto.
      * split; [lia|]. rewrite Hv in Hn. case_decide; [done|done].
    + intros va. rewrite Hv', Hv. repeat case_decide; try lia; try done.
      * replace (Z.to_nat (va - (addr + i))) with (S (Z.to_nat (va - (addr + (i + 1))))) by lia. done.
      * subst. by rewrite Z.sub_diag.
  - eexists i, _, [ch]. split; [done|]. cbn [pi um length app]. split; [done|]. split; [done|]. split; [done|].
    split; [lia|]. injection Eg as _ <-. do 3 (split; [done|]). split; [lia|]. split; [right; auto with lia|].
    intros va. rewrite Hv. case_decide; [lia|done].
Qed.

(** ** Contracts *)

(** C34: [pipewrite] appends to the queue, in order, the bytes of the caller's buffer
    from byte [i] on.  It returns the number of bytes written after waking the
    readers, short of [n] only if the next byte is not mapped; it sleeps, after
    waking the readers, only when the queue holds [PIPESIZE] bytes; and it returns
    -1 only when the queue is full and the read end is closed or the caller is
    killed. *)
Theorem pipewrite_refines a pt killed addr n i w :
  ua_ok (um w) P -> pt ∈ P -> pipe_ok (pi w) -> 0 <= addr -> 0 <= i <= n -> addr + n <= 2 ^ 64 ->
  exists res w' bs, pipewrite a pt killed addr n i w = Ok res w' /\
    um w' = um w /\ pipe_ok (pi w') /\
    pipe_queue (pi w') = pipe_queue (pi w) ++ bs /\ user_bytes (um w) pt addr i bs /\
    match res with
    | PDone r =>
        r = i + Z.of_nat (length bs) /\ woken w' = CPipeRead a :: woken w /\
          (r = n \/ r < n /\ ua_view (um w) pt (addr + r) = None) \/
        r = -1 /\ pipe_size (pi w') = PIPESIZE /\ (readopen (pi w) = 0 \/ killed = true)
    | PSleep r =>
        r = i + Z.of_nat (length bs) /\ woken w' = CPipeRead a :: woken w /\ r < n /\
        pipe_size (pi w') = PIPESIZE /\ readopen (pi w) <> 0 /\ killed = false
    end.
Proof.
  intros Hok Hpt Hpi Ha Hi Hb. unfold pipewrite.
  destruct (pipewrite_loop_ok a pt killed addr i (Z.to_nat (n - i)) w Hok Hpt Hpi Ha ltac:(lia) ltac:(lia))
    as (res & w' & bs & E & Hu & Hpi' & Hq & Hbs & _ & _ & Hl & Hres).
  exists res, w', bs. do 5 (split; [done|]).
  destruct res; [destruct Hres as [(-> & ? & Hc)|(-> & ? & ? & ?)]; [left|by right]|destruct Hres as (-> & ? & ? & ?)].
  - split; [done|]. split; [done|]. destruct (decide (length bs = Z.to_nat (n - i))); [left; lia|right].
    split; [lia|]. by destruct Hc.
  - split; [done|]. split; [done|]. split; [lia|done].
Qed.

(** C35: [piperead] sleeps only on an empty queue whose write end is open.  Otherwise
    it takes the oldest bytes off the queue and stores them, in order, in the
    caller's buffer; the count it returns is short of [n] only when the queue ran
    empty or when the next byte of the buffer is not mapped, and in the last case
    one further byte has been taken off the queue and is lost. *)
Theorem piperead_refines a pt killed addr n w :
  ua_ok (um w) P -> pt ∈ P -> pipe_ok (pi w) -> 0 <= addr -> 0 <= n -> addr + n <= 2 ^ 64 ->
  exists res w' bs, piperead a pt killed addr n w = Ok res w' /\
    ua_ok (um w') P /\ pipe_ok (pi w') /\ pipe_queue (pi w) = bs ++ pipe_queue (pi w') /\
    match res with
    | PDone r =>
        r = -1 /\ w' = w /\ killed = true \/
        0 <= r <= n /\ woken w' = CPipeWrite a :: woken w /\
        (r = Z.of_nat (length bs) /\ (r = n \/ pipe_queue (pi w') = []) \/
         r + 1 = Z.of_nat (length bs) /\ ua_view (um w) pt (addr + r) = None) /\
        forall va, ua_view (um w') pt va =
          if decide (addr <= va < addr + r) then bs !! Z.to_nat (va - addr) else ua_view (um w) pt va
    | PSleep r => w' = w /\ pipe_queue (pi w) = [] /\ writeopen (pi w) <> 0 /\ killed = false
    end.
Proof.
  intros Hok Hpt Hpi Ha Hn Hb. unfold piperead. erewrite bind_Ok by reflexivity. rewrite pipe_empty by done.
  destruct (Z.eqb_spec (pipe_size (pi w)) 0) as [He|He], (Z.eqb_spec (writeopen (pi w)) 0) as [Hwo|Hwo]; cbn [andb negb].
  2:{ assert (pipe_queue (pi w) = []) as Hq.
      { apply length_zero_iff_nil. pose proof (length_pipe_queue (pi w)). lia. }
      destruct killed; eexists _, w, []; (split; [done|]); rewrite Hq; do 3 (split; [done|]); auto. }
  all: destruct (piperead_loop_ok a pt addr 0 (Z.to_nat n) w Hok Hpt Hpi Ha ltac:(lia) ltac:(lia))
    as (r & w' & bs & E & Hok' & Hpi' & Hq & Hl & Hro & Hwo' & Hwk & Hr0 & Hres & Hv);
    erewrite bind_Ok by exact E; eexists (PDone r), _, bs; (split; [done|]); cbn;
    do 3 (split; [done|]); right; rewrite Z.add_0_r, !Z.add_0_l in *;
    (split; [lia|]); (split; [by rewrite Hwk|]); (split; [|exact Hv]); (destruct Hres as [[-> Hc]|Hc]; [left|by right]);
    (split; [done|]); (destruct Hc as [->|?]; [left; lia|by right]).
Qed.

(** Bytes written to an empty pipe by one process are what another process then
    reads from it. *)
Theorem pipe_roundtrip a pt1 addr1 pt2 addr2 n bs w :
  ua_ok (um w) P -> pt1 ∈ P -> pt2 ∈ P -> pipe_ok (pi w) -> pipe_queue (pi w) = [] ->
  n = Z.of_nat (length bs) -> 0 < n <= PIPESIZE ->
  0 <= addr1 -> addr1 + n <= 2 ^ 64 -> 0 <= addr2 -> addr2 + n <= 2 ^ 64 ->
  user_bytes (um w) pt1 addr1 0 bs ->
  (forall j, 0 <= j < n -> ua_view (um w) pt2 (addr2 + j) <> None) ->
  exists w1 w2, pipewrite a pt1 false addr1 n 0 w = Ok (PDone n) w1 /\
    piperead a pt2 false addr2 n w1 = Ok (PDone n) w2 /\
    user_bytes (um w2) pt2 addr2 0 bs /\ pipe_queue (pi w2) = [].
Proof.
  intros Hok Hp1 Hp2 Hpi Hq0 Hn Hle Ha1 Hb1 Ha2 Hb2 Hbs Hmap.
  assert (pipewrite a pt1 false addr1 n 0 w = pipewrite_loop a pt1 false addr1 0 (length bs) w) as Ew.
  { unfold pipewrite. f_equal. lia. }
  destruct (pipewrite_loop_ok a pt1 false addr1 0 (length bs) w Hok Hp1 Hpi Ha1 ltac:(lia) ltac:(lia))
    as (res & w1 & bs1 & E1 & Hu1 & Hpi1 & Hq1 & Hbs1 & _ & _ & Hl1 & Hres).
  rewrite Hq0 in Hq1. cbn in Hq1. pose proof (length_pipe_queue (pi w1)) as Hlq. rewrite Hq1 in Hlq.
  assert (bs1 = bs /\ res = PDone n) as [-> ->].
  { destruct (decide (length bs1 = length bs)) as [Hl|Hl].
    - split.
      + apply (list_eq_same_length _ _ (length bs)); [done|done|].
        intros j x y _ Hx Hy. apply Hbs1 in Hx. apply Hbs in Hy. congruence.
      + destruct res; [destruct Hres as [(-> & _)|(_ & _ & ? & _)]; [f_equal; lia|lia]|].
        destruct Hres as (_ & _ & ? & _). lia.
    - exfalso. destruct (lookup_lt_is_Some_2 bs (length bs1)) as [x Hx]; [lia|]. apply Hbs in Hx.
      rewrite Z.add_0_r in Hx. destruct res; [destruct Hres as [(-> & _ & [?|Hnone])|(_ & _ & _ & Hf & _)]|].
      + done.
      + rewrite Z.add_0_l in Hnone. congruence.
      + lia.
      + destruct Hres as (_ & _ & _ & Hf & _). lia. }
  destruct (piperead_loop_ok a pt2 addr2 0 (length bs) w1 ltac:(by rewrite Hu1) Hp2 Hpi1 Ha2 ltac:(lia) ltac:(lia))
    as (r & w2 & bs2 & E2 & _ & _ & Hq2 & Hl2 & _ & _ & _ & Hr0 & Hres2 & Hv).
  rewrite Hq1 in Hq2. rewrite Hu1 in *.
  assert (length bs2 = length bs /\ r = n) as [Hl ->].
  { pose proof (f_equal length Hq2) as Hlen. rewrite length_app in Hlen.
    destruct Hres2 as [[-> [?|Hnil]]|[Hr Hnone]]; [lia|rewrite Hnil in Hlen; cbn in Hlen; lia|].
    destruct (Hmap r ltac:(lia)). done. }
  assert (pipe_queue (pi w2) = [] /\ bs2 = bs) as [Hnil ->].
  { pose proof (f_equal length Hq2) as Hlen. rewrite length_app in Hlen.
    assert (pipe_queue (pi w2) = []) as Hnil by (apply length_zero_iff_nil; lia).
    rewrite Hnil, app_nil_r in Hq2. auto. }
  assert (pipe_size (pi w1) <> 0) as Hsz by lia.
  exists w1, (mk_pst (pi w2) (um w2) (CPipeWrite a :: woken w2)). rewrite Ew. split; [done|]. split.
  - unfold piperead. erewrite bind_Ok by reflexivity. rewrite pipe_empty by done.
    destruct (Z.eqb_spec (pipe_size (pi w1)) 0); [done|]. cbn [andb].
    replace (Z.to_nat n) with (length bs) by lia. erewrite bind_Ok by exact E2. done.
  - split; [|done]. intros j b Hj. pose proof (lookup_lt_Some _ _ _ Hj). cbn [um]. rewrite Hv, decide_True by lia.
    rewrite <- Hj. f_equal. lia.
Qed.

(** C38: a writer that finds the pipe full after it was killed returns -1 without
    waking the readers, although it has added bytes to the queue in the same
    critical section: readers that went to sleep on the empty pipe stay asleep. *)
Theorem pipewrite_killed_no_wakeup a pt addr n bs w :
  ua_ok (um w) P -> pt ∈ P -> pipe_ok (pi w) -> pipe_queue (pi w) = [] ->
  n = Z.of_nat (length bs) -> PIPESIZE < n -> 0 <= addr -> addr + n <= 2 ^ 64 ->
  user_bytes (um w) pt addr 0 bs ->
  exists w', pipewrite a pt true addr n 0 w = Ok (PDone (-1)) w' /\
    pipe_size (pi w') = PIPESIZE /\ woken w' = woken w.
Proof.
  intros Hok Hp Hpi Hq0 Hn Hgt Ha Hb Hbs.
  assert (pipewrite a pt true addr n 0 w = pipewrite_loop a pt true addr 0 (length bs) w) as Ew.
  { unfold pipewrite. f_equal. lia. }
  destruct (pipewrite_loop_ok a pt true addr 0 (length bs) w Hok Hp Hpi Ha ltac:(lia) ltac:(lia))
    as (res & w1 & bs1 & E1 & Hu1 & Hpi1 & Hq1 & Hbs1 & _ & _ & Hl1 & Hres).
  rewrite Hq0 in Hq1. cbn in Hq1. pose proof (length_pipe_queue (pi w1)) as Hlq. rewrite Hq1 in Hlq.
  pose proof (po_size _ Hpi1). rewrite Ew.
  destruct (lookup_lt_is_Some_2 bs (length bs1)) as [x Hx]; [lia|]. apply Hbs in Hx. rewrite Z.add_0_r in Hx.
  destruct res; [destruct Hres as [(-> & _ & [?|Hnone])|(-> & Hw & _ & Hf & _)]|].
  - lia.
  - rewrite Z.add_0_l in Hnone. congruence.
  - eauto.
  - by destruct Hres as (_ & _ & _ & _ & _ & ?).
Qed.

End PipeSpec.

(** ** A new pipe and a process with two pages of memory *)

#[local] Existing Instances demo_linker demo_linker_ok.

Definition demo_pipe : pipe := pipe_init (replicate 512 5).

Lemma demo_pipe_ok : pipe_ok demo_pipe /\ pipe_queue demo_pipe = [].
Proof.
  split; [|reflexivity]. split; try done. apply Forall_replicate. lia.
Qed.

Lemma demo_user : exists (s : kmem_st) pt, ua_ok s {[ pt ]} /\
  forall va, 0 <= va < 8192 -> ua_view s pt va = Some 0.
Proof.
  destruct demo_mapped as (s & free & T & pt & _ & Hinv & Hr & _ & _ & Hu & _ & Hb & _).
  exists s, pt. split; [|done]. exists free, T. split; [done|]. intros pt' ->%elem_of_singleton. done.
Qed.

Lemma demo_user_bytes (s : kmem_st) pt addr (n : nat) :
  (forall va, 0 <= va < 8192 -> ua_view s pt va = Some 0) -> 0 <= addr -> addr + Z.of_nat n <= 8192 ->
  user_bytes s pt addr 0 (replicate n 0).
Proof.
  intros H Ha Hn j b [-> Hj]%lookup_replicate. apply H. lia.
Qed.

Lemma pipewrite_refines_witness :
  exists s pt res w', pipewrite 1 pt false 0 600 0 (mk_pst demo_pipe s []) = Ok res w' /\ um w' = s.
Proof.
  destruct demo_user as (s & pt & Hok & Hb).
  destruct (pipewrite_refines {[ pt ]} 1 pt false 0 600 0 (mk_pst demo_pipe s []) Hok
              (proj2 (elem_of_singleton _ _) eq_refl) (proj1 demo_pipe_ok) ltac:(lia) ltac:(lia) ltac:(lia))
    as (res & w' & bs & E & Hu & _). exists s, pt, res, w'. auto.
Defined.

Lemma piperead_refines_witness :
  exists s pt res w', piperead 1 pt false 0 600 (mk_pst demo_pipe s []) = Ok res w'.
Proof.
  destruct demo_user as (s & pt & Hok & Hb).
  destruct (piperead_refines {[ pt ]} 1 pt false 0 600 (mk_pst demo_pipe s []) Hok
              (proj2 (elem_of_singleton _ _) eq_refl) (proj1 demo_pipe_ok) ltac:(lia) ltac:(lia) ltac:(lia))
    as (res & w' & bs & E & _). exists s, pt, res, w'. exact E.
Defined.

Lemma pipe_roundtrip_witness :
  exists s pt w1 w2, pipewrite 1 pt false 0 7 0 (mk_pst demo_pipe s []) = Ok (PDone 7) w1 /\
    piperead 1 pt false 4093 7 w1 = Ok (PDone 7) w2.
Proof.
  destruct demo_user as (s & pt & Hok & Hb).
  assert (pt ∈ ({[ pt ]} : gset Z)) as Hpt by (apply elem_of_singleton; reflexivity).
  assert (0 < 7 <= PIPESIZE) as H7 by (unfold PIPESIZE; lia).
  destruct (pipe_roundtrip {[ pt ]} 1 pt 0 pt 4093 7 (replicate 7 0) (mk_pst demo_pipe s []) Hok Hpt Hpt
              (proj1 demo_pipe_ok) (proj2 demo_pipe_ok) eq_refl H7 ltac:(lia) ltac:(lia) ltac:(lia) ltac:(lia)
              (demo_user_bytes s pt 0 7 Hb ltac:(lia) ltac:(lia))) as (w1 & w2 & E1 & E2 & _).
  - intros j Hj. cbn [um]. rewrite Hb by lia. discriminate.
  - exists s, pt, w1, w2. auto.
Defined.

Lemma pipewrite_killed_no_wakeup_witness :
  exists s pt w', pipewrite 1 pt true 0 600 0 (mk_pst demo_pipe s []) = Ok (PDone (-1)) w' /\ woken w' = [].
Proof.
  destruct demo_user as (s & pt & Hok & Hb).
  assert (PIPESIZE < 600) as H6 by (unfold PIPESIZE; lia).
  destruct (pipewrite_killed_no_wakeup {[ pt ]} 1 pt 0 600 (replicate 600 0) (mk_pst demo_pipe s []) Hok
              (proj2 (elem_of_singleton _ _) eq_refl) (proj1 demo_pipe_ok) (proj2 demo_pipe_ok) eq_refl H6
              ltac:(lia) ltac:(lia) (demo_user_bytes s pt 0 600 Hb ltac:(lia) ltac:(lia))) as (w' & E & _ & Hw).
  exists s, pt, w'. auto.
Defined.
