(* ===== verification/Uart.v ===== *)
(** * kernel/uart.c: the 16550a UART driver

    The device is outside the sources: [lsr] lists the values the line status
    register will have at its next reads (0, neither idle nor ready, after that),
    [rhr] the bytes the receive register will deliver, and [sent] the bytes
    written to the transmit register.  [noff] is [mycpu()->noff], which decides
    whether [sched] accepts a [sleep]. *)
From stdpp Require Import base gmap list numbers strings.
From Stdlib Require Import ZArith Lia.
From S2P Require Import Prelude Ring Riscv.
Open Scope Z_scope.

Definition RHR : Z := 0.
Definition THR : Z := 0.
Definition IER : Z := 1.
Definition IER_TX_ENABLE : Z := Z.shiftl 1 0.
Definition IER_RX_ENABLE : Z := Z.shiftl 1 1.
Definition FCR : Z := 2.
Definition FCR_FIFO_ENABLE : Z := Z.shiftl 1 0.
Definition FCR_FIFO_CLEAR : Z := Z.shiftl 3 1.
Definition LCR : Z := 3.
Definition LCR_EIGHT_BITS : Z := Z.shiftl 3 0.
Definition LCR_BAUD_LATCH : Z := Z.shiftl 1 7.
Definition LSR : Z := 5.
Definition LSR_TX_IDLE : Z := Z.shiftl 1 5.
Definition UART_TX_BUF_SIZE : Z := 32.

Record uart_st := mk_uart {
  uart_tx_buf : list Z;
  uart_tx_w : Z;
  uart_tx_r : Z;
  lsr : list Z;
  rhr : list Z;
  sent : list Z;
  regs : list (Z * Z);
  uwoken : list chan;
  panicked : bool;
  noff : Z
}.

Definition set_tx (b : list Z) (w r : Z) (s : uart_st) : uart_st :=
  mk_uart b w r (lsr s) (rhr s) (sent s) (regs s) (uwoken s) (panicked s) (noff s).
Definition set_lsr (l : list Z) (s : uart_st) : uart_st :=
  mk_uart (uart_tx_buf s) (uart_tx_w s) (uart_tx_r s) l (rhr s) (sent s) (regs s) (uwoken s) (panicked s) (noff s).
Definition set_noff (n : Z) (s : uart_st) : uart_st :=
  mk_uart (uart_tx_buf s) (uart_tx_w s) (uart_tx_r s) (lsr s) (rhr s) (sent s) (regs s) (uwoken s) (panicked s) n.
Definition transmit (c : Z) (s : uart_st) : uart_st :=
  mk_uart (uart_tx_buf s) (uart_tx_w s) (uart_tx_r s) (lsr s) (rhr s) (sent s ++ [u8 c]) (regs s) (uwoken s)
    (panicked s) (noff s).
Definition uwakeup (c : chan) (s : uart_st) : uart_st :=
  mk_uart (uart_tx_buf s) (uart_tx_w s) (uart_tx_r s) (lsr s) (rhr s) (sent s) (regs s) (c :: uwoken s)
    (panicked s) (noff s).

(** [WriteReg(reg, v)] for the registers other than THR. *)
Definition write_reg (reg v : Z) : M uart_st unit :=
  modify (fun s => mk_uart (uart_tx_buf s) (uart_tx_w s) (uart_tx_r s) (lsr s) (rhr s) (sent s)
                     (regs s ++ [(reg, v)]) (uwoken s) (panicked s) (noff s)).

(** [ReadReg(LSR)] and [ReadReg(RHR)]. *)
Definition read_lsr : M uart_st Z := fun s =>
  match lsr s with
  | [] => Ok 0 s
  | v :: l => Ok v (set_lsr l s)
  end.
Definition read_rhr : M uart_st Z := fun s =>
  match rhr s with
  | [] => Ok 0 s
  | v :: l => Ok (u8 v) (mk_uart (uart_tx_buf s) (uart_tx_w s) (uart_tx_r s) (lsr s) l (sent s) (regs s)
                           (uwoken s) (panicked s) (noff s))
  end.

Definition push_noff : M uart_st unit := modify (fun s => set_noff (noff s + 1) s).
Definition pop_noff : M uart_st unit := modify (fun s => set_noff (noff s - 1) s).

(** [sleep(chan, lk)] of proc.c as far as [sched]'s checks go: it acquires
    [p->lock], releases [lk], and [sched] wants exactly one lock held.  The caller
    resumes by starting over, without the lock. *)
Definition usleep {A} (c : chan) : M uart_st A :=
  push_noff ;; pop_noff ;;
  let! n := gets noff in
  if negb (n =? 1) then panic "sched locks" else pop_noff ;; block c.

Definition uartinit : M uart_st unit :=
  write_reg IER 0x00 ;;
  write_reg LCR LCR_BAUD_LATCH ;;
  write_reg 0 0x03 ;;
  write_reg 1 0x00 ;;
  write_reg LCR LCR_EIGHT_BITS ;;
  write_reg FCR (Z.lor FCR_FIFO_ENABLE FCR_FIFO_CLEAR) ;;
  write_reg IER (Z.lor IER_TX_ENABLE IER_RX_ENABLE).

(** The loop of [uartstart]; every iteration sends a byte of the buffer, so
    [UART_TX_BUF_SIZE] iterations are enough. *)
Fixpoint uartstart_loop (fuel : nat) : M uart_st unit :=
  match fuel with
  | O => diverge
  | S f =>
      let! s := get in
      if uart_tx_w s =? uart_tx_r s then ret tt
      else
        let! v := read_lsr in
        if Z.land v LSR_TX_IDLE =? 0 then ret tt
        else
          let! s := get in
          let c := uart_tx_buf s !!! Z.to_nat (uart_tx_r s) in
          modify (fun s => set_tx (uart_tx_buf s) (uart_tx_w s)
                             ((uart_tx_r s + 1) mod UART_TX_BUF_SIZE) s) ;;
          modify (uwakeup CUartTxR) ;;
          modify (transmit c) ;;
          uartstart_loop f
  end.
Definition uartstart : M uart_st unit := uartstart_loop (Z.to_nat UART_TX_BUF_SIZE).

(** [uartputc] up to its return or to a [sleep], after which it starts over. *)
Definition uartputc (c : Z) : M uart_st unit :=
  push_noff ;;
  let! s := get in
  if panicked s then diverge
  else if (uart_tx_w s + 1) mod UART_TX_BUF_SIZE =? uart_tx_r s then usleep CUartTxR
  else
    modify (fun s => set_tx (<[Z.to_nat (uart_tx_w s) := u8 c]> (uart_tx_buf s))
                       ((uart_tx_w s + 1) mod UART_TX_BUF_SIZE) (uart_tx_r s) s) ;;
    uartstart ;;
    pop_noff.

(** [while((ReadReg(LSR) & LSR_TX_IDLE) == 0) ;]: the values left after the first
    one with the idle bit. *)
Fixpoint wait_idle (l : list Z) : option (list Z) :=
  match l with
  | [] => None
  | v :: l' => if Z.land v LSR_TX_IDLE =? 0 then wait_idle l' else Some l'
  end.

Definition uartputc_sync (c : Z) : M uart_st unit :=
  push_noff ;;
  let! s := get in
  if panicked s then diverge
  else
    match wait_idle (lsr s) with
    | None => diverge
    | Some l => modify (set_lsr l) ;; modify (transmit c) ;; pop_noff
    end.

Definition uartgetc : M uart_st Z :=
  let! v := read_lsr in
  if negb (Z.land v 0x01 =? 0) then read_rhr else ret (-1).

(** ** The transmit buffer as a queue *)

Definition tx_size (s : uart_st) : Z := (uart_tx_w s - uart_tx_r s) mod UART_TX_BUF_SIZE.
Definition tx_queue (s : uart_st) : list Z := ring UART_TX_BUF_SIZE (uart_tx_buf s) (uart_tx_r s) (tx_size s).

Record uart_ok (s : uart_st) : Prop := {
  uk_len : length (uart_tx_buf s) = Z.to_nat UART_TX_BUF_SIZE;
  uk_bytes : Forall (fun b => 0 <= b < 256) (uart_tx_buf s);
  uk_w : 0 <= uart_tx_w s < UART_TX_BUF_SIZE;
  uk_r : 0 <= uart_tx_r s < UART_TX_BUF_SIZE
}.

Lemma tx_size_range s : 0 <= tx_size s < UART_TX_BUF_SIZE.
Proof. by apply Z.mod_pos_bound. Qed.

Lemma tx_empty s : uart_ok s -> (uart_tx_w s =? uart_tx_r s) = (tx_size s =? 0).
Proof.
  intros [_ _ Hw Hr]. unfold tx_size, UART_TX_BUF_SIZE in *. apply eq_true_iff_eq. rewrite !Z.eqb_eq.
  Z.div_mod_to_equations. lia.
Qed.

Lemma tx_full s :
  uart_ok s -> ((uart_tx_w s + 1) mod UART_TX_BUF_SIZE =? uart_tx_r s) = (tx_size s =? UART_TX_BUF_SIZE - 1).
Proof.
  intros [_ _ Hw Hr]. unfold tx_size, UART_TX_BUF_SIZE in *. apply eq_true_iff_eq. rewrite !Z.eqb_eq.
  Z.div_mod_to_equations. lia.
Qed.

(** What the driver code below leaves alone. *)
Record same_dev (s s' : uart_st) : Prop := {
  sd_rhr : rhr s' = rhr s;
  sd_panicked : panicked s' = panicked s;
  sd_noff : noff s' = noff s;
  sd_lsr : exists k, lsr s' = drop k (lsr s)
}.

Lemma same_dev_refl s : same_dev s s.
Proof. split; try done. by exists O. Qed.

Lemma same_dev_trans s s' s'' : same_dev s s' -> same_dev s' s'' -> same_dev s s''.
Proof.
  intros [A1 A2 A3 [k A4]] [B1 B2 B3 [k' B4]]. split; try congruence.
  exists (k + k')%nat. by rewrite B4, A4, drop_drop.
Qed.

Lemma read_lsr_ok s : exists v s', read_lsr s = Ok v s' /\ same_dev s s' /\
  uart_tx_buf s' = uart_tx_buf s /\ uart_tx_w s' = uart_tx_w s /\ uart_tx_r s' = uart_tx_r s /\
  sent s' = sent s /\ uwoken s' = uwoken s.
Proof.
  unfold read_lsr. destruct (lsr s) as [|v l] eqn:E.
  - exists 0, s. split; [done|]. split; [apply same_dev_refl|done].
  - exists v, (set_lsr l s). split; [done|]. split; [|done]. split; try done. exists 1%nat. by rewrite E.
Qed.

(** Sending the oldest byte of the buffer. *)
Definition tx_send (s : uart_st) : uart_st :=
  transmit (uart_tx_buf s !!! Z.to_nat (uart_tx_r s))
    (uwakeup CUartTxR (set_tx (uart_tx_buf s) (uart_tx_w s) ((uart_tx_r s + 1) mod UART_TX_BUF_SIZE) s)).

Lemma tx_send_ok s :
  uart_ok s -> 0 < tx_size s ->
  uart_ok (tx_send s) /\ tx_size (tx_send s) = tx_size s - 1 /\
  sent (tx_send s) ++ tx_queue (tx_send s) = sent s ++ tx_queue s /\ same_dev s (tx_send s).
Proof.
  intros [H1 H2 Hw Hr] Hs.
  assert (tx_size (tx_send s) = tx_size s - 1) as Es.
  { unfold tx_size, tx_send, UART_TX_BUF_SIZE in *. cbn in *. Z.div_mod_to_equations. lia. }
  split; [|split; [done|split]].
  - split; cbn; try done. by apply Z.mod_pos_bound.
  - unfold tx_queue. rewrite Es. cbn [sent transmit uwakeup set_tx tx_send uart_tx_buf uart_tx_r].
    rewrite <- app_assoc. f_equal. rewrite (ring_cons _ _ _ (tx_size s)) by lia. cbn [app].
    rewrite (Z.mod_small (uart_tx_r s)) by done.
    destruct (lookup_lt_is_Some_2 (uart_tx_buf s) (Z.to_nat (uart_tx_r s))) as [b Hb].
    { rewrite H1. lia. }
    rewrite (list_lookup_total_correct _ _ _ Hb), u8_small by exact (Forall_lookup_1 _ _ _ _ H2 Hb).
    f_equal. apply ring_start; [done|]. by rewrite Z.mod_mod.
  - split; try done. by exists O.
Qed.

Lemma uartstart_loop_ok fuel s :
  uart_ok s -> tx_size s < Z.of_nat fuel ->
  exists s', uartstart_loop fuel s = Ok tt s' /\ uart_ok s' /\ same_dev s s' /\
    sent s' ++ tx_queue s' = sent s ++ tx_queue s.
Proof.
  revert s. induction fuel as [|fuel IH]; intros s Hok Hf; [pose proof (tx_size_range s); lia|].
  cbn [uartstart_loop]. erewrite bind_Ok by reflexivity. rewrite tx_empty by done.
  destruct (Z.eqb_spec (tx_size s) 0) as [Hz|Hz]; [exists s; auto using same_dev_refl|].
  destruct (read_lsr_ok s) as (v & s1 & E1 & Hd1 & B1 & W1 & R1 & S1 & _).
  assert (uart_ok s1 /\ tx_size s1 = tx_size s /\ tx_queue s1 = tx_queue s) as (Hok1 & Es1 & Eq1).
  { destruct Hok as [A1 A2 A3 A4]. unfold tx_queue, tx_size. rewrite B1, W1, R1. split; [|done].
    split; by rewrite ?B1, ?W1, ?R1. }
  erewrite bind_Ok by exact E1. case_bool.
  { exists s1. rewrite Eq1, S1. auto. }
  erewrite bind_Ok by reflexivity. cbv zeta. pose proof (tx_size_range s).
  destruct (tx_send_ok s1 Hok1 ltac:(lia)) as (Hok2 & Es2 & Eq2 & Hd2).
  destruct (IH (tx_send s1) Hok2 ltac:(lia)) as (s' & E' & Hok' & Hd' & Eq').
  exists s'. split; [exact E'|]. split; [done|]. split; [eauto using same_dev_trans|].
  by rewrite Eq', Eq2, Eq1, S1.
Qed.

(** [uart_tx_buf[uart_tx_w] = c; uart_tx_w = (uart_tx_w + 1) % UART_TX_BUF_SIZE;] *)
Definition tx_put (c : Z) (s : uart_st) : uart_st :=
  set_tx (<[Z.to_nat (uart_tx_w s) := u8 c]> (uart_tx_buf s))
    ((uart_tx_w s + 1) mod UART_TX_BUF_SIZE) (uart_tx_r s) s.

Lemma tx_put_ok c s :
  uart_ok s -> tx_size s < UART_TX_BUF_SIZE - 1 ->
  uart_ok (tx_put c s) /\ tx_size (tx_put c s) = tx_size s + 1 /\
  tx_queue (tx_put c s) = tx_queue s ++ [u8 c] /\ same_dev s (tx_put c s).
Proof.
  intros [H1 H2 Hw Hr] Hs. pose proof (tx_size_range s).
  assert (tx_size (tx_put c s) = tx_size s + 1) as Es.
  { unfold tx_size, tx_put, UART_TX_BUF_SIZE in *. cbn in *. Z.div_mod_to_equations. lia. }
  split; [|split; [done|split]].
  - split; cbn; try done.
    + by rewrite length_insert.
    + apply Forall_insert; [done | apply u8_range].
    + by apply Z.mod_pos_bound.
  - unfold tx_queue. rewrite Es. cbn [tx_put set_tx uart_tx_buf uart_tx_r].
    replace (uart_tx_w s) with ((uart_tx_r s + tx_size s) mod UART_TX_BUF_SIZE).
    + apply ring_put; [done|done|lia].
    + unfold tx_size, UART_TX_BUF_SIZE in *. Z.div_mod_to_equations. lia.
  - split; try done. by exists O.
Qed.

Lemma uart_ok_noff n s : uart_ok (set_noff n s) <-> uart_ok s.
Proof. split; intros [H1 H2 H3 H4]; by split. Qed.

(** [uartputc] appends its byte to what has been and will be sent, in order; with a
    full buffer it sleeps, or panics when the caller holds a spin lock. *)
Lemma uartputc_ok c s :
  uart_ok s -> panicked s = false -> 0 <= noff s ->
  if tx_size s =? UART_TX_BUF_SIZE - 1 then
    uartputc c s = if noff s =? 0 then Block CUartTxR s else Panic "sched locks"
  else
    exists s', uartputc c s = Ok tt s' /\ uart_ok s' /\ same_dev s s' /\
      sent s' ++ tx_queue s' = sent s ++ tx_queue s ++ [u8 c].
Proof.
  intros Hok Hp Hn. unfold uartputc. erewrite bind_Ok by reflexivity. erewrite bind_Ok by reflexivity.
  cbn [panicked set_noff]. rewrite Hp.
  change (tx_size s) with (tx_size (set_noff (noff s + 1) s)).
  rewrite (tx_full (set_noff (noff s + 1) s)) by by apply uart_ok_noff.
  case_bool.
  - unfold usleep. do 3 (erewrite bind_Ok by reflexivity). cbn [noff set_noff].
    destruct (Z.eqb_spec (noff s) 0) as [E|E].
    + rewrite E. cbn. unfold bind, pop_noff, modify, block. cbn. destruct s. cbn in *. by subst.
    + destruct (Z.eqb_spec (noff s + 1 + 1 - 1) 1); [lia|]. done.
  - zb. pose proof (tx_size_range s). erewrite bind_Ok by reflexivity. 
    change (tx_size (set_noff (noff s + 1) s)) with (tx_size s) in *.
    destruct (tx_put_ok c (set_noff (noff s + 1) s)) as (Hok1 & Es1 & Eq1 & [D1 D2 D3 D4]);
      [by apply uart_ok_noff | change (tx_size (set_noff (noff s + 1) s)) with (tx_size s); lia|].
    change (tx_size (set_noff (noff s + 1) s)) with (tx_size s) in *.
    destruct (uartstart_loop_ok (Z.to_nat UART_TX_BUF_SIZE) _ Hok1) as (s' & E' & Hok' & [F1 F2 F3 F4] & Eq');
      [rewrite Es1; unfold UART_TX_BUF_SIZE in *; lia|].
    unfold uartstart. erewrite bind_Ok by exact E'. exists (set_noff (noff s' - 1) s').
    split; [done|]. split; [by apply uart_ok_noff|]. split.
    + split; cbn in *; try congruence. rewrite F3. lia.
    + change (tx_queue (set_noff (noff s' - 1) s')) with (tx_queue s'). cbn [sent set_noff]. rewrite Eq', Eq1. done.
Qed.

(** ** Output without interrupts *)

(** The next [n] reads of the line status register find the transmitter idle. *)
Definition ready (n : nat) (l : list Z) : Prop :=
  (n <= length l)%nat /\ Forall (fun v => Z.land v LSR_TX_IDLE <> 0) (take n l).

Lemma ready_S n l : ready (S n) l -> exists v l', l = v :: l' /\ Z.land v LSR_TX_IDLE <> 0 /\ ready n l'.
Proof.
  intros [Hl HF]. destruct l as [|v l]; [cbn in Hl; lia|]. cbn in *. apply Forall_cons in HF as [Hv HF].
  exists v, l. split; [done|]. split; [done|]. split; [lia|done].
Qed.

Lemma ready_mono n n' l : (n' <= n)%nat -> ready n l -> ready n' l.
Proof.
  intros Hn [Hl HF]. split; [lia|]. replace (take n' l) with (take n' (take n l)) by (rewrite take_take; f_equal; lia).
  by apply Forall_take.
Qed.

Definition put_sent (l : list Z) (bs : list Z) (s : uart_st) : uart_st :=
  mk_uart (uart_tx_buf s) (uart_tx_w s) (uart_tx_r s) l (rhr s) (sent s ++ bs) (regs s) (uwoken s)
    (panicked s) (noff s).

Lemma uartputc_sync_ok c n s :
  panicked s = false -> ready (S n) (lsr s) ->
  exists l, ready n l /\ uartputc_sync c s = Ok tt (put_sent l [u8 c] s).
Proof.
  intros Hp Hr. apply ready_S in Hr as (v & l & E & Hv & Hr). exists l. split; [done|].
  unfold uartputc_sync. erewrite bind_Ok by reflexivity. erewrite bind_Ok by reflexivity.
  cbn [panicked set_noff lsr]. rewrite Hp, E. cbn [wait_idle]. destruct (Z.eqb_spec (Z.land v LSR_TX_IDLE) 0); [done|].
  unfold bind, pop_noff, modify, put_sent, transmit, set_lsr, set_noff. cbn.
  by replace (noff s + 1 - 1) with (noff s) by lia.
Qed.
