(* ===== verification/Console.v ===== *)
(** * kernel/console.c: the console

    The input buffer is a ring of [INPUT_BUF] bytes with three indices modulo
    2^32: [cr] (read), [cw] (end of the last whole line) and [ce] (edit).
    [consoleread] is given one critical section at a time, like the pipe. *)
From stdpp Require Import base gmap list numbers strings.
From Stdlib Require Import ZArith Lia.
From S2P Require Import Prelude Ring Kalloc Access Pipe Uart.
Open Scope Z_scope.

Definition BACKSPACE : Z := 0x100.
Definition C (x : Z) : Z := x - 64.
Definition INPUT_BUF : Z := 128.

Record cons_st (U : Type) := mk_cons {
  cbuf : list Z;
  cr : Z;
  cw : Z;
  ce : Z;
  ust : uart_st;
  cum : U;
  cwoken : list chan
}.
Arguments mk_cons {U}. Arguments cbuf {U}. Arguments cr {U}. Arguments cw {U}. Arguments ce {U}.
Arguments ust {U}. Arguments cum {U}. Arguments cwoken {U}.

Inductive cres := CDone (r : Z) | CSleep (dst n : Z).

Section Console.
Context {U : Type} `{UserAccess U}.

Definition on_uart {A} (m : M uart_st A) : M (cons_st U) A :=
  zoom ust (fun u s => mk_cons (cbuf s) (cr s) (cw s) (ce s) u (cum s) (cwoken s)) m.
Definition on_mem {A} (m : M U A) : M (cons_st U) A :=
  zoom cum (fun u s => mk_cons (cbuf s) (cr s) (cw s) (ce s) (ust s) u (cwoken s)) m.
Definition set_r (r : Z) (s : cons_st U) : cons_st U := mk_cons (cbuf s) r (cw s) (ce s) (ust s) (cum s) (cwoken s).
Definition set_w (w : Z) (s : cons_st U) : cons_st U := mk_cons (cbuf s) (cr s) w (ce s) (ust s) (cum s) (cwoken s).
Definition set_e (e : Z) (s : cons_st U) : cons_st U := mk_cons (cbuf s) (cr s) (cw s) e (ust s) (cum s) (cwoken s).
Definition set_buf (b : list Z) (s : cons_st U) : cons_st U :=
  mk_cons b (cr s) (cw s) (ce s) (ust s) (cum s) (cwoken s).
Definition cwakeup (c : chan) (s : cons_st U) : cons_st U :=
  mk_cons (cbuf s) (cr s) (cw s) (ce s) (ust s) (cum s) (c :: cwoken s).

Definition consputc (c : Z) : M uart_st unit :=
  if c =? BACKSPACE then uartputc_sync 8 ;; uartputc_sync 32 ;; uartputc_sync 8
  else uartputc_sync c.

Fixpoint consolewrite_loop (pagetable : Z) (user_src : bool) (src i : Z) (k : nat) : M (cons_st U) Z :=
  match k with
  | O => ret i
  | S k' =>
      let! (r, c) := on_mem (either_copyin pagetable user_src (u64 (src + i)) 1) in
      if r =? -1 then ret i
      else on_uart (uartputc (c !!! 0%nat)) ;; consolewrite_loop pagetable user_src src (i + 1) k'
  end.

(** [acquire(&cons.lock)] and [release(&cons.lock)] count in [noff]. *)
Definition consolewrite (pagetable : Z) (user_src : bool) (src n : Z) : M (cons_st U) Z :=
  on_uart push_noff ;;
  let! i := consolewrite_loop pagetable user_src src 0 (Z.to_nat n) in
  on_uart pop_noff ;; ret i.

(** The loop of [consoleread] with [n] bytes still wanted. *)
Fixpoint consoleread_loop (pagetable : Z) (user_dst killed : bool) (target dst : Z) (n : nat)
  : M (cons_st U) cres :=
  match n with
  | O => ret (CDone target)
  | S n' =>
      let! s := get in
      if cr s =? cw s then
        if killed then ret (CDone (-1)) else ret (CSleep dst (Z.of_nat n))
      else
        let c := cbuf s !!! Z.to_nat (cr s mod INPUT_BUF) in
        modify (set_r (u32 (cr s + 1))) ;;
        if c =? C 68 then
          (if Z.of_nat n <? target then modify (fun s => set_r (u32 (cr s - 1)) s) else ret tt) ;;
          ret (CDone (target - Z.of_nat n))
        else
          let! r := on_mem (either_copyout pagetable user_dst dst [c]) in
          if r =? -1 then ret (CDone (target - Z.of_nat n))
          else if c =? 10 then ret (CDone (target - Z.of_nat n'))
          else consoleread_loop pagetable user_dst killed target (u64 (dst + 1)) n'
  end.

(** One critical section: a call with [n] bytes wanted, or a call that wanted
    [target] bytes and resumes after [sleep] with [n] left. *)
Definition consoleread (pagetable : Z) (user_dst killed : bool) (target dst n : Z) : M (cons_st U) cres :=
  consoleread_loop pagetable user_dst killed target dst (Z.to_nat n).

(** The loop of control-U; it runs at most once per character of the line. *)
Fixpoint kill_line (fuel : nat) : M (cons_st U) unit :=
  match fuel with
  | O => diverge
  | S f =>
      let! s := get in
      if negb (ce s =? cw s) && negb (cbuf s !!! Z.to_nat (u32 (ce s - 1) mod INPUT_BUF) =? 10) then
        modify (fun s => set_e (u32 (ce s - 1)) s) ;;
        on_uart (consputc BACKSPACE) ;;
        kill_line f
      else ret tt
  end.

Fixpoint put_all (bs : list Z) : M uart_st unit :=
  match bs with [] => ret tt | b :: bs' => consputc b ;; put_all bs' end.

(** [listing] is what [procdump] prints. *)
Definition consoleintr (listing : list Z) (c : Z) : M (cons_st U) unit :=
  let! s := get in
  if c =? C 80 then on_uart (put_all listing)
  else if c =? C 85 then kill_line (S (Z.to_nat (u32 (ce s - cw s))))
  else if (c =? C 72) || (c =? 127) then
    if negb (ce s =? cw s) then
      modify (fun s => set_e (u32 (ce s - 1)) s) ;; on_uart (consputc BACKSPACE)
    else ret tt
  else
    if negb (c =? 0) && (u32 (ce s - cr s) <? INPUT_BUF) then
      let c := if c =? 13 then 10 else c in
      on_uart (consputc c) ;;
      modify (fun s => set_e (u32 (ce s + 1))
                         (set_buf (<[Z.to_nat (ce s mod INPUT_BUF) := u8 c]> (cbuf s)) s)) ;;
      let! s := get in
      if (c =? 10) || (c =? C 68) || (ce s =? u32 (cr s + INPUT_BUF)) then
        modify (fun s => set_w (ce s) s) ;; modify (cwakeup CConsR)
      else ret tt
    else ret tt.

(** The interrupt handler of uart.c; every round but the last takes a value of
    the line status register. *)
Fixpoint uartintr_loop (listing : list Z) (fuel : nat) : M (cons_st U) unit :=
  match fuel with
  | O => diverge
  | S f =>
      let! c := on_uart uartgetc in
      if c =? -1 then ret tt else consoleintr listing c ;; uartintr_loop listing f
  end.

Definition uartintr (listing : list Z) : M (cons_st U) unit :=
  let! s := get in
  uartintr_loop listing (S (length (lsr (ust s)))) ;;
  on_uart (push_noff ;; uartstart ;; pop_noff).

Definition consoleinit : M (cons_st U) unit := on_uart uartinit.

End Console.

(** ** The input buffer as lines *)

Section ConsoleSpec.
Context {U : Type} `{UserAccessLaws U}.
Implicit Types s : cons_st U.

Definition csize s : Z := u32 (cw s - cr s).
Definition psize s : Z := u32 (ce s - cw s).

(** Bytes of whole lines, not yet read; bytes of the line being edited. *)
Definition committed s : list Z := ring INPUT_BUF (cbuf s) (cr s) (csize s).
Definition pending s : list Z := ring INPUT_BUF (cbuf s) (cw s) (psize s).

Record cons_ok s : Prop := {
  ck_len : length (cbuf s) = Z.to_nat INPUT_BUF;
  ck_bytes : Forall (fun b => 0 <= b < 256) (cbuf s);
  ck_r : in_range 32 (cr s);
  ck_w : in_range 32 (cw s);
  ck_e : in_range 32 (ce s);
  ck_size : csize s + psize s <= INPUT_BUF;
  ck_full : csize s + psize s = INPUT_BUF -> psize s = 0;
  ck_line : Forall (fun b => b <> 10 /\ b <> C 68) (pending s)
}.

Lemma csize_range s : 0 <= csize s < 2 ^ 32.
Proof. apply u32_range. Qed.
Lemma psize_range s : 0 <= psize s < 2 ^ 32.
Proof. apply u32_range. Qed.

Lemma length_committed s : Z.of_nat (length (committed s)) = csize s.
Proof. apply length_ring, csize_range. Qed.
Lemma length_pending s : Z.of_nat (length (pending s)) = psize s.
Proof. apply length_ring, psize_range. Qed.

Lemma esize s :
  in_range 32 (cr s) -> in_range 32 (cw s) -> in_range 32 (ce s) -> csize s + psize s <= INPUT_BUF ->
  u32 (ce s - cr s) = csize s + psize s.
Proof.
  intros Hr Hw He Hs. unfold csize, psize, u32, wrap, in_range, INPUT_BUF in *.
  Z.div_mod_to_equations. lia.
Qed.

Lemma no_line s : cons_ok s -> (cr s =? cw s) = (csize s =? 0).
Proof.
  intros [_ _ Hr Hw _ _ _ _]. unfold csize, u32, wrap, in_range in *. apply eq_true_iff_eq.
  rewrite !Z.eqb_eq. Z.div_mod_to_equations. lia.
Qed.

Lemma no_pending s : cons_ok s -> (ce s =? cw s) = (psize s =? 0).
Proof.
  intros [_ _ _ Hw He _ _ _]. unfold psize, u32, wrap, in_range in *. apply eq_true_iff_eq.
  rewrite !Z.eqb_eq. Z.div_mod_to_equations. lia.
Qed.

Lemma buf_full s : cons_ok s -> (ce s =? u32 (cr s + INPUT_BUF)) = (csize s + psize s =? INPUT_BUF).
Proof.
  intros [_ _ Hr Hw He Hs _ _]. unfold csize, psize, u32, wrap, in_range, INPUT_BUF in *. apply eq_true_iff_eq.
  rewrite !Z.eqb_eq. Z.div_mod_to_equations. lia.
Qed.

(** ** The line discipline, abstractly

    [consoleintr] on the pair of whole lines and the line being edited. *)
Definition line_discipline (com pen : list Z) (c : Z) : list Z * list Z :=
  if c =? C 80 then (com, pen)
  else if c =? C 85 then (com, [])
  else if (c =? C 72) || (c =? 127) then (com, removelast pen)
  else if (c =? 0) || (INPUT_BUF <=? Z.of_nat (length com + length pen)) then (com, pen)
  else
    let pen' := pen ++ [if c =? 13 then 10 else c] in
    if (c =? 10) || (c =? 13) || (c =? C 68) || (Z.of_nat (length com + length pen') =? INPUT_BUF)
    then (com ++ pen', []) else (com, pen').

(** Dropping the last character of the line. *)
Lemma erase_ok s :
  cons_ok s -> psize s <> 0 ->
  let s' := set_e (u32 (ce s - 1)) s in
  cons_ok s' /\ committed s' = committed s /\ pending s' = removelast (pending s) /\
  psize s' = psize s - 1 /\
  pending s = pending s' ++ [cbuf s !!! Z.to_nat (u32 (ce s - 1) mod INPUT_BUF)].
Proof.
  intros Hok Hp s'. pose proof (psize_range s).
  assert (psize s' = psize s - 1) as Ep.
  { destruct Hok as [_ _ _ Hw He _ _ _]. unfold psize, s', u32, wrap, in_range in *. cbn in *.
    Z.div_mod_to_equations. lia. }
  assert (pending s = pending s' ++ [cbuf s !!! Z.to_nat (u32 (ce s - 1) mod INPUT_BUF)]) as Eq.
  { unfold pending. rewrite Ep. replace (psize s) with (psize s - 1 + 1) at 1 by lia.
    rewrite ring_snoc by lia. cbn [cbuf cw s' set_e]. do 4 f_equal.
    destruct Hok as [_ _ _ Hw He _ _ _]. unfold psize, u32, wrap, in_range, INPUT_BUF in *.
    Z.div_mod_to_equations. lia. }
  split; [|split; [done|split; [|done]]].
  - destruct Hok as [K1 K2 K3 K4 K5 K6 K7 K8]. split; try done.
    + apply u32_range.
    + rewrite Ep. change (csize s') with (csize s). lia.
    + rewrite Ep. change (csize s') with (csize s). lia.
    + rewrite Eq in K8. by apply Forall_app in K8 as [? _].
  - by rewrite Eq, removelast_last.
Qed.

(** Adding a character to the line. *)
Definition push_char (c : Z) s : cons_st U :=
  set_e (u32 (ce s + 1)) (set_buf (<[Z.to_nat (ce s mod INPUT_BUF) := u8 c]> (cbuf s)) s).

Lemma push_char_views c s :
  cons_ok s -> csize s + psize s < INPUT_BUF ->
  csize (push_char c s) = csize s /\ psize (push_char c s) = psize s + 1 /\
  committed (push_char c s) = committed s /\ pending (push_char c s) = pending s ++ [u8 c].
Proof.
  intros Hok Hs. pose proof (csize_range s). pose proof (psize_range s).
  assert (psize (push_char c s) = psize s + 1) as Ep.
  { destruct Hok as [_ _ _ Hw He _ _ _]. unfold psize, push_char, u32, wrap, in_range, INPUT_BUF in *. cbn in *.
    Z.div_mod_to_equations. lia. }
  assert (ce s mod INPUT_BUF = (cw s + psize s) mod INPUT_BUF) as E1.
  { destruct Hok as [_ _ _ Hw He _ _ _]. unfold psize, u32, wrap, in_range, INPUT_BUF in *.
    Z.div_mod_to_equations. lia. }
  assert (ce s mod INPUT_BUF = (cr s + (csize s + psize s)) mod INPUT_BUF) as E2.
  { destruct Hok as [_ _ Hr Hw He _ _ _]. unfold csize, psize, u32, wrap, in_range, INPUT_BUF in *.
    Z.div_mod_to_equations. lia. }
  split; [done|]. split; [done|]. split.
  - unfold committed. change (csize (push_char c s)) with (csize s). cbn [cbuf cr push_char set_e set_buf].
    apply ring_insert_ne; [done|lia|by apply Z.mod_pos_bound|]. intros j Hj. rewrite E2.
    apply ring_distinct; [done|lia|lia].
  - unfold pending. rewrite Ep. cbn [cbuf cw push_char set_e set_buf]. rewrite E1.
    apply ring_put; [done|apply Hok|lia].
Qed.

Lemma commit_views s :
  in_range 32 (cr s) -> in_range 32 (cw s) -> in_range 32 (ce s) -> csize s + psize s <= INPUT_BUF ->
  committed (set_w (ce s) s) = committed s ++ pending s /\ pending (set_w (ce s) s) = [].
Proof.
  intros Hr Hw He Hs. pose proof (csize_range s). pose proof (psize_range s). split.
  - unfold committed at 1. cbn [cbuf cr set_w]. unfold csize. cbn [cw cr set_w].
    rewrite esize by done. rewrite ring_app by lia. f_equal. apply ring_start; [done|].
    unfold csize, u32, wrap, in_range, INPUT_BUF in *. Z.div_mod_to_equations. lia.
  - unfold pending, psize. cbn [ce cw set_w]. by rewrite Z.sub_diag.
Qed.

(** ** Echo *)

Definition set_ust (u : uart_st) s : cons_st U := mk_cons (cbuf s) (cr s) (cw s) (ce s) u (cum s) (cwoken s).

Lemma cons_ok_ust u s : cons_ok (set_ust u s) <-> cons_ok s.
Proof. split; intros [K1 K2 K3 K4 K5 K6 K7 K8]; by split. Qed.

(** The transmitter accepts the next [n] characters. *)
Definition can_echo (n : nat) (u : uart_st) : Prop := panicked u = false /\ ready n (lsr u).

Lemma can_echo_mono n n' u : (n' <= n)%nat -> can_echo n u -> can_echo n' u.
Proof. intros Hn [Hp Hr]. split; [done|]. by eapply ready_mono. Qed.

Lemma consputc_ok c n u : can_echo (3 + n) u -> exists u', consputc c u = Ok tt u' /\ can_echo n u'.
Proof.
  intros [Hp Hr]. unfold consputc. case_bool.
  - destruct (uartputc_sync_ok 8 (2 + n) u Hp Hr) as (l1 & R1 & E1). erewrite bind_Ok by exact E1.
    destruct (uartputc_sync_ok 32 (1 + n) _ (Hp : panicked (put_sent l1 [u8 8] u) = false) R1) as (l2 & R2 & E2).
    erewrite bind_Ok by exact E2.
    destruct (uartputc_sync_ok 8 n _ (Hp : panicked (put_sent l2 [u8 32] (put_sent l1 [u8 8] u)) = false) R2)
      as (l3 & R3 & E3). eexists. split; [exact E3|]. by split.
  - destruct (uartputc_sync_ok c (2 + n) u Hp Hr) as (l & R & E). eexists. split; [exact E|].
    split; [done|]. eapply ready_mono, R. lia.
Qed.

Lemma on_uart_Ok {A} (m : M uart_st A) a u s :
  m (ust s) = Ok a u -> on_uart m s = Ok a (set_ust u s).
Proof. intros E. unfold on_uart, zoom. by rewrite E. Qed.

Lemma put_all_ok bs n u :
  can_echo (3 * length bs + n) u -> exists u', put_all bs u = Ok tt u' /\ can_echo n u'.
Proof.
  revert u; induction bs as [|b bs IH]; intros u Hu; cbn [put_all length] in *; [by exists u|].
  destruct (consputc_ok b (3 * length bs + n) u) as (u1 & E1 & Hu1); [eapply can_echo_mono, Hu; lia|].
  erewrite bind_Ok by exact E1. auto.
Qed.

Lemma kill_line_ok fuel n s :
  cons_ok s -> psize s < Z.of_nat fuel -> can_echo (3 * Z.to_nat (psize s) + n) (ust s) ->
  exists s', kill_line fuel s = Ok tt s' /\ cons_ok s' /\ committed s' = committed s /\ pending s' = [] /\
    cum s' = cum s /\ cwoken s' = cwoken s.
Proof.
  revert s. induction fuel as [|fuel IH]; intros s Hok Hf Hu; [pose proof (psize_range s); lia|].
  cbn [kill_line]. erewrite bind_Ok by reflexivity. rewrite no_pending by done.
  destruct (Z.eqb_spec (psize s) 0) as [Hz|Hz]; cbn [negb andb].
  { exists s. split; [done|]. split; [done|]. split; [done|]. split; [|done].
    apply length_zero_iff_nil. pose proof (length_pending s). lia. }
  destruct (erase_ok s Hok Hz) as (Hok1 & Ec & Ep & Es & Eq). pose proof (psize_range s).
  pose proof (ck_line _ Hok) as Hl. rewrite Eq in Hl. apply Forall_app in Hl as [_ Hl]. apply Forall_singleton in Hl as [Hl _].
  destruct (Z.eqb_spec (cbuf s !!! Z.to_nat (u32 (ce s - 1) mod INPUT_BUF)) 10); [done|]. cbn [negb].
  erewrite bind_Ok by reflexivity. set (s1 := set_e (u32 (ce s - 1)) s) in *.
  destruct (consputc_ok BACKSPACE (3 * Z.to_nat (psize s1) + n) (ust s1)) as (u & E1 & Hu1).
  { eapply can_echo_mono, Hu. lia. }
  erewrite bind_Ok by (apply on_uart_Ok; exact E1).
  destruct (IH (set_ust u s1)) as (s' & E' & Hok' & Ec' & Ep' & Em & Ew).
  - by apply cons_ok_ust.
  - change (psize (set_ust u s1)) with (psize s1). lia.
  - exact Hu1.
  - exists s'. split; [exact E'|]. split; [done|]. split; [by rewrite Ec'|]. split; [done|].
    split; [by rewrite Em | by rewrite Ew].
Qed.

(** The default case of [consoleintr]. *)
Lemma push_commit_ok c s :
  cons_ok s -> csize s + psize s < INPUT_BUF -> 0 <= c < 256 ->
  let s1 := push_char c s in
  let line := (c =? 10) || (c =? C 68) || (Z.of_nat (length (committed s) + length (pending s ++ [c])) =? INPUT_BUF) in
  ((c =? 10) || (c =? C 68) || (ce s1 =? u32 (cr s1 + INPUT_BUF))) = line /\
  (if line then
     let s2 := set_w (ce s1) s1 in
     cons_ok s2 /\ committed s2 = committed s ++ pending s ++ [c] /\ pending s2 = []
   else cons_ok s1 /\ committed s1 = committed s /\ pending s1 = pending s ++ [c]).
Proof.
  intros Hok Hs Hc s1 line. pose proof (csize_range s). pose proof (psize_range s).
  destruct (push_char_views c s Hok Hs) as (E1 & E2 & E3 & E4). fold s1 in E1, E2, E3, E4.
  rewrite u8_small in E4 by done.
  assert ((ce s1 =? u32 (cr s1 + INPUT_BUF)) =
          (Z.of_nat (length (committed s) + length (pending s ++ [c])) =? INPUT_BUF)) as Ef.
  { rewrite <- E4, Nat2Z.inj_add, length_committed, length_pending, E2. apply eq_true_iff_eq. rewrite !Z.eqb_eq.
    destruct Hok as [_ _ Hr Hw He _ _ _]. unfold s1, push_char. cbn [ce cr set_e set_buf].
    unfold csize, psize, u32, wrap, in_range, INPUT_BUF in *. Z.div_mod_to_equations. lia. }
  split; [by rewrite Ef|].
  assert (length (cbuf s1) = Z.to_nat INPUT_BUF /\ Forall (fun b => 0 <= b < 256) (cbuf s1) /\ in_range 32 (ce s1)) as (L1 & L2 & L3).
  { destruct Hok as [K1 K2 _ _ _ _ _ _]. cbn. rewrite length_insert. split; [done|]. split; [|apply u32_range].
    apply Forall_insert; [done|apply u8_range]. }
  destruct Hok as [K1 K2 K3 K4 K5 K6 K7 K8]. destruct line eqn:El.
  - destruct (commit_views s1) as [F1 F2]; try done; [lia|]. cbv zeta.
    split; [|split; [by rewrite F1, E3, E4|done]].
    assert (psize (set_w (ce s1) s1) = 0) as Ez by (rewrite <- length_pending, F2; done).
    assert (csize (set_w (ce s1) s1) = csize s + psize s + 1) as Ec.
    { rewrite <- length_committed, F1, length_app, Nat2Z.inj_add, length_committed, length_pending. lia. }
    split; try done; rewrite ?Ez, ?Ec; try lia. by rewrite F2.
  - unfold line in El. apply orb_false_iff in El as [El1 El2]. zb.
    rewrite <- E4, Nat2Z.inj_add, length_committed, length_pending in *.
    split; [|done]. split; try done; try lia. rewrite E4. apply Forall_app. split; [done|]. by apply Forall_singleton.
Qed.

(** ** Contracts *)

(** C36: [consoleintr] implements the line discipline: control-U empties the line
    being edited, backspace and delete drop its last character, carriage return is
    stored as newline, and the line becomes readable, and readers are woken, at a
    newline, a control-D or when the buffer fills up; a full buffer drops input. *)
Theorem consoleintr_line_discipline listing c s :
  cons_ok s -> 0 <= c < 256 -> can_echo (3 * 128 + 3 * length listing + 3) (ust s) ->
  exists s', consoleintr listing c s = Ok tt s' /\ cons_ok s' /\
    (committed s', pending s') = line_discipline (committed s) (pending s) c /\
    cum s' = cum s /\ (committed s' = committed s \/ cwoken s' = CConsR :: cwoken s).
Proof.
  intros Hok Hc Hu. unfold consoleintr, line_discipline. erewrite bind_Ok by reflexivity.
  pose proof (csize_range s). pose proof (psize_range s). pose proof (ck_size _ Hok) as Hsz.
  destruct (c =? C 80).
  { destruct (put_all_ok listing 0 (ust s)) as (u & E & _); [eapply can_echo_mono, Hu; lia|].
    exists (set_ust u s). split; [by apply on_uart_Ok|]. split; [by apply cons_ok_ust|]. auto. }
  destruct (c =? C 85).
  { destruct (kill_line_ok (S (Z.to_nat (psize s))) 0 s) as (s' & E & Hok' & Ec & Ep & Em & Ew); [done|lia| |].
    { eapply can_echo_mono, Hu. unfold INPUT_BUF in *. lia. }
    exists s'. split; [exact E|]. rewrite Ec, Ep. auto. }
  destruct ((c =? C 72) || (c =? 127)).
  { rewrite no_pending by done. destruct (Z.eqb_spec (psize s) 0) as [Hz|Hz]; cbn [negb].
    - exists s. split; [done|]. split; [done|].
      assert (pending s = []) as -> by (apply length_zero_iff_nil; pose proof (length_pending s); lia). auto.
    - destruct (erase_ok s Hok Hz) as (Hok1 & Ec & Ep & _). erewrite bind_Ok by reflexivity.
      set (s1 := set_e (u32 (ce s - 1)) s) in *.
      destruct (consputc_ok BACKSPACE 0 (ust s1)) as (u & E & _); [eapply can_echo_mono, Hu; lia|].
      exists (set_ust u s1). split; [by apply on_uart_Ok|]. split; [by apply cons_ok_ust|].
      change (committed (set_ust u s1)) with (committed s1). change (pending (set_ust u s1)) with (pending s1).
      rewrite Ec, Ep. auto. }
  rewrite Nat2Z.inj_add, length_committed, length_pending.
  rewrite esize by (apply Hok || done).
  destruct (Z.eqb_spec c 0) as [Hc0|Hc0]; cbn [negb andb orb]; [exists s; split; [done|]; auto|].
  destruct (Z.ltb_spec (csize s + psize s) INPUT_BUF) as [Hlt|Hge], (Z.leb_spec INPUT_BUF (csize s + psize s)); try lia;
    [|exists s; split; [done|]; auto].
  set (c' := if c =? 13 then 10 else c).
  assert (0 <= c' < 256) as Hc' by (unfold c'; case_bool; lia).
  assert ((c =? 10) || (c =? 13) = (c' =? 10)) as E10.
  { unfold c'. destruct (Z.eqb_spec c 10), (Z.eqb_spec c 13); try done; destruct (Z.eqb_spec c 10); done. }
  assert ((c' =? 10) || (c' =? C 68) = (c' =? 10) || (c =? C 68)) as ED.
  { unfold c'. destruct (Z.eqb_spec c 13); [by rewrite !orb_true_l | done]. }
  destruct (consputc_ok c' 0 (ust s)) as (u & E & _); [eapply can_echo_mono, Hu; lia|].
  erewrite bind_Ok by (apply on_uart_Ok; exact E). erewrite bind_Ok by reflexivity. erewrite bind_Ok by reflexivity.
  pose proof (proj2 (cons_ok_ust u s) Hok) as Hoku.
  destruct (push_commit_ok c' (set_ust u s) Hoku Hlt Hc') as [Eline Hpost]. cbv zeta in Hpost.
  change (committed (set_ust u s)) with (committed s) in *. change (pending (set_ust u s)) with (pending s) in *.
  fold (push_char c' (set_ust u s)). rewrite Eline, E10, <- ED. clear E10 ED Eline.
  case_bool; destruct Hpost as (Hok' & Ec & Ep).
  - eexists. split; [done|]. split; [|split; [|auto]].
    + destruct Hok' as [K1 K2 K3 K4 K5 K6 K7 K8]. by split.
    + f_equal; [exact Ec | exact Ep].
  - eexists. split; [done|]. split; [done|]. split; [by rewrite Ec, Ep|]. auto.
Qed.

(** ** Reading a line *)

(** [read_line first com n]: what a [consoleread] that wants [n] more bytes takes
    from the lines [com]: the bytes delivered, the lines left, and whether it has to
    wait.  A control-D ends the read; it is consumed only if nothing was delivered
    before it ([first]). *)
Fixpoint read_line (first : bool) (com : list Z) (n : nat) {struct n} : list Z * list Z * bool :=
  match n with
  | O => ([], com, false)
  | S n' =>
      match com with
      | [] => ([], [], true)
      | c :: com' =>
          if c =? C 68 then ([], if first then com' else com, false)
          else if c =? 10 then ([c], com', false)
          else let '(d, rest, wait) := read_line false com' n' in (c :: d, rest, wait)
      end
  end.

Lemma take_char s :
  cons_ok s -> csize s <> 0 ->
  let s' := set_r (u32 (cr s + 1)) s in
  cons_ok s' /\ pending s' = pending s /\
  committed s = cbuf s !!! Z.to_nat (cr s mod INPUT_BUF) :: committed s' /\
  u32 (u32 (cr s + 1) - 1) = cr s /\ 0 <= cbuf s !!! Z.to_nat (cr s mod INPUT_BUF) < 256.
Proof.
  intros Hok Hc s'. pose proof (csize_range s).
  assert (csize s' = csize s - 1) as Ec.
  { destruct Hok as [_ _ Hr Hw _ _ _ _]. unfold csize, s', u32, wrap, in_range in *. cbn in *.
    Z.div_mod_to_equations. lia. }
  split; [|split; [done|split; [|split]]].
  - destruct Hok as [K1 K2 K3 K4 K5 K6 K7 K8]. change (psize s) with (psize s') in *.
    split; try done; [apply u32_range|lia|lia].
  - unfold committed. rewrite Ec, ring_cons by lia. f_equal. apply ring_start; [done|]. cbn.
    unfold u32, wrap, INPUT_BUF. Z.div_mod_to_equations. lia.
  - destruct Hok as [_ _ Hr _ _ _ _ _]. unfold u32, wrap, in_range in *. Z.div_mod_to_equations. lia.
  - destruct (lookup_lt_is_Some_2 (cbuf s) (Z.to_nat (cr s mod INPUT_BUF))) as [b Hb].
    { rewrite (ck_len _ Hok). by apply ring_index. }
    rewrite (list_lookup_total_correct _ _ _ Hb). exact (Forall_lookup_1 _ _ _ _ (ck_bytes _ Hok) Hb).
Qed.

Lemma set_r_back s : set_r (cr s) (set_r (u32 (cr s + 1)) s) = s.
Proof. by destruct s. Qed.

Lemma consoleread_loop_ok P pt killed target dst n s d rest wait :
  cons_ok s -> ua_ok (cum s) P -> pt ∈ P -> 0 <= dst -> dst + Z.of_nat n <= 2 ^ 64 -> Z.of_nat n <= target ->
  (forall j, 0 <= j < Z.of_nat n -> ua_view (cum s) pt (dst + j) <> None) ->
  read_line (target <=? Z.of_nat n) (committed s) n = (d, rest, wait) ->
  exists s', consoleread_loop pt true killed target dst n s =
      Ok (if wait then if killed then CDone (-1)
                       else CSleep (dst + Z.of_nat (length d)) (Z.of_nat n - Z.of_nat (length d))
          else CDone (target - Z.of_nat n + Z.of_nat (length d))) s' /\
    cons_ok s' /\ ua_ok (cum s') P /\ pending s' = pending s /\ committed s' = rest /\
    forall va, ua_view (cum s') pt va =
      if decide (dst <= va < dst + Z.of_nat (length d)) then d !! Z.to_nat (va - dst) else ua_view (cum s) pt va.
Proof.
  intros Hok Hua Hpt. revert dst s d rest wait Hok Hua.
  induction n as [|n IH]; intros dst s d rest wait Hok Hua Hd Hb Ht Hmap; cbn [read_line consoleread_loop].
  { intros [= <- <- <-]. exists s. cbn [length]. rewrite Z.add_0_r. split; [unfold ret; do 2 f_equal; lia|].
    do 4 (split; [done|]). intros va. case_decide; [lia|done]. }
  destruct (decide (csize s = 0)) as [Hz|Hz].
  { assert (committed s = []) as Enil by (apply length_zero_iff_nil; pose proof (length_committed s); lia).
    rewrite Enil. intros [= <- <- <-]. exists s. erewrite bind_Ok by reflexivity. rewrite no_line, Hz by done.
    cbn [Z.eqb length]. split; [destruct killed; [done|]; unfold ret; do 2 f_equal; lia|].
    do 4 (split; [done|]). intros va. case_decide; [lia|done]. }
  destruct (take_char s Hok Hz) as (Hok1 & Ep & Ec & Eb & Hbyte). rewrite Ec.
  erewrite bind_Ok by reflexivity. rewrite no_line by done. destruct (Z.eqb_spec (csize s) 0); [done|].
  cbv zeta. erewrite bind_Ok by reflexivity.
  set (c := cbuf s !!! Z.to_nat (cr s mod INPUT_BUF)) in *. set (s1 := set_r (u32 (cr s + 1)) s) in *.
  destruct (c =? C 68).
  { intros [= <- <- <-]. cbn [length]. rewrite Z.add_0_r.
    destruct (Z.leb_spec target (Z.of_nat (S n))), (Z.ltb_spec (Z.of_nat (S n)) target); try lia.
    - exists s1. split; [done|]. do 3 (split; [done|]). split; [done|]. intros va. case_decide; [lia|done].
    - exists s. split; [|do 3 (split; [done|]); split; [done|]; intros va; case_decide; [lia|done]].
      unfold bind, modify. cbn [cr s1 set_r]. rewrite Eb. unfold s1. by rewrite set_r_back. }
  destruct (copyout1 P (cum s) pt dst c Hua Hpt Hd Hbyte) as (r & u & Eo & Hua' & Hres).
  assert (on_mem (either_copyout pt true dst [c]) s1 =
          Ok r (mk_cons (cbuf s1) (cr s1) (cw s1) (ce s1) (ust s1) u (cwoken s1))) as Em.
  { unfold on_mem, zoom, either_copyout. cbn [cum s1 set_r]. by rewrite Eo. }
  erewrite bind_Ok by exact Em. clear Em Eo. set (s2 := mk_cons _ _ _ _ _ _ _).
  destruct Hres as [[-> Hv]|(-> & Hnone & _)].
  2:{ destruct (Hmap 0 ltac:(lia)). by rewrite Z.add_0_r. }
  cbn [Z.eqb].
  assert (cons_ok s2) as Hok2 by (destruct Hok1 as [K1 K2 K3 K4 K5 K6 K7 K8]; by split).
  destruct (c =? 10).
  { intros [= <- <- <-]. exists s2. cbn [length]. split; [unfold ret; do 2 f_equal; lia|]. do 4 (split; [done|]).
    intros va. cbn [cum s2]. rewrite Hv. repeat case_decide; try lia; [|done]. subst. by rewrite Z.sub_diag. }
  destruct (read_line false (committed s1) n) as [[d' rest'] wait'] eqn:Er. intros [= <- <- <-].
  destruct (decide (n = 0%nat)) as [->|Hn0].
  { cbn in Er. injection Er as <- <- <-. exists s2. cbn [consoleread_loop length].
    split; [unfold ret; do 2 f_equal; lia|]. do 4 (split; [done|]).
    intros va. cbn [cum s2]. rewrite Hv. repeat case_decide; try lia; [|done]. subst. by rewrite Z.sub_diag. }
  rewrite u64_small by lia.
  assert ((target <=? Z.of_nat n) = false) as Ef by (apply Z.leb_gt; lia).
  destruct (IH (dst + 1) s2 d' rest' wait' Hok2) as (s' & E' & Hok' & Hua'' & Ep' & Ec' & Hv').
  - done.
  - lia.
  - lia.
  - lia.
  - intros j Hj. cbn [cum s2]. rewrite Hv. case_decide; [done|]. rewrite <- Z.add_assoc. apply Hmap. lia.
  - rewrite Ef. exact Er.
  - exists s'. rewrite E'. cbn [length]. split; [destruct wait', killed; do 2 f_equal; lia|].
    split; [done|]. split; [done|]. split; [by rewrite Ep'|]. split; [done|].
    intros va. rewrite Hv'. cbn [cum s2]. rewrite Hv. repeat case_decide; try lia; try done.
    + replace (Z.to_nat (va - dst)) with (S (Z.to_nat (va - (dst + 1)))) by lia. done.
    + subst. by rewrite Z.sub_diag.
Qed.

(** [consoleread] takes from the whole lines typed so far exactly what
    [read_line] says, at most one line, and stores it in the caller's buffer; it
    sleeps only when no whole line is left, and a control-D found after some bytes
    stays in the buffer so that the next read returns 0. *)
Theorem consoleread_reads_line P pt killed target dst n s d rest wait :
  cons_ok s -> ua_ok (cum s) P -> pt ∈ P -> 0 <= dst -> 0 <= n -> dst + n <= 2 ^ 64 -> n <= target ->
  (forall j, 0 <= j < n -> ua_view (cum s) pt (dst + j) <> None) ->
  read_line (target <=? n) (committed s) (Z.to_nat n) = (d, rest, wait) ->
  exists s', consoleread pt true killed target dst n s =
      Ok (if wait then if killed then CDone (-1) else CSleep (dst + Z.of_nat (length d)) (n - Z.of_nat (length d))
          else CDone (target - n + Z.of_nat (length d))) s' /\
    cons_ok s' /\ pending s' = pending s /\ committed s' = rest /\
    forall va, ua_view (cum s') pt va =
      if decide (dst <= va < dst + Z.of_nat (length d)) then d !! Z.to_nat (va - dst) else ua_view (cum s) pt va.
Proof.
  intros Hok Hua Hpt Hd Hn Hb Ht Hmap Er. unfold consoleread.
  destruct (consoleread_loop_ok P pt killed target dst (Z.to_nat n) s d rest wait) as (s' & E & Hok' & _ & Ep & Ec & Hv);
    rewrite ?Z2Nat.id by done; try done.
  rewrite Z2Nat.id in E by done. exists s'. auto.
Qed.

Lemma on_mem_copyin pt src (r : Z) bs s :
  ua_copyin pt src 1 (cum s) = Ok (r, bs) (cum s) -> on_mem (either_copyin pt true src 1) s = Ok (r, bs) s.
Proof. intros E. unfold on_mem, zoom, either_copyin. rewrite E. by destruct s. Qed.

Lemma consolewrite_loop_ok P pt src i k s :
  uart_ok (ust s) -> panicked (ust s) = false -> 1 <= noff (ust s) -> ua_ok (cum s) P -> pt ∈ P ->
  0 <= src -> 0 <= i -> src + i + Z.of_nat k <= 2 ^ 64 ->
  consolewrite_loop pt true src i k s = Panic "sched locks" \/
  exists s' bs, consolewrite_loop pt true src i k s = Ok (i + Z.of_nat (length bs)) s' /\
    uart_ok (ust s') /\ same_dev (ust s) (ust s') /\ cum s' = cum s /\
    user_bytes (cum s) pt src i bs /\ (length bs <= k)%nat /\
    (length bs = k \/ ua_view (cum s) pt (src + i + Z.of_nat (length bs)) = None) /\
    sent (ust s') ++ tx_queue (ust s') = sent (ust s) ++ tx_queue (ust s) ++ bs.
Proof.
  intros Hok Hp Hn Hua Hpt Hs. revert i s Hok Hp Hn Hua. induction k as [|k IH]; intros i s Hok Hp Hn Hua Hi Hb;
    cbn [consolewrite_loop].
  { right. exists s, []. cbn. rewrite Z.add_0_r, app_nil_r. split; [done|]. split; [done|].
    split; [apply same_dev_refl|]. do 3 (split; [done|]). auto. }
  rewrite u64_small by lia.
  destruct (copyin1 P (cum s) pt (src + i) Hua Hpt ltac:(lia)) as [(b & E & Hv)|[E Hv]];
    erewrite bind_Ok by (apply on_mem_copyin; exact E); cbn [Z.eqb].
  2:{ right. eexists _, []. cbn. rewrite !Z.add_0_r, app_nil_r. split; [done|]. split; [done|].
      split; [apply same_dev_refl|]. do 2 (split; [done|]). split; [lia|]. auto. }
  pose proof (uartputc_ok ([b] !!! 0%nat) (ust s) Hok Hp ltac:(lia)) as Hput.
  destruct (tx_size (ust s) =? UART_TX_BUF_SIZE - 1).
  { left. unfold on_uart, zoom, bind. rewrite Hput. destruct (Z.eqb_spec (noff (ust s)) 0); [lia|done]. }
  destruct Hput as (u & Eu & Hok1 & Hd1 & Eq1). erewrite bind_Ok by (apply on_uart_Ok; exact Eu).
  pose proof (ua_view_byte _ _ _ _ _ Hua Hpt Hv) as Hbyte.
  destruct (IH (i + 1) (set_ust u s)) as [HP|(s' & bs & E' & Hok' & Hd' & Hc' & Hb' & Hl & Hend & Eq')].
  - done.
  - cbn. destruct Hd1 as [_ -> _ _]. done.
  - cbn. destruct Hd1 as [_ _ -> _]. done.
  - done.
  - lia.
  - lia.
  - left. exact HP.
  - right. exists s', (b :: bs). cbn [length]. split; [rewrite E'; f_equal; lia|]. split; [done|].
    split; [by eapply same_dev_trans|]. split; [by rewrite Hc'|]. split; [by apply user_bytes_cons|]. split; [lia|].
    split.
    + destruct Hend as [->|Hnone]; [by left|right]. cbn in Hnone. rewrite <- Hnone. f_equal. lia.
    + rewrite Eq'. cbn [ust set_ust]. rewrite app_assoc, Eq1. cbn. rewrite u8_small by done. by rewrite <- !app_assoc.
Qed.

(** [consolewrite] hands the bytes of the caller's buffer to the UART in order;
    the only other outcome is the panic of [sched]. *)
Theorem consolewrite_in_order P pt src n s :
  uart_ok (ust s) -> panicked (ust s) = false -> 0 <= noff (ust s) -> ua_ok (cum s) P -> pt ∈ P ->
  0 <= src -> 0 <= n -> src + n <= 2 ^ 64 ->
  consolewrite pt true src n s = Panic "sched locks" \/
  exists s' bs, consolewrite pt true src n s = Ok (Z.of_nat (length bs)) s' /\
    uart_ok (ust s') /\ noff (ust s') = noff (ust s) /\ user_bytes (cum s) pt src 0 bs /\
    (Z.of_nat (length bs) = n \/ ua_view (cum s) pt (src + Z.of_nat (length bs)) = None) /\
    sent (ust s') ++ tx_queue (ust s') = sent (ust s) ++ tx_queue (ust s) ++ bs.
Proof.
  intros Hok Hp Hn Hua Hpt Hs Hn0 Hb. unfold consolewrite.
  erewrite bind_Ok by (apply on_uart_Ok; reflexivity). set (s1 := set_ust _ s).
  destruct (consolewrite_loop_ok P pt src 0 (Z.to_nat n) s1) as
    [E|(s' & bs & E & Hok' & [_ _ Ho _] & Hc & Hub & Hl & Hend & Eq)];
    [by apply uart_ok_noff|done|cbn; lia|done|done|done|lia|lia|..].
  - left. unfold bind at 1. by rewrite E.
  - right. erewrite bind_Ok by exact E. eexists _, bs. split; [done|]. cbn [ust cum] in *.
    split; [by apply uart_ok_noff|]. cbn [noff set_noff]. split; [rewrite Ho; cbn; lia|]. split; [done|]. split.
    + destruct Hend as [?|Hnone]; [left; lia|right]. by rewrite Z.add_0_r in Hnone.
    + exact Eq.
Qed.

(** Writing to the console while the transmit buffer is full does not wait for
    the UART, it panics: [uartputc] sleeps with [cons.lock] held, and [sched] accepts
    no other lock than the process's own. *)
Theorem consolewrite_full_panics P pt src n s b :
  uart_ok (ust s) -> panicked (ust s) = false -> 0 <= noff (ust s) -> ua_ok (cum s) P -> pt ∈ P ->
  0 <= src < 2 ^ 64 -> 0 < n -> ua_view (cum s) pt src = Some b -> tx_size (ust s) = UART_TX_BUF_SIZE - 1 ->
  consolewrite pt true src n s = Panic "sched locks".
Proof.
  intros Hok Hp Hn Hua Hpt Hs Hn0 Hv Hf. unfold consolewrite.
  erewrite bind_Ok by (apply on_uart_Ok; reflexivity). set (s1 := set_ust _ s).
  replace (Z.to_nat n) with (S (Z.to_nat (n - 1))) by lia. cbn [consolewrite_loop].
  rewrite Z.add_0_r, u64_small by lia.
  destruct (copyin1 P (cum s1) pt src Hua Hpt ltac:(lia)) as [(b' & E & _)|[_ Hnone]]; [|cbn in Hnone; congruence].
  unfold bind at 1. erewrite bind_Ok by (apply on_mem_copyin; exact E). cbn [Z.eqb].
  pose proof (uartputc_ok ([b'] !!! 0%nat) (ust s1)
                (proj2 (uart_ok_noff _ _) Hok) Hp ltac:(cbn; lia)) as Hput.
  change (tx_size (ust s)) with (tx_size (ust s1)) in Hf. rewrite Hf, Z.eqb_refl in Hput.
  unfold bind, on_uart, zoom. rewrite Hput. destruct (Z.eqb_spec (noff (ust s1)) 0); [cbn in *; lia|done].
Qed.

End ConsoleSpec.

(** ** A console with a line typed in, and a UART with a full buffer *)

#[local] Existing Instances demo_linker demo_linker_ok.

(** An idle UART that will accept [n] characters. *)
Definition demo_uart (n : nat) : uart_st :=
  mk_uart (replicate 32 0) 0 0 (replicate n LSR_TX_IDLE) [] [] [] [] false 0.

Definition demo_cons (s : kmem_st) : cons_st kmem_st :=
  mk_cons ([104; 105; 10] ++ replicate 125 0) 0 3 3 (demo_uart 400) s [].

Lemma demo_cons_ok s : cons_ok (demo_cons s).
Proof.
  split; try done.
  repeat (apply Forall_cons_2; [lia|]). apply Forall_nil_2.
Qed.

Lemma consoleintr_line_discipline_witness :
  exists s s', consoleintr [] 65 (demo_cons s) = Ok tt s' /\ pending s' = [65].
Proof.
  destruct demo_user as (s & pt & _).
  destruct (consoleintr_line_discipline [] 65 (demo_cons s) (demo_cons_ok s) ltac:(lia)) as (s' & E & _ & Hv & _).
  - split; [reflexivity|]. split; [vm_compute; lia|]. apply Forall_take, Forall_replicate. discriminate.
  - exists s, s'. split; [exact E|].
    change (line_discipline _ _ _) with ([104; 105; 10], [65]) in Hv. injection Hv. auto.
Defined.

Lemma consoleread_reads_line_witness :
  exists s pt s', consoleread pt true false 10 0 10 (demo_cons s) = Ok (CDone 3) s' /\ committed s' = [].
Proof.
  destruct demo_user as (s & pt & Hok & Hb).
  destruct (consoleread_reads_line {[ pt ]} pt false 10 0 10 (demo_cons s) [104; 105; 10] [] false
              (demo_cons_ok s) Hok (proj2 (elem_of_singleton _ _) eq_refl) ltac:(lia) ltac:(lia) ltac:(lia) ltac:(lia))
    as (s' & E & _ & _ & Hc & _).
  - intros j Hj. cbn [cum demo_cons]. rewrite Hb by lia. discriminate.
  - reflexivity.
  - exists s, pt, s'. auto.
Defined.

Lemma demo_uart_ok n : uart_ok (demo_uart n).
Proof. split; try done. by apply Forall_replicate. Qed.

Lemma consolewrite_in_order_witness :
  exists s pt, consolewrite pt true 0 5 (demo_cons s) = Panic "sched locks" \/
    exists s' (bs : list Z), consolewrite pt true 0 5 (demo_cons s) = Ok (Z.of_nat (length bs)) s'.
Proof.
  destruct demo_user as (s & pt & Hok & Hb). exists s, pt.
  destruct (consolewrite_in_order {[ pt ]} pt 0 5 (demo_cons s) (demo_uart_ok 400) eq_refl ltac:(cbn; lia) Hok
              (proj2 (elem_of_singleton _ _) eq_refl) ltac:(lia) ltac:(lia) ltac:(lia)) as [E|(s' & bs & E & _)].
  - left. exact E.
  - right. exists s', bs. exact E.
Defined.

Definition full_uart : uart_st := mk_uart (replicate 32 46) 31 0 [] [] [] [] [] false 0.

Lemma full_uart_ok : uart_ok full_uart.
Proof. split; try done. by apply Forall_replicate. Qed.

Lemma consolewrite_full_panics_witness :
  exists s pt, consolewrite pt true 0 1 (mk_cons (replicate 128 0) 0 0 0 full_uart s []) = Panic "sched locks".
Proof.
  destruct demo_user as (s & pt & Hok & Hb). exists s, pt.
  apply (consolewrite_full_panics {[ pt ]} pt 0 1 (mk_cons (replicate 128 0) 0 0 0 full_uart s []) 0 full_uart_ok
           eq_refl ltac:(cbn; lia) Hok (proj2 (elem_of_singleton _ _) eq_refl) ltac:(lia) ltac:(lia)).
  - apply Hb. lia.
  - reflexivity.
Defined.
