(* ===== verification/Sleeplock.v ===== *)
(** * kernel/sleeplock.c: long-term locks for processes

    Each function runs under the spinlock [lk->lk], so it is one step;
    [acquiresleep] on a locked lock leaves the CPU in [sleep] and runs its test
    again when it is woken. *)
From stdpp Require Import base list numbers strings.
From Stdlib Require Import ZArith Lia.
From S2P Require Import Prelude.
Open Scope Z_scope.

Record sleeplock := mk_slk { sl_locked : Z; sl_name : string; sl_pid : Z }.

(** A sleeplock and the channels woken so far. *)
Record slk_st := mk_slkst { slk : sleeplock; slk_woken : list chan }.

Definition initsleeplock (name : string) : sleeplock := mk_slk 0 name 0.

Definition acquiresleep (lk : chan) (mypid : Z) : M slk_st unit :=
  let! s := get in
  if negb (sl_locked (slk s) =? 0) then block lk
  else put (mk_slkst (mk_slk 1 (sl_name (slk s)) mypid) (slk_woken s)).

Definition releasesleep (lk : chan) : M slk_st unit :=
  modify (fun s => mk_slkst (mk_slk 0 (sl_name (slk s)) 0) (lk :: slk_woken s)).

Definition holdingsleep (mypid : Z) (lk : sleeplock) : bool :=
  negb (sl_locked lk =? 0) && (sl_pid lk =? mypid).
