(* ===== verification/Bio.v ===== *)
(** * kernel/bio.c: the buffer cache

    A [struct buf *] is an index: [0 .. NBUF-1] into [bcache.buf], and [NBUF] for
    [bcache.head].  The disk is a function from block numbers to blocks;
    [writes] records every block written, in order, so that a crash is a prefix
    of it.  [virtio_disk_rw] moves one block between a buffer and the disk and
    uses the block number only, not the device number (virtio_disk.c:187). *)
From stdpp Require Import base list numbers strings functions.
From Stdlib Require Import ZArith Lia.
From S2P Require Import Prelude Sleeplock.
Open Scope Z_scope.

Definition MAXOPBLOCKS : Z := 10.
Definition NBUF : nat := 30.
Definition BSIZE : Z := 1024.

Record buf := mk_buf {
  b_valid : Z;
  b_dev : Z;
  b_blockno : Z;
  b_lock : sleeplock;
  b_refcnt : Z;
  b_prev : nat;
  b_next : nat;
  b_data : list Z
}.

(** Zero-initialised static storage. *)
Definition buf0 : buf := mk_buf 0 0 0 (mk_slk 0 "" 0) 0 0 0 (replicate (Z.to_nat BSIZE) 0).
#[export] Instance buf_inhabited : Inhabited buf := populate buf0.

Record bio_st := mk_bio {
  bufs : list buf;
  mypid : Z;
  disk : Z -> list Z;
  writes : list (Z * list Z);
  bwoken : list chan
}.

Definition head : nat := NBUF.

Definition set_bufs (l : list buf) (s : bio_st) : bio_st := mk_bio l (mypid s) (disk s) (writes s) (bwoken s).
Definition upd_buf (b : nat) (f : buf -> buf) (s : bio_st) : bio_st := set_bufs (alter f b (bufs s)) s.

Definition set_next (n : nat) (b : buf) : buf :=
  mk_buf (b_valid b) (b_dev b) (b_blockno b) (b_lock b) (b_refcnt b) (b_prev b) n (b_data b).
Definition set_prev (p : nat) (b : buf) : buf :=
  mk_buf (b_valid b) (b_dev b) (b_blockno b) (b_lock b) (b_refcnt b) p (b_next b) (b_data b).
Definition set_refcnt (r : Z) (b : buf) : buf :=
  mk_buf (b_valid b) (b_dev b) (b_blockno b) (b_lock b) r (b_prev b) (b_next b) (b_data b).
Definition set_lock (l : sleeplock) (b : buf) : buf :=
  mk_buf (b_valid b) (b_dev b) (b_blockno b) l (b_refcnt b) (b_prev b) (b_next b) (b_data b).
Definition set_data (d : list Z) (b : buf) : buf :=
  mk_buf (b_valid b) (b_dev b) (b_blockno b) (b_lock b) (b_refcnt b) (b_prev b) (b_next b) d.
Definition set_valid (v : Z) (b : buf) : buf :=
  mk_buf v (b_dev b) (b_blockno b) (b_lock b) (b_refcnt b) (b_prev b) (b_next b) (b_data b).
(** [b->dev = dev; b->blockno = blockno; b->valid = 0; b->refcnt = 1;] *)
Definition recycle (dev blockno : Z) (b : buf) : buf :=
  mk_buf 0 dev blockno (b_lock b) 1 (b_prev b) (b_next b) (b_data b).

Definition the_buf (b : nat) (s : bio_st) : buf := bufs s !!! b.

(** Run a sleep-lock operation on [b->lock]. *)
Definition on_lock {A} (b : nat) (m : M slk_st A) : M bio_st A :=
  zoom (fun s => mk_slkst (b_lock (the_buf b s)) (bwoken s))
    (fun t s => mk_bio (alter (set_lock (slk t)) b (bufs s)) (mypid s) (disk s) (writes s) (slk_woken t)) m.

(** The loop body of [binit]: link [b] in at the front. *)
Definition link_front (b : nat) (s : bio_st) : bio_st :=
  let s := upd_buf b (set_next (b_next (the_buf head s))) s in
  let s := upd_buf b (set_prev head) s in
  let s := upd_buf (b_next (the_buf head s)) (set_prev b) s in
  upd_buf head (set_next b) s.

Fixpoint binit_loop (b : nat) (k : nat) (s : bio_st) : bio_st :=
  match k with
  | O => s
  | S k' => binit_loop (S b) k' (link_front b (upd_buf b (set_lock (initsleeplock "buffer")) s))
  end.

Definition binit (s : bio_st) : bio_st :=
  let s := upd_buf head (set_prev head) s in
  let s := upd_buf head (set_next head) s in
  binit_loop 0 NBUF s.

(** [for(b = bcache.head.next; b != &bcache.head; b = b->next)] *)
Fixpoint bget_cached (fuel : nat) (dev blockno : Z) (b : nat) (s : bio_st) : option nat :=
  match fuel with
  | O => None
  | S fuel' =>
      if (b =? head)%nat then None
      else if (b_dev (the_buf b s) =? dev) && (b_blockno (the_buf b s) =? blockno) then Some b
      else bget_cached fuel' dev blockno (b_next (the_buf b s)) s
  end.

(** [for(b = bcache.head.prev; b != &bcache.head; b = b->prev)] *)
Fixpoint bget_unused (fuel : nat) (b : nat) (s : bio_st) : option nat :=
  match fuel with
  | O => None
  | S fuel' =>
      if (b =? head)%nat then None
      else if b_refcnt (the_buf b s) =? 0 then Some b
      else bget_unused fuel' (b_prev (the_buf b s)) s
  end.

Definition bget (dev blockno : Z) : M bio_st nat :=
  let! s := get in
  match bget_cached (S NBUF) dev blockno (b_next (the_buf head s)) s with
  | Some b =>
      modify (upd_buf b (fun x => set_refcnt (u32 (b_refcnt x + 1)) x)) ;;
      on_lock b (acquiresleep (CBufLock b) (mypid s)) ;;
      ret b
  | None =>
      match bget_unused (S NBUF) (b_prev (the_buf head s)) s with
      | Some b =>
          modify (upd_buf b (recycle dev blockno)) ;;
          on_lock b (acquiresleep (CBufLock b) (mypid s)) ;;
          ret b
      | None => panic "bget: no buffers"
      end
  end.

(** One block between the buffer and the disk. *)
Definition virtio_disk_rw (b : nat) (write : bool) : M bio_st unit :=
  modify (fun s =>
    let x := the_buf b s in
    if write
    then mk_bio (bufs s) (mypid s) (<[b_blockno x := b_data x]> (disk s)) (writes s ++ [(b_blockno x, b_data x)]) (bwoken s)
    else upd_buf b (set_data (disk s (b_blockno x))) s).

Definition bread (dev blockno : Z) : M bio_st nat :=
  let! b := bget dev blockno in
  let! s := get in
  (if b_valid (the_buf b s) =? 0
   then virtio_disk_rw b false ;; modify (upd_buf b (set_valid 1))
   else ret tt) ;;
  ret b.

Definition bwrite (b : nat) : M bio_st unit :=
  let! s := get in
  if negb (holdingsleep (mypid s) (b_lock (the_buf b s))) then panic "bwrite"
  else virtio_disk_rw b true.

(** [b->next->prev = b->prev; b->prev->next = b->next;] *)
Definition unlink (b : nat) (s : bio_st) : bio_st :=
  let s := upd_buf (b_next (the_buf b s)) (set_prev (b_prev (the_buf b s))) s in
  upd_buf (b_prev (the_buf b s)) (set_next (b_next (the_buf b s))) s.

Definition brelse (b : nat) : M bio_st unit :=
  let! s := get in
  if negb (holdingsleep (mypid s) (b_lock (the_buf b s))) then panic "brelse"
  else
    on_lock b (releasesleep (CBufLock b)) ;;
    modify (upd_buf b (fun x => set_refcnt (u32 (b_refcnt x - 1)) x)) ;;
    let! s := get in
    if b_refcnt (the_buf b s) =? 0 then modify (fun s => link_front b (unlink b s)) else ret tt.

Definition bpin (b : nat) : M bio_st unit :=
  modify (upd_buf b (fun x => set_refcnt (u32 (b_refcnt x + 1)) x)).
Definition bunpin (b : nat) : M bio_st unit :=
  modify (upd_buf b (fun x => set_refcnt (u32 (b_refcnt x - 1)) x)).
