(* ===== verification/BlockCache.v ===== *)
(** * The buffer cache, as the log and the file system see it

    [BufCache] is the interface of bio.c; a [struct buf *] is a handle.
    [BufCacheLaws] gives its meaning on an abstract state: the blocks of the disk,
    the current content of every block (on the disk or, newer, in the cache), the
    reference count of every block, the buffers the running process has locked
    and the blocks other processes have locked. *)
From stdpp Require Import base gmap list numbers functions.
From Stdlib Require Import ZArith Lia.
From S2P Require Import Prelude Bytes.
From S2P Require Import Bio.
Open Scope Z_scope.

Class BufCache (S : Type) := {
  bc_bread : Z -> Z -> M S nat;
  bc_bwrite : nat -> M S unit;
  bc_brelse : nat -> M S unit;
  bc_bpin : nat -> M S unit;
  bc_bunpin : nat -> M S unit;
  bc_blockno : nat -> S -> Z;
  bc_data : nat -> S -> list Z;
  bc_set_data : nat -> list Z -> S -> S
}.

Definition is_block (d : list Z) : Prop := length d = Z.to_nat BSIZE /\ bytes d.

Record bview := mk_bview {
  v_disk : Z -> list Z;
  v_writes : list (Z * list Z);
  v_block : Z -> list Z;
  v_refs : Z -> Z;
  v_held : gmap nat Z;
  v_other : gset Z
}.

Definition v_write (n : Z) (d : list Z) (v : bview) : bview :=
  mk_bview (<[n := d]> (v_disk v)) (v_writes v ++ [(n, d)]) (v_block v) (v_refs v) (v_held v) (v_other v).
Definition v_set_block (n : Z) (d : list Z) (v : bview) : bview :=
  mk_bview (v_disk v) (v_writes v) (<[n := d]> (v_block v)) (v_refs v) (v_held v) (v_other v).
Definition v_add_ref (k : Z) (n : Z) (v : bview) : bview :=
  mk_bview (v_disk v) (v_writes v) (v_block v) (<[n := u32 (v_refs v n + k)]> (v_refs v)) (v_held v) (v_other v).
Definition v_set_held (h : gmap nat Z) (v : bview) : bview :=
  mk_bview (v_disk v) (v_writes v) (v_block v) (v_refs v) h (v_other v).

(** Views are compared pointwise. *)
Record view_eq (v v' : bview) : Prop := {
  ve_disk n : v_disk v n = v_disk v' n;
  ve_writes : v_writes v = v_writes v';
  ve_block n : v_block v n = v_block v' n;
  ve_refs n : v_refs v n = v_refs v' n;
  ve_held : v_held v = v_held v';
  ve_other : v_other v = v_other v'
}.
#[export] Instance bview_equiv : Equiv bview := view_eq.
#[export] Instance bview_equivalence : Equivalence (≡@{bview}).
Proof.
  split.
  - intros v. by split.
  - intros v v' []. by split.
  - intros v1 v2 v3 [] []. split; congruence.
Qed.

(** A locked buffer is referenced; otherwise it could be recycled in use. *)
Definition held_ok (v : bview) : Prop :=
  (forall b n, v_held v !! b = Some n -> v_refs v n <> 0) /\ forall n, n ∈ v_other v -> v_refs v n <> 0.

(** Some buffer can be recycled. *)
Definition has_room (v : bview) : Prop :=
  exists X : gset Z, (size X < NBUF)%nat /\ forall n, v_refs v n <> 0 -> n ∈ X.

Definition unlocked (n : Z) (v : bview) : Prop :=
  n ∉ v_other v /\ forall b, v_held v !! b <> Some n.

Class BufCacheLaws (S : Type) `{BufCache S} := {
  bc_rep : Z -> S -> bview -> Prop;
  #[global] bc_rep_proper dev s :: Proper ((≡) ==> iff) (bc_rep dev s);
  bc_block_ok dev s v n : bc_rep dev s v -> is_block (v_block v n);
  bc_disk_ok dev s v n : bc_rep dev s v -> is_block (v_disk v n);
  bc_clean dev s v n : bc_rep dev s v -> v_refs v n = 0 -> v_block v n = v_disk v n;
  bc_refs_range dev s v n : bc_rep dev s v -> 0 <= v_refs v n < 2 ^ 32;
  bc_handle dev s v b n : bc_rep dev s v -> v_held v !! b = Some n ->
    bc_blockno b s = n /\ bc_data b s = v_block v n;
  bc_handle_inj dev s v b b' n : bc_rep dev s v -> v_held v !! b = Some n -> v_held v !! b' = Some n -> b = b';
  bc_bread_ok dev s v n : bc_rep dev s v -> 0 <= n < 2 ^ 32 -> held_ok v -> unlocked n v ->
    v_refs v n <> 0 \/ has_room v -> (v_refs v n = 2 ^ 32 - 1 -> v_block v n = v_disk v n) ->
    exists b s', bc_bread dev n s = Ok b s' /\ v_held v !! b = None /\
      bc_rep dev s' (v_add_ref 1 n (v_set_held (<[b := n]> (v_held v)) v));
  bc_bwrite_ok dev s v b n : bc_rep dev s v -> v_held v !! b = Some n ->
    exists s', bc_bwrite b s = Ok tt s' /\ bc_rep dev s' (v_write n (v_block v n) v);
  bc_brelse_ok dev s v b n : bc_rep dev s v -> v_held v !! b = Some n ->
    (v_refs v n = 1 -> v_block v n = v_disk v n) ->
    exists s', bc_brelse b s = Ok tt s' /\ bc_rep dev s' (v_add_ref (-1) n (v_set_held (delete b (v_held v)) v));
  bc_bpin_ok dev s v b n : bc_rep dev s v -> v_held v !! b = Some n ->
    (v_refs v n = 2 ^ 32 - 1 -> v_block v n = v_disk v n) ->
    exists s', bc_bpin b s = Ok tt s' /\ bc_rep dev s' (v_add_ref 1 n v);
  bc_bunpin_ok dev s v b n : bc_rep dev s v -> v_held v !! b = Some n ->
    (v_refs v n = 1 -> v_block v n = v_disk v n) ->
    exists s', bc_bunpin b s = Ok tt s' /\ bc_rep dev s' (v_add_ref (-1) n v);
  bc_set_data_ok dev s v b n d : bc_rep dev s v -> v_held v !! b = Some n -> v_refs v n <> 0 -> is_block d ->
    bc_rep dev (bc_set_data b d s) (v_set_block n d v)
}.

#[export] Instance bio_cache : BufCache bio_st := {|
  bc_bread := bread; bc_bwrite := bwrite; bc_brelse := brelse; bc_bpin := bpin; bc_bunpin := bunpin;
  bc_blockno := fun b s => b_blockno (the_buf b s);
  bc_data := fun b s => b_data (the_buf b s);
  bc_set_data := fun b d => upd_buf b (set_data d)
|}.
