(* ===== verification/BioSpec.v ===== *)
(** * bio.c implements the block-cache interface

    The LRU list as a list of buffers, the walks over it, and the proof that
    every operation keeps the cache coherent with the abstract view. *)
From stdpp Require Import base gmap list numbers functions strings.
From Stdlib Require Import ZArith Lia.
From S2P Require Import Prelude Bytes Sleeplock.
From S2P Require Import Bio BlockCache.
Open Scope Z_scope.

(** ** Doubly linked lists *)

(** From [p] the links lead through [l] to [q], and back. *)
Fixpoint seg (nx pv : nat -> nat) (p : nat) (l : list nat) (q : nat) : Prop :=
  match l with
  | [] => nx p = q /\ pv q = p
  | x :: l' => nx p = x /\ pv x = p /\ seg nx pv x l' q
  end.

Section Seg.
Implicit Types (nx pv : nat -> nat) (p q x : nat) (l : list nat).

Lemma seg_app nx pv p l1 x l2 q :
  seg nx pv p (l1 ++ x :: l2) q <-> seg nx pv p l1 x /\ seg nx pv x l2 q.
Proof. revert p. induction l1 as [|y l1 IH]; intros p; cbn; [tauto|]. rewrite IH. tauto. Qed.

Lemma seg_rev nx pv p l q : seg nx pv p l q -> seg pv nx q (rev l) p.
Proof.
  revert p. induction l as [|x l IH]; intros p; cbn; [tauto|]. intros (H1 & H2 & H3).
  rewrite seg_app. split; [by apply IH | done].
Qed.

Lemma seg_ext nx pv nx' pv' p l q :
  (forall x, x ∈ p :: l -> nx' x = nx x) -> (forall x, x ∈ l ++ [q] -> pv' x = pv x) ->
  seg nx pv p l q -> seg nx' pv' p l q.
Proof.
  revert p. induction l as [|y l IH]; intros p Hn Hp; cbn.
  - intros [H1 H2]. rewrite Hn, Hp by set_solver. done.
  - intros (H1 & H2 & H3). rewrite Hn, Hp by set_solver. split; [done|]. split; [done|].
    apply IH; [| |done]; intros z Hz; [apply Hn | apply Hp]; set_solver.
Qed.

(** The neighbours of an element. *)
Lemma seg_prev_in nx pv p l q : seg nx pv p l q -> pv q ∈ p :: l.
Proof.
  revert p. induction l as [|y l IH]; intros p; cbn; [intros [_ ->]; set_solver|].
  intros (_ & _ & H). apply IH in H. set_solver.
Qed.

Lemma seg_next_in nx pv p l q : seg nx pv p l q -> nx p ∈ l ++ [q].
Proof. destruct l; cbn; intros H; destruct H as [-> _]; set_solver. Qed.

Lemma seg_unlink nx pv p l1 x l2 q :
  seg nx pv p (l1 ++ x :: l2) q -> NoDup (p :: l1 ++ x :: l2) -> NoDup (l1 ++ x :: l2 ++ [q]) ->
  seg (<[pv x := nx x]> nx) (<[nx x := pv x]> pv) p (l1 ++ l2) q.
Proof.
  revert p. induction l1 as [|y l1 IH]; intros p; cbn [app seg].
  - intros (H1 & H2 & H3) N1 N2. rewrite H2. destruct l2 as [|z l2]; cbn in H3 |- *.
    + destruct H3 as [H3 H4]. rewrite H3. by rewrite !fn_lookup_insert.
    + destruct H3 as (H3 & H4 & H5). rewrite H3, !fn_lookup_insert. split; [done|]. split; [done|].
      eapply seg_ext, H5; intros w Hw; apply fn_lookup_insert_ne; intros ->;
        rewrite ?NoDup_cons in N1, N2; cbn in N2; rewrite ?NoDup_cons in N2; set_solver.
  - intros (H1 & H2 & H3) N1 N2. pose proof H3 as H4. apply seg_app in H4 as [H4 H5].
    pose proof (seg_prev_in _ _ _ _ _ H4) as Hp. pose proof (seg_next_in _ _ _ _ _ H5) as Hn.
    apply NoDup_cons in N1 as [N1 N1']. apply NoDup_cons in N2 as [N2 N2'].
    assert (pv x <> p) by (intros E; apply N1; rewrite E in Hp; rewrite elem_of_cons, elem_of_app; rewrite elem_of_cons in Hp; tauto).
    assert (nx x <> y) by (intros E; apply N2; rewrite E in Hn; rewrite elem_of_app, elem_of_cons; tauto).
    rewrite !fn_lookup_insert_ne by done. split; [done|]. split; [done|]. by apply IH.
Qed.

Lemma seg_push nx pv x l q :
  seg nx pv q l q -> x ∉ q :: l -> NoDup (q :: l) ->
  seg (<[q := x]> (<[x := nx q]> nx)) (<[nx q := x]> (<[x := q]> pv)) q (x :: l) q.
Proof.
  intros H Hx N. apply NoDup_cons in N as [N1 N2]. pose proof (seg_next_in _ _ _ _ _ H) as Hn.
  cbn [seg]. rewrite fn_lookup_insert. split; [done|].
  rewrite (fn_lookup_insert_ne _ (nx q) x), fn_lookup_insert by set_solver. split; [done|].
  destruct l as [|z l]; cbn in H |- *.
  - destruct H as [H1 H2]. rewrite fn_lookup_insert_ne by set_solver. rewrite H1, !fn_lookup_insert. done.
  - destruct H as (H1 & H2 & H3). rewrite fn_lookup_insert_ne by set_solver.
    rewrite H1, !fn_lookup_insert. split; [done|]. split; [done|].
    apply NoDup_cons in N2 as [N2 N3].
    eapply seg_ext, H3; intros w Hw; rewrite !fn_lookup_insert_ne; set_solver.
Qed.
End Seg.

#[export] Instance sleeplock_eq_dec : EqDecision sleeplock.
Proof. solve_decision. Defined.

(** ** The LRU list *)

Definition nx (s : bio_st) (i : nat) : nat := b_next (the_buf i s).
Definition pv (s : bio_st) (i : nat) : nat := b_prev (the_buf i s).

(** [l]: the buffers from the most to the least recently used. *)
Record lru (s : bio_st) (l : list nat) : Prop := {
  lru_len : length (bufs s) = S NBUF;
  lru_seg : seg (nx s) (pv s) head l head;
  lru_perm : l ≡ₚ seq 0 NBUF
}.

(** The fields of a buffer other than its links. *)
Definition core (b : buf) : Z * Z * Z * sleeplock * Z * list Z :=
  (b_valid b, b_dev b, b_blockno b, b_lock b, b_refcnt b, b_data b).

Lemma lru_nodup s l : lru s l -> NoDup (head :: l).
Proof.
  intros [_ _ H]. apply NoDup_cons. split.
  - rewrite H. intros Hin%elem_of_seq. unfold head in Hin. lia.
  - rewrite H. apply NoDup_seq.
Qed.

Lemma lru_in s l i : lru s l -> i ∈ l <-> (i < NBUF)%nat.
Proof. intros [_ _ H]. rewrite H, elem_of_seq. lia. Qed.

Lemma lru_length s l : lru s l -> length l = NBUF.
Proof. intros [_ _ H]. by rewrite H, length_seq. Qed.

Lemma length_upd b f s : length (bufs (upd_buf b f s)) = length (bufs s).
Proof. apply length_alter. Qed.

Lemma the_buf_upd b f s i :
  (i < length (bufs s))%nat -> the_buf i (upd_buf b f s) = if decide (i = b) then f (the_buf i s) else the_buf i s.
Proof.
  intros Hi. unfold the_buf, upd_buf. cbn [bufs set_bufs]. case_decide as E; [subst|].
  - rewrite !list_lookup_total_alt, list_lookup_alter_eq.
    destruct (lookup_lt_is_Some_2 _ _ Hi) as [x ->]. done.
  - by rewrite !list_lookup_total_alt, list_lookup_alter_ne.
Qed.

Section Links.
Context (s : bio_st) (b : nat) (Hlen : length (bufs s) = S NBUF) (Hb : (b < NBUF)%nat).

Ltac at_buf := rewrite the_buf_upd by (rewrite ?length_upd, Hlen; unfold head, NBUF in *; lia).

Lemma link_front_links i :
  (i <= NBUF)%nat ->
  nx (link_front b s) i = (<[head := b]> (<[b := nx s head]> (nx s))) i /\
  pv (link_front b s) i = (<[nx s head := b]> (<[b := head]> (pv s))) i /\
  core (the_buf i (link_front b s)) = core (the_buf i s).
Proof.
  intros Hi. unfold link_front, nx, pv. cbn zeta. repeat at_buf.
  rewrite (decide_False (P := head = b)) by (unfold head; lia). unfold insert, fn_insert.
  repeat case_decide; subst; cbn; try (unfold head in *; lia); auto.
Qed.

Lemma unlink_links i :
  (i <= NBUF)%nat -> nx s b <> b ->
  nx (unlink b s) i = (<[pv s b := nx s b]> (nx s)) i /\
  pv (unlink b s) i = (<[nx s b := pv s b]> (pv s)) i /\
  core (the_buf i (unlink b s)) = core (the_buf i s).
Proof.
  intros Hi Hn. unfold unlink, nx, pv in *. cbn zeta. repeat at_buf.
  rewrite !(decide_False (P := b = b_next _)) by congruence. unfold insert, fn_insert.
  repeat case_decide; subst; cbn in *; try congruence; auto.
Qed.
End Links.

Lemma length_link_front b s : length (bufs (link_front b s)) = length (bufs s).
Proof. unfold link_front. cbn zeta. by rewrite !length_upd. Qed.
Lemma length_unlink b s : length (bufs (unlink b s)) = length (bufs s).
Proof. unfold unlink. cbn zeta. by rewrite !length_upd. Qed.

(** Linking a buffer in at the front. *)
Lemma link_front_seg s b l :
  length (bufs s) = S NBUF -> (b < NBUF)%nat -> Forall (fun i => (i < NBUF)%nat) l ->
  seg (nx s) (pv s) head l head -> b ∉ l -> NoDup (head :: l) ->
  seg (nx (link_front b s)) (pv (link_front b s)) head (b :: l) head.
Proof.
  intros Hlen Hb Hl Hs Hin Hnd. rewrite Forall_forall in Hl.
  eapply seg_ext; [| |apply (seg_push _ _ b _ _ Hs); [set_unfold; intros [->|?]; [unfold head in Hb; lia|done]|done]].
  - intros x Hx. apply link_front_links; [done..|]. set_unfold. destruct Hx as [->|[->|Hx]]; [done|lia|].
    apply Hl in Hx. lia.
  - intros x Hx. apply link_front_links; [done..|]. set_unfold. destruct Hx as [->|[Hx|[->|[]]]]; [lia| |done].
    apply Hl in Hx. lia.
Qed.

Lemma lru_next_ne s l1 b l2 : lru s (l1 ++ b :: l2) -> nx s b <> b.
Proof.
  intros Hl. pose proof (lru_nodup _ _ Hl) as [Hh Hnd]%NoDup_cons. destruct Hl as [_ Hs _].
  apply seg_app in Hs as [_ Hs]. apply seg_next_in in Hs. intros E. rewrite E in Hs.
  apply NoDup_app in Hnd as (_ & _ & Hnd). apply NoDup_cons in Hnd as [Hnd _].
  set_unfold. destruct Hs as [Hs|[->|[]]]; [tauto|]. apply Hh. tauto.
Qed.

(** The last user of a buffer makes it the most recently used one. *)
Lemma move_front_lru s l1 b l2 :
  lru s (l1 ++ b :: l2) -> lru (link_front b (unlink b s)) (b :: l1 ++ l2).
Proof.
  intros Hl. pose proof (lru_nodup _ _ Hl) as Hnd. pose proof (fun i => lru_in _ _ i Hl) as Hin.
  pose proof (lru_next_ne _ _ _ _ Hl) as Hnx. destruct Hl as [Hlen Hs Hp]. pose proof (Permutation_middle l1 l2 b) as Hm.
  assert (Hb : (b < NBUF)%nat) by (apply Hin; set_solver).
  assert (NoDup (head :: l1 ++ l2)) as Hnd2 by (rewrite <- Hm in Hnd; apply NoDup_cons in Hnd as [? Hnd];
    apply NoDup_cons in Hnd as [? Hnd]; apply NoDup_cons; set_solver).
  split.
  - by rewrite length_link_front, length_unlink.
  - apply link_front_seg; [by rewrite length_unlink|done| | | |done].
    + apply Forall_forall. intros i Hi. apply Hin. set_solver.
    + eapply seg_ext; [| |apply (seg_unlink _ _ _ _ _ _ _ Hs Hnd)].
      * intros x Hx. apply unlink_links; [done..| |done]. set_unfold. destruct Hx as [->|Hx]; [done|].
        apply Nat.lt_le_incl, Hin. set_unfold. tauto.
      * intros x Hx. apply unlink_links; [done..| |done]. set_unfold.
        destruct Hx as [[Hx|Hx]|[->|[]]]; [apply Nat.lt_le_incl, Hin; set_unfold; tauto..|done].
      * rewrite app_comm_cons, app_assoc. rewrite <- Permutation_cons_append. done.
    + rewrite <- Hm in Hnd. apply NoDup_cons in Hnd as [_ Hnd]. by apply NoDup_cons in Hnd as [? _].
  - by rewrite Hm.
Qed.

(** The two walks of [bget] search the list from either end. *)
Definition holds (s : bio_st) (dev n : Z) (b : nat) : bool :=
  (b_dev (the_buf b s) =? dev) && (b_blockno (the_buf b s) =? n).
Definition unused (s : bio_st) (b : nat) : bool := b_refcnt (the_buf b s) =? 0.

Lemma bget_cached_find fuel dev n s p l :
  seg (nx s) (pv s) p l head -> head ∉ l -> (length l < fuel)%nat ->
  bget_cached fuel dev n (nx s p) s = List.find (holds s dev n) l.
Proof.
  revert p fuel. induction l as [|x l IH]; intros p [|fuel] Hs Hh Hf; cbn in Hf; try lia; cbn in Hs |- *.
  - destruct Hs as [-> _]. by rewrite Nat.eqb_refl.
  - destruct Hs as (-> & _ & Hs). apply not_elem_of_cons in Hh as [Hx Hh].
    destruct (Nat.eqb_spec x head); [congruence|]. unfold holds. case_bool; [done|]. apply IH; [done..|lia].
Qed.

Lemma bget_unused_find fuel s p l :
  seg (pv s) (nx s) p l head -> head ∉ l -> (length l < fuel)%nat ->
  bget_unused fuel (pv s p) s = List.find (unused s) l.
Proof.
  revert p fuel. induction l as [|x l IH]; intros p [|fuel] Hs Hh Hf; cbn in Hf; try lia; cbn in Hs |- *.
  - destruct Hs as [-> _]. by rewrite Nat.eqb_refl.
  - destruct Hs as (-> & _ & Hs). apply not_elem_of_cons in Hh as [Hx Hh].
    destruct (Nat.eqb_spec x head); [congruence|]. unfold unused. case_bool; [done|]. apply IH; [done..|lia].
Qed.

Lemma lru_find_cached s l dev n :
  lru s l -> bget_cached (S NBUF) dev n (b_next (the_buf head s)) s = List.find (holds s dev n) l.
Proof.
  intros Hl. pose proof (lru_nodup _ _ Hl) as [? _]%NoDup_cons. apply (bget_cached_find _ _ _ _ head); [apply Hl|done|].
  rewrite (lru_length _ _ Hl). lia.
Qed.

Lemma lru_find_unused s l :
  lru s l -> bget_unused (S NBUF) (b_prev (the_buf head s)) s = List.find (unused s) (rev l).
Proof.
  intros Hl. pose proof (lru_nodup _ _ Hl) as [? _]%NoDup_cons. apply (bget_unused_find _ _ head).
  - apply seg_rev, Hl.
  - by rewrite <- Permutation_rev.
  - rewrite length_rev, (lru_length _ _ Hl). lia.
Qed.

(** ** Coherence of the cache *)

(** A buffer that has been used caches a block of [dev]; one that has not is
    still zero. *)
Definition buf_ok (dev pid : Z) (v : bview) (i : nat) (x : buf) : Prop :=
  is_block (b_data x) /\
  (b_dev x = dev /\ b_refcnt x = v_refs v (b_blockno x) /\
   v_block v (b_blockno x) = (if b_valid x =? 0 then v_disk v (b_blockno x) else b_data x) /\
   (sl_locked (b_lock x) <> 0 ->
      if sl_pid (b_lock x) =? pid then v_held v !! i = Some (b_blockno x) else b_blockno x ∈ v_other v)
   \/ b_dev x = 0 /\ b_refcnt x = 0 /\ sl_locked (b_lock x) = 0).

Record coherent (dev : Z) (K : nat -> buf) (pid : Z) (v : bview) : Prop := {
  co_buf i : (i < NBUF)%nat -> buf_ok dev pid v i (K i);
  co_uniq i j : (i < NBUF)%nat -> (j < NBUF)%nat -> b_dev (K i) = dev -> b_dev (K j) = dev ->
    b_blockno (K i) = b_blockno (K j) -> i = j;
  co_cached n : v_refs v n <> 0 -> exists i, (i < NBUF)%nat /\ b_dev (K i) = dev /\ b_blockno (K i) = n;
  co_held i n : v_held v !! i = Some n ->
    (i < NBUF)%nat /\ b_dev (K i) = dev /\ b_blockno (K i) = n /\ b_valid (K i) <> 0 /\
    sl_locked (b_lock (K i)) <> 0 /\ sl_pid (b_lock (K i)) = pid;
  co_clean n : v_refs v n = 0 -> v_block v n = v_disk v n;
  co_refs n : 0 <= v_refs v n < 2 ^ 32;
  co_disk n : is_block (v_disk v n);
  co_block n : is_block (v_block v n)
}.

Record bio_rep (dev : Z) (s : bio_st) (v : bview) : Prop := {
  br_dev : dev <> 0;
  br_lru : exists l, lru s l;
  br_co : coherent dev (fun i => the_buf i s) (mypid s) v;
  br_disk n : disk s n = v_disk v n;
  br_writes : writes s = v_writes v
}.

Lemma coherent_core dev K K' pid v :
  (forall i, (i < NBUF)%nat -> core (K' i) = core (K i)) -> coherent dev K pid v -> coherent dev K' pid v.
Proof.
  intros E [H1 H2 H3 H4 H5 H6 H7 H8].
  assert (E' : forall i, (i < NBUF)%nat -> b_dev (K' i) = b_dev (K i) /\ b_blockno (K' i) = b_blockno (K i) /\
    b_valid (K' i) = b_valid (K i) /\ b_lock (K' i) = b_lock (K i) /\ b_refcnt (K' i) = b_refcnt (K i) /\
    b_data (K' i) = b_data (K i)).
  { intros i Hi. specialize (E i Hi). unfold core in E. injection E; auto 10. }
  split; [| | | |done..].
  - intros i Hi. specialize (H1 i Hi). unfold buf_ok in *. by destruct (E' i Hi) as (-> & -> & -> & -> & -> & ->).
  - intros i j Hi Hj. destruct (E' i Hi) as (-> & -> & _), (E' j Hj) as (-> & -> & _). by apply H2.
  - intros n Hn. destruct (H3 n Hn) as (i & Hi & ?). exists i. by destruct (E' i Hi) as (-> & -> & _).
  - intros i n Hh. destruct (H4 i n Hh) as (Hi & ?). destruct (E' i Hi) as (-> & -> & -> & -> & _). done.
Qed.

(** Changing one buffer and the view at its block. *)
Lemma coherent_upd dev K K' pid v v' b n :
  coherent dev K pid v -> (b < NBUF)%nat -> (forall i, (i < NBUF)%nat -> i <> b -> K' i = K i) ->
  b_dev (K' b) = dev -> b_dev (K b) = dev -> b_blockno (K b) = n -> b_blockno (K' b) = n ->
  buf_ok dev pid v' b (K' b) ->
  (forall m, m <> n -> v_refs v' m = v_refs v m /\ v_block v' m = v_block v m /\ v_disk v' m = v_disk v m) ->
  v_other v' = v_other v -> (forall i, i <> b -> v_held v' !! i = v_held v !! i) ->
  (forall m, v_held v' !! b = Some m -> m = n /\ b_valid (K' b) <> 0 /\ sl_locked (b_lock (K' b)) <> 0 /\
     sl_pid (b_lock (K' b)) = pid) ->
  (v_refs v' n = 0 -> v_block v' n = v_disk v' n) -> 0 <= v_refs v' n < 2 ^ 32 ->
  is_block (v_disk v' n) -> is_block (v_block v' n) ->
  coherent dev K' pid v'.
Proof.
  intros Hc Hb HK Hd Hd0 Hn0 Hn1 Hbuf Hv Ho Hh Hhb Hcl Hr Hdb Hbb.
  assert (HK' : forall i, (i < NBUF)%nat -> b_dev (K' i) = b_dev (K i) /\
            (b_dev (K i) = dev -> b_blockno (K' i) = b_blockno (K i))).
  { intros i Hi. destruct (decide (i = b)) as [->|]; [split; congruence|by rewrite HK]. }
  split.
  - intros i Hi. destruct (decide (i = b)) as [->|Hne]; [done|]. rewrite HK by done.
    destruct (co_buf _ _ _ _ Hc i Hi) as [Hblk [(H1 & H2 & H3 & H4)|H]]; split; [done| |done|by right].
    left. assert (b_blockno (K i) <> n) as Hni.
    { intros E. apply Hne. apply (co_uniq _ _ _ _ Hc); [done..|congruence]. }
    destruct (Hv _ Hni) as (-> & -> & ->). rewrite Ho, Hh by done. done.
  - intros i j Hi Hj. destruct (HK' i Hi) as [-> Ei], (HK' j Hj) as [-> Ej]. intros Hdi Hdj.
    rewrite Ei, Ej by done. by apply (co_uniq _ _ _ _ Hc).
  - intros m Hm. destruct (decide (m = n)) as [->|Hne]; [by exists b|].
    destruct (Hv m Hne) as (E & _). rewrite E in Hm. destruct (co_cached _ _ _ _ Hc m Hm) as (i & Hi & Hdi & Hbi).
    exists i. destruct (HK' i Hi) as [-> Ei]. rewrite Ei by done. done.
  - intros i m Him. destruct (decide (i = b)) as [->|Hne].
    + destruct (Hhb m Him) as (-> & ?). done.
    + rewrite Hh in Him by done. destruct (co_held _ _ _ _ Hc i m Him) as (Hi & H). by rewrite HK.
  - intros m. destruct (decide (m = n)) as [->|Hne]; [done|]. destruct (Hv m Hne) as (-> & -> & ->). apply Hc.
  - intros m. destruct (decide (m = n)) as [->|Hne]; [done|]. destruct (Hv m Hne) as (-> & _). apply Hc.
  - intros m. destruct (decide (m = n)) as [->|Hne]; [done|]. destruct (Hv m Hne) as (_ & _ & ->). apply Hc.
  - intros m. destruct (decide (m = n)) as [->|Hne]; [done|]. destruct (Hv m Hne) as (_ & -> & _). apply Hc.
Qed.

(** Recycling an unreferenced buffer for a block that is not cached. *)
Lemma coherent_recycle dev K K' pid v b n :
  dev <> 0 -> coherent dev K pid v -> held_ok v -> (b < NBUF)%nat -> b_refcnt (K b) = 0 ->
  (forall i, (i < NBUF)%nat -> b_dev (K i) = dev -> b_blockno (K i) <> n) ->
  (forall i, (i < NBUF)%nat -> i <> b -> K' i = K i) ->
  b_dev (K' b) = dev -> b_blockno (K' b) = n -> b_valid (K' b) <> 0 -> b_data (K' b) = v_disk v n ->
  b_refcnt (K' b) = 1 -> sl_locked (b_lock (K' b)) <> 0 -> sl_pid (b_lock (K' b)) = pid ->
  v_held v !! b = None /\ coherent dev K' pid (v_add_ref 1 n (v_set_held (<[b := n]> (v_held v)) v)).
Proof.
  intros Hdev Hc Hho Hb Hr0 Hun HK Hd Hn Hva Hda Hr Hlk Hpid.
  assert (Hrn : v_refs v n = 0).
  { destruct (decide (v_refs v n = 0)) as [|Hne]; [done|].
    destruct (co_cached _ _ _ _ Hc n Hne) as (i & Hi & Hdi & Hni). by destruct (Hun i Hi Hdi). }
  pose proof (co_clean _ _ _ _ Hc n Hrn) as Hcl.
  assert (Hvr : v_refs v (b_blockno (K b)) = 0 \/ b_dev (K b) <> dev).
  { destruct (co_buf _ _ _ _ Hc b Hb) as [_ [(_ & E & _)|(E & _)]]; [left; congruence|right; congruence]. }
  split.
  { destruct (v_held v !! b) as [m|] eqn:E; [|done]. destruct (co_held _ _ _ _ Hc b m E) as (_ & Hdb & <- & _).
    apply Hho in E. tauto. }
  split; cbn.
  - intros i Hi. destruct (decide (i = b)) as [->|Hne].
    + split; [rewrite Hda; apply Hc|]. left. cbn. rewrite Hn, fn_lookup_insert, Hr, Hrn, Hda, Hcl, Hpid, Z.eqb_refl.
      split; [done|]. split; [done|]. split; [by case_bool|]. intros _. by rewrite lookup_insert_eq.
    + rewrite HK by done. destruct (co_buf _ _ _ _ Hc i Hi) as [Hblk [(H1 & H2 & H3 & H4)|H]]; split; [done| |done|by right].
      left. cbn. rewrite fn_lookup_insert_ne, lookup_insert_ne by (done || apply not_eq_sym, Hun; done). done.
  - intros i j Hi Hj. destruct (decide (i = b)) as [->|Hib], (decide (j = b)) as [->|Hjb]; [done| | |].
    + rewrite Hn, (HK j) by done. intros _ Hdj E. by destruct (Hun j Hj Hdj).
    + rewrite Hn, (HK i) by done. intros Hdi _ E. by destruct (Hun i Hi Hdi).
    + rewrite !HK by done. by apply Hc.
  - intros m Hm. destruct (decide (m = n)) as [->|Hne]; [by exists b|]. rewrite fn_lookup_insert_ne in Hm by done.
    destruct (co_cached _ _ _ _ Hc m Hm) as (i & Hi & Hdi & Hmi). exists i. split; [done|].
    rewrite HK; [done|done|]. intros ->. subst m. tauto.
  - intros i m. destruct (decide (i = b)) as [->|Hne].
    + rewrite lookup_insert_eq. intros [= <-]. done.
    + rewrite lookup_insert_ne by done. intros Hm. destruct (co_held _ _ _ _ Hc i m Hm) as (Hi & H). by rewrite HK.
  - intros m. destruct (decide (m = n)) as [->|Hne]; [done|]. rewrite fn_lookup_insert_ne by done. apply Hc.
  - intros m. destruct (decide (m = n)) as [->|Hne]; [rewrite fn_lookup_insert; apply u32_range|].
    rewrite fn_lookup_insert_ne by done. apply Hc.
  - apply Hc.
  - apply Hc.
Qed.

(** ** The operations *)

Definition keeps_links (f : buf -> buf) : Prop :=
  forall x, b_next (f x) = b_next x /\ b_prev (f x) = b_prev x.

Lemma lru_upd s l b f : keeps_links f -> lru s l -> lru (upd_buf b f s) l.
Proof.
  intros Hf Hl. pose proof (fun i => lru_in _ _ i Hl) as Hin. destruct Hl as [Hlen Hs Hp].
  split; [by rewrite length_upd| |done].
  eapply seg_ext, Hs; intros x Hx; unfold nx, pv; rewrite the_buf_upd; try (case_decide; [apply Hf|done]);
    rewrite Hlen; set_unfold; [destruct Hx as [->|Hx]|destruct Hx as [Hx|[->|[]]]];
    try (apply Hin in Hx); unfold head; lia.
Qed.

Lemma lru_woken s l w p d wr : lru s l -> lru (mk_bio (bufs s) p d wr w) l.
Proof. intros [H1 H2 H3]. by split. Qed.

Lemma acquire_free b pid s :
  sl_locked (b_lock (the_buf b s)) = 0 ->
  on_lock b (acquiresleep (CBufLock b) pid) s =
    Ok tt (upd_buf b (set_lock (mk_slk 1 (sl_name (b_lock (the_buf b s))) pid)) s).
Proof. intros H. unfold on_lock, zoom, acquiresleep, bind, get. cbn. by rewrite H. Qed.

(** [s'] is [s] with buffer [b] changed to [x], and its place in the LRU list
    kept. *)
Record only (b : nat) (x : buf) (s s' : bio_st) : Prop := {
  on_buf : the_buf b s' = x;
  on_other i : (i < NBUF)%nat -> i <> b -> the_buf i s' = the_buf i s;
  on_lru l : lru s l -> lru s' l;
  on_pid : mypid s' = mypid s;
  on_disk : disk s' = disk s;
  on_writes : writes s' = writes s
}.

Lemma only_upd s l b f :
  lru s l -> (b < NBUF)%nat -> keeps_links f -> only b (f (the_buf b s)) s (upd_buf b f s).
Proof.
  intros Hl Hb Hf. pose proof (lru_len _ _ Hl) as Hlen. split; [| | |done..].
  - rewrite the_buf_upd by lia. by rewrite decide_True.
  - intros i Hi Hne. rewrite the_buf_upd by lia. by rewrite decide_False.
  - intros l'. by apply lru_upd.
Qed.

Lemma only_trans b x y s s1 s2 : only b x s s1 -> only b y s1 s2 -> only b y s s2.
Proof.
  intros [H1 H2 H3 H4 H5 H6] [G1 G2 G3 G4 G5 G6]. split; [done| |auto|congruence..].
  intros i Hi Hne. by rewrite G2, H2.
Qed.

Lemma only_upd2 s l b f g :
  lru s l -> (b < NBUF)%nat -> keeps_links f -> keeps_links g ->
  only b (g (f (the_buf b s))) s (upd_buf b g (upd_buf b f s)).
Proof.
  intros Hl Hb Hf Hg. pose proof (only_upd _ _ _ f Hl Hb Hf) as H1. eapply only_trans; [exact H1|].
  rewrite <- (on_buf _ _ _ _ H1). eapply only_upd; [|done..]. by apply H1.
Qed.

(** The tail of [bread], after [bget]. *)
Definition filled (d : Z -> list Z) (x : buf) : buf :=
  if b_valid x =? 0 then set_valid 1 (set_data (d (b_blockno x)) x) else x.

Lemma bread_of_bget dev n s b s1 l :
  bget dev n s = Ok b s1 -> lru s1 l -> (b < NBUF)%nat ->
  exists s', bread dev n s = Ok b s' /\ only b (filled (disk s1) (the_buf b s1)) s1 s'.
Proof.
  intros E Hl Hb. unfold bread. erewrite bind_Ok by exact E. erewrite bind_Ok by reflexivity. unfold filled.
  destruct (b_valid (the_buf b s1) =? 0) eqn:Ev.
  - eexists. split; [reflexivity|]. by eapply only_upd2.
  - eexists. split; [reflexivity|]. split; done.
Qed.

Section Ops.
Context (dev : Z) (s : bio_st) (v : bview) (l : list nat).
Hypothesis (Hrep : bio_rep dev s v) (Hl : lru s l).

Lemma find_holds n b :
  List.find (holds s dev n) l = Some b -> (b < NBUF)%nat /\ b_dev (the_buf b s) = dev /\ b_blockno (the_buf b s) = n.
Proof.
  intros [Hin Hh]%find_some. unfold holds in Hh. zb. rewrite <- list_elem_of_In, (lru_in _ _ _ Hl) in Hin. done.
Qed.

Lemma find_holds_none n i :
  List.find (holds s dev n) l = None -> (i < NBUF)%nat -> b_dev (the_buf i s) = dev -> b_blockno (the_buf i s) <> n.
Proof.
  intros Hf Hi Hd Hn. pose proof (find_none _ _ Hf i) as H. unfold holds in H.
  rewrite Hd, Hn, !Z.eqb_refl in H. cbn in H. discriminate H. apply list_elem_of_In. by apply (lru_in _ _ _ Hl).
Qed.

Lemma find_unused_ok b : List.find (unused s) (rev l) = Some b -> (b < NBUF)%nat /\ b_refcnt (the_buf b s) = 0.
Proof.
  intros [Hin Hu]%find_some. rewrite <- in_rev, <- list_elem_of_In, (lru_in _ _ _ Hl) in Hin. unfold unused in Hu. by zb.
Qed.

Lemma find_unused_none i :
  List.find (unused s) (rev l) = None -> (i < NBUF)%nat ->
  b_dev (the_buf i s) = dev /\ v_refs v (b_blockno (the_buf i s)) <> 0.
Proof.
  intros Ef Hi. assert (b_refcnt (the_buf i s) <> 0) as Hall.
  { intros E. pose proof (find_none _ _ Ef i) as H. unfold unused in H. rewrite E in H.
    discriminate H. rewrite <- in_rev, <- list_elem_of_In. by apply (lru_in _ _ _ Hl). }
  destruct (co_buf _ _ _ _ (br_co _ _ _ Hrep) i Hi) as [_ [(H1 & H2 & _)|(_ & H2 & _)]]; [by rewrite <- H2|done].
Qed.

(** Some buffer is unreferenced as long as fewer than [NBUF] blocks are. *)
Lemma find_unused : has_room v -> exists b, List.find (unused s) (rev l) = Some b.
Proof.
  intros (X & HX & Hr). destruct (List.find (unused s) (rev l)) as [b|] eqn:Ef; [by exists b|exfalso].
  pose proof (fun i => find_unused_none i Ef) as Hd.
  set (ns := (fun i => b_blockno (the_buf i s)) <$> seq 0 NBUF).
  assert (NoDup ns) as Hnd.
  { apply NoDup_fmap_2_strong; [|apply NoDup_seq]. intros i j Hi%elem_of_seq Hj%elem_of_seq E.
    apply (co_uniq _ _ _ _ (br_co _ _ _ Hrep)); [lia|lia|apply Hd; lia|apply Hd; lia|done]. }
  assert (list_to_set ns ⊆ X) as Hsub%subseteq_size.
  { intros n. rewrite elem_of_list_to_set. intros (i & -> & Hi%elem_of_seq)%list_elem_of_fmap. apply Hr, Hd. lia. }
  rewrite size_list_to_set in Hsub by done. unfold ns in Hsub. rewrite length_fmap, length_seq in Hsub. lia.
Qed.
End Ops.

Lemma rep_only dev s v b x s' v' :
  bio_rep dev s v -> only b x s s' -> (forall n, v_disk v' n = v_disk v n) -> v_writes v' = v_writes v ->
  coherent dev (fun i => the_buf i s') (mypid s) v' -> bio_rep dev s' v'.
Proof.
  intros [H1 [l H2] H3 H4 H5] Ho Ed Ew Hc. split; [done|exists l; by apply Ho|by rewrite (on_pid _ _ _ _ Ho)| |].
  - intros n. by rewrite (on_disk _ _ _ _ Ho), H4, Ed.
  - by rewrite (on_writes _ _ _ _ Ho), Ew.
Qed.

(** A block that no one has locked has an unlocked buffer. *)
Lemma buf_unlocked dev s v b n :
  bio_rep dev s v -> unlocked n v -> (b < NBUF)%nat -> b_dev (the_buf b s) = dev -> b_blockno (the_buf b s) = n ->
  sl_locked (b_lock (the_buf b s)) = 0.
Proof.
  intros Hrep [Ho Hh] Hb Hd Hn. destruct (decide (sl_locked (b_lock (the_buf b s)) = 0)) as [|Hne]; [done|].
  destruct (co_buf _ _ _ _ (br_co _ _ _ Hrep) b Hb) as [_ [(_ & _ & _ & H)|(E & _)]].
  - specialize (H Hne). rewrite Hn in H. destruct (_ =? _) in H; [by destruct (Hh b)|done].
  - pose proof (br_dev _ _ _ Hrep). congruence.
Qed.

Lemma unused_unlocked dev s v b :
  bio_rep dev s v -> held_ok v -> (b < NBUF)%nat -> b_refcnt (the_buf b s) = 0 -> sl_locked (b_lock (the_buf b s)) = 0.
Proof.
  intros Hrep [Hh Ho] Hb Hr. destruct (decide (sl_locked (b_lock (the_buf b s)) = 0)) as [|Hne]; [done|].
  destruct (co_buf _ _ _ _ (br_co _ _ _ Hrep) b Hb) as [_ [(_ & E & _ & H)|(_ & _ & E)]]; [|done].
  specialize (H Hne). rewrite Hr in E. destruct (_ =? _) in H; [by apply Hh in H|by apply Ho in H].
Qed.

Definition taken (pid : Z) (x : buf) : buf := set_lock (mk_slk 1 (sl_name (b_lock x)) pid) x.

(** [bget] of a cached block, and of one that is not. *)
Lemma bget_hit dev s v l n b :
  bio_rep dev s v -> lru s l -> List.find (holds s dev n) l = Some b -> sl_locked (b_lock (the_buf b s)) = 0 ->
  exists s1, bget dev n s = Ok b s1 /\
    only b (taken (mypid s) (set_refcnt (u32 (b_refcnt (the_buf b s) + 1)) (the_buf b s))) s s1.
Proof.
  intros Hrep Hl Hf Hu. destruct (find_holds _ _ _ Hl _ _ Hf) as (Hb & Hd & Hn).
  unfold bget. erewrite bind_Ok by reflexivity. rewrite (lru_find_cached _ _ _ _ Hl), Hf.
  erewrite bind_Ok by reflexivity. set (f := fun x => set_refcnt (u32 (b_refcnt x + 1)) x).
  pose proof (only_upd s l b f Hl Hb ltac:(by split)) as H1.
  assert (El : b_lock (the_buf b (upd_buf b f s)) = b_lock (the_buf b s)) by by rewrite (on_buf _ _ _ _ H1).
  erewrite bind_Ok by (apply acquire_free; by rewrite El).
  eexists. split; [reflexivity|]. rewrite El. by apply (only_upd2 s l b f (set_lock _)).
Qed.

Lemma bget_miss dev s v l n b :
  bio_rep dev s v -> lru s l -> List.find (holds s dev n) l = None -> held_ok v ->
  List.find (unused s) (rev l) = Some b -> (b < NBUF)%nat -> b_refcnt (the_buf b s) = 0 ->
  exists s1, bget dev n s = Ok b s1 /\ only b (taken (mypid s) (recycle dev n (the_buf b s))) s s1.
Proof.
  intros Hrep Hl Hf Hho Hfu Hb Hr. unfold bget. erewrite bind_Ok by reflexivity.
  rewrite (lru_find_cached _ _ _ _ Hl), Hf, (lru_find_unused _ _ Hl), Hfu. erewrite bind_Ok by reflexivity.
  pose proof (only_upd s l b (recycle dev n) Hl Hb ltac:(by split)) as H1.
  assert (El : b_lock (the_buf b (upd_buf b (recycle dev n) s)) = b_lock (the_buf b s)) by by rewrite (on_buf _ _ _ _ H1).
  erewrite bind_Ok by (apply acquire_free; rewrite El; by eapply unused_unlocked).
  eexists. split; [reflexivity|]. rewrite El. by apply (only_upd2 s l b (recycle dev n) (set_lock _)).
Qed.

Lemma u32_succ_0 r : 0 <= r < 2 ^ 32 -> u32 (r + 1) = 0 -> r = 2 ^ 32 - 1.
Proof.
  intros Hr H. destruct (decide (r = 2 ^ 32 - 1)) as [|Hne]; [done|]. rewrite u32_small in H by lia. lia.
Qed.

Lemma u32_pred_0 r : 0 <= r < 2 ^ 32 -> u32 (r + -1) = 0 -> r = 1.
Proof.
  intros Hr H. destruct (decide (r = 0)) as [->|Hne]; [discriminate H|]. rewrite u32_small in H by lia. lia.
Qed.

Lemma bread_hit dev s v l n b :
  bio_rep dev s v -> lru s l -> List.find (holds s dev n) l = Some b -> sl_locked (b_lock (the_buf b s)) = 0 ->
  (v_refs v n = 2 ^ 32 - 1 -> v_block v n = v_disk v n) ->
  exists s', bread dev n s = Ok b s' /\ v_held v !! b = None /\
    bio_rep dev s' (v_add_ref 1 n (v_set_held (<[b := n]> (v_held v)) v)).
Proof.
  intros Hrep Hl Hf Hu Hwrap. pose proof (br_co _ _ _ Hrep) as Hc.
  destruct (find_holds _ _ _ Hl _ _ Hf) as (Hb & Hd & Hn).
  destruct (bget_hit _ _ _ _ _ _ Hrep Hl Hf Hu) as (s1 & E & H1).
  destruct (bread_of_bget _ _ _ _ _ _ E (on_lru _ _ _ _ H1 _ Hl) Hb) as (s' & E' & H2).
  pose proof (only_trans _ _ _ _ _ _ H1 H2) as H. exists s'. split; [done|].
  assert (Hh : v_held v !! b = None).
  { destruct (v_held v !! b) as [m|] eqn:Em; [|done]. destruct (co_held _ _ _ _ Hc b m Em) as (_ & _ & _ & _ & ? & _). done. }
  split; [done|]. eapply rep_only; [done|exact H|done|done|].
  rewrite (on_buf _ _ _ _ H1), (on_disk _ _ _ _ H1) in H.
  destruct (co_buf _ _ _ _ Hc b Hb) as [Hblk [(_ & Hr & Hv & _)|(E0 & _)]];
    [|pose proof (br_dev _ _ _ Hrep); congruence].
  pose proof (on_buf _ _ _ _ H) as Hx. unfold filled in Hx. cbn in Hx. rewrite Hn in Hr, Hv.
  eapply (coherent_upd _ _ _ _ _ _ b n Hc Hb); try done; try (rewrite Hx; by case_bool).
  - apply H.
  - rewrite Hx. unfold buf_ok. cbn. destruct (_ =? _) eqn:Ev; cbn;
      rewrite ?Ev, Hn, fn_lookup_insert, lookup_insert_eq, Z.eqb_refl, <- Hr.
    + split; [rewrite (br_disk _ _ _ Hrep); apply Hc|]. left. rewrite (br_disk _ _ _ Hrep). auto.
    + split; [done|]. left. auto.
  - cbn. intros m Hm. by rewrite fn_lookup_insert_ne.
  - cbn. intros i Hi. by rewrite lookup_insert_ne.
  - cbn. intros m. rewrite lookup_insert_eq. intros [= <-]. rewrite Hx. case_bool; cbn; zb; done.
  - cbn. rewrite fn_lookup_insert. intros Hz. apply Hwrap, u32_succ_0; [apply Hc|done].
  - cbn. rewrite fn_lookup_insert. apply u32_range.
  - apply Hc.
  - apply Hc.
Qed.

Lemma bread_miss dev s v l n b :
  bio_rep dev s v -> lru s l -> List.find (holds s dev n) l = None -> held_ok v ->
  List.find (unused s) (rev l) = Some b ->
  exists s', bread dev n s = Ok b s' /\ v_held v !! b = None /\
    bio_rep dev s' (v_add_ref 1 n (v_set_held (<[b := n]> (v_held v)) v)).
Proof.
  intros Hrep Hl Hf Hho Hfu. pose proof (br_co _ _ _ Hrep) as Hc.
  destruct (find_unused_ok _ _ Hl _ Hfu) as (Hb & Hr).
  destruct (bget_miss _ _ _ _ _ _ Hrep Hl Hf Hho Hfu Hb Hr) as (s1 & E & H1).
  destruct (bread_of_bget _ _ _ _ _ _ E (on_lru _ _ _ _ H1 _ Hl) Hb) as (s' & E' & H2).
  pose proof (only_trans _ _ _ _ _ _ H1 H2) as H. exists s'. split; [done|].
  rewrite (on_buf _ _ _ _ H1), (on_disk _ _ _ _ H1) in H. pose proof (on_buf _ _ _ _ H) as Hx. cbn in Hx.
  destruct (coherent_recycle dev _ (fun i => the_buf i s') (mypid s) v b n (br_dev _ _ _ Hrep) Hc Hho Hb Hr) as [Hh Hc'];
    try (rewrite Hx; done).
  - intros i Hi. by eapply find_holds_none.
  - apply H.
  - rewrite Hx. cbn. apply Hrep.
  - split; [done|]. by eapply rep_only.
Qed.

Lemma bread_ok dev s v n :
  bio_rep dev s v -> held_ok v -> unlocked n v -> v_refs v n <> 0 \/ has_room v ->
  (v_refs v n = 2 ^ 32 - 1 -> v_block v n = v_disk v n) ->
  exists b s', bread dev n s = Ok b s' /\ v_held v !! b = None /\
    bio_rep dev s' (v_add_ref 1 n (v_set_held (<[b := n]> (v_held v)) v)).
Proof.
  intros Hrep Hho Hu Hroom Hwrap. destruct (br_lru _ _ _ Hrep) as [l Hl].
  destruct (List.find (holds s dev n) l) as [b|] eqn:Hf.
  { destruct (find_holds _ _ _ Hl _ _ Hf) as (Hb & Hd & Hn). exists b.
    eapply bread_hit; [done..|by eapply buf_unlocked|done]. }
  destruct Hroom as [Hr|Hroom]; [|destruct (find_unused _ _ _ _ Hrep Hl Hroom) as [b Hfu]; exists b; by eapply bread_miss].
  destruct (co_cached _ _ _ _ (br_co _ _ _ Hrep) n Hr) as (i & Hi & Hdi & Hni).
  by destruct (find_holds_none _ _ _ Hl _ _ Hf Hi Hdi).
Qed.

Section Held.
Context (dev : Z) (s : bio_st) (v : bview) (b : nat) (n : Z).
Hypothesis (Hrep : bio_rep dev s v) (Hh : v_held v !! b = Some n).

Record held_facts : Prop := {
  hf_lt : (b < NBUF)%nat;
  hf_dev : b_dev (the_buf b s) = dev;
  hf_blockno : b_blockno (the_buf b s) = n;
  hf_valid : b_valid (the_buf b s) <> 0;
  hf_locked : sl_locked (b_lock (the_buf b s)) <> 0;
  hf_pid : sl_pid (b_lock (the_buf b s)) = mypid s;
  hf_refcnt : b_refcnt (the_buf b s) = v_refs v n;
  hf_data : v_block v n = b_data (the_buf b s)
}.

Lemma held_buf : held_facts.
Proof.
  pose proof (br_co _ _ _ Hrep) as Hc. destruct (co_held _ _ _ _ Hc b n Hh) as (H1 & H2 & H3 & H4 & H5 & H6).
  destruct (co_buf _ _ _ _ Hc b H1) as [_ [(_ & Hr & Hv & _)|(E & _)]]; [|pose proof (br_dev _ _ _ Hrep); congruence].
  rewrite H3 in Hr, Hv. destruct (Z.eqb_spec (b_valid (the_buf b s)) 0); [done|]. by split.
Qed.

Lemma held_holding : holdingsleep (mypid s) (b_lock (the_buf b s)) = true.
Proof.
  destruct held_buf. unfold holdingsleep. rewrite hf_pid0, Z.eqb_refl.
  by destruct (Z.eqb_spec (sl_locked (b_lock (the_buf b s))) 0).
Qed.

(** A change of the reference count of a held buffer, possibly with its release. *)
Lemma rep_ref s' v' k x :
  only b x s s' -> core x = core (set_refcnt (u32 (b_refcnt (the_buf b s) + k)) (set_lock (b_lock x) (the_buf b s))) ->
  b_lock x = b_lock (the_buf b s) /\ v' = v_add_ref k n v \/
  sl_locked (b_lock x) = 0 /\ v' = v_add_ref k n (v_set_held (delete b (v_held v)) v) ->
  (u32 (v_refs v n + k) = 0 -> v_block v n = v_disk v n) ->
  bio_rep dev s' v'.
Proof.
  intros Ho Hx Hv' Hcl. destruct held_buf as [H1 H2 H3 H4 H5 H6 H7 H8]. pose proof (br_co _ _ _ Hrep) as Hc.
  pose proof (on_buf _ _ _ _ Ho) as Eb. unfold core in Hx. cbn in Hx.
  injection Hx as Ev Ed En Er Eda.
  assert (Edata : v_disk v' = v_disk v /\ v_writes v' = v_writes v /\ v_block v' = v_block v /\
    v_refs v' = <[n := u32 (v_refs v n + k)]> (v_refs v) /\ v_other v' = v_other v)
    by (destruct Hv' as [[_ ->]|[_ ->]]; done).
  destruct Edata as (E1 & E2 & E3 & E4 & E5).
  assert (Ehne : forall i, i <> b -> v_held v' !! i = v_held v !! i).
  { intros i Hi. destruct Hv' as [[_ ->]|[_ ->]]; cbn; [done|by rewrite lookup_delete_ne]. }
  eapply rep_only; [done|exact Ho|by rewrite E1|done|].
  eapply (coherent_upd _ _ _ _ _ _ b n Hc H1); rewrite ?Eb, ?Ev, ?Ed, ?En; try done; rewrite ?E1, ?E3, ?E4, ?fn_lookup_insert.
  - apply Ho.
  - split; [rewrite Eda; apply (co_buf _ _ _ _ Hc b H1)|]. left.
    rewrite E1, E3, E4, E5, Ev, Ed, En, Er, Eda, H3, H7, H8, fn_lookup_insert.
    destruct (Z.eqb_spec (b_valid (the_buf b s)) 0); [done|]. split; [done|]. split; [done|]. split; [done|].
    destruct Hv' as [[-> ->]|[-> ->]]; [|done]. intros _. cbn. by rewrite H6, Z.eqb_refl.
  - intros m Hm. by rewrite fn_lookup_insert_ne.
  - intros m. destruct Hv' as [[-> ->]|[_ ->]]; cbn; [|by rewrite lookup_delete_eq]. rewrite Hh. by intros [= <-].
  - exact Hcl.
  - apply u32_range.
  - apply Hc.
  - apply Hc.
Qed.

Lemma bpin_ok k m :
  m = modify (upd_buf b (fun x => set_refcnt (u32 (b_refcnt x + k)) x)) ->
  (u32 (v_refs v n + k) = 0 -> v_block v n = v_disk v n) ->
  exists s', m s = Ok tt s' /\ bio_rep dev s' (v_add_ref k n v).
Proof.
  intros -> Hcl. destruct held_buf, (br_lru _ _ _ Hrep) as [l Hl]. eexists. split; [reflexivity|].
  eapply rep_ref; [by eapply only_upd|done|by left|done].
Qed.

Lemma bwrite_ok : exists s', bwrite b s = Ok tt s' /\ bio_rep dev s' (v_write n (v_block v n) v).
Proof.
  unfold bwrite. erewrite bind_Ok by reflexivity. rewrite held_holding. cbn [negb].
  eexists. split; [reflexivity|]. destruct held_buf as [H1 H2 H3 H4 H5 H6 H7 H8]. pose proof (br_co _ _ _ Hrep) as Hc.
  destruct (br_lru _ _ _ Hrep) as [l Hl]. split; cbn.
  - apply Hrep.
  - exists l. by apply lru_woken.
  - eapply (coherent_upd dev (fun i => the_buf i s) (fun i => the_buf i s) _ v _ b n Hc H1); cbn; try done.
    + split; [apply (co_buf _ _ _ _ Hc b H1)|]. left. cbn. rewrite H3, fn_lookup_insert.
      destruct (co_buf _ _ _ _ Hc b H1) as [_ [(_ & G1 & G2 & G3)|(E & _)]]; [|pose proof (br_dev _ _ _ Hrep); congruence].
      rewrite H3 in G1, G2, G3. by destruct (Z.eqb_spec (b_valid (the_buf b s)) 0).
    + intros m Hm. by rewrite fn_lookup_insert_ne.
    + intros m. rewrite Hh. by intros [= <-].
    + by rewrite fn_lookup_insert.
    + apply Hc.
    + rewrite fn_lookup_insert. apply Hc.
    + apply Hc.
  - intros m. rewrite H3, <- H8. unfold insert, fn_insert. case_decide; [done|apply Hrep].
  - by rewrite (br_writes _ _ _ Hrep), H3, H8.
Qed.

Lemma set_data_ok d :
  v_refs v n <> 0 -> is_block d -> bio_rep dev (upd_buf b (set_data d) s) (v_set_block n d v).
Proof.
  intros Hr Hd. destruct held_buf as [H1 H2 H3 H4 H5 H6 H7 H8]. pose proof (br_co _ _ _ Hrep) as Hc.
  destruct (br_lru _ _ _ Hrep) as [l Hl].
  pose proof (only_upd s l b (set_data d) Hl H1 ltac:(by split)) as Ho.
  eapply rep_only; [done|exact Ho|done|done|]. pose proof (on_buf _ _ _ _ Ho) as Eb.
  eapply (coherent_upd dev (fun i => the_buf i s) _ _ v _ b n Hc H1); cbn; rewrite ?Eb; try done.
  - apply Ho.
  - split; [done|]. left. cbn. rewrite H3, fn_lookup_insert.
    destruct (Z.eqb_spec (b_valid (the_buf b s)) 0); [done|]. split; [done|]. split; [done|]. split; [done|].
    intros _. by rewrite H6, Z.eqb_refl.
  - intros m Hm. by rewrite fn_lookup_insert_ne.
  - intros m. rewrite Hh. by intros [= <-].
  - apply Hc.
  - apply Hc.
  - by rewrite fn_lookup_insert.
Qed.
End Held.

(** The state of [brelse] before the list is reordered. *)
Lemma release_only b s l :
  lru s l -> (b < NBUF)%nat ->
  exists s1, on_lock b (releasesleep (CBufLock b)) s = Ok tt s1 /\
    only b (set_lock (mk_slk 0 (sl_name (b_lock (the_buf b s))) 0) (the_buf b s)) s s1.
Proof.
  intros Hl Hb. eexists. split; [reflexivity|]. cbn.
  destruct (only_upd s l b (set_lock (mk_slk 0 (sl_name (b_lock (the_buf b s))) 0)) Hl Hb ltac:(by split)) as [H1 H2 H3 H4 H5 H6].
  split; [exact H1|exact H2| |done..]. intros l' Hl'. apply (lru_woken (upd_buf b _ s)), H3, Hl'.
Qed.

Lemma brelse_run dev s v l b n :
  bio_rep dev s v -> v_held v !! b = Some n -> lru s l ->
  exists s2, only b (set_refcnt (u32 (v_refs v n - 1)) (set_lock (mk_slk 0 (sl_name (b_lock (the_buf b s))) 0) (the_buf b s))) s s2 /\
    brelse b s = Ok tt (if u32 (v_refs v n - 1) =? 0 then link_front b (unlink b s2) else s2).
Proof.
  intros Hrep Hh Hl. destruct (held_buf _ _ _ _ _ Hrep Hh) as [H1 H2 H3 H4 H5 H6 H7 H8].
  destruct (release_only b s l Hl H1) as (s1 & E1 & Ho1). unfold brelse. erewrite bind_Ok by reflexivity.
  rewrite (held_holding _ _ _ _ _ Hrep Hh). cbn [negb]. erewrite bind_Ok by exact E1. erewrite bind_Ok by reflexivity.
  erewrite bind_Ok by reflexivity. set (f := fun x => set_refcnt (u32 (b_refcnt x - 1)) x).
  pose proof (only_upd s1 l b f (on_lru _ _ _ _ Ho1 _ Hl) H1 ltac:(by split)) as Ho2. exists (upd_buf b f s1).
  rewrite (on_buf _ _ _ _ Ho2), (on_buf _ _ _ _ Ho1). cbn. rewrite H7. split; [|by case_bool].
  eapply only_trans; [exact Ho1|]. rewrite (on_buf _ _ _ _ Ho1) in Ho2. subst f. cbn in Ho2. by rewrite H7 in Ho2.
Qed.

(** Reordering the list does not touch what the cache holds. *)
Lemma rep_move dev s v l1 b l2 :
  bio_rep dev s v -> lru s (l1 ++ b :: l2) -> bio_rep dev (link_front b (unlink b s)) v.
Proof.
  intros Hrep Hl. pose proof (move_front_lru _ _ _ _ Hl) as Hl'.
  assert (Hb : (b < NBUF)%nat) by (apply (lru_in _ _ b Hl); set_solver).
  pose proof (lru_next_ne _ _ _ _ Hl) as Hnx.
  destruct Hrep as [H1 _ H3 H4 H5]. split; [done|by eexists| |done..].
  eapply coherent_core, H3. intros i Hi. cbn.
  rewrite (proj2 (proj2 (link_front_links (unlink b s) b ltac:(rewrite length_unlink; apply Hl) Hb i ltac:(lia)))).
  apply (unlink_links s b (lru_len _ _ Hl) Hb i); [lia|done].
Qed.

Lemma brelse_ok dev s v b n :
  bio_rep dev s v -> v_held v !! b = Some n -> (v_refs v n = 1 -> v_block v n = v_disk v n) ->
  exists s', brelse b s = Ok tt s' /\ bio_rep dev s' (v_add_ref (-1) n (v_set_held (delete b (v_held v)) v)).
Proof.
  intros Hrep Hh Hcl. destruct (br_lru _ _ _ Hrep) as [l Hl].
  destruct (held_buf _ _ _ _ _ Hrep Hh) as [H1 H2 H3 H4 H5 H6 H7 H8].
  destruct (brelse_run _ _ _ _ _ _ Hrep Hh Hl) as (s2 & Ho & E).
  assert (Hrep2 : bio_rep dev s2 (v_add_ref (-1) n (v_set_held (delete b (v_held v)) v))).
  { eapply (rep_ref _ _ _ _ _ Hrep Hh); [exact Ho|cbn; by rewrite H7|by right|].
    intros Hz. apply Hcl, u32_pred_0; [apply Hrep|done]. }
  eexists. split; [exact E|]. case_bool; [|done].
  pose proof (on_lru _ _ _ _ Ho _ Hl) as Hl2. assert (b ∈ l) as (l1 & l2 & ->)%list_elem_of_split by by apply (lru_in _ _ _ Hl).
  by eapply rep_move.
Qed.

Lemma bio_rep_ext dev s v v' : v ≡ v' -> bio_rep dev s v -> bio_rep dev s v'.
Proof.
  intros [E1 E2 E3 E4 E5 E6] [H1 H2 [G1 G2 G3 G4 G5 G6 G7 G8] H4 H5].
  split; [done|done| |intros n; by rewrite <- E1|congruence].
  split; [|done|..].
  - intros i Hi. specialize (G1 i Hi). unfold buf_ok in *. by rewrite <- E1, <- E3, <- E4, <- E5, <- E6.
  - intros n. rewrite <- E4. apply G3.
  - intros i n. rewrite <- E5. apply G4.
  - intros n. rewrite <- E4, <- E3, <- E1. apply G5.
  - intros n. rewrite <- E4. apply G6.
  - intros n. rewrite <- E1. apply G7.
  - intros n. rewrite <- E3. apply G8.
Qed.

#[export] Instance bio_laws : BufCacheLaws bio_st.
Proof.
  refine {| bc_rep := bio_rep |}.
  - intros dev s v v' E. split; apply bio_rep_ext; [done|by symmetry].
  - intros dev s v n H. apply H.
  - intros dev s v n H. apply H.
  - intros dev s v n H. apply H.
  - intros dev s v n H. apply H.
  - intros dev s v b n Hrep Hh. destruct (held_buf _ _ _ _ _ Hrep Hh). cbn. auto.
  - intros dev s v b b' n Hrep Hh Hh'.
    destruct (held_buf _ _ _ _ _ Hrep Hh), (held_buf _ _ _ _ _ Hrep Hh').
    apply (co_uniq _ _ _ _ (br_co _ _ _ Hrep)); congruence.
  - intros dev s v n Hrep _. by apply bread_ok.
  - intros dev s v b n. apply bwrite_ok.
  - intros dev s v b n. apply brelse_ok.
  - intros dev s v b n Hrep Hh Hw. eapply bpin_ok; [done|done|done|].
    intros Hz. apply Hw, u32_succ_0; [apply Hrep|done].
  - intros dev s v b n Hrep Hh Hw. eapply bpin_ok; [done|done|done|].
    intros Hz. apply Hw, u32_pred_0; [apply Hrep|done].
  - intros dev s v b n d Hrep Hh Hr Hd. by apply set_data_ok.
Defined.

(** ** Boot *)

Definition boot_bio (pid : Z) (d : Z -> list Z) : bio_st := binit (mk_bio (replicate (S NBUF) buf0) pid d [] []).

Definition boot_view (d : Z -> list Z) : bview := mk_bview d [] d (fun _ => 0) ∅ ∅.

Lemma boot_lru pid d : lru (boot_bio pid d) (rev (seq 0 NBUF)).
Proof.
  split; [done| |symmetry; apply Permutation_rev]. vm_compute. repeat split.
Qed.

Lemma boot_buf pid d i : (i < NBUF)%nat -> core (the_buf i (boot_bio pid d)) = core (set_lock (initsleeplock "buffer") buf0).
Proof.
  intros Hi. assert (H : forallb (fun i => bool_decide (core (the_buf i (boot_bio pid d)) = core (set_lock (initsleeplock "buffer") buf0)))
    (seq 0 NBUF) = true) by (vm_compute; reflexivity).
  rewrite forallb_forall in H. specialize (H i ltac:(apply in_seq; lia)). by apply bool_decide_eq_true_1 in H.
Qed.

Lemma boot_rep dev pid d : dev <> 0 -> (forall n, is_block (d n)) -> bio_rep dev (boot_bio pid d) (boot_view d).
Proof.
  intros Hdev Hd. split; [done|by eexists; apply boot_lru| |done..].
  apply (coherent_core _ (fun _ => set_lock (initsleeplock "buffer") buf0)); [apply boot_buf|].
  assert (is_block (b_data buf0)) by (split; [done|by apply Forall_replicate]).
  split; cbn; try done; auto; try congruence.
  intros i Hi. split; [done|]. by right.
Qed.

(** ** The properties *)

Lemma bget_locked dev s v l n b :
  bio_rep dev s v -> lru s l -> List.find (holds s dev n) l = Some b -> sl_locked (b_lock (the_buf b s)) <> 0 ->
  exists s', bget dev n s = Block (CBufLock b) s' /\ only b (set_refcnt (u32 (v_refs v n + 1)) (the_buf b s)) s s'.
Proof.
  intros Hrep Hl Hf Hlk. destruct (find_holds _ _ _ Hl _ _ Hf) as (Hb & Hd & Hn).
  destruct (co_buf _ _ _ _ (br_co _ _ _ Hrep) b Hb) as [_ [(_ & Hr & _)|(_ & _ & ?)]]; [|done].
  set (f := fun x => set_refcnt (u32 (b_refcnt x + 1)) x).
  pose proof (only_upd s l b f Hl Hb ltac:(by split)) as H1.
  unfold bget. erewrite bind_Ok by reflexivity. rewrite (lru_find_cached _ _ _ _ Hl), Hf. fold f.
  erewrite bind_Ok by reflexivity. unfold on_lock, zoom, acquiresleep, bind, get.
  rewrite (on_buf _ _ _ _ H1). cbn. destruct (Z.eqb_spec (sl_locked (b_lock (the_buf b s))) 0); [done|]. cbn.
  eexists. split; [reflexivity|]. destruct H1 as [G1 G2 G3 G4 G5 G6].
  pose proof (only_upd2 s l b f (set_lock (b_lock (the_buf b s))) Hl Hb ltac:(by split) ltac:(by split)) as H2.
  rewrite <- Hn, <- Hr. destruct H2 as [F1 F2 F3 F4 F5 F6]. split; [|exact F2|exact F3|done..].
  unfold upd_buf, set_bufs in F1. unfold the_buf in F1 |- *. cbn in F1 |- *. rewrite F1. by destruct (bufs s !!! b).
Qed.

(** C17: [bread] in every state of the cache: it returns a locked buffer with the
    current content of the block, and what any block contains does not change; or it
    sleeps on the lock of the buffer that caches the block, because a process has it
    locked; or it panics, and then the block is not cached and every buffer is
    referenced. *)
Theorem bread_returns_block dev s v n :
  bio_rep dev s v -> held_ok v -> (v_refs v n = 2 ^ 32 - 1 -> v_block v n = v_disk v n) ->
  match bread dev n s with
  | Ok b s' =>
      b_blockno (the_buf b s') = n /\ b_data (the_buf b s') = v_block v n /\ v_held v !! b = None /\
      bio_rep dev s' (v_add_ref 1 n (v_set_held (<[b := n]> (v_held v)) v))
  | Block c s' =>
      exists b, c = CBufLock b /\ b_blockno (the_buf b s) = n /\ (n ∈ v_other v \/ v_held v !! b = Some n) /\
        only b (set_refcnt (u32 (v_refs v n + 1)) (the_buf b s)) s s'
  | Panic msg =>
      msg = "bget: no buffers"%string /\
      forall i, (i < NBUF)%nat -> b_blockno (the_buf i s) <> n /\ v_refs v (b_blockno (the_buf i s)) <> 0
  | Diverge => False
  end.
Proof.
  intros Hrep Hho Hw. destruct (br_lru _ _ _ Hrep) as [l Hl]. pose proof (br_co _ _ _ Hrep) as Hc.
  assert (Hdone : forall b s', v_held v !! b = None /\
      bio_rep dev s' (v_add_ref 1 n (v_set_held (<[b := n]> (v_held v)) v)) ->
      b_blockno (the_buf b s') = n /\ b_data (the_buf b s') = v_block v n /\ v_held v !! b = None /\
      bio_rep dev s' (v_add_ref 1 n (v_set_held (<[b := n]> (v_held v)) v))).
  { intros b s' (Hh & Hrep'). destruct (held_buf _ _ _ b n Hrep') as [_ _ H3 _ _ _ _ H8]; [apply lookup_insert_eq|].
    cbn in H8. auto. }
  destruct (List.find (holds s dev n) l) as [b|] eqn:Hf; [|destruct (List.find (unused s) (rev l)) as [b|] eqn:Hfu].
  - destruct (find_holds _ _ _ Hl _ _ Hf) as (Hb & Hd & Hn).
    destruct (decide (sl_locked (b_lock (the_buf b s)) = 0)) as [Hlk|Hlk].
    + destruct (bread_hit _ _ _ _ _ _ Hrep Hl Hf Hlk Hw) as (s' & -> & H). by apply Hdone.
    + destruct (bget_locked _ _ _ _ _ _ Hrep Hl Hf Hlk) as (s' & E & Ho). unfold bread, bind. rewrite E.
      exists b. split; [done|]. split; [done|]. split; [|done].
      destruct (co_buf _ _ _ _ Hc b Hb) as [_ [(_ & _ & _ & H)|(E0 & _ & ?)]]; [|done].
      specialize (H Hlk). rewrite Hn in H. case_bool; auto.
  - destruct (bread_miss _ _ _ _ _ _ Hrep Hl Hf Hho Hfu) as (s' & -> & H). by apply Hdone.
  - unfold bread, bget, bind, get. rewrite (lru_find_cached _ _ _ _ Hl), Hf, (lru_find_unused _ _ Hl), Hfu.
    split; [done|]. intros i Hi. destruct (find_unused_none _ _ _ _ Hrep Hl i Hfu Hi) as [Hdi Hri].
    split; [by eapply find_holds_none|done].
Qed.

(** The search from the back finds the last element that satisfies the test. *)
Lemma find_rev_last {A} (f : A -> bool) l x :
  List.find f (rev l) = Some x -> exists l1 l2, l = l1 ++ x :: l2 /\ Forall (fun y => f y = false) l2.
Proof.
  induction l as [|y l IH] using rev_ind; [done|]. rewrite rev_app_distr. cbn. destruct (f y) eqn:Ey.
  - intros [= ->]. exists l, []. done.
  - intros (l1 & l2 & -> & Hl)%IH. exists l1, (l2 ++ [y]). rewrite <- app_assoc, Forall_app. auto.
Qed.

(** C33: The cache is least-recently-used.  [bread] of a block that is not cached takes
    the last unreferenced buffer of the list, and leaves the order of the list alone;
    a [brelse] that drops the last reference moves the buffer to the front, and any
    other [brelse] leaves the order alone. *)
Theorem bcache_lru dev s v l :
  bio_rep dev s v -> lru s l -> held_ok v ->
  (forall n b s', bread dev n s = Ok b s' -> lru s' l /\
     (b_dev (the_buf b s) = dev /\ b_blockno (the_buf b s) = n \/
      exists l1 l2, l = l1 ++ b :: l2 /\ b_refcnt (the_buf b s) = 0 /\
        Forall (fun i => b_refcnt (the_buf i s) <> 0) l2)) /\
  (forall b n s', v_held v !! b = Some n -> brelse b s = Ok tt s' ->
     exists l1 l2, l = l1 ++ b :: l2 /\ lru s' (if v_refs v n =? 1 then b :: l1 ++ l2 else l)).
Proof.
  intros Hrep Hl Hho. split.
  - intros n b s' E. destruct (List.find (holds s dev n) l) as [b'|] eqn:Hf.
    + destruct (find_holds _ _ _ Hl _ _ Hf) as (Hb & Hd & Hn). destruct (decide (sl_locked (b_lock (the_buf b' s)) = 0)) as [Hlk|Hlk].
      * destruct (bget_hit _ _ _ _ _ _ Hrep Hl Hf Hlk) as (s1 & E1 & H1).
        destruct (bread_of_bget _ _ _ _ _ _ E1 (on_lru _ _ _ _ H1 _ Hl) Hb) as (s2 & E2 & H2).
        rewrite E in E2. injection E2 as -> ->. split; [|by left]. by apply H2, H1.
      * destruct (bget_locked _ _ _ _ _ _ Hrep Hl Hf Hlk) as (s1 & E1 & _). unfold bread, bind in E. by rewrite E1 in E.
    + destruct (List.find (unused s) (rev l)) as [b'|] eqn:Hfu.
      * destruct (find_unused_ok _ _ Hl _ Hfu) as (Hb & Hr). destruct (bget_miss _ _ _ _ _ _ Hrep Hl Hf Hho Hfu Hb Hr) as (s1 & E1 & H1).
        destruct (bread_of_bget _ _ _ _ _ _ E1 (on_lru _ _ _ _ H1 _ Hl) Hb) as (s2 & E2 & H2).
        rewrite E in E2. injection E2 as -> ->. split; [by apply H2, H1|right].
        destruct (find_rev_last _ _ _ Hfu) as (l1 & l2 & El & Hl2). exists l1, l2. split; [done|]. split; [done|].
        eapply Forall_impl; [exact Hl2|]. intros i Hi. unfold unused in Hi. by zb.
      * unfold bread, bget, bind, get in E. by rewrite (lru_find_cached _ _ _ _ Hl), Hf, (lru_find_unused _ _ Hl), Hfu in E.
  - intros b n s' Hh E. destruct (held_buf _ _ _ _ _ Hrep Hh) as [Hb _ _ _ _ _ _ _].
    destruct (brelse_run _ _ _ _ _ _ Hrep Hh Hl) as (s2 & Ho & E'). rewrite E in E'. injection E' as ->.
    pose proof (on_lru _ _ _ _ Ho _ Hl) as Hl2.
    assert (b ∈ l) as (l1 & l2 & ->)%list_elem_of_split by by apply (lru_in _ _ _ Hl). exists l1, l2. split; [done|].
    pose proof (co_refs _ _ _ _ (br_co _ _ _ Hrep) n). destruct (Z.eqb_spec (v_refs v n) 1) as [->|Hne].
    + change (u32 (1 - 1) =? 0) with true. by apply move_front_lru.
    + destruct (Z.eqb_spec (u32 (v_refs v n - 1)) 0) as [Hz|]; [|done]. by apply u32_pred_0 in Hz.
Qed.

(** ** A small disk *)

Definition demo_disk (n : Z) : list Z := replicate 1024 (n mod 256).

Lemma demo_disk_ok n : is_block (demo_disk n).
Proof. split; [done|]. apply Forall_replicate. pose proof (Z.mod_pos_bound n 256). lia. Qed.

Lemma demo_bio_rep : bio_rep 1 (boot_bio 7 demo_disk) (boot_view demo_disk).
Proof. apply boot_rep; [done|apply demo_disk_ok]. Qed.

Lemma demo_held_ok : held_ok (boot_view demo_disk).
Proof. by split. Qed.

Lemma bread_returns_block_witness :
  exists b s', bread 1 33 (boot_bio 7 demo_disk) = Ok b s' /\ b_data (the_buf b s') = demo_disk 33.
Proof.
  pose proof (bread_returns_block 1 (boot_bio 7 demo_disk) (boot_view demo_disk) 33 demo_bio_rep demo_held_ok ltac:(done)) as H.
  destruct (bread 1 33 (boot_bio 7 demo_disk)) as [b s'|msg|c s'|].
  - exists b, s'. split; [done|apply H].
  - destruct H as [_ H]. destruct (H 0%nat ltac:(unfold NBUF; lia)) as [_ []]. reflexivity.
  - destruct H as (b & _ & _ & [H|H] & _); [by apply elem_of_empty in H|discriminate H].
  - destruct H.
Defined.

Lemma demo_read : exists b s', bread 1 33 (boot_bio 7 demo_disk) = Ok b s'.
Proof.
  destruct (bread_ok 1 (boot_bio 7 demo_disk) (boot_view demo_disk) 33 demo_bio_rep demo_held_ok) as (b & s' & E & _);
    [by split|right; exists ∅; split; [unfold NBUF; rewrite size_empty; lia|done]|done|by exists b, s'].
Qed.

Lemma bcache_lru_witness :
  exists b s', bread 1 33 (boot_bio 7 demo_disk) = Ok b s' /\ lru s' (rev (seq 0 NBUF)).
Proof.
  destruct demo_read as (b & s' & E). exists b, s'. split; [exact E|].
  exact (proj1 (proj1 (bcache_lru 1 (boot_bio 7 demo_disk) (boot_view demo_disk) (rev (seq 0 NBUF))
           demo_bio_rep (boot_lru 7 demo_disk) demo_held_ok) 33 b s' E)).
Defined.
