(* ===== verification/Log.v ===== *)
(** * kernel/log.c: the write-ahead log

    Over the block-cache interface.  [lh_block] holds the block numbers of
    [log.lh.block] as unsigned 32-bit values; [lh_n] is a signed [int]. *)
From stdpp Require Import base list numbers strings.
From Stdlib Require Import ZArith Lia.
From S2P Require Import Prelude Bytes.
From S2P Require Import Bio BlockCache.
Open Scope Z_scope.

Definition LOGSIZE : Z := MAXOPBLOCKS * 3.

Record log_st (B : Type) := mk_log {
  log_start : Z;
  log_size : Z;
  outstanding : Z;
  committing : Z;
  log_dev : Z;
  lh_n : Z;
  lh_block : list Z;
  lbc : B;
  lwoken : list chan
}.
Arguments mk_log {B}.
Arguments log_start {B}. Arguments log_size {B}. Arguments outstanding {B}. Arguments committing {B}.
Arguments log_dev {B}. Arguments lh_n {B}. Arguments lh_block {B}. Arguments lbc {B}. Arguments lwoken {B}.

Section Log.
Context {B : Type} `{BufCache B}.
Implicit Types (s : log_st B).

Definition set_lbc (c : B) (s : log_st B) : log_st B :=
  mk_log (log_start s) (log_size s) (outstanding s) (committing s) (log_dev s) (lh_n s) (lh_block s) c (lwoken s).
Definition set_lh (n : Z) (b : list Z) (s : log_st B) : log_st B :=
  mk_log (log_start s) (log_size s) (outstanding s) (committing s) (log_dev s) n b (lbc s) (lwoken s).
Definition set_ops (o c : Z) (s : log_st B) : log_st B :=
  mk_log (log_start s) (log_size s) o c (log_dev s) (lh_n s) (lh_block s) (lbc s) (lwoken s).
Definition lwakeup (c : chan) (s : log_st B) : log_st B :=
  mk_log (log_start s) (log_size s) (outstanding s) (committing s) (log_dev s) (lh_n s) (lh_block s) (lbc s) (c :: lwoken s).

Definition on_bc {A} (m : M B A) : M (log_st B) A := zoom lbc set_lbc m.

(** [memmove(dst->data, src->data, BSIZE);] *)
Definition copy_data (dst src : nat) : M B unit :=
  modify (fun c => bc_set_data dst (bc_data src c) c).

(** The offsets of the fields of [struct logheader]. *)
Definition off_n : nat := 0.
Definition off_block (i : Z) : nat := 4 + 4 * Z.to_nat i.

Fixpoint install_trans_loop (tail : Z) (k : nat) : M (log_st B) unit :=
  match k with
  | O => ret tt
  | S k' =>
      let! s := get in
      let! lbuf := on_bc (bc_bread (log_dev s) (u32 (log_start s + tail + 1))) in
      let! dbuf := on_bc (bc_bread (log_dev s) (lh_block s !!! Z.to_nat tail)) in
      on_bc (copy_data dbuf lbuf) ;;
      on_bc (bc_bwrite dbuf) ;;
      on_bc (bc_bunpin dbuf) ;;
      on_bc (bc_brelse lbuf) ;;
      on_bc (bc_brelse dbuf) ;;
      install_trans_loop (tail + 1) k'
  end.

Definition install_trans : M (log_st B) unit :=
  let! s := get in install_trans_loop 0 (Z.to_nat (lh_n s)).

(** [for (i = 0; i < log.lh.n; i++) log.lh.block[i] = lh->block[i];] *)
Fixpoint read_blocks (d : list Z) (i : Z) (k : nat) : M (log_st B) unit :=
  match k with
  | O => ret tt
  | S k' =>
      let! s := get in
      if LOGSIZE <=? i then undefined
      else
        put (set_lh (lh_n s) (<[Z.to_nat i := get32 (off_block i) d]> (lh_block s)) s) ;;
        read_blocks d (i + 1) k'
  end.

Definition read_head : M (log_st B) unit :=
  let! s := get in
  let! buf := on_bc (bc_bread (log_dev s) (u32 (log_start s))) in
  let! s := get in
  let d := bc_data buf (lbc s) in
  put (set_lh (i32 (get32 off_n d)) (lh_block s) s) ;;
  read_blocks d 0 (Z.to_nat (i32 (get32 off_n d))) ;;
  on_bc (bc_brelse buf).

(** [for (i = 0; i < log.lh.n; i++) hb->block[i] = log.lh.block[i];] *)
Fixpoint write_blocks (bs : list Z) (i : Z) (k : nat) (d : list Z) : list Z :=
  match k with
  | O => d
  | S k' => write_blocks bs (i + 1) k' (put32 (off_block i) (bs !!! Z.to_nat i) d)
  end.

Definition write_head : M (log_st B) unit :=
  let! s := get in
  let! buf := on_bc (bc_bread (log_dev s) (u32 (log_start s))) in
  on_bc (modify (fun c => bc_set_data buf
    (write_blocks (lh_block s) 0 (Z.to_nat (lh_n s)) (put32 off_n (lh_n s) (bc_data buf c))) c)) ;;
  on_bc (bc_bwrite buf) ;;
  on_bc (bc_brelse buf).

Definition recover_from_log : M (log_st B) unit :=
  read_head ;;
  install_trans ;;
  modify (fun s => set_lh 0 (lh_block s) s) ;;
  write_head.

(** [sizeof(struct logheader)] is 4 + 4 * LOGSIZE. *)
Definition initlog (dev sb_logstart sb_nlog : Z) : M (log_st B) unit :=
  if BSIZE <=? 4 + 4 * LOGSIZE then panic "initlog: too big logheader"
  else
    modify (fun s => mk_log sb_logstart sb_nlog (outstanding s) (committing s) dev (lh_n s) (lh_block s) (lbc s) (lwoken s)) ;;
    recover_from_log.

Definition begin_op : M (log_st B) unit :=
  let! s := get in
  if negb (committing s =? 0) then block CLog
  else if LOGSIZE <? lh_n s + (outstanding s + 1) * MAXOPBLOCKS then block CLog
  else put (set_ops (outstanding s + 1) (committing s) s).

Fixpoint write_log_loop (tail : Z) (k : nat) : M (log_st B) unit :=
  match k with
  | O => ret tt
  | S k' =>
      let! s := get in
      let! to := on_bc (bc_bread (log_dev s) (u32 (log_start s + tail + 1))) in
      let! from := on_bc (bc_bread (log_dev s) (lh_block s !!! Z.to_nat tail)) in
      on_bc (copy_data to from) ;;
      on_bc (bc_bwrite to) ;;
      on_bc (bc_brelse from) ;;
      on_bc (bc_brelse to) ;;
      write_log_loop (tail + 1) k'
  end.

Definition write_log : M (log_st B) unit :=
  let! s := get in write_log_loop 0 (Z.to_nat (lh_n s)).

Definition commit : M (log_st B) unit :=
  let! s := get in
  if 0 <? lh_n s then
    write_log ;;
    write_head ;;
    install_trans ;;
    modify (fun s => set_lh 0 (lh_block s) s) ;;
    write_head
  else ret tt.

Definition end_op : M (log_st B) unit :=
  modify (fun s => set_ops (outstanding s - 1) (committing s) s) ;;
  let! s := get in
  if negb (committing s =? 0) then panic "log.committing"
  else if outstanding s =? 0 then
    put (set_ops (outstanding s) 1 s) ;;
    commit ;;
    modify (fun s => lwakeup CLog (set_ops (outstanding s) 0 s))
  else modify (lwakeup CLog).

(** [for (i = 0; i < log.lh.n; i++) if (log.lh.block[i] == b->blockno) break;] *)
Fixpoint absorb (bs : list Z) (blockno : Z) (i : Z) (k : nat) : Z :=
  match k with
  | O => i
  | S k' => if bs !!! Z.to_nat i =? blockno then i else absorb bs blockno (i + 1) k'
  end.

Definition log_write (b : nat) : M (log_st B) unit :=
  let! s := get in
  if (LOGSIZE <=? lh_n s) || (log_size s - 1 <=? lh_n s) then panic "too big a transaction"
  else if outstanding s <? 1 then panic "log_write outside of trans"
  else
    let blockno := bc_blockno b (lbc s) in
    let i := absorb (lh_block s) blockno 0 (Z.to_nat (lh_n s)) in
    put (set_lh (lh_n s) (<[Z.to_nat i := blockno]> (lh_block s)) s) ;;
    if i =? lh_n s then
      on_bc (bc_bpin b) ;;
      modify (fun s => set_lh (lh_n s + 1) (lh_block s) s)
    else ret tt.
End Log.
