(* ===== verification/LogDisk.v ===== *)
(** * What the log on the disk means

    The header block as a list of block numbers, the content of the disk after
    recovery, and how it evolves under the writes of a commit and of a recovery,
    cut off at any point. *)
From stdpp Require Import base gmap list numbers functions strings.
From Stdlib Require Import ZArith Lia.
From S2P Require Import Prelude Bytes.
From S2P Require Import Bio BlockCache Log.
Open Scope Z_scope.

(** ** The header block *)

Definition enc_head (n : Z) (bs d : list Z) : list Z :=
  write_blocks bs 0 (Z.to_nat n) (put32 off_n n d).

(** The block numbers a header block lists. *)
Definition log_blocks (d : list Z) : list Z :=
  (fun i => get32 (off_block (Z.of_nat i)) d) <$> seq 0 (Z.to_nat (i32 (get32 off_n d))).

Lemma length_write_blocks bs i k d : length (write_blocks bs i k d) = length d.
Proof. revert i d. induction k as [|k IH]; intros i d; cbn; [done|]. by rewrite IH, length_put32. Qed.

Lemma write_blocks_ne bs i k d o :
  0 <= i -> (o + 4 <= off_block i)%nat -> get32 o (write_blocks bs i k d) = get32 o d.
Proof.
  revert i d. induction k as [|k IH]; intros i d Hi Ho; cbn; [done|].
  rewrite IH by (unfold off_block in *; lia). apply get32_put32_ne. unfold off_block in *. lia.
Qed.

Lemma write_blocks_get bs i k d j :
  0 <= i -> (4 + 4 * (Z.to_nat i + k) <= length d)%nat -> i <= j < i + Z.of_nat k ->
  0 <= bs !!! Z.to_nat j < 2 ^ 32 ->
  get32 (off_block j) (write_blocks bs i k d) = bs !!! Z.to_nat j.
Proof.
  revert i d. induction k as [|k IH]; intros i d Hi Hd Hj Hb; cbn [write_blocks]; [lia|].
  destruct (decide (j = i)) as [->|Hne].
  - rewrite write_blocks_ne by (unfold off_block; lia). apply get32_put32_eq; [unfold off_block; lia|done].
  - apply IH; [lia|rewrite length_put32; lia|lia|done].
Qed.

Lemma write_blocks_bytes bs i k d : bytes d -> bytes (write_blocks bs i k d).
Proof. revert i d. induction k as [|k IH]; intros i d Hd; cbn; [done|]. by apply IH, put32_bytes. Qed.

Lemma enc_head_block n bs d : is_block d -> is_block (enc_head n bs d).
Proof.
  intros [H1 H2]. split; [unfold enc_head; by rewrite length_write_blocks, length_put32|].
  by apply write_blocks_bytes, put32_bytes.
Qed.

(** Reading back a header that was written. *)
Lemma log_blocks_enc n bs d :
  is_block d -> 0 <= n <= LOGSIZE -> n <= Z.of_nat (length bs) -> Forall (fun b => 0 <= b < 2 ^ 32) bs ->
  log_blocks (enc_head n bs d) = take (Z.to_nat n) bs.
Proof.
  intros [Hl _] Hn Hb HF. unfold LOGSIZE, MAXOPBLOCKS, BSIZE in *. unfold log_blocks, enc_head.
  rewrite write_blocks_ne, get32_put32_eq by (unfold off_block, off_n in *; lia).
  rewrite i32_small by lia. apply list_eq. intros i. rewrite list_lookup_fmap.
  destruct (decide (i < Z.to_nat n)%nat) as [Hi|Hi].
  - rewrite lookup_seq_lt, lookup_take_lt by done. cbn [fmap option_fmap option_map]. rewrite Nat.add_0_l, write_blocks_get; rewrite ?length_put32, ?Nat2Z.id; try lia.
    + symmetry. apply list_lookup_lookup_total_lt. lia.
    + apply (Forall_lookup_total_1 _ _ _ HF). lia.
  - rewrite (lookup_ge_None_2 (seq _ _)), lookup_take_ge by (rewrite ?length_seq; lia). done.
Qed.

(** ** Replaying disk writes *)

Definition replay (D : Z -> list Z) (ws : list (Z * list Z)) : Z -> list Z :=
  foldl (fun D w => <[w.1 := w.2]> D) D ws.

Lemma replay_app D ws1 ws2 : replay D (ws1 ++ ws2) = replay (replay D ws1) ws2.
Proof. apply foldl_app. Qed.

Lemma replay_ne D ws m : m ∉ ws.*1 -> replay D ws m = D m.
Proof.
  revert D. induction ws as [|[a d] ws IH]; intros D Hm; [done|]. cbn in Hm |- *.
  apply not_elem_of_cons in Hm as [H1 H2]. rewrite IH by done. by rewrite fn_lookup_insert_ne.
Qed.

Lemma replay_eq D ws i m d : NoDup (ws.*1) -> ws !! i = Some (m, d) -> replay D ws m = d.
Proof.
  revert D i. induction ws as [|[a x] ws IH]; intros D i Hnd Hi; [done|]. cbn in Hnd.
  apply NoDup_cons in Hnd as [Ha Hnd]. destruct i as [|i]; cbn in Hi.
  - injection Hi as -> ->. cbn. rewrite replay_ne by done. by rewrite fn_lookup_insert.
  - by apply (IH _ i).
Qed.

Lemma replay_at D D' ws m : D m = D' m -> replay D ws m = replay D' ws m.
Proof.
  revert D D'. induction ws as [|[a d] ws IH]; intros D D' E; [done|]. cbn. apply IH.
  unfold insert, fn_insert. by case_decide.
Qed.

(** ** The content of the disk after recovery *)

Definition recovered (start : Z) (D : Z -> list Z) (m : Z) : list Z :=
  match list_find (eq m) (log_blocks (D start)) with
  | Some (i, _) => D (start + 1 + Z.of_nat i)
  | None => D m
  end.

Lemma list_find_eq_nodup (l : list Z) i m : NoDup l -> l !! i = Some m -> list_find (eq m) l = Some (i, m).
Proof.
  intros Hnd Hi. apply list_find_Some. split; [done|]. split; [done|]. intros j y Hj Hlt ->.
  pose proof (NoDup_lookup _ _ _ _ Hnd Hi Hj). lia.
Qed.

Lemma list_find_eq_none (l : list Z) m : m ∉ l -> list_find (eq m) l = None.
Proof. intros Hm. apply list_find_None, Forall_forall. by intros x Hx ->. Qed.

Definition in_log (start size m : Z) : Prop := start <= m < start + size.

(** The writes of [write_log], of the two [write_head]s and of [install_trans]. *)
Definition log_writes (start tail : Z) (hs : list Z) (g : Z -> list Z) : list (Z * list Z) :=
  imap (fun i b => (start + tail + 1 + Z.of_nat i, g b)) hs.
Definition install_writes (hs : list Z) (g : Z -> list Z) : list (Z * list Z) := (fun b => (b, g b)) <$> hs.

Lemma install_writes_fst hs g : (install_writes hs g).*1 = hs.
Proof. unfold install_writes. rewrite <- list_fmap_compose. apply list_fmap_id. Qed.

Lemma log_writes_lookup start tail hs g i :
  log_writes start tail hs g !! i = (fun b => (start + tail + 1 + Z.of_nat i, g b)) <$> hs !! i.
Proof. apply list_lookup_imap. Qed.

Lemma log_writes_fst start tail hs g m :
  m ∈ (log_writes start tail hs g).*1 -> start + tail + 1 <= m <= start + tail + Z.of_nat (length hs).
Proof.
  intros ([a d] & -> & [i Hi]%list_elem_of_lookup)%list_elem_of_fmap. rewrite log_writes_lookup in Hi.
  destruct (hs !! i) as [b|] eqn:E; [|done]. injection Hi as <- <-. apply lookup_lt_Some in E. cbn. lia.
Qed.

Lemma log_writes_nodup start tail hs g : NoDup (log_writes start tail hs g).*1.
Proof.
  apply NoDup_alt. intros i j m. rewrite !list_lookup_fmap, !log_writes_lookup.
  destruct (hs !! i), (hs !! j); cbn; try done. intros [= <-] [= E]. lia.
Qed.

(** A header that recovery can process: distinct blocks outside the log, whose
    copies fit in it. *)
Record valid_log (start size : Z) (D : Z -> list Z) : Prop := {
  vl_size : Z.of_nat (length (log_blocks (D start))) < size;
  vl_nodup : NoDup (log_blocks (D start));
  vl_home b : b ∈ log_blocks (D start) -> ~ in_log start size b
}.

Section Crash.
Context (start size : Z) (hs : list Z).
Hypothesis (Hsize : Z.of_nat (length hs) < size) (Hnd : NoDup hs).
Hypothesis (Hhome : forall b, b ∈ hs -> ~ in_log start size b).

Lemma valid_log_of D : log_blocks (D start) = hs \/ log_blocks (D start) = [] -> valid_log start size D.
Proof.
  intros [E|E]; split; rewrite E; cbn; try done; try lia; [by constructor|]. intros b Hb. by apply elem_of_nil in Hb.
Qed.

Lemma start_not_home : start ∉ hs.
Proof. intros H. apply (Hhome _ H). unfold in_log. lia. Qed.

Lemma recovered_empty D m : log_blocks (D start) = [] -> recovered start D m = D m.
Proof. intros E. unfold recovered. by rewrite E. Qed.

Lemma recovered_in D i m : log_blocks (D start) = hs -> hs !! i = Some m -> recovered start D m = D (start + 1 + Z.of_nat i).
Proof. intros E Hi. unfold recovered. by rewrite E, (list_find_eq_nodup _ _ _ Hnd Hi). Qed.

Lemma recovered_out D m : log_blocks (D start) = hs -> m ∉ hs -> recovered start D m = D m.
Proof. intros E Hm. unfold recovered. by rewrite E, list_find_eq_none. Qed.

(** A disk on which the transaction is committed: the header lists the blocks,
    the log has their content [g], and the other blocks are already up to date. *)
Section Install.
Context (g D : Z -> list Z) (E0 : list Z).
Hypothesis (Hhead : log_blocks (D start) = hs) (HE0 : log_blocks E0 = []).
Hypothesis (Hlog : forall i b, hs !! i = Some b -> D (start + 1 + Z.of_nat i) = g b).
Hypothesis (Hout : forall m, m ∉ hs -> ~ in_log start size m -> D m = g m).

Lemma installed m : ~ in_log start size m -> replay D (install_writes hs g) m = g m.
Proof.
  intros Hm. destruct (decide (m ∈ hs)) as [[i Hi]%list_elem_of_lookup|Hno].
  - apply (replay_eq _ _ i); [by rewrite install_writes_fst|]. unfold install_writes. by rewrite list_lookup_fmap, Hi.
  - rewrite replay_ne by by rewrite install_writes_fst. auto.
Qed.

(** However far the installation gets, recovery would install all of [g]. *)
Lemma install_prefix j :
  let Dj := replay D (take j (install_writes hs g ++ [(start, E0)])) in
  valid_log start size Dj /\ forall m, ~ in_log start size m -> recovered start Dj m = g m.
Proof.
  cbn zeta. destruct (decide (j <= length hs)%nat) as [Hj|Hj].
  - rewrite take_app_le by (unfold install_writes; by rewrite length_fmap). set (D2 := replay D _).
    assert (Hsub : forall k, k ∈ (take j (install_writes hs g)).*1 -> k ∈ hs).
    { intros k Hk. rewrite fmap_take, install_writes_fst in Hk. by apply subseteq_take in Hk. }
    assert (Hl : forall k, in_log start size k -> D2 k = D k).
    { intros k Hk. apply replay_ne. intros Hin%Hsub. by apply (Hhome _ Hin). }
    assert (Hh : log_blocks (D2 start) = hs) by (rewrite Hl by (unfold in_log; lia); done).
    split; [apply valid_log_of; auto|]. intros m Hm. destruct (decide (m ∈ hs)) as [[i Hi]%list_elem_of_lookup|Hno].
    + rewrite (recovered_in _ i) by done. pose proof (lookup_lt_Some _ _ _ Hi).
      rewrite Hl by (unfold in_log; lia). by apply Hlog.
    + rewrite recovered_out by done. unfold D2. rewrite replay_ne by (intros Hin%Hsub; done). auto.
  - rewrite take_ge by (unfold install_writes; rewrite length_app, length_fmap; cbn; lia). rewrite replay_app.
    change (replay ?D' [(start, E0)]) with (<[start := E0]> D'). set (D2 := replay D _).
    assert (E : log_blocks ((<[start := E0]> D2) start) = []) by by rewrite fn_lookup_insert.
    split; [apply valid_log_of; auto|]. intros m Hm. rewrite recovered_empty by done.
    rewrite fn_lookup_insert_ne by (unfold in_log in Hm; lia). by apply installed.
Qed.
End Install.

Section Commit.
Context (g D : Z -> list Z) (E1 E0 : list Z).
Hypothesis (HE1 : log_blocks E1 = hs) (HE0 : log_blocks E0 = []) (HD : log_blocks (D start) = []).
Hypothesis (Hclean : forall m, m ∉ hs -> ~ in_log start size m -> g m = D m).

Definition commit_writes : list (Z * list Z) :=
  log_writes start 0 hs g ++ [(start, E1)] ++ install_writes hs g ++ [(start, E0)].

(** The disk once the header is written. *)
Let D1 := <[start := E1]> (replay D (log_writes start 0 hs g)).

Lemma committed_disk :
  log_blocks (D1 start) = hs /\ (forall i b, hs !! i = Some b -> D1 (start + 1 + Z.of_nat i) = g b) /\
  forall m, m ∉ hs -> ~ in_log start size m -> D1 m = g m.
Proof.
  unfold D1. split; [by rewrite fn_lookup_insert|]. split.
  - intros i b Hi. rewrite fn_lookup_insert_ne by lia. apply (replay_eq _ _ i); [apply log_writes_nodup|].
    rewrite log_writes_lookup, Hi. cbn. do 3 f_equal. lia.
  - intros m Hno Hm. rewrite fn_lookup_insert_ne by (unfold in_log in Hm; lia). rewrite replay_ne, Hclean; [done..|].
    intros H%log_writes_fst. unfold in_log in Hm. lia.
Qed.

(** Every prefix of the writes of a commit recovers to the old content, or, from
    the header on, to the new one. *)
Lemma commit_prefix k :
  let Dk := replay D (take k commit_writes) in
  valid_log start size Dk /\
  forall m, ~ in_log start size m -> recovered start Dk m = if decide (k <= length hs)%nat then D m else g m.
Proof.
  cbn zeta. unfold commit_writes. pose proof (length_imap (fun i b => (start + 0 + 1 + Z.of_nat i, g b)) hs) as Hl1.
  fold (log_writes start 0 hs g) in Hl1. case_decide as Hk.
  - rewrite take_app_le by lia. set (Dk := replay _ _).
    assert (Hout : forall m, ~ in_log start size m \/ m = start -> Dk m = D m).
    { intros m Hm. apply replay_ne. intros (w & -> & Hw)%list_elem_of_fmap.
      assert (w.1 ∈ (log_writes start 0 hs g).*1) as H%log_writes_fst
        by (apply list_elem_of_fmap_2; by apply subseteq_take in Hw).
      unfold in_log in Hm. lia. }
    assert (E : log_blocks (Dk start) = []) by (rewrite Hout by auto; done).
    split; [apply valid_log_of; auto|]. intros m Hm. rewrite recovered_empty by done. auto.
  - rewrite take_app_ge, replay_app by lia. rewrite Hl1. replace (k - length hs)%nat with (S (k - length hs - 1)) by lia.
    cbn [take app]. change (replay _ ((start, E1) :: ?l)) with (replay D1 l).
    destruct committed_disk as (H1 & H2 & H3). by apply install_prefix.
Qed.

Lemma commit_all m : ~ in_log start size m -> replay D commit_writes m = g m.
Proof.
  intros Hm. unfold commit_writes. rewrite replay_app. cbn [app].
  change (replay _ ((start, E1) :: ?l)) with (replay D1 l). rewrite replay_app.
  change (replay ?D' [(start, E0)]) with (<[start := E0]> D'). rewrite fn_lookup_insert_ne by (unfold in_log in Hm; lia).
  apply installed; [apply committed_disk|done].
Qed.
End Commit.
End Crash.

(** Recovery, cut off anywhere, leaves the content after recovery unchanged. *)
Lemma recovery_prefix start size D E0 j :
  valid_log start size D -> log_blocks E0 = [] ->
  let Dj := replay D (take j (install_writes (log_blocks (D start)) (recovered start D) ++ [(start, E0)])) in
  valid_log start size Dj /\ forall m, ~ in_log start size m -> recovered start Dj m = recovered start D m.
Proof.
  intros [H1 H2 H3] HE. apply install_prefix; [done..| |].
  - intros i b Hi. by rewrite (recovered_in _ _ H2 D i).
  - intros m Hm _. by rewrite (recovered_out _ (log_blocks (D start))).
Qed.

Lemma recovery_all start size D E0 m :
  valid_log start size D -> ~ in_log start size m ->
  replay D (install_writes (log_blocks (D start)) (recovered start D) ++ [(start, E0)]) m = recovered start D m.
Proof.
  intros [H1 H2 H3] Hm. rewrite replay_app. change (replay ?D' [(start, E0)]) with (<[start := E0]> D').
  rewrite fn_lookup_insert_ne by (unfold in_log in Hm; lia). apply (installed start size); [done| |done].
  intros m' Hm' _. by rewrite (recovered_out _ (log_blocks (D start))).
Qed.
