(* ===== verification/LogSpec.v ===== *)
(** * The log is crash-safe

    The exact disk writes of [commit] and of recovery, the invariant that the
    file system keeps between [begin_op] and [end_op], and atomicity: a crash at
    any point, also during recovery, leaves either none or all of a transaction. *)
From stdpp Require Import base gmap list numbers functions strings.
From Stdlib Require Import ZArith Lia.
From S2P Require Import Prelude Bytes.
From S2P Require Import Bio BlockCache Log LogDisk.
Open Scope Z_scope.

(** A block written through to the disk. *)
Definition v_through (n : Z) (d : list Z) (v : bview) : bview := v_write n d (v_set_block n d v).

Definition v_throughs (ws : list (Z * list Z)) (v : bview) : bview :=
  foldl (fun v w => v_through w.1 w.2 v) v ws.

Lemma v_throughs_eq ws v :
  v_throughs ws v = mk_bview (replay (v_disk v) ws) (v_writes v ++ ws) (replay (v_block v) ws)
                      (v_refs v) (v_held v) (v_other v).
Proof.
  revert v. unfold v_throughs. induction ws as [|[n d] ws IH]; intros v; cbn [foldl]; [cbn; rewrite app_nil_r; by destruct v|].
  rewrite IH. cbn. by rewrite <- app_assoc.
Qed.

(** The references after the blocks of [ws] have lost one each. *)
Definition dec_refs (ws : list (Z * list Z)) (r : Z -> Z) : Z -> Z :=
  foldl (fun r w => <[w.1 := u32 (r w.1 + -1)]> r) r ws.

(** A block written through that loses one reference. *)
Definition v_install (n : Z) (d : list Z) (v : bview) : bview := v_add_ref (-1) n (v_through n d v).
Definition v_installs (ws : list (Z * list Z)) (v : bview) : bview :=
  foldl (fun v w => v_install w.1 w.2 v) v ws.

Lemma v_installs_eq ws v :
  v_installs ws v = mk_bview (replay (v_disk v) ws) (v_writes v ++ ws) (replay (v_block v) ws)
                      (dec_refs ws (v_refs v)) (v_held v) (v_other v).
Proof.
  revert v. unfold v_installs. induction ws as [|[n d] ws IH]; intros v; cbn [foldl]; [cbn; rewrite app_nil_r; by destruct v|].
  rewrite IH. cbn. by rewrite <- app_assoc.
Qed.

Lemma dec_refs_out ws r m : m ∉ ws.*1 -> dec_refs ws r m = r m.
Proof.
  revert r. unfold dec_refs. induction ws as [|[n d] ws IH]; intros r Hm; [done|]. cbn in Hm |- *.
  apply not_elem_of_cons in Hm as [H1 H2]. rewrite IH by done. by rewrite fn_lookup_insert_ne.
Qed.

Lemma dec_refs_in ws r m : NoDup ws.*1 -> m ∈ ws.*1 -> dec_refs ws r m = u32 (r m + -1).
Proof.
  revert r. induction ws as [|[n d] ws IH]; intros r Hnd Hm; cbn in Hnd, Hm; [by apply elem_of_nil in Hm|].
  apply NoDup_cons in Hnd as [H1 H2]. change (dec_refs ((n, d) :: ws) r) with (dec_refs ws (<[n := u32 (r n + -1)]> r)).
  apply elem_of_cons in Hm as [->|Hm].
  - rewrite dec_refs_out by done. by rewrite fn_lookup_insert.
  - rewrite IH by done. rewrite fn_lookup_insert_ne by (intros ->; done). done.
Qed.

(** No buffer is locked by this process. *)
Record quiet (v : bview) : Prop := {
  q_held : v_held v = ∅;
  q_other n : n ∈ v_other v -> v_refs v n <> 0
}.

Lemma quiet_held_ok v : quiet v -> held_ok v.
Proof. intros [H1 H2]. split; [|done]. intros b n. by rewrite H1, lookup_empty. Qed.

Lemma quiet_unlocked v n : quiet v -> n ∉ v_other v -> unlocked n v.
Proof. intros [H1 _] Hn. split; [done|]. intros b. by rewrite H1, lookup_empty. Qed.

Lemma u32_inc_dec r : 0 <= r < 2 ^ 32 -> u32 (u32 (r + 1) + -1) = r.
Proof.
  intros Hr. unfold u32, wrap. rewrite Zplus_mod_idemp_l. replace (r + 1 + -1) with r by lia. by apply Z.mod_small.
Qed.

Lemma u32_inc_nz r : 0 <= r < 2 ^ 32 - 1 -> u32 (r + 1) = r + 1.
Proof. intros. apply u32_small. lia. Qed.

(** Both buffers released, in either order. *)
Lemma held_none (b1 b2 i j : nat) (n1 n2 : Z) :
  i = b1 /\ j = b2 \/ i = b2 /\ j = b1 -> delete i (delete j (<[b2 := n2]> (<[b1 := n1]> ∅))) = (∅ : gmap nat Z).
Proof.
  intros H. apply map_eq. intros b. rewrite lookup_empty. apply eq_None_not_Some. intros [x Hx].
  rewrite !lookup_delete_Some, !lookup_insert_Some, lookup_empty in Hx.
  destruct H as [[-> ->]|[-> ->]]; naive_solver.
Qed.

Section LogSpec.
Context {B : Type} `{BufCacheLaws B}.
Implicit Types (s : log_st B) (c : B) (v : bview).

Lemma on_bc_Ok {A} (m : M B A) s a c : m (lbc s) = Ok a c -> on_bc m s = Ok a (set_lbc c s).
Proof. intros E. unfold on_bc, zoom. by rewrite E. Qed.

(** Two buffers of a quiet process. *)
Lemma read_two dev c v n1 n2 :
  bc_rep dev c v -> quiet v -> n1 <> n2 -> 0 <= n1 < 2 ^ 32 -> 0 <= n2 < 2 ^ 32 ->
  n1 ∉ v_other v -> n2 ∉ v_other v -> v_refs v n1 <> 2 ^ 32 - 1 -> v_refs v n2 <> 2 ^ 32 - 1 ->
  v_refs v n1 <> 0 \/ has_room v ->
  v_refs v n2 <> 0 \/ has_room (v_add_ref 1 n1 v) ->
  exists b1 c1 b2 c2, bc_bread dev n1 c = Ok b1 c1 /\ bc_bread dev n2 c1 = Ok b2 c2 /\ b1 <> b2 /\
    bc_rep dev c2 (v_add_ref 1 n2 (v_add_ref 1 n1 (v_set_held (<[b2 := n2]> (<[b1 := n1]> ∅)) v))).
Proof.
  intros R Q Hne Hr1 Hr2 Ho1 Ho2 Hm1 Hm2 Hroom1 Hroom2.
  pose proof (bc_refs_range _ _ _ n1 R). pose proof (bc_refs_range _ _ _ n2 R).
  destruct (bc_bread_ok _ _ _ n1 R Hr1 (quiet_held_ok _ Q) (quiet_unlocked _ _ Q Ho1) Hroom1) as (b1 & c1 & E1 & _ & R1);
    [done|].
  rewrite (q_held _ Q) in R1.
  destruct (bc_bread_ok _ _ _ n2 R1 Hr2) as (b2 & c2 & E2 & Hf & R2); cbn.
  - split; cbn.
    + intros b n [(<- & <-)|(_ & E)]%lookup_insert_Some; [|by rewrite lookup_empty in E].
      rewrite fn_lookup_insert, u32_inc_nz by lia. lia.
    + intros n Hn%(q_other _ Q). unfold insert, fn_insert. case_decide; [|done]. subst. rewrite u32_inc_nz by lia. lia.
  - split; cbn; [done|]. intros b [(_ & E)|(_ & E)]%lookup_insert_Some; [done|by rewrite lookup_empty in E].
  - rewrite fn_lookup_insert_ne by done. destruct Hroom2; auto.
  - rewrite fn_lookup_insert_ne by done. done.
  - exists b1, c1, b2, c2. split; [done|]. split; [done|].
    assert (b1 <> b2) as Hb by (intros ->; cbn in Hf; by rewrite lookup_insert_eq in Hf).
    split; [done|]. exact R2.
Qed.

(** One block of [write_log]. *)
Lemma write_log_step s v tail k :
  let to := log_start s + tail + 1 in
  let from := lh_block s !!! Z.to_nat tail in
  bc_rep (log_dev s) (lbc s) v -> quiet v -> to <> from -> 0 <= to < 2 ^ 32 -> 0 <= from < 2 ^ 32 ->
  to ∉ v_other v -> from ∉ v_other v -> v_refs v to <> 2 ^ 32 - 1 -> v_refs v from <> 2 ^ 32 - 1 ->
  v_refs v from <> 0 -> has_room v ->
  exists c, write_log_loop tail (S k) s = write_log_loop (tail + 1) k (set_lbc c s) /\
    bc_rep (log_dev s) c (v_through to (v_block v from) v).
Proof.
  intros to from R Q Hne Hr1 Hr2 Ho1 Ho2 Hm1 Hm2 Hp Hroom.
  pose proof (bc_refs_range _ _ _ to R). pose proof (bc_refs_range _ _ _ from R).
  destruct (read_two _ _ _ to from R Q) as (tb & c1 & fb & c2 & E1 & E2 & Hb & R2); [done..|by right|by left|].
  cbn [write_log_loop]. erewrite bind_Ok by reflexivity. rewrite u32_small by done. fold to from.
  erewrite bind_Ok by (apply on_bc_Ok; exact E1). erewrite bind_Ok by (apply on_bc_Ok; exact E2).
  set (v2 := v_add_ref 1 from _) in R2.
  assert (Hh1 : v_held v2 !! tb = Some to) by (cbn; by rewrite lookup_insert_ne, lookup_insert_eq).
  assert (Hh2 : v_held v2 !! fb = Some from) by (cbn; by rewrite lookup_insert_eq).
  assert (Hto : v_refs v2 to = v_refs v to + 1)
    by (cbn; rewrite fn_lookup_insert_ne, fn_lookup_insert by done; apply u32_inc_nz; lia).
  destruct (bc_handle _ _ _ _ _ R2 Hh2) as [_ Ed]. change (v_block v2 from) with (v_block v from) in Ed.
  set (d := v_block v from) in *.
  pose proof (bc_set_data_ok _ _ _ _ _ d R2 Hh1 ltac:(lia) (bc_block_ok _ _ _ _ R)) as R3.
  erewrite bind_Ok by (apply on_bc_Ok; unfold copy_data, modify; cbn; rewrite Ed; reflexivity).
  destruct (bc_bwrite_ok _ _ _ tb to R3) as (c4 & E4 & R4); [done|].
  erewrite bind_Ok by (apply on_bc_Ok; exact E4).
  cbn in R4. rewrite fn_lookup_insert in R4.
  destruct (bc_brelse_ok _ _ _ fb from R4) as (c5 & E5 & R5); [done| |].
  { cbn. rewrite fn_lookup_insert, (fn_lookup_insert_ne _ to from) by done. rewrite u32_inc_nz by lia. lia. }
  erewrite bind_Ok by (apply on_bc_Ok; exact E5).
  destruct (bc_brelse_ok _ _ _ tb to R5) as (c6 & E6 & R6).
  { cbn. rewrite lookup_delete_ne, lookup_insert_ne, lookup_insert_eq by done. done. }
  { cbn. intros _. by rewrite !fn_lookup_insert. }
  erewrite bind_Ok by (apply on_bc_Ok; exact E6). exists c6. split; [done|].
  revert R6. apply bc_rep_proper. split; cbn; try done.
  - intros n. unfold insert, fn_insert. repeat case_decide; subst; try congruence; by rewrite u32_inc_dec.
  - by rewrite held_none, (q_held _ Q) by auto.
Qed.

(** One block of [install_trans]. *)
Lemma install_step s v tail k :
  let l := log_start s + tail + 1 in
  let h := lh_block s !!! Z.to_nat tail in
  bc_rep (log_dev s) (lbc s) v -> quiet v -> l <> h -> 0 <= l < 2 ^ 32 -> 0 <= h < 2 ^ 32 ->
  l ∉ v_other v -> h ∉ v_other v -> v_refs v l <> 2 ^ 32 - 1 -> v_refs v h <> 2 ^ 32 - 1 ->
  v_block v l = v_disk v l -> v_refs v l <> 0 \/ has_room v -> v_refs v h <> 0 \/ has_room (v_add_ref 1 l v) ->
  exists c, install_trans_loop tail (S k) s = install_trans_loop (tail + 1) k (set_lbc c s) /\
    bc_rep (log_dev s) c (v_install h (v_block v l) v).
Proof.
  intros l h R Q Hne Hr1 Hr2 Ho1 Ho2 Hm1 Hm2 Hcl Hroom1 Hroom2.
  pose proof (bc_refs_range _ _ _ l R). pose proof (bc_refs_range _ _ _ h R).
  destruct (read_two _ _ _ l h R Q) as (lb & c1 & hb & c2 & E1 & E2 & Hb & R2); [done..|].
  cbn [install_trans_loop]. erewrite bind_Ok by reflexivity. rewrite u32_small by done. fold l h.
  erewrite bind_Ok by (apply on_bc_Ok; exact E1). erewrite bind_Ok by (apply on_bc_Ok; exact E2).
  set (v2 := v_add_ref 1 h _) in R2.
  assert (Hh1 : v_held v2 !! lb = Some l) by (cbn; by rewrite lookup_insert_ne, lookup_insert_eq).
  assert (Hh2 : v_held v2 !! hb = Some h) by (cbn; by rewrite lookup_insert_eq).
  assert (Hh : v_refs v2 h = v_refs v h + 1)
    by (cbn; rewrite fn_lookup_insert, fn_lookup_insert_ne by done; apply u32_inc_nz; lia).
  destruct (bc_handle _ _ _ _ _ R2 Hh1) as [_ Ed]. change (v_block v2 l) with (v_block v l) in Ed.
  set (d := v_block v l) in *.
  pose proof (bc_set_data_ok _ _ _ _ _ d R2 Hh2 ltac:(lia) (bc_block_ok _ _ _ _ R)) as R3.
  erewrite bind_Ok by (apply on_bc_Ok; unfold copy_data, modify; cbn; rewrite Ed; reflexivity).
  destruct (bc_bwrite_ok _ _ _ hb h R3) as (c4 & E4 & R4); [done|].
  erewrite bind_Ok by (apply on_bc_Ok; exact E4). cbn in R4. rewrite fn_lookup_insert in R4.
  destruct (bc_bunpin_ok _ _ _ hb h R4) as (c5 & E5 & R5); [done|cbn; by rewrite !fn_lookup_insert|].
  erewrite bind_Ok by (apply on_bc_Ok; exact E5).
  destruct (bc_brelse_ok _ _ _ lb l R5) as (c6 & E6 & R6); [done|cbn; by rewrite !(fn_lookup_insert_ne _ h l)|].
  erewrite bind_Ok by (apply on_bc_Ok; exact E6).
  destruct (bc_brelse_ok _ _ _ hb h R6) as (c7 & E7 & R7).
  { cbn. by rewrite lookup_delete_ne, lookup_insert_eq by done. }
  { cbn. intros _. by rewrite !fn_lookup_insert. }
  erewrite bind_Ok by (apply on_bc_Ok; exact E7). exists c7. split; [done|].
  revert R7. apply bc_rep_proper. split; cbn; try done.
  - intros n. unfold insert, fn_insert. repeat case_decide; subst; try congruence; by rewrite u32_inc_dec.
  - by rewrite held_none, (q_held _ Q) by auto.
Qed.

(** [write_head]. *)
Lemma write_head_ok s v :
  let h := log_start s in
  bc_rep (log_dev s) (lbc s) v -> quiet v -> 0 <= h < 2 ^ 32 -> h ∉ v_other v -> v_refs v h <> 2 ^ 32 - 1 -> has_room v ->
  exists c, write_head s = Ok tt (set_lbc c s) /\
    bc_rep (log_dev s) c (v_through h (enc_head (lh_n s) (lh_block s) (v_block v h)) v).
Proof.
  intros h R Q Hr Ho Hm Hroom. pose proof (bc_refs_range _ _ _ h R).
  destruct (bc_bread_ok _ _ _ h R Hr (quiet_held_ok _ Q) (quiet_unlocked _ _ Q Ho)) as (b & c1 & E1 & _ & R1); [by right|done|].
  unfold write_head. erewrite bind_Ok by reflexivity. rewrite u32_small by done. fold h.
  erewrite bind_Ok by (apply on_bc_Ok; exact E1). set (v1 := v_add_ref 1 h _) in R1.
  assert (Hh : v_held v1 !! b = Some h) by (cbn; by rewrite lookup_insert_eq).
  destruct (bc_handle _ _ _ _ _ R1 Hh) as [_ Ed]. change (v_block v1 h) with (v_block v h) in Ed.
  set (d := enc_head (lh_n s) (lh_block s) (v_block v h)).
  assert (Hrefs : v_refs v1 h = v_refs v h + 1) by (cbn; rewrite fn_lookup_insert; apply u32_inc_nz; lia).
  pose proof (bc_set_data_ok _ _ _ _ _ d R1 Hh ltac:(lia) (enc_head_block _ _ _ (bc_block_ok _ _ _ _ R))) as R2.
  erewrite bind_Ok by (apply on_bc_Ok; unfold modify; cbn; rewrite Ed; reflexivity). fold (enc_head (lh_n s) (lh_block s) (v_block v h)). fold d.
  destruct (bc_bwrite_ok _ _ _ b h R2) as (c4 & E4 & R4); [done|].
  erewrite bind_Ok by (apply on_bc_Ok; exact E4). cbn in R4. rewrite fn_lookup_insert in R4.
  destruct (bc_brelse_ok _ _ _ b h R4) as (c5 & E5 & R5); [done|cbn; by rewrite !fn_lookup_insert|].
  exists c5. split; [by apply (on_bc_Ok _ (set_lbc c4 s))|].
  revert R5. apply bc_rep_proper. split; cbn; try done.
  - intros n. unfold insert, fn_insert. repeat case_decide; subst; try congruence; by rewrite u32_inc_dec.
  - by rewrite (q_held _ Q), delete_insert_eq, delete_empty.
Qed.

(** ** The loops *)

(** The blocks [hs] of a transaction, and the log they go through. *)
Record txn (start size : Z) (hs : list Z) (v : bview) : Prop := {
  tx_start : 0 <= start;
  tx_end : start + size <= 2 ^ 32;
  tx_len : Z.of_nat (length hs) < size;
  tx_nodup : NoDup hs;
  tx_home b : b ∈ hs -> ~ in_log start size b /\ 0 <= b < 2 ^ 32 /\ b ∉ v_other v /\ v_refs v b <> 2 ^ 32 - 1;
  tx_log m : in_log start size m -> m ∉ v_other v /\ v_refs v m <> 2 ^ 32 - 1
}.

Definition at_tail (s : log_st B) (tail : Z) (hs : list Z) : Prop :=
  0 <= tail /\ forall i b, hs !! i = Some b -> lh_block s !! (Z.to_nat tail + i)%nat = Some b.

Lemma at_tail_cons s c tail h hs :
  at_tail s tail (h :: hs) -> lh_block s !!! Z.to_nat tail = h /\ at_tail (set_lbc c s) (tail + 1) hs.
Proof.
  intros [H1 H2]. split.
  - apply list_lookup_total_correct. rewrite <- (Nat.add_0_r (Z.to_nat tail)). by apply (H2 0%nat).
  - split; [lia|]. intros i b Hi. cbn. replace (Z.to_nat (tail + 1) + i)%nat with (Z.to_nat tail + S i)%nat by lia. by apply H2.
Qed.

Lemma write_log_loop_ok size all g hs : forall s v tail,
  bc_rep (log_dev s) (lbc s) v -> quiet v -> has_room v -> txn (log_start s) size all v -> at_tail s tail hs ->
  hs ⊆ all -> tail + Z.of_nat (length hs) < size -> (forall b, b ∈ hs -> v_refs v b <> 0 /\ v_block v b = g b) ->
  exists c, write_log_loop tail (length hs) s = Ok tt (set_lbc c s) /\
    bc_rep (log_dev s) c (v_throughs (log_writes (log_start s) tail hs g) v).
Proof.
  induction hs as [|h hs IH]; intros s v tail R Q Hroom T Ht Hsub Hlen Hpin; cbn [length] in *.
  { exists (lbc s). split; [by destruct s|done]. }
  pose proof (proj1 Ht) as Ht0. destruct (at_tail_cons s (lbc s) tail h hs Ht) as [Eh _].
  pose proof (tx_start _ _ _ _ T) as Hs0. pose proof (tx_end _ _ _ _ T) as He.
  destruct (tx_home _ _ _ _ T h) as (Hh1 & Hh2 & Hh3 & Hh4); [apply Hsub; by left|].
  destruct (tx_log _ _ _ _ T (log_start s + tail + 1)) as (Hl1 & Hl2); [unfold in_log; lia|].
  destruct (Hpin h) as [Hp1 Hp2]; [by left|].
  destruct (write_log_step s v tail (length hs) R Q) as (c & E & R'); rewrite ?Eh; try done.
  { intros E. rewrite <- E in Hh1. apply Hh1. unfold in_log. lia. }
  { lia. }
  rewrite Eh, Hp2 in R'. rewrite E.
  destruct (IH (set_lbc c s) (v_through (log_start s + tail + 1) (g h) v) (tail + 1)) as (c' & E' & R''); try done.
  - destruct Q. by split.
  - destruct T. by split.
  - by apply (at_tail_cons s c) in Ht as [_ Ht].
  - set_solver.
  - lia.
  - intros b Hb. destruct (Hpin b) as [P1 P2]; [by right|]. split; [done|]. cbn. rewrite fn_lookup_insert_ne; [done|].
    intros <-. destruct (tx_home _ _ _ _ T (log_start s + tail + 1)) as (C & _); [apply Hsub; by right|].
    apply C. unfold in_log. lia.
  - exists c'. split; [exact E'|]. cbn. unfold log_writes in R'' |- *. cbn [imap]. rewrite Z.add_0_r.
    replace (imap _ hs) with (imap (fun i b => (log_start s + (tail + 1) + 1 + Z.of_nat i, g b)) hs); [exact R''|].
    apply imap_ext. intros i b _. cbn. f_equal. lia.
Qed.

Lemma install_loop_ok size g hs : forall s v tail,
  bc_rep (log_dev s) (lbc s) v -> quiet v -> txn (log_start s) size hs v -> at_tail s tail hs ->
  tail + Z.of_nat (length hs) < size ->
  (forall i b, hs !! i = Some b -> v_block v (log_start s + tail + 1 + Z.of_nat i) = g b /\
     v_disk v (log_start s + tail + 1 + Z.of_nat i) = g b) ->
  (forall i b, hs !! i = Some b -> let vi := v_installs (take i (install_writes hs g)) v in
     let l := log_start s + tail + 1 + Z.of_nat i in
     has_room vi /\ (v_refs vi b <> 0 \/ has_room (v_add_ref 1 l vi))) ->
  exists c, install_trans_loop tail (length hs) s = Ok tt (set_lbc c s) /\
    bc_rep (log_dev s) c (v_installs (install_writes hs g) v).
Proof.
  induction hs as [|h hs IH]; intros s v tail R Q T Ht Hlen Hlog Hroom; cbn [length] in *.
  { exists (lbc s). split; [by destruct s|done]. }
  pose proof (proj1 Ht) as Ht0. destruct (at_tail_cons s (lbc s) tail h hs Ht) as [Eh _].
  pose proof (tx_start _ _ _ _ T) as Hs0. pose proof (tx_end _ _ _ _ T) as He.
  destruct (tx_home _ _ _ _ T h) as (Hh1 & Hh2 & Hh3 & Hh4); [by left|].
  destruct (tx_log _ _ _ _ T (log_start s + tail + 1)) as (Hl1 & Hl2); [unfold in_log; lia|].
  destruct (Hlog 0%nat h eq_refl) as [P1 P2]. rewrite Z.add_0_r in P1, P2.
  destruct (Hroom 0%nat h eq_refl) as [Q1 Q2]. cbn in Q1, Q2. rewrite Z.add_0_r in Q2.
  pose proof (tx_nodup _ _ _ _ T) as [Hnh Hnd]%NoDup_cons.
  destruct (install_step s v tail (length hs) R Q) as (c & E & R'); rewrite ?Eh; try done; try (by right); try congruence.
  { intros E. rewrite <- E in Hh1. apply Hh1. unfold in_log. lia. }
  { lia. }
  rewrite Eh, P1 in R'. rewrite E.
  assert (Hlogne : forall i, (i < length hs)%nat -> h <> log_start s + (tail + 1) + 1 + Z.of_nat i).
  { intros i Hi ->. apply Hh1. unfold in_log. lia. }
  destruct (IH (set_lbc c s) (v_install h (g h) v) (tail + 1)) as (c' & E' & R''); try done.
  - destruct Q as [Q3 Q4]. split; [done|]. cbn. intros n Hn. rewrite fn_lookup_insert_ne; [by apply Q4|].
    by intros <-.
  - destruct T as [T1 T2 T3 _ T5 T6]. split; cbn in *; [done|done|lia|done| |].
    + intros b Hb. rewrite fn_lookup_insert_ne by (intros ->; done). apply T5. by right.
    + intros m Hm. rewrite fn_lookup_insert_ne by (intros <-; done). by apply T6.
  - by apply (at_tail_cons s c) in Ht as [_ Ht].
  - lia.
  - intros i b Hi. destruct (Hlog (S i) b Hi) as [G1 G2]. pose proof (lookup_lt_Some _ _ _ Hi) as Hlt. cbn.
    rewrite !fn_lookup_insert_ne by (apply Hlogne; lia).
    replace (log_start s + (tail + 1) + 1 + Z.of_nat i) with (log_start s + tail + 1 + Z.of_nat (S i)) by lia. done.
  - intros i b Hi. specialize (Hroom (S i) b Hi). cbn zeta in Hroom |- *. change (log_start (set_lbc c s)) with (log_start s).
    replace (log_start s + (tail + 1) + 1 + Z.of_nat i) with (log_start s + tail + 1 + Z.of_nat (S i)) by lia. exact Hroom.
  - by exists c'.
Qed.

(** ** The invariant of the log *)

(** The blocks of the transaction in progress. *)
Definition homes (s : log_st B) : list Z := take (Z.to_nat (lh_n s)) (lh_block s).

(** Every block that differs from the disk is in the transaction and pinned in the
    cache, except for the blocks [X] that the running process has changed and not
    yet logged; the log on the disk is empty. *)
Record log_ok (X : gset Z) (s : log_st B) (v : bview) : Prop := {
  lo_rep : bc_rep (log_dev s) (lbc s) v;
  lo_n : 0 <= lh_n s < log_size s;
  lo_size : log_size s <= LOGSIZE;
  lo_len : length (lh_block s) = Z.to_nat LOGSIZE;
  lo_bits : Forall (fun b => 0 <= b < 2 ^ 32) (lh_block s);
  lo_start : 0 <= log_start s;
  lo_end : log_start s + log_size s <= 2 ^ 32;
  lo_nodup : NoDup (homes s);
  lo_home b : b ∈ homes s -> ~ in_log (log_start s) (log_size s) b /\ v_refs v b <> 0;
  lo_clean m : m ∉ homes s -> m ∉ X -> ~ in_log (log_start s) (log_size s) m -> v_block v m = v_disk v m;
  lo_log m : in_log (log_start s) (log_size s) m -> v_block v m = v_disk v m;
  lo_head : log_blocks (v_disk v (log_start s)) = []
}.

(** No process holds a buffer that a commit needs, and a buffer is left for it. *)
Record idle (s : log_st B) (v : bview) : Prop := {
  id_quiet : quiet v;
  id_room : has_room v;
  id_free m : m ∈ homes s \/ in_log (log_start s) (log_size s) m -> m ∉ v_other v /\ v_refs v m <> 2 ^ 32 - 1
}.

Lemma length_homes X s v : log_ok X s v -> length (homes s) = Z.to_nat (lh_n s).
Proof.
  intros L. unfold homes. rewrite length_take, (lo_len _ _ _ L).
  pose proof (lo_n _ _ _ L). pose proof (lo_size _ _ _ L). lia.
Qed.

Lemma log_txn X s v : log_ok X s v -> idle s v -> txn (log_start s) (log_size s) (homes s) v.
Proof.
  intros L I. pose proof (length_homes _ _ _ L) as Hl. pose proof (lo_n _ _ _ L).
  split; try apply L; [lia| |].
  - intros b Hb. split; [by apply L|]. split; [|apply I; auto].
    apply subseteq_take in Hb. pose proof (lo_bits _ _ _ L) as HF. rewrite Forall_forall in HF. by apply HF.
  - intros m Hm. apply I. auto.
Qed.

Lemma homes_at_tail X s v : log_ok X s v -> at_tail s 0 (homes s).
Proof.
  intros L. split; [done|]. intros i b Hi. cbn. unfold homes in Hi. by apply lookup_take_Some in Hi as [? _].
Qed.

Lemma log_clean s v m : log_ok ∅ s v -> m ∉ homes s -> ~ in_log (log_start s) (log_size s) m -> v_block v m = v_disk v m.
Proof. intros L H1 H2. apply L; [done|apply not_elem_of_empty|done]. Qed.

(** Fewer references leave more room. *)
Lemma has_room_mono v v' : (forall m, v_refs v' m <> 0 -> v_refs v m <> 0) -> has_room v -> has_room v'.
Proof. intros Hr (X & HX & Hin). exists X. split; [done|]. auto. Qed.

(** ** Commit *)

Section Commit.
Context (s : log_st B) (v : bview).
Hypothesis (L : log_ok ∅ s v) (I : idle s v) (Hn : 0 < lh_n s).

Let start := log_start s.
Let hs := homes s.
Let g := v_block v.
Let E1 := enc_head (lh_n s) (lh_block s) (v_block v start).
Let E0 := enc_head 0 (lh_block s) E1.
Let w1 := v_throughs (log_writes start 0 hs g) v.
Let w2 := v_through start E1 w1.
Let w3 := v_installs (install_writes hs g) w2.

Lemma commit_heads : log_blocks E1 = hs /\ log_blocks E0 = [].
Proof.
  pose proof (bc_block_ok _ _ _ start (lo_rep _ _ _ L)). pose proof (lo_n _ _ _ L). pose proof (lo_size _ _ _ L).
  pose proof (lo_len _ _ _ L). unfold LOGSIZE, MAXOPBLOCKS in *. split.
  - apply log_blocks_enc; [done|unfold LOGSIZE, MAXOPBLOCKS; lia|lia|apply L].
  - unfold E0. rewrite log_blocks_enc; [done| |done|lia|apply L]. by apply enc_head_block.
Qed.

Lemma in_log_start : in_log start (log_size s) start.
Proof. pose proof (lo_n _ _ _ L). unfold in_log. lia. Qed.

(** The log area while the transaction is committed. *)
Lemma w2_log i b : hs !! i = Some b -> v_block w2 (start + 0 + 1 + Z.of_nat i) = g b /\ v_disk w2 (start + 0 + 1 + Z.of_nat i) = g b.
Proof.
  intros Hi. unfold w2, w1. rewrite v_throughs_eq. cbn. rewrite !fn_lookup_insert_ne by lia.
  split; (apply (replay_eq _ _ i); [apply log_writes_nodup|]; by rewrite log_writes_lookup, Hi).
Qed.

Lemma log_writes_out m : ~ in_log start (log_size s) m \/ m = start -> m ∉ (log_writes start 0 hs g).*1.
Proof.
  intros Hm Hin. apply log_writes_fst in Hin. unfold hs in Hin. rewrite (length_homes _ _ _ L) in Hin.
  pose proof (lo_n _ _ _ L). unfold in_log in Hm. lia.
Qed.

Lemma install_writes_out m : in_log start (log_size s) m -> m ∉ (install_writes hs g).*1.
Proof. intros Hm. rewrite install_writes_fst. intros Hin%(lo_home _ _ _ L). by destruct Hin. Qed.

Lemma w3_refs m : v_refs w3 m = if decide (m ∈ hs) then u32 (v_refs v m + -1) else v_refs v m.
Proof.
  unfold w3, w2, w1. rewrite v_installs_eq, v_throughs_eq. cbn. case_decide.
  - rewrite dec_refs_in; [done| |]; rewrite install_writes_fst; [apply L|done].
  - rewrite dec_refs_out; [done|]. by rewrite install_writes_fst.
Qed.

(** Enough buffers for every step of the installation. *)
Lemma w2_room i b : hs !! i = Some b ->
  let vi := v_installs (take i (install_writes hs g)) w2 in
  has_room vi /\ (v_refs vi b <> 0 \/ has_room (v_add_ref 1 (start + 0 + 1 + Z.of_nat i) vi)).
Proof.
  intros Hi. cbn zeta. rewrite v_installs_eq. cbn. unfold w2, w1. rewrite v_throughs_eq. cbn.
  assert (Hfst : (take i (install_writes hs g)).*1 = take i hs) by by rewrite fmap_take, install_writes_fst.
  pose proof (lo_nodup _ _ _ L) as Hnd. fold hs in Hnd. split.
  - apply (has_room_mono v); [|apply I]. cbn. intros m Hm. destruct (decide (m ∈ take i hs)) as [Hin|Hno].
    + apply subseteq_take in Hin. by apply (lo_home _ _ _ L).
    + by rewrite dec_refs_out in Hm by by rewrite Hfst.
  - left. rewrite dec_refs_out; [|].
    + apply (lo_home _ _ _ L). by eapply list_elem_of_lookup_2.
    + rewrite Hfst. intros (j & Hj & Hlt)%elem_of_take. pose proof (NoDup_lookup _ _ _ _ Hnd Hi Hj). lia.
Qed.

Lemma w3_quiet : quiet w3.
Proof.
  pose proof (id_quiet _ _ I) as Q. split; unfold w3; rewrite v_installs_eq; unfold w2, w1; rewrite v_throughs_eq; cbn; [apply Q|].
  intros n Ho. rewrite dec_refs_out; [by apply Q|]. rewrite install_writes_fst. intros Hin.
  by destruct (id_free _ _ I n (or_introl Hin)).
Qed.

Lemma commit_run :
  exists c, commit s = Ok tt (set_lbc c (set_lh 0 (lh_block s) s)) /\ bc_rep (log_dev s) c (v_through start E0 w3).
Proof.
  pose proof (log_txn _ _ _ L I) as T. pose proof (id_quiet _ _ I) as Q. pose proof (length_homes _ _ _ L) as Hl.
  destruct (id_free _ _ I start (or_intror in_log_start)) as [Ho Hr]. pose proof (lo_start _ _ _ L). pose proof (lo_end _ _ _ L).
  pose proof (lo_n _ _ _ L).
  unfold commit. erewrite bind_Ok by reflexivity. destruct (Z.ltb_spec 0 (lh_n s)); [|lia].
  destruct (write_log_loop_ok (log_size s) hs g hs s v 0 (lo_rep _ _ _ L) Q (id_room _ _ I) T (homes_at_tail _ _ _ L))
    as (c1 & E1' & R1); [done|unfold hs; lia|intros b Hb; split; [by apply L|done]|].
  unfold write_log. unfold hs in E1'. rewrite Hl in E1'. erewrite bind_Ok by exact E1'. fold start hs w1 in R1.
  assert (Q1 : quiet w1) by (unfold w1; rewrite v_throughs_eq; destruct Q; by split).
  destruct (write_head_ok (set_lbc c1 s) w1 R1 Q1) as (c2 & E2 & R2); unfold w1; rewrite ?v_throughs_eq; try done;
    [cbn; fold start; lia|apply I|].
  erewrite bind_Ok by exact E2. fold w1 in R2. cbn in R2. fold start in R2.
  replace (v_block w1 start) with (v_block v start) in R2
    by (unfold w1; rewrite v_throughs_eq; symmetry; apply replay_ne, log_writes_out; auto). fold E1 w2 in R2.
  destruct (install_loop_ok (log_size s) g hs (set_lbc c2 s) w2 0) as (c3 & E3 & R3).
  { done. }
  { destruct Q1. by split. }
  { unfold w2, w1. rewrite v_throughs_eq. destruct T. by split. }
  { apply (homes_at_tail _ _ _ L). }
  { unfold hs. lia. }
  { exact w2_log. }
  { exact w2_room. }
  unfold install_trans. unfold hs in E3. rewrite Hl in E3. erewrite bind_Ok by exact E3. fold hs w3 in R3.
  erewrite bind_Ok by reflexivity.
  destruct (write_head_ok (set_lh 0 (lh_block s) (set_lbc c3 s)) w3 R3) as (c4 & E4 & R4).
  { apply w3_quiet. }
  { cbn. fold start. lia. }
  { unfold w3. rewrite v_installs_eq. unfold w2, w1. by rewrite v_throughs_eq. }
  { cbn. fold start. rewrite w3_refs, decide_False; [done|]. intros [Hin _]%(lo_home _ _ _ L). by apply Hin, in_log_start. }
  { apply (has_room_mono v); [|apply I]. intros m. rewrite w3_refs. case_decide; [|done]. intros _. by apply (lo_home _ _ _ L). }
  exists c4. split; [exact E4|]. cbn in R4. fold start in R4.
  replace (v_block w3 start) with E1 in R4; [exact R4|].
  unfold w3. rewrite v_installs_eq. cbn. rewrite replay_ne by (apply install_writes_out, in_log_start).
  by rewrite fn_lookup_insert.
Qed.

Lemma commit_view :
  v_through start E0 w3 =
    mk_bview (replay (v_disk v) (commit_writes start hs g E1 E0)) (v_writes v ++ commit_writes start hs g E1 E0)
      (replay (v_block v) (commit_writes start hs g E1 E0)) (dec_refs (install_writes hs g) (v_refs v)) (v_held v) (v_other v).
Proof.
  unfold v_through, v_write, v_set_block, w3. rewrite v_installs_eq. unfold w2, w1. rewrite v_throughs_eq. cbn.
  unfold commit_writes. rewrite !replay_app, <- !app_assoc. done.
Qed.

Lemma commit_txn_facts :
  Z.of_nat (length hs) < log_size s /\ NoDup hs /\ (forall b, b ∈ hs -> ~ in_log start (log_size s) b).
Proof. destruct (log_txn _ _ _ L I). split; [done|]. split; [done|]. intros b Hb. by apply (lo_home _ _ _ L). Qed.

Lemma commit_log_ok c :
  bc_rep (log_dev s) c (v_through start E0 w3) -> log_ok ∅ (set_lbc c (set_lh 0 (lh_block s) s)) (v_through start E0 w3).
Proof.
  intros R. destruct commit_txn_facts as (H1 & H2 & H3). destruct commit_heads as [G1 G0].
  pose proof (lo_n _ _ _ L). pose proof (fun m => log_clean s v m L) as L9. destruct L as [_ _ L2 L3 L4 L5 L6 _ _ _ L10 L11].
  split; try done; cbn; unfold homes; cbn.
  - lia.
  - by constructor.
  - intros b Hb. by apply elem_of_nil in Hb.
  - intros m _ _ Hm. change (v_block (v_through start E0 w3) m = v_disk (v_through start E0 w3) m). rewrite commit_view. cbn.
    rewrite !(commit_all start (log_size s)) by (done || (intros; symmetry; by apply L9)). done.
  - intros m Hm. change (v_block (v_through start E0 w3) m = v_disk (v_through start E0 w3) m). rewrite commit_view. cbn.
    by apply replay_at, L10.
  - by rewrite fn_lookup_insert.
Qed.
End Commit.

(** What a transaction does to the disk: its writes in order, the number of writes
    before the commit point, and the content of the disk at every crash. *)
Definition atomic_update (start size : Z) (old new : Z -> list Z) (ws : list (Z * list Z)) : Prop :=
  exists cp, forall k, let D := replay old (take k ws) in
    valid_log start size D /\
    forall m, ~ in_log start size m -> recovered start D m = if decide (k <= cp)%nat then old m else new m.

(** The state after the commit of a transaction that wrote [ws]. *)
Record committed (s : log_st B) (v : bview) (s' : log_st B) (v' : bview) (ws : list (Z * list Z)) : Prop := {
  cm_log : log_ok ∅ s' v';
  cm_homes : homes s' = [];
  cm_out : outstanding s' = 0;
  cm_com : committing s' = 0;
  cm_start : log_start s' = log_start s;
  cm_size : log_size s' = log_size s;
  cm_dev : log_dev s' = log_dev s;
  cm_writes : v_writes v' = v_writes v ++ ws;
  cm_disk m : v_disk v' m = replay (v_disk v) ws m;
  cm_block m : ~ in_log (log_start s) (log_size s) m -> v_disk v' m = v_block v m /\ v_block v' m = v_block v m;
  cm_atomic : atomic_update (log_start s) (log_size s) (v_disk v) (v_block v) ws;
  cm_refs m : v_refs v' m = if decide (m ∈ homes s) then u32 (v_refs v m + -1) else v_refs v m;
  cm_held : v_held v' = v_held v;
  cm_other : v_other v' = v_other v
}.

Lemma end_op_commits s v :
  log_ok ∅ s v -> idle s v -> outstanding s = 1 -> committing s = 0 ->
  exists s' v' ws, end_op s = Ok tt s' /\ committed s v s' v' ws.
Proof.
  intros L I Ho Hc. unfold end_op. do 2 erewrite bind_Ok by reflexivity.
  cbn [committing outstanding set_ops]. rewrite Hc, Ho. change (negb (0 =? 0)) with false. change (1 - 1 =? 0) with true.
  cbn iota. erewrite bind_Ok by reflexivity. set (s1 := set_ops _ _ _).
  assert (L1 : log_ok ∅ s1 v) by (destruct L; by split). assert (I1 : idle s1 v) by (destruct I; by split).
  destruct (decide (0 < lh_n s)) as [Hn|Hn].
  - destruct (commit_run s1 v L1 I1 Hn) as (c & E & R). erewrite bind_Ok by exact E.
    pose proof (commit_log_ok s1 v L1 I1 Hn c R) as L2. pose proof (commit_view s1 v) as Ev. cbn zeta in Ev.
    destruct (commit_txn_facts s1 v L1 I1) as (H1 & H2 & H3). destruct (commit_heads s1 v L1 Hn) as [G1 G0].
    set (ws := commit_writes _ _ _ _ _) in Ev. rewrite Ev in L2. match type of L2 with log_ok _ _ ?w => eexists _, w, ws end.
    split; [reflexivity|]. pose proof (fun m => log_clean _ _ m L1) as Hcl. split; try done.
    + destruct L2; by split.
    + intros m Hm. cbn. unfold ws. rewrite !(commit_all _ (log_size s1)) by (done || (intros; by apply Hcl)). done.
    + exists (length (homes s)). intros k. apply (commit_prefix _ (log_size s1)); try done. apply L1.
    + intros m. cbn. change (homes s1) with (homes s). case_decide.
      * rewrite dec_refs_in; [done| |]; rewrite install_writes_fst; [apply L|done].
      * rewrite dec_refs_out; [done|]. by rewrite install_writes_fst.
  - assert (E : commit s1 = Ok tt s1).
    { unfold commit. erewrite bind_Ok by reflexivity. destruct (Z.ltb_spec 0 (lh_n s1)); [done|]. done. }
    erewrite bind_Ok by exact E. pose proof (lo_n _ _ _ L) as Hn0. assert (Hh : homes s = []).
    { unfold homes. by replace (Z.to_nat (lh_n s)) with 0%nat by lia. }
    assert (Hcl : forall m, ~ in_log (log_start s) (log_size s) m -> v_block v m = v_disk v m).
    { intros m Hm. apply (log_clean s v m L); [|done]. rewrite Hh. apply not_elem_of_nil. }
    eexists _, v, []. split; [reflexivity|]. split; try done.
    + destruct L1; by split.
    + by rewrite app_nil_r.
    + intros m Hm. by rewrite Hcl.
    + exists 0%nat. intros k. rewrite take_nil. cbn. pose proof (lo_head _ _ _ L) as Hd. split.
      * split; rewrite Hd; cbn; [lia|by constructor|]. intros b Hb. by apply elem_of_nil in Hb.
      * intros m Hm. rewrite recovered_empty by done. case_decide; [done|]. by rewrite Hcl.
    + intros m. rewrite Hh. rewrite decide_False; [done|]. apply not_elem_of_nil.
Qed.

(** C2: [end_op] of the last outstanding operation commits its transaction: it
    returns, the disk then has the new content of every block outside the log, the log
    is empty again, and the transaction is atomic: a crash after any prefix of the disk
    writes leaves a disk that recovers to the old content of every block or to the new
    content of every block. *)
Theorem end_op_atomic s v :
  log_ok ∅ s v -> idle s v -> outstanding s = 1 -> committing s = 0 ->
  exists s' v' ws, end_op s = Ok tt s' /\ log_ok ∅ s' v' /\ homes s' = [] /\ outstanding s' = 0 /\ committing s' = 0 /\
    v_writes v' = v_writes v ++ ws /\ (forall m, v_disk v' m = replay (v_disk v) ws m) /\
    (forall m, ~ in_log (log_start s) (log_size s) m -> v_disk v' m = v_block v m /\ v_block v' m = v_block v m) /\
    atomic_update (log_start s) (log_size s) (v_disk v) (v_block v) ws.
Proof.
  intros L I Ho Hc. destruct (end_op_commits s v L I Ho Hc) as (s' & v' & ws & E & []).
  exists s', v', ws. by do 7 (split; [done|]).
Qed.
End LogSpec.
