(* ===== verification/LogOps.v ===== *)
(** * Inside a transaction, and recovery

    [log_write] adds a block to the transaction or absorbs it, [begin_op] reserves
    space, and [initlog] replays a committed transaction after a crash. *)
From stdpp Require Import base gmap list numbers functions strings.
From Stdlib Require Import ZArith Lia.
From S2P Require Import Prelude Bytes.
From S2P Require Import Bio BlockCache Log LogDisk LogSpec BioSpec.
Open Scope Z_scope.

Section LogOps.
Context {B : Type} `{BufCacheLaws B}.
Implicit Types (s : log_st B) (c : B) (v : bview).

Lemma absorb_spec bs n k : forall i0, 0 <= i0 ->
  let i := absorb bs n i0 k in
  i0 <= i <= i0 + Z.of_nat k /\ (i < i0 + Z.of_nat k -> bs !!! Z.to_nat i = n) /\
  (forall j, i0 <= j < i -> bs !!! Z.to_nat j <> n).
Proof.
  induction k as [|k IH]; intros i0 Hi; cbn; [split; [lia|]; split; intros; lia|]. destruct (Z.eqb_spec (bs !!! Z.to_nat i0) n) as [E|E].
  - split; [lia|]. split; [done|lia].
  - destruct (IH (i0 + 1) ltac:(lia)) as (H1 & H2 & H3). split; [lia|]. split; [intros; apply H2; lia|].
    intros j Hj. destruct (decide (j = i0)) as [->|]; [done|]. apply H3. lia.
Qed.

(** The index [log_write] finds: that of the block in the transaction, or its
    length. *)
Lemma absorb_homes X s v n :
  log_ok X s v ->
  let i := absorb (lh_block s) n 0 (Z.to_nat (lh_n s)) in
  n ∈ homes s /\ i <> lh_n s /\ 0 <= i < lh_n s /\ lh_block s !! Z.to_nat i = Some n \/ n ∉ homes s /\ i = lh_n s.
Proof.
  intros L. pose proof (lo_n _ _ _ L). pose proof (lo_size _ _ _ L). pose proof (lo_len _ _ _ L).
  destruct (absorb_spec (lh_block s) n (Z.to_nat (lh_n s)) 0 ltac:(done)) as (A1 & A2 & A3). cbn zeta.
  set (i := absorb _ _ _ _) in *. destruct (decide (i = lh_n s)) as [E|E].
  - right. split; [|done]. intros (j & Hj & Hlt)%elem_of_take.
    apply (A3 (Z.of_nat j)); [lia|]. rewrite Nat2Z.id. by apply list_lookup_total_correct.
  - left. assert (Hi : lh_block s !! Z.to_nat i = Some n).
    { rewrite (list_lookup_lookup_total_lt (lh_block s) (Z.to_nat i)) by lia. f_equal. apply A2. lia. }
    split; [|split; [done|split; [lia|done]]]. apply elem_of_take. exists (Z.to_nat i). split; [done|lia].
Qed.

Lemma homes_snoc X s v n b c :
  log_ok X s v -> lh_n s < LOGSIZE ->
  homes (set_lh (lh_n s + 1) (<[Z.to_nat (lh_n s) := n]> (lh_block s)) (set_lbc c b)) = homes s ++ [n].
Proof.
  intros L Hn. pose proof (lo_n _ _ _ L). pose proof (lo_len _ _ _ L). unfold homes. cbn.
  replace (Z.to_nat (lh_n s + 1)) with (S (Z.to_nat (lh_n s))) by lia.
  rewrite (take_S_r _ _ n), take_insert_ge; [done|lia|]. apply list_lookup_insert_eq. lia.
Qed.

(** The fields of the log other than the transaction. *)
Definition same_log (s s' : log_st B) : Prop :=
  log_start s' = log_start s /\ log_size s' = log_size s /\ log_dev s' = log_dev s /\
  outstanding s' = outstanding s /\ committing s' = committing s.

Lemma log_write_ok X s v b n :
  log_ok X s v -> v_held v !! b = Some n -> ~ in_log (log_start s) (log_size s) n -> 0 <= n < 2 ^ 32 ->
  v_refs v n <> 0 -> v_refs v n <> 2 ^ 32 - 1 -> lh_n s < log_size s - 1 -> 1 <= outstanding s ->
  exists s', log_write b s = Ok tt s' /\ same_log s s' /\
    homes s' = (if decide (n ∈ homes s) then homes s else homes s ++ [n]) /\
    log_ok (X ∖ {[ n ]}) s' (if decide (n ∈ homes s) then v else v_add_ref 1 n v).
Proof.
  intros L Hh Hlog Hn Hr0 Hrm Hfull Ho. pose proof (lo_n _ _ _ L). pose proof (lo_size _ _ _ L). pose proof (lo_len _ _ _ L) as Hlen.
  destruct (bc_handle _ _ _ _ _ (lo_rep _ _ _ L) Hh) as [Eb _]. pose proof (bc_refs_range _ _ _ n (lo_rep _ _ _ L)).
  unfold log_write. erewrite bind_Ok by reflexivity.
  destruct (Z.leb_spec LOGSIZE (lh_n s)); [lia|]. destruct (Z.leb_spec (log_size s - 1) (lh_n s)); [lia|]. cbn [orb].
  destruct (Z.ltb_spec (outstanding s) 1); [lia|]. rewrite Eb. erewrite bind_Ok by reflexivity.
  destruct (absorb_homes X s v n L) as [(Hin & Hne & Hi & Hb)|(Hno & Ei)].
  - rewrite (list_insert_id _ _ _ Hb). destruct (Z.eqb_spec (absorb (lh_block s) n 0 (Z.to_nat (lh_n s))) (lh_n s)); [done|].
    exists s. split; [by destruct s|]. split; [done|]. rewrite !decide_True by done. split; [done|].
    destruct L as [L1 L2 L3 L4 L5 L6 L7 L8 L9 L10 L11 L12]. split; try done. intros m Hm HX Hml. apply L10; [done| |done].
    set_solver.
  - rewrite Ei, Z.eqb_refl. rewrite !decide_False by done.
    destruct (bc_bpin_ok _ _ _ b n (lo_rep _ _ _ L) Hh ltac:(done)) as (c & E & R).
    erewrite bind_Ok by (apply on_bc_Ok; exact E). eexists. split; [reflexivity|]. split; [done|].
    pose proof (homes_snoc X s v n s c L ltac:(lia)) as Hs. split; [exact Hs|].
    destruct L as [L1 L2 L3 L4 L5 L6 L7 L8 L9 L10 L11 L12]. split; try done; cbn.
    + lia.
    + by rewrite length_insert.
    + by apply Forall_insert.
    + change (NoDup (homes (set_lh (lh_n s + 1) (<[Z.to_nat (lh_n s) := n]> (lh_block s)) (set_lbc c s)))).
      rewrite Hs. apply NoDup_app. split; [done|]. split; [|apply NoDup_singleton]. intros x Hx ->%list_elem_of_singleton. done.
    + intros m. change (homes _) with (homes (set_lh (lh_n s + 1) (<[Z.to_nat (lh_n s) := n]> (lh_block s)) (set_lbc c s))).
      rewrite Hs, elem_of_app, list_elem_of_singleton. unfold insert, fn_insert. intros [Hm| ->].
      * split; [by apply L9|]. case_decide; [subst; done|]. by apply L9.
      * split; [done|]. rewrite decide_True, u32_inc_nz by (done || lia). lia.
    + intros m. change (homes _) with (homes (set_lh (lh_n s + 1) (<[Z.to_nat (lh_n s) := n]> (lh_block s)) (set_lbc c s))).
      rewrite Hs. intros Hm HX Hml. apply L10; [set_solver|set_solver|done].
Qed.

(** [log_write] of a changed block puts it in the transaction once: a block that
    is already there is absorbed; a new one is appended and pinned in the cache.  The
    content of every block stays what it was, and the block counts as logged.  It
    panics exactly when the log is full (then also for a block it could absorb) or no
    operation has begun. *)
Theorem log_write_logs X s v b n :
  log_ok X s v -> v_held v !! b = Some n -> ~ in_log (log_start s) (log_size s) n -> 0 <= n < 2 ^ 32 ->
  v_refs v n <> 0 -> v_refs v n <> 2 ^ 32 - 1 ->
  match log_write b s with
  | Ok _ s' =>
      lh_n s < log_size s - 1 /\ 1 <= outstanding s /\ same_log s s' /\
      homes s' = (if decide (n ∈ homes s) then homes s else homes s ++ [n]) /\
      log_ok (X ∖ {[ n ]}) s' (if decide (n ∈ homes s) then v else v_add_ref 1 n v)
  | Panic msg =>
      lh_n s = log_size s - 1 /\ msg = "too big a transaction"%string \/
      lh_n s < log_size s - 1 /\ outstanding s < 1 /\ msg = "log_write outside of trans"%string
  | Block _ _ | Diverge => False
  end.
Proof.
  intros L Hh Hlog Hn Hr0 Hrm. pose proof (lo_n _ _ _ L). pose proof (lo_size _ _ _ L).
  destruct (decide (lh_n s < log_size s - 1 /\ 1 <= outstanding s)) as [[H1' H2']|Hno].
  - destruct (log_write_ok X s v b n) as (s' & -> & H'); auto.
  - unfold log_write, bind, get. destruct (Z.leb_spec LOGSIZE (lh_n s)); [lia|].
    destruct (Z.leb_spec (log_size s - 1) (lh_n s)); cbn; [left; split; [lia|done]|].
    destruct (Z.ltb_spec (outstanding s) 1); [|lia]. right. done.
Qed.

(** The invariant only depends on the view. *)
Lemma log_ok_view X X' s v c v' o cm :
  log_ok X s v -> bc_rep (log_dev s) c v' -> (forall m, v_disk v' m = v_disk v m) ->
  (forall m, m ∉ X' -> v_block v' m = v_block v m) -> X ⊆ X' ->
  (forall m, m ∈ X' -> ~ in_log (log_start s) (log_size s) m) ->
  (forall b, b ∈ homes s -> v_refs v' b <> 0) -> log_ok X' (set_lbc c (set_ops o cm s)) v'.
Proof.
  intros [L1 L2 L3 L4 L5 L6 L7 L8 L9 L10 L11 L12] R Hd Hb HX Hlog Hr.
  split; try done; change (homes (set_lbc c (set_ops o cm s))) with (homes s); cbn.
  - intros b Hin. split; [by apply L9|by apply Hr].
  - intros m H1' H2' H3'. rewrite Hd, Hb by done. apply L10; [done|set_solver|done].
  - intros m Hm. rewrite Hd, Hb; [by apply L11|]. intros Hin. by apply (Hlog m).
  - by rewrite Hd.
Qed.

(** ** Recovery *)

Lemma read_blocks_ok d k : forall i s, 0 <= i -> i + Z.of_nat k <= LOGSIZE -> length (lh_block s) = Z.to_nat LOGSIZE ->
  exists bs, read_blocks d i k s = Ok tt (set_lh (lh_n s) bs s) /\ length bs = length (lh_block s) /\
    forall j, bs !! j = if decide (i <= Z.of_nat j < i + Z.of_nat k) then Some (get32 (off_block (Z.of_nat j)) d)
                        else lh_block s !! j.
Proof.
  induction k as [|k IH]; intros i s Hi Hk Hl; cbn [read_blocks].
  { exists (lh_block s). split; [by destruct s|]. split; [done|]. intros j. by rewrite decide_False by lia. }
  erewrite bind_Ok by reflexivity. destruct (Z.leb_spec LOGSIZE i); [lia|]. erewrite bind_Ok by reflexivity.
  destruct (IH (i + 1) (set_lh (lh_n s) (<[Z.to_nat i := get32 (off_block i) d]> (lh_block s)) s)) as (bs & E & Hbl & Hb);
    [lia|lia|cbn; by rewrite length_insert|].
  exists bs. split; [exact E|]. cbn in Hbl, Hb. rewrite length_insert in Hbl. split; [done|]. intros j. rewrite Hb.
  destruct (decide (j = Z.to_nat i)) as [->|Hne].
  - rewrite decide_False, decide_True by lia. rewrite list_lookup_insert_eq by lia. by rewrite Z2Nat.id.
  - rewrite list_lookup_insert_ne by done. repeat case_decide; try lia; done.
Qed.

(** The cache of a machine that has just booted from the disk [D]. *)
Record fresh (D : Z -> list Z) (v : bview) : Prop := {
  fr_disk n : v_disk v n = D n;
  fr_refs n : v_refs v n = 0;
  fr_held : v_held v = ∅;
  fr_other : v_other v = ∅
}.

Lemma fresh_quiet D v : fresh D v -> quiet v.
Proof. intros [_ _ H1' H2']. split; [done|]. rewrite H2'. intros n Hn. by apply elem_of_empty in Hn. Qed.

Section Recovery.
Context (dev start nlog : Z) (s0 : log_st B) (v : bview) (D : Z -> list Z).
Hypothesis (R0 : bc_rep dev (lbc s0) v) (F : fresh D v) (Hval : valid_log start nlog D).
Hypothesis (Hsize : nlog <= LOGSIZE) (Hstart : 0 <= start) (Hend : start + nlog <= 2 ^ 32).
Hypothesis (Hlen : length (lh_block s0) = Z.to_nat LOGSIZE) (Hbits : Forall (fun b => 0 <= b < 2 ^ 32) (lh_block s0)).

Let hs := log_blocks (D start).
Let s1 := mk_log start nlog (outstanding s0) (committing s0) dev (lh_n s0) (lh_block s0) (lbc s0) (lwoken s0).

Lemma rec_block n : v_block v n = D n.
Proof. rewrite (bc_clean _ _ _ n R0), (fr_disk _ _ F); [done|apply F]. Qed.

Lemma rec_is_block n : is_block (D n).
Proof. rewrite <- rec_block. by eapply bc_block_ok. Qed.

Lemma rec_n : Z.of_nat (length hs) = Z.max 0 (i32 (get32 off_n (D start))).
Proof. unfold hs, log_blocks. rewrite length_fmap, length_seq. lia. Qed.

(** [read_head] finds the blocks of the header. *)
Lemma read_head_ok :
  exists c bs, read_head s1 = Ok tt (set_lh (i32 (get32 off_n (D start))) bs (set_lbc c s1)) /\ bc_rep dev c v /\
    length bs = Z.to_nat LOGSIZE /\ Forall (fun b => 0 <= b < 2 ^ 32) bs /\
    forall i b, hs !! i = Some b -> bs !! i = Some b.
Proof.
  pose proof (vl_size _ _ _ Hval) as Hsz. fold hs in Hsz. pose proof rec_n as Hn. pose proof (fr_refs _ _ F start) as Hr.
  pose proof (fresh_quiet _ _ F) as Q.
  destruct (bc_bread_ok _ _ _ start R0) as (b & c1 & E1 & _ & R1); [lia|by apply quiet_held_ok| | |rewrite Hr; done|].
  { apply quiet_unlocked; [done|]. rewrite (fr_other _ _ F). apply not_elem_of_empty. }
  { right. exists ∅. split; [rewrite size_empty; unfold NBUF; lia|]. intros n. by rewrite (fr_refs _ _ F). }
  unfold read_head. erewrite bind_Ok by reflexivity. cbn [log_dev log_start s1]. rewrite u32_small by lia.
  erewrite bind_Ok by (apply on_bc_Ok; exact E1). erewrite bind_Ok by reflexivity. set (v1 := v_add_ref 1 start _) in R1.
  assert (Hh : v_held v1 !! b = Some start) by (cbn; by rewrite lookup_insert_eq).
  destruct (bc_handle _ _ _ _ _ R1 Hh) as [_ Ed]. cbn in Ed. rewrite rec_block in Ed. cbn [lbc set_lbc]. rewrite Ed.
  erewrite bind_Ok by reflexivity. set (n := i32 (get32 off_n (D start))) in *.
  destruct (read_blocks_ok (D start) (Z.to_nat n) 0 (set_lh n (lh_block (set_lbc c1 s1)) (set_lbc c1 s1)))
    as (bs & E2 & Hbl & Hbs); [done|lia|done|].
  erewrite bind_Ok by exact E2. cbn in Hbl, Hbs.
  destruct (bc_brelse_ok _ _ _ b start R1 Hh) as (c2 & E3 & R2); [cbn; intros _; rewrite rec_block, (fr_disk _ _ F); done|].
  exists c2, bs. split; [apply (on_bc_Ok _ (set_lh n bs (set_lbc c1 s1))); exact E3|]. split; [|split; [congruence|split]].
  - revert R2. apply bc_rep_proper. split; cbn; try done.
    + intros m. unfold insert, fn_insert. repeat case_decide; subst; try congruence. rewrite u32_inc_dec; rewrite ?Hr; done.
    + by rewrite (fr_held _ _ F), delete_insert_eq, delete_empty.
  - apply Forall_lookup_2. intros j x. rewrite Hbs. case_decide.
    + intros [= <-]. apply get32_range, rec_is_block.
    + intros Hj. by apply (Forall_lookup_1 _ _ _ _ Hbits Hj).
  - intros i x Hi. pose proof (lookup_lt_Some _ _ _ Hi) as Hlt. rewrite Hbs, decide_True by lia. rewrite <- Hi.
    unfold hs, log_blocks. rewrite list_lookup_fmap, lookup_seq_lt by (fold n; lia). done.
Qed.

Let g := recovered start D.
Let w1 := v_installs (install_writes hs g) v.

Lemma rec_g i b : hs !! i = Some b -> D (start + 1 + Z.of_nat i) = g b.
Proof. intros Hi. unfold g. by rewrite (recovered_in _ hs (vl_nodup _ _ _ Hval) D i). Qed.

Lemma rec_refs ws m : NoDup ws.*1 -> v_refs (v_installs ws v) m = if decide (m ∈ ws.*1) then 2 ^ 32 - 1 else 0.
Proof.
  intros Hnd. rewrite v_installs_eq. cbn. case_decide.
  - rewrite dec_refs_in, (fr_refs _ _ F) by done. done.
  - rewrite dec_refs_out by done. apply F.
Qed.

Lemma rec_take_nodup k : NoDup (take k hs).
Proof. eapply sublist_NoDup; [apply Hval|apply sublist_take]. Qed.

(** [k] blocks have been installed: there is still room. *)
Lemma rec_room k (X : gset Z) : (k + size X < NBUF)%nat -> let vk := v_installs (take k (install_writes hs g)) v in
  forall v', (forall m, v_refs v' m <> 0 -> m ∈ X \/ v_refs vk m <> 0) -> has_room v'.
Proof.
  cbn zeta. intros Hk v' Hv'. assert (Hfst : (take k (install_writes hs g)).*1 = take k hs) by by rewrite fmap_take, install_writes_fst.
  exists (X ∪ list_to_set (take k hs)). split.
  - pose proof (size_union_alt X (list_to_set (take k hs))) as E. rewrite E.
    assert (size (list_to_set (take k hs) ∖ X) <= size (list_to_set (take k hs) : gset Z))%nat by (apply subseteq_size; set_solver).
    assert (size (list_to_set (take k hs) : gset Z) <= k)%nat; [|lia].
    rewrite size_list_to_set by apply rec_take_nodup.
    rewrite length_take. lia.
  - intros m Hm. destruct (Hv' m Hm) as [HX|Hr]; [set_solver|]. apply elem_of_union. right. apply elem_of_list_to_set.
    rewrite rec_refs, Hfst in Hr by (rewrite Hfst; apply rec_take_nodup).
    by destruct (decide (m ∈ take k hs)).
Qed.

Lemma recovery_run :
  exists c bs, let E0 := enc_head 0 bs (D start) in
    initlog dev start nlog s0 = Ok tt (set_lh 0 bs (set_lbc c s1)) /\ log_blocks E0 = [] /\
    bc_rep dev c (v_through start E0 w1) /\ length bs = Z.to_nat LOGSIZE /\ Forall (fun b => 0 <= b < 2 ^ 32) bs.
Proof.
  pose proof (vl_size _ _ _ Hval) as Hsz. pose proof (vl_nodup _ _ _ Hval) as Hnd. pose proof (vl_home _ _ _ Hval) as Hhome.
  fold hs in Hsz, Hnd, Hhome. pose proof rec_n as Hn. unfold LOGSIZE, MAXOPBLOCKS in Hsize.
  destruct read_head_ok as (c1 & bs & E1 & R1 & Hbl & Hbb & Hbs).
  unfold initlog. change (BSIZE <=? 4 + 4 * LOGSIZE) with false. cbn iota. erewrite bind_Ok by reflexivity. fold s1.
  unfold recover_from_log. erewrite bind_Ok by exact E1. set (n := i32 (get32 off_n (D start))) in *.
  destruct (install_loop_ok nlog g hs (set_lh n bs (set_lbc c1 s1)) v 0) as (c2 & E2 & R2).
  { exact R1. }
  { by apply (fresh_quiet D). }
  { split; cbn; try done.
    - intros b Hb. split; [by apply Hhome|]. apply list_elem_of_lookup in Hb as [i Hi]. apply Hbs in Hi.
      split; [by apply (Forall_lookup_1 _ _ _ _ Hbb Hi)|]. rewrite (fr_other _ _ F), (fr_refs _ _ F). set_solver.
    - intros m _. rewrite (fr_other _ _ F), (fr_refs _ _ F). set_solver. }
  { split; [done|]. exact Hbs. }
  { lia. }
  { cbn. intros i b Hi. rewrite rec_block, (fr_disk _ _ F). rewrite Z.add_0_r. by rewrite (rec_g i b). }
  { cbn zeta. intros i b Hi. pose proof (lookup_lt_Some _ _ _ Hi). cbn [log_start set_lh set_lbc s1]. split.
    - apply (rec_room i ∅); [rewrite size_empty; unfold NBUF; lia|]. auto.
    - right. apply (rec_room i {[ start + 0 + 1 + Z.of_nat i ]}); [rewrite size_singleton; unfold NBUF; lia|].
      intros m. cbn. unfold insert, fn_insert. case_decide; [set_solver|auto]. }
  unfold install_trans. replace (length hs) with (Z.to_nat n) in E2 by lia. erewrite bind_Ok by exact E2.
  erewrite bind_Ok by reflexivity. fold w1 in R2. cbn in R2.
  assert (Hw1 : v_held w1 = ∅ /\ v_other w1 = ∅ /\ v_block w1 start = D start).
  { unfold w1. rewrite v_installs_eq. cbn. rewrite (fr_held _ _ F), (fr_other _ _ F), replay_ne, rec_block; [done|].
    rewrite install_writes_fst. intros Hin%Hhome. apply Hin. unfold in_log. lia. }
  destruct Hw1 as (Hw1 & Hw2 & Hw3).
  destruct (write_head_ok (set_lh 0 bs (set_lbc c2 s1)) w1) as (c3 & E3 & R3).
  { exact R2. }
  { split; [done|]. rewrite Hw2. intros m Hm. by apply elem_of_empty in Hm. }
  { cbn. lia. }
  { rewrite Hw2. apply not_elem_of_empty. }
  { cbn. unfold w1. rewrite rec_refs, decide_False; rewrite ?install_writes_fst; [done| |done].
    intros Hin%Hhome. apply Hin. unfold in_log. lia. }
  { apply (rec_room (length hs) ∅); [rewrite size_empty; unfold NBUF; lia|]. intros m Hm. right.
    rewrite take_ge; [done|]. unfold install_writes. by rewrite length_fmap. }
  exists c3, bs. cbn zeta. split; [exact E3|]. cbn in R3. rewrite Hw3 in R3. split; [|done].
  rewrite log_blocks_enc; [done|apply rec_is_block|unfold LOGSIZE; done|lia|done].
Qed.
End Recovery.

(** The state after recovery from the disk [D], which wrote [ws]. *)
Record recovery (dev start nlog : Z) (D : Z -> list Z) (ws : list (Z * list Z)) (s : log_st B) (v : bview) : Prop := {
  rc_log : log_ok ∅ s v;
  rc_homes : homes s = [];
  rc_held : v_held v = ∅;
  rc_other : v_other v = ∅;
  rc_start : log_start s = start;
  rc_size : log_size s = nlog;
  rc_dev : log_dev s = dev;
  rc_disk m : v_disk v m = replay D ws m;
  rc_content m : ~ in_log start nlog m -> v_disk v m = recovered start D m;
  rc_prefix k : let Dk := replay D (take k ws) in
    valid_log start nlog Dk /\ forall m, ~ in_log start nlog m -> recovered start Dk m = recovered start D m;
  rc_blocks w : w ∈ ws -> is_block w.2;
  rc_refs m : v_refs v m = if decide (m ∈ log_blocks (D start)) then 2 ^ 32 - 1 else 0
}.

(** A disk that a crash can leave, and the in-memory log of a machine that boots. *)
Record bootable (start nlog : Z) (D : Z -> list Z) (s : log_st B) (v : bview) : Prop := {
  bt_fresh : fresh D v;
  bt_valid : valid_log start nlog D;
  bt_size : nlog <= LOGSIZE;
  bt_start : 0 <= start;
  bt_end : start + nlog <= 2 ^ 32;
  bt_len : length (lh_block s) = Z.to_nat LOGSIZE;
  bt_bits : Forall (fun b => 0 <= b < 2 ^ 32) (lh_block s)
}.

(** [initlog] returns on every such disk, with an empty log, and every block outside
    the log has its recovered content; after any prefix of its writes the disk still
    recovers to the same content. *)
Lemma initlog_ok dev start nlog s v D :
  bc_rep dev (lbc s) v -> bootable start nlog D s v ->
  exists s' v' ws, initlog dev start nlog s = Ok tt s' /\ recovery dev start nlog D ws s' v' /\
    v_writes v' = v_writes v ++ ws.
Proof.
  intros R [F Hval Hsz Hst Hend Hlen Hbits].
  destruct (recovery_run dev start nlog s v D) as (c & bs & E & HE0 & R' & Hbl & Hbb); try done.
  set (hs := log_blocks (D start)) in *. set (g := recovered start D) in *. set (E0 := enc_head 0 bs (D start)) in *.
  set (ws := install_writes hs g ++ [(start, E0)]).
  assert (Hd : forall m, v_disk (v_through start E0 (v_installs (install_writes hs g) v)) m = replay D ws m).
  { intros m. rewrite v_installs_eq. unfold ws. rewrite replay_app. cbn. unfold insert, fn_insert. case_decide; [done|].
    apply replay_at, F. }
  assert (Hb : forall m, v_block (v_through start E0 (v_installs (install_writes hs g) v)) m = replay D ws m).
  { intros m. rewrite v_installs_eq. unfold ws. rewrite replay_app. cbn. unfold insert, fn_insert. case_decide; [done|].
    apply replay_at. by eapply rec_block. }
  eexists _, (v_through start E0 (v_installs (install_writes hs g) v)), ws. split; [exact E|]. pose proof (vl_size _ _ _ Hval).
  split; [|rewrite v_installs_eq; cbn; unfold ws; by rewrite app_assoc]. split; try done.
  - split; try done; cbn [lbc set_lh set_lbc log_start log_size lh_n lh_block]; try lia; unfold homes; cbn [lh_n set_lh Z.to_nat take].
    + by constructor.
    + intros b Hin. by apply elem_of_nil in Hin.
    + intros m _ _ _. by rewrite Hd, Hb.
    + intros m _. by rewrite Hd, Hb.
    + rewrite Hd. unfold ws. rewrite replay_app. cbn. by rewrite fn_lookup_insert.
  - rewrite v_installs_eq. apply F.
  - rewrite v_installs_eq. apply F.
  - intros m Hm. rewrite Hd. by apply (recovery_all _ nlog).
  - intros k. by apply recovery_prefix.
  - pose proof (rec_is_block dev s v D R F) as HB. intros w [Hw|Hw]%elem_of_app.
    + apply list_elem_of_fmap in Hw as (b & -> & _). cbn. unfold g, recovered. by destruct (list_find _ _) as [[]|].
    + apply list_elem_of_singleton in Hw as ->. cbn. by apply enc_head_block.
  - intros m. pose proof (vl_nodup _ _ _ Hval) as Hnd. cbn.
    rewrite (rec_refs v D F) by by rewrite install_writes_fst. by rewrite install_writes_fst.
Qed.

Lemma initlog_ops dev start nlog s v D s' :
  bc_rep dev (lbc s) v -> bootable start nlog D s v -> initlog dev start nlog s = Ok tt s' ->
  outstanding s' = outstanding s /\ committing s' = committing s.
Proof.
  intros R [F Hval Hsz Hst Hend Hlen Hbits] E'.
  destruct (recovery_run dev start nlog s v D) as (c & bs & E & _); try done. rewrite E in E'. by injection E' as <-.
Qed.

(** C39: After recovery of a committed transaction the reference counts of its blocks
    have wrapped around: [install_trans] unpins buffers that recovery never pinned.  The
    next [bread] of such a block returns a locked buffer with reference count 0, which
    the cache considers free. *)
Theorem recovery_refcount_wraps dev start nlog s v D b :
  bc_rep dev (lbc s) v -> bootable start nlog D s v -> b ∈ log_blocks (D start) ->
  exists s' v', initlog dev start nlog s = Ok tt s' /\ bc_rep dev (lbc s') v' /\ v_refs v' b = 2 ^ 32 - 1 /\
    exists buf c v2, bc_bread dev b (lbc s') = Ok buf c /\ bc_rep dev c v2 /\ v_held v2 !! buf = Some b /\ v_refs v2 b = 0.
Proof.
  intros R Hbt Hb. destruct (initlog_ok _ _ _ _ _ _ R Hbt) as (s' & v' & ws & E & Hrec & _).
  pose proof (lo_rep _ _ _ (rc_log _ _ _ _ _ _ _ Hrec)) as R'. rewrite (rc_dev _ _ _ _ _ _ _ Hrec) in R'.
  pose proof (rc_refs _ _ _ _ _ _ _ Hrec b) as Hrb. rewrite decide_True in Hrb by done.
  assert (Q : quiet v').
  { split; [apply Hrec|]. rewrite (rc_other _ _ _ _ _ _ _ Hrec). intros n Hn. by apply elem_of_empty in Hn. }
  exists s', v'. split; [done|]. split; [done|]. split; [done|].
  destruct (bc_bread_ok dev (lbc s') v' b R') as (buf & c & Eb & _ & R2).
  - apply list_elem_of_fmap in Hb as (i & -> & _). apply get32_range. by eapply (rec_is_block dev s v D R), Hbt.
  - by apply quiet_held_ok.
  - apply quiet_unlocked; [done|]. rewrite (rc_other _ _ _ _ _ _ _ Hrec). apply not_elem_of_empty.
  - left. rewrite Hrb. done.
  - intros _. apply (log_clean s' v' b); [apply Hrec|rewrite (rc_homes _ _ _ _ _ _ _ Hrec); apply not_elem_of_nil|].
    rewrite (rc_start _ _ _ _ _ _ _ Hrec), (rc_size _ _ _ _ _ _ _ Hrec). by apply Hbt.
  - eexists buf, c, _. split; [done|]. split; [exact R2|]. cbn. rewrite lookup_insert_eq, fn_lookup_insert, Hrb. done.
Qed.

(** [begin_op] reserves [MAXOPBLOCKS] blocks of [LOGSIZE] for every operation, but
    one block of the log is its header: three operations are admitted on an empty log,
    they may write 30 blocks, and the 30th [log_write] panics. *)
Theorem reservation_overcommits s :
  lh_n s = 0 -> outstanding s = 0 -> committing s = 0 -> log_size s = LOGSIZE ->
  exists s3, (begin_op ;; begin_op ;; begin_op) s = Ok tt s3 /\ outstanding s3 * MAXOPBLOCKS = 30 /\
    forall s' b, same_log s3 s' -> lh_n s' = 29 -> log_write b s' = Panic "too big a transaction".
Proof.
  destruct s as [start size o cm dev n bs c w]. cbn. intros -> -> -> H4'. eexists. split.
  - reflexivity.
  - split; [done|]. intros s' b (_ & E & _) En. cbn in E. unfold log_write, bind, get. by rewrite En, E, H4'.
Qed.
End LogOps.

(** ** Crashes of the whole machine *)

Definition ROOTDEV : Z := 1.

Definition boot_log (pid : Z) (D : Z -> list Z) : log_st bio_st :=
  mk_log 0 0 0 0 0 0 (replicate (Z.to_nat LOGSIZE) 0) (boot_bio pid D) [].

(** The machine boots from [D], crashes after some of the disk writes of [initlog],
    and so on, and is left with the disk [D']. *)
Inductive reboots (start nlog : Z) : (Z -> list Z) -> (Z -> list Z) -> Prop :=
| reboots_none D : reboots start nlog D D
| reboots_crash D pid s k D' :
    initlog ROOTDEV start nlog (boot_log pid D) = Ok tt s ->
    reboots start nlog (replay D (take k (writes (lbc s)))) D' ->
    reboots start nlog D D'.

Lemma boot_bootable start nlog pid D :
  valid_log start nlog D -> nlog <= LOGSIZE -> 0 <= start -> start + nlog <= 2 ^ 32 ->
  bootable start nlog D (boot_log pid D) (boot_view D).
Proof. intros. split; try done. by apply Forall_replicate. Qed.

Lemma replay_is_block D ws n : (forall n, is_block (D n)) -> (forall w, w ∈ ws -> is_block w.2) -> is_block (replay D ws n).
Proof.
  revert D. induction ws as [|w ws IH]; intros D HD Hw; [apply HD|]. cbn. apply IH.
  - intros m. unfold insert, fn_insert. case_decide; [|done]. apply Hw. by left.
  - intros w' Hw'. apply Hw. by right.
Qed.

Lemma boot_initlog start nlog pid D :
  (forall n, is_block (D n)) -> valid_log start nlog D -> nlog <= LOGSIZE -> 0 <= start -> start + nlog <= 2 ^ 32 ->
  exists s v ws, initlog ROOTDEV start nlog (boot_log pid D) = Ok tt s /\ recovery ROOTDEV start nlog D ws s v /\
    writes (lbc s) = ws /\ forall n, disk (lbc s) n = v_disk v n.
Proof.
  intros Hblk Hval Hsz Hst Hend.
  assert (R : bc_rep ROOTDEV (lbc (boot_log pid D)) (boot_view D)) by by apply boot_rep.
  destruct (initlog_ok ROOTDEV start nlog (boot_log pid D) (boot_view D) D R) as (s & v & ws & E & Hrec & Ew);
    [by apply boot_bootable|].
  pose proof (lo_rep _ _ _ (rc_log _ _ _ _ _ _ _ Hrec) : bio_rep _ _ _) as R'.
  exists s, v, ws. split; [exact E|]. split; [exact Hrec|]. split; [by rewrite (br_writes _ _ _ R'), Ew|apply R'].
Qed.

(** C13: Any number of crashes during recovery, then a recovery that completes: every
    block outside the log has the content that the first disk had after recovery. *)
Theorem reboots_recover start nlog pid D D' :
  (forall n, is_block (D n)) -> valid_log start nlog D -> nlog <= LOGSIZE -> 0 <= start -> start + nlog <= 2 ^ 32 ->
  reboots start nlog D D' ->
  exists s, initlog ROOTDEV start nlog (boot_log pid D') = Ok tt s /\
    forall m, ~ in_log start nlog m -> disk (lbc s) m = recovered start D m.
Proof.
  intros Hblk Hval Hsz Hst Hend Hre. revert Hblk Hval. induction Hre as [D|D pid' s k D' E Hre IH]; intros Hblk Hval.
  - destruct (boot_initlog start nlog pid D Hblk Hval Hsz Hst Hend) as (s & v & ws & E & Hrec & Ew & Ed).
    exists s. split; [exact E|]. intros m Hm. rewrite Ed. by apply (rc_content _ _ _ _ _ _ _ Hrec).
  - destruct (boot_initlog start nlog pid' D Hblk Hval Hsz Hst Hend) as (s' & v & ws & E' & Hrec & Ew & Ed).
    rewrite E in E'. injection E' as <-. rewrite Ew in IH. destruct (rc_prefix _ _ _ _ _ _ _ Hrec k) as [Hval' Hcont].
    destruct IH as (sr & Er & Hd); [|exact Hval'|].
    + intros n. apply replay_is_block; [done|]. intros w Hw%subseteq_take. by apply (rc_blocks _ _ _ _ _ _ _ Hrec).
    + exists sr. split; [exact Er|]. intros m Hm. rewrite Hd by done. by apply Hcont.
Qed.

(** ** A log of 30 blocks at block 2, with a committed transaction on block 40 *)

Definition zero_block : list Z := replicate 1024 0.
Definition crashed_disk (n : Z) : list Z :=
  if n =? 2 then enc_head 1 [40] zero_block else zero_block.

Lemma zero_block_ok : is_block zero_block.
Proof. split; [done|]. by apply Forall_replicate. Qed.

Lemma crashed_disk_ok n : is_block (crashed_disk n).
Proof. unfold crashed_disk. case_bool; [apply enc_head_block|]; apply zero_block_ok. Qed.

Lemma crashed_log : log_blocks (crashed_disk 2) = [40].
Proof. vm_compute. reflexivity. Qed.

Lemma crashed_valid : valid_log 2 30 crashed_disk.
Proof.
  split; rewrite crashed_log; [done|apply NoDup_singleton|]. intros b ->%list_elem_of_singleton. unfold in_log. lia.
Qed.

Lemma crashed_boot : bc_rep ROOTDEV (lbc (boot_log 1 crashed_disk)) (boot_view crashed_disk).
Proof. apply boot_rep; [done|apply crashed_disk_ok]. Qed.

Lemma crashed_bootable : bootable 2 30 crashed_disk (boot_log 1 crashed_disk) (boot_view crashed_disk).
Proof. apply boot_bootable; [apply crashed_valid|done..]. Qed.

Lemma recovery_refcount_wraps_witness :
  exists s', initlog ROOTDEV 2 30 (boot_log 1 crashed_disk) = Ok tt s' /\
    exists buf c v2, bc_bread ROOTDEV 40 (lbc s') = Ok buf c /\ v_held v2 !! buf = Some 40 /\ v_refs v2 40 = 0.
Proof.
  destruct (recovery_refcount_wraps ROOTDEV 2 30 (boot_log 1 crashed_disk) (boot_view crashed_disk) crashed_disk 40
              crashed_boot crashed_bootable) as (s' & v' & E & _ & _ & buf & c & v2 & Eb & _ & Hh & Hr).
  - rewrite crashed_log. by left.
  - exists s'. split; [exact E|]. exists buf, c, v2. split; [exact Eb|]. split; [exact Hh|exact Hr].
Defined.

Lemma reboots_recover_witness :
  exists s, initlog ROOTDEV 2 30 (boot_log 1 crashed_disk) = Ok tt s /\ disk (lbc s) 40 = zero_block.
Proof.
  destruct (reboots_recover 2 30 1 crashed_disk crashed_disk crashed_disk_ok crashed_valid ltac:(done) ltac:(done) ltac:(done)
              (reboots_none 2 30 crashed_disk)) as (s & E & Hd).
  exists s. split; [exact E|]. rewrite (Hd 40); [vm_compute; reflexivity|]. unfold in_log. lia.
Defined.

Lemma reservation_overcommits_witness :
  exists s3 : log_st bio_st, (begin_op ;; begin_op ;; begin_op)
    (mk_log 2 LOGSIZE 0 0 ROOTDEV 0 (replicate 30 0) (boot_bio 1 crashed_disk) []) = Ok tt s3.
Proof.
  destruct (reservation_overcommits (mk_log 2 LOGSIZE 0 0 ROOTDEV 0 (replicate 30 0) (boot_bio 1 crashed_disk) [])
              eq_refl eq_refl eq_refl eq_refl) as (s3 & E & _).
  exists s3. exact E.
Defined.

(** The transaction in progress after [begin_op] and a change of block 40. *)
Lemma demo_write :
  exists (s : log_st bio_st) v b, log_ok {[ 40 ]} s v /\ v_held v = {[ b := 40 ]} /\ v_other v = ∅ /\
    (forall m, v_refs v m = if decide (m = 40) then 1 else 0) /\ v_block v 40 = replicate 1024 7 /\
    outstanding s = 1 /\ committing s = 0 /\ log_start s = 2 /\ log_size s = 30 /\ homes s = [].
Proof.
  destruct (boot_initlog 2 30 1 (fun _ => zero_block)) as (s0 & v0 & ws & _ & Hrec & _);
    [intros _; apply zero_block_ok|by split; [|constructor|intros b Hb; by apply elem_of_nil in Hb]|done..|].
  destruct Hrec as [L Hh Hhe Hot Hst Hsz Hdev _ _ _ _ Hr0]. change (log_blocks zero_block) with (@nil Z) in Hr0.
  assert (Hr : forall m, v_refs v0 m = 0)
    by (intros m; rewrite Hr0; destruct (decide (m ∈ [])) as [Hin|]; [by apply elem_of_nil in Hin|done]).
  pose proof (lo_rep _ _ _ L) as R.
  assert (Q : quiet v0) by (split; [done|]; rewrite Hot; intros n Hn; by apply elem_of_empty in Hn).
  destruct (bc_bread_ok _ _ _ 40 R) as (b & c1 & _ & _ & R1); [done|by apply quiet_held_ok| | |by rewrite Hr|].
  { apply quiet_unlocked; [done|]. rewrite Hot. apply not_elem_of_empty. }
  { right. exists ∅. split; [rewrite size_empty; unfold NBUF; lia|]. intros n. by rewrite Hr. }
  set (d := replicate 1024 7).
  assert (Hd : is_block d) by (split; [done|by apply Forall_replicate]).
  pose proof (bc_set_data_ok _ _ _ b 40 d R1) as R2. cbn in R2. rewrite lookup_insert_eq, fn_lookup_insert, Hr in R2.
  specialize (R2 eq_refl ltac:(done) Hd).
  eexists (set_lbc _ (set_ops 1 0 s0)), _, b. split.
  - eapply (log_ok_view ∅ {[ 40 ]}); [exact L|exact R2|done| |done| |].
    + intros m Hm. cbn. rewrite fn_lookup_insert_ne by set_solver. done.
    + intros m ->%elem_of_singleton. rewrite Hst, Hsz. unfold in_log. lia.
    + rewrite Hh. intros m Hm. by apply elem_of_nil in Hm.
  - cbn. rewrite Hhe, fn_lookup_insert. split; [done|]. split; [done|]. split; [|done].
    intros m. unfold insert, fn_insert. rewrite !Hr. repeat case_decide; done || congruence.
Qed.

Lemma log_write_logs_witness :
  exists (s s' : log_st bio_st) b v', log_write b s = Ok tt s' /\ homes s' = [40] /\ log_ok ∅ s' v'.
Proof.
  destruct demo_write as (s & v & b & L & Hh & _ & Hr & _ & Ho & _ & Hst & Hsz & Hhs).
  assert (Hn : lh_n s = 0).
  { pose proof (length_homes _ _ _ L) as Hl. rewrite Hhs in Hl. pose proof (lo_n _ _ _ L). cbn in Hl. lia. }
  pose proof (log_write_logs {[ 40 ]} s v b 40 L) as H. rewrite Hh, Hr, Hst, Hsz, Hhs, Hn in H.
  specialize (H (lookup_insert_eq _ _ _) ltac:(unfold in_log; lia) ltac:(lia) ltac:(done) ltac:(done)).
  destruct (log_write b s) as [[] s'|msg|ch s'|] eqn:E; [|lia|done|done].
  destruct H as (_ & _ & _ & Hhs' & L'). exists s, s', b. eexists. split; [done|]. split; [exact Hhs'|].
  replace (({[40]} : gset Z) ∖ {[40]}) with (∅ : gset Z) in L' by set_solver. exact L'.
Defined.

(** The same transaction once block 40 is logged and released. *)
Lemma demo_commit :
  exists (s : log_st bio_st) v, log_ok ∅ s v /\ idle s v /\ homes s = [40] /\ outstanding s = 1 /\ committing s = 0 /\
    log_start s = 2 /\ log_size s = 30 /\ v_block v 40 = replicate 1024 7.
Proof.
  destruct demo_write as (s & v & b & L & Hh & Hot & Hr & Hb & Ho & Hc & Hst & Hsz & Hhs).
  assert (Hn : lh_n s = 0).
  { pose proof (length_homes _ _ _ L) as Hl. rewrite Hhs in Hl. pose proof (lo_n _ _ _ L). cbn in Hl. lia. }
  destruct (log_write_ok {[ 40 ]} s v b 40 L) as (s1 & _ & (E1 & E2 & E3 & E4 & E5) & Hhs1 & L1);
    rewrite ?Hr, ?Hst, ?Hsz; try done; [by rewrite Hh, lookup_singleton_eq|unfold in_log; lia|lia|lia|].
  rewrite Hhs in Hhs1, L1. rewrite decide_False in Hhs1 by apply not_elem_of_nil.
  rewrite decide_False in L1 by apply not_elem_of_nil. cbn in Hhs1.
  replace (({[40]} : gset Z) ∖ {[40]}) with (∅ : gset Z) in L1 by set_solver.
  destruct (bc_brelse_ok _ _ _ b 40 (lo_rep _ _ _ L1)) as (c & _ & R); [cbn; by rewrite Hh, lookup_singleton_eq| |].
  { cbn. rewrite fn_lookup_insert, Hr. done. }
  cbn in R. rewrite Hh, delete_singleton_eq in R.
  assert (Hr2 : forall m, v_refs (v_add_ref (-1) 40 (v_set_held ∅ (v_add_ref 1 40 v))) m = if decide (m = 40) then 1 else 0).
  { intros m. cbn. unfold insert, fn_insert. rewrite !Hr. repeat case_decide; done || congruence. }
  eexists (set_lbc c (set_ops 1 0 s1)), _. split; [|split].
  - eapply (log_ok_view ∅ ∅); [exact L1|exact R|done|done|done|set_solver|].
    rewrite Hhs1. intros m ->%list_elem_of_singleton. by rewrite Hr2.
  - split.
    + split; [done|]. cbn. rewrite Hot. intros n Hn'. by apply elem_of_empty in Hn'.
    + exists {[ 40 ]}. split; [rewrite size_singleton; unfold NBUF; lia|]. intros m. rewrite Hr2. case_decide; [set_solver|done].
    + intros m _. rewrite Hr2. cbn. rewrite Hot. split; [apply not_elem_of_empty|by case_decide].
  - split; [exact Hhs1|]. cbn. rewrite E1, E2. auto 10.
Qed.

Lemma end_op_atomic_witness :
  exists (s s' : log_st bio_st) v v', end_op s = Ok tt s' /\ v_disk v' 40 = replicate 1024 7 /\
    log_ok ∅ s v /\ log_ok ∅ s' v' /\ homes s' = [].
Proof.
  destruct demo_commit as (s & v & L & I & Hhs & Ho & Hc & Hst & Hsz & Hb).
  destruct (end_op_atomic s v L I Ho Hc) as (s' & v' & ws & E & L' & Hh & _ & _ & _ & _ & Hd & _).
  exists s, s', v, v'. split; [exact E|]. split; [|split; [exact L|split; [exact L'|exact Hh]]].
  rewrite <- Hb. apply Hd. rewrite Hst, Hsz. unfold in_log. lia.
Defined.
