(* ===== verification/TxDisk.v ===== *)
(** * The disk inside a transaction, as the file system sees it

    fs.c uses [bread], [brelse] and [log_write] only.  [TxDisk] is that interface;
    [TxDiskLaws] gives it a view in which a block has one content, a changed block is
    dirty until it is logged, and the transaction has a bounded size.
    [log_tx_laws]: log.c over any block cache provides it. *)
From stdpp Require Import base gmap list numbers functions strings.
From Stdlib Require Import ZArith Lia.
From S2P Require Import Prelude Bytes.
From S2P Require Import Bio BlockCache Log LogDisk LogSpec LogOps.
Open Scope Z_scope.

Class TxDisk (T : Type) := {
  tx_bread : Z -> Z -> M T nat;
  tx_brelse : nat -> M T unit;
  tx_log_write : nat -> M T unit;
  tx_data : nat -> T -> list Z;
  tx_set_data : nat -> list Z -> T -> T
}.

Record tview := mk_tview {
  t_block : Z -> list Z;
  t_held : gmap nat Z;
  t_dirty : gset Z;
  t_logged : gset Z
}.

Definition t_set_held (h : gmap nat Z) (v : tview) : tview := mk_tview (t_block v) h (t_dirty v) (t_logged v).
Definition t_put (n : Z) (d : list Z) (v : tview) : tview :=
  mk_tview (<[n := d]> (t_block v)) (t_held v) ({[ n ]} ∪ t_dirty v) (t_logged v).
Definition t_log (n : Z) (v : tview) : tview :=
  mk_tview (t_block v) (t_held v) (t_dirty v ∖ {[ n ]}) ({[ n ]} ∪ t_logged v).

(** The device, and the log on it. *)
Record geom := mk_geom { g_dev : Z; g_start : Z; g_size : Z }.
Definition g_log (g : geom) (n : Z) : Prop := in_log (g_start g) (g_size g) n.

Class TxDiskLaws (T : Type) `{TxDisk T} := {
  tx_rep : geom -> T -> tview -> Prop;
  tx_block_ok g s v n : tx_rep g s v -> is_block (t_block v n);
  tx_handle g s v b n : tx_rep g s v -> t_held v !! b = Some n -> tx_data b s = t_block v n;
  tx_bread_ok g s v n : tx_rep g s v -> 0 <= n < 2 ^ 32 -> (forall b, t_held v !! b <> Some n) ->
    (size (t_logged v) + size (t_held v) < NBUF)%nat ->
    exists b s', tx_bread (g_dev g) n s = Ok b s' /\ t_held v !! b = None /\
      tx_rep g s' (t_set_held (<[b := n]> (t_held v)) v);
  tx_brelse_ok g s v b n : tx_rep g s v -> t_held v !! b = Some n -> n ∉ t_dirty v ->
    exists s', tx_brelse b s = Ok tt s' /\ tx_rep g s' (t_set_held (delete b (t_held v)) v);
  tx_set_data_ok g s v b n d : tx_rep g s v -> t_held v !! b = Some n -> ~ g_log g n -> is_block d ->
    tx_rep g (tx_set_data b d s) (t_put n d v);
  tx_log_write_ok g s v b n : tx_rep g s v -> t_held v !! b = Some n -> ~ g_log g n -> 0 <= n < 2 ^ 32 ->
    Z.of_nat (size (t_logged v)) < g_size g - 1 ->
    exists s', tx_log_write b s = Ok tt s' /\ tx_rep g s' (t_log n v)
}.

#[export] Instance log_tx {B} `{BufCache B} : TxDisk (log_st B) := {|
  tx_bread := fun dev n => on_bc (bc_bread dev n);
  tx_brelse := fun b => on_bc (bc_brelse b);
  tx_log_write := log_write;
  tx_data := fun b s => bc_data b (lbc s);
  tx_set_data := fun b d s => set_lbc (bc_set_data b d (lbc s)) s
|}.

Section LogTx.
Context {B : Type} `{BufCacheLaws B}.
Implicit Types (s : log_st B) (v : tview) (w : bview).

Definition held_blocks (h : gmap nat Z) : gset Z := list_to_set (map_to_list h).*2.

Lemma held_blocks_spec h n : n ∈ held_blocks h <-> exists b, h !! b = Some n.
Proof.
  unfold held_blocks. rewrite elem_of_list_to_set, list_elem_of_fmap. split.
  - intros ([b m] & -> & Hin%elem_of_map_to_list). by exists b.
  - intros [b Hb]. exists (b, n). split; [done|]. by apply elem_of_map_to_list.
Qed.

Lemma size_list_to_set_le (l : list Z) : (size (list_to_set l : gset Z) <= length l)%nat.
Proof.
  induction l as [|x l IH]; cbn; [by rewrite size_empty|]. rewrite size_union_alt, size_singleton.
  assert (size ((list_to_set l : gset Z) ∖ {[ x ]}) <= size (list_to_set l : gset Z))%nat by (apply subseteq_size; set_solver).
  lia.
Qed.

Lemma size_held_blocks h : (size (held_blocks h) <= size h)%nat.
Proof. unfold held_blocks. rewrite size_list_to_set_le, length_fmap, length_map_to_list. done. Qed.

Definition b2z (P : Prop) `{Decision P} : Z := if decide P then 1 else 0.

(** Only this process uses the cache: the references are the pins of the transaction
    and its own buffers. *)
Record log_tx_rep (g : geom) (s : log_st B) (v : tview) (w : bview) : Prop := {
  lt_log : log_ok (t_dirty v) s w;
  lt_dev : log_dev s = g_dev g;
  lt_start : log_start s = g_start g;
  lt_size : log_size s = g_size g;
  lt_ops : 1 <= outstanding s;
  lt_block : t_block v = v_block w;
  lt_held : t_held v = v_held w;
  lt_other : v_other w = ∅;
  lt_logged : t_logged v = list_to_set (homes s);
  lt_dirty n : n ∈ t_dirty v -> n ∈ held_blocks (v_held w);
  lt_refs n : v_refs w n = b2z (n ∈ homes s) + b2z (n ∈ held_blocks (v_held w))
}.

Lemma b2z_range P `{Decision P} : 0 <= b2z P <= 1.
Proof. unfold b2z. case_decide; lia. Qed.
Lemma b2z_iff P Q `{Decision P, Decision Q} : (P <-> Q) -> b2z P = b2z Q.
Proof. unfold b2z. intros. repeat case_decide; tauto. Qed.
Lemma b2z_true P `{Decision P} : P -> b2z P = 1.
Proof. intros. unfold b2z. by rewrite decide_True. Qed.
Lemma b2z_false P `{Decision P} : ~ P -> b2z P = 0.
Proof. intros. unfold b2z. by rewrite decide_False. Qed.

Lemma held_blocks_insert h b n : h !! b = None -> held_blocks (<[b := n]> h) = {[ n ]} ∪ held_blocks h.
Proof.
  intros Hb. apply set_eq. intros m. rewrite elem_of_union, elem_of_singleton, !held_blocks_spec. split.
  - intros [b' Hb']. destruct (decide (b = b')) as [->|Hne].
    + rewrite lookup_insert_eq in Hb'. left. congruence.
    + rewrite lookup_insert_ne in Hb' by done. eauto.
  - intros [->|[b' Hb']]; [exists b; apply lookup_insert_eq|]. exists b'. rewrite lookup_insert_ne by congruence. done.
Qed.

Lemma held_blocks_delete h b n : h !! b = Some n -> (forall b', h !! b' = Some n -> b' = b) ->
  held_blocks (delete b h) = held_blocks h ∖ {[ n ]}.
Proof.
  intros Hb Hinj. apply set_eq. intros m. rewrite elem_of_difference, elem_of_singleton, !held_blocks_spec. split.
  - intros [b' [Hne Hb']%lookup_delete_Some]. split; [eauto|]. intros ->. by apply Hne, eq_sym, Hinj.
  - intros [[b' Hb'] Hm]. exists b'. apply lookup_delete_Some. split; [congruence|done].
Qed.

Lemma log_tx_refs g s v w n : log_tx_rep g s v w -> 0 <= v_refs w n <= 2.
Proof.
  intros R. rewrite (lt_refs _ _ _ _ R). pose proof (b2z_range (n ∈ homes s)). pose proof (b2z_range (n ∈ held_blocks (v_held w))). lia.
Qed.

Lemma log_tx_held g s v w b n : log_tx_rep g s v w -> v_held w !! b = Some n -> 1 <= v_refs w n.
Proof.
  intros R Hb. rewrite (lt_refs _ _ _ _ R). pose proof (b2z_range (n ∈ homes s)).
  rewrite (b2z_true (n ∈ held_blocks (v_held w))); [lia|]. apply held_blocks_spec. eauto.
Qed.

Lemma log_tx_room g s v w : log_tx_rep g s v w -> (size (t_logged v) + size (t_held v) < NBUF)%nat -> has_room w.
Proof.
  intros R Hsz. exists (list_to_set (homes s) ∪ held_blocks (v_held w)). split.
  - rewrite (lt_logged _ _ _ _ R), (lt_held _ _ _ _ R) in Hsz. pose proof (size_held_blocks (v_held w)).
    rewrite size_union_alt.
    assert (size (held_blocks (v_held w) ∖ list_to_set (homes s)) <= size (held_blocks (v_held w)))%nat by (apply subseteq_size; set_solver). lia.
  - intros n Hn. rewrite (lt_refs _ _ _ _ R) in Hn. rewrite elem_of_union, elem_of_list_to_set.
    unfold b2z in Hn. repeat case_decide; [by left|by left|by right|lia].
Qed.

Definition same_disk w w' : Prop := v_disk w' = v_disk w /\ v_writes w' = v_writes w.

(** A step of the block cache that changes neither the disk nor any block but dirty ones. *)
Lemma log_tx_step g s v w c w' v' : log_tx_rep g s v w -> bc_rep (g_dev g) c w' ->
  (forall m, v_disk w' m = v_disk w m) -> (forall m, m ∉ t_dirty v' -> v_block w' m = v_block w m) ->
  t_dirty v ⊆ t_dirty v' -> (forall m, m ∈ t_dirty v' -> ~ g_log g m) ->
  t_block v' = v_block w' -> t_held v' = v_held w' -> v_other w' = ∅ -> t_logged v' = t_logged v ->
  (forall m, m ∈ t_dirty v' -> m ∈ held_blocks (v_held w')) ->
  (forall m, v_refs w' m = b2z (m ∈ homes s) + b2z (m ∈ held_blocks (v_held w'))) ->
  log_tx_rep g (set_lbc c s) v' w'.
Proof.
  intros R C Hd Hb Hdd Hl Hbk Hh Ho Hlg Hdh Hr. pose proof (lt_log _ _ _ _ R) as L.
  split; try done; try apply R; [|cbn; rewrite Hlg; apply R].
  change (set_lbc c s) with (set_lbc c (set_ops (outstanding s) (committing s) s)).
  apply (log_ok_view (t_dirty v) _ s w); try done.
  - by rewrite (lt_dev _ _ _ _ R).
  - rewrite (lt_start _ _ _ _ R), (lt_size _ _ _ _ R). exact Hl.
  - intros b Hb'. rewrite Hr, b2z_true by done. pose proof (b2z_range (b ∈ held_blocks (v_held w'))). lia.
Qed.

Lemma log_tx_bread g s v w n : log_tx_rep g s v w -> (forall m, m ∈ t_dirty v -> ~ g_log g m) ->
  0 <= n < 2 ^ 32 -> (forall b, t_held v !! b <> Some n) -> (size (t_logged v) + size (t_held v) < NBUF)%nat ->
  exists b c w', bc_bread (g_dev g) n (lbc s) = Ok b c /\ t_held v !! b = None /\
    log_tx_rep g (set_lbc c s) (t_set_held (<[b := n]> (t_held v)) v) w' /\ same_disk w w'.
Proof.
  intros R Hdl Hn Hh Hsz. pose proof (lo_rep _ _ _ (lt_log _ _ _ _ R)) as C. rewrite (lt_dev _ _ _ _ R) in C.
  assert (n ∉ held_blocks (v_held w)) as Hnh by (rewrite held_blocks_spec; intros [b Hb]; apply (Hh b); by rewrite (lt_held _ _ _ _ R)).
  destruct (bc_bread_ok (g_dev g) (lbc s) w n) as (b & c & E & Hb & C'); try done.
  - split; [|by rewrite (lt_other _ _ _ _ R)]. intros b m Hb. pose proof (log_tx_held _ _ _ _ _ _ R Hb). lia.
  - split; [by rewrite (lt_other _ _ _ _ R)|]. rewrite <- (lt_held _ _ _ _ R). done.
  - right. by eapply log_tx_room.
  - pose proof (log_tx_refs _ _ _ _ n R). lia.
  - exists b, c, (v_add_ref 1 n (v_set_held (<[b := n]> (v_held w)) w)). rewrite (lt_held _ _ _ _ R). split; [exact E|]. split; [done|]. split; [|done].
    eapply log_tx_step; [exact R|exact C'|..]; cbn; try done; try apply R.
    + intros m Hm. rewrite held_blocks_insert by done. apply elem_of_union_r, (lt_dirty _ _ _ _ R), Hm.
    + intros m. rewrite held_blocks_insert by done. pose proof (log_tx_refs _ _ _ _ n R).
      destruct (decide (m = n)) as [->|Hne].
      * rewrite fn_lookup_insert, u32_small by lia. rewrite (lt_refs _ _ _ _ R).
        rewrite (b2z_false (n ∈ held_blocks _)), (b2z_true (n ∈ _ ∪ _)) by set_solver. lia.
      * rewrite fn_lookup_insert_ne by done. rewrite (lt_refs _ _ _ _ R). f_equal. apply b2z_iff. set_solver.
Qed.

Lemma log_tx_brelse g s v w b n : log_tx_rep g s v w -> (forall m, m ∈ t_dirty v -> ~ g_log g m) ->
  t_held v !! b = Some n -> n ∉ t_dirty v ->
  exists c w', bc_brelse b (lbc s) = Ok tt c /\ log_tx_rep g (set_lbc c s) (t_set_held (delete b (t_held v)) v) w' /\ same_disk w w'.
Proof.
  intros R Hdl Hb Hn. pose proof (lo_rep _ _ _ (lt_log _ _ _ _ R)) as C. rewrite (lt_dev _ _ _ _ R) in C.
  rewrite (lt_held _ _ _ _ R) in Hb. assert (n ∈ held_blocks (v_held w)) as Hin by (apply held_blocks_spec; eauto).
  pose proof (lt_refs _ _ _ _ R n) as Hr. rewrite (b2z_true (n ∈ held_blocks _)) in Hr by done.
  destruct (bc_brelse_ok (g_dev g) (lbc s) w b n) as (c & E & C'); try done.
  - intros H1. destruct (decide (in_log (log_start s) (log_size s) n)) as [Hlog|Hlog].
    + by apply (lo_log _ _ _ (lt_log _ _ _ _ R)).
    + apply (lo_clean _ _ _ (lt_log _ _ _ _ R)); [|done|done]. intros Hh. rewrite b2z_true in Hr by done. lia.
  - exists c, (v_add_ref (-1) n (v_set_held (delete b (v_held w)) w)). split; [exact E|]. rewrite (lt_held _ _ _ _ R).
    assert (held_blocks (delete b (v_held w)) = held_blocks (v_held w) ∖ {[ n ]}) as Eh.
    { apply held_blocks_delete; [done|]. intros b' Hb'. exact (bc_handle_inj _ _ _ _ _ _ C Hb' Hb). }
    split; [|done]. eapply log_tx_step; [exact R|exact C'|..]; cbn; try done; try apply R; rewrite Eh.
    + intros m Hm. apply elem_of_difference. split; [by apply (lt_dirty _ _ _ _ R)|]. set_solver.
    + intros m. destruct (decide (m = n)) as [->|Hne].
      * rewrite fn_lookup_insert. rewrite Hr. pose proof (b2z_range (n ∈ homes s)).
        rewrite (b2z_false (n ∈ _ ∖ _)) by set_solver. rewrite u32_small; lia.
      * rewrite fn_lookup_insert_ne by done. rewrite (lt_refs _ _ _ _ R). f_equal. apply b2z_iff. set_solver.
Qed.

Lemma log_tx_set_data g s v w b n d : log_tx_rep g s v w -> (forall m, m ∈ t_dirty v -> ~ g_log g m) ->
  t_held v !! b = Some n -> ~ g_log g n -> is_block d ->
  exists w', log_tx_rep g (set_lbc (bc_set_data b d (lbc s)) s) (t_put n d v) w' /\ same_disk w w'.
Proof.
  intros R Hdl Hb Hn Hd. pose proof (lo_rep _ _ _ (lt_log _ _ _ _ R)) as C. rewrite (lt_dev _ _ _ _ R) in C.
  rewrite (lt_held _ _ _ _ R) in Hb. pose proof (log_tx_held _ _ _ _ _ _ R Hb).
  exists (v_set_block n d w). split; [|done]. eapply log_tx_step; [exact R|eapply (bc_set_data_ok _ _ w b n d); try done; lia|..]; cbn; try done; try apply R.
  - intros m Hm. rewrite fn_lookup_insert_ne; [done|set_solver].
  - set_solver.
  - set_solver.
  - by rewrite (lt_block _ _ _ _ R).
  - intros m [->%elem_of_singleton|Hm]%elem_of_union; [apply held_blocks_spec; eauto|by apply (lt_dirty _ _ _ _ R)].
Qed.

Lemma log_tx_log_write g s v w b n : log_tx_rep g s v w -> t_held v !! b = Some n -> ~ g_log g n -> 0 <= n < 2 ^ 32 ->
  Z.of_nat (size (t_logged v)) < g_size g - 1 ->
  exists s' w', log_write b s = Ok tt s' /\ log_tx_rep g s' (t_log n v) w' /\ same_disk w w' /\ same_log s s'.
Proof.
  intros R Hb Hlog Hn Hsz. pose proof (lt_log _ _ _ _ R) as L. rewrite (lt_held _ _ _ _ R) in Hb.
  pose proof (log_tx_held _ _ _ _ _ _ R Hb). pose proof (log_tx_refs _ _ _ _ n R).
  assert (Z.of_nat (size (t_logged v)) = lh_n s) as En.
  { rewrite (lt_logged _ _ _ _ R), size_list_to_set by apply L. rewrite (length_homes _ _ _ L). pose proof (lo_n _ _ _ L). lia. }
  destruct (log_write_ok (t_dirty v) s w b n) as (s' & E & (S1 & S2 & S3 & S4 & S5) & Hh & L'); try done; try lia.
  - by rewrite (lt_start _ _ _ _ R), (lt_size _ _ _ _ R).
  - rewrite (lt_size _ _ _ _ R). lia.
  - apply R.
  - exists s', (if decide (n ∈ homes s) then w else v_add_ref 1 n w). split; [exact E|]. split; [|split; [by case_decide|done]]. split; cbn; try exact L'; try (etrans; [eassumption|apply R]).
    + rewrite S4. apply R.
    + case_decide; apply R.
    + case_decide; apply R.
    + case_decide; apply R.
    + rewrite Hh, (lt_logged _ _ _ _ R). case_decide; [|rewrite list_to_set_app_L]; set_solver.
    + intros m [Hm _]%elem_of_difference. case_decide; by apply (lt_dirty _ _ _ _ R).
    + intros m. rewrite Hh. destruct (decide (n ∈ homes s)) as [Hin|Hin]; [apply R|]. cbn. destruct (decide (m = n)) as [->|Hne].
      * rewrite fn_lookup_insert, u32_small by lia. rewrite (lt_refs _ _ _ _ R). rewrite (b2z_false (n ∈ homes s)) by done.
        rewrite (b2z_true (n ∈ homes s ++ [n])) by set_solver. lia.
      * rewrite fn_lookup_insert_ne by done. rewrite (lt_refs _ _ _ _ R). f_equal. apply b2z_iff. set_solver.
Qed.

(** During a transaction the disk, its writes and the number of operations stay as
    they are: they are parameters of the instance. *)
Record log_tx_ghost (D0 : Z -> list Z) (W0 : list (Z * list Z)) (o0 : Z) s w : Prop := {
  lg_disk : v_disk w = D0;
  lg_writes : v_writes w = W0;
  lg_out : outstanding s = o0;
  lg_com : committing s = 0
}.

Lemma ghost_step D0 W0 o0 s w s' w' : log_tx_ghost D0 W0 o0 s w -> same_disk w w' -> outstanding s' = outstanding s ->
  committing s' = committing s -> log_tx_ghost D0 W0 o0 s' w'.
Proof. intros [G1 G2 G3 G4] [E1 E2] Eo Ec. split; congruence. Qed.

Definition log_tx_laws (D0 : Z -> list Z) (W0 : list (Z * list Z)) (o0 : Z) : TxDiskLaws (log_st B).
Proof.
  refine {| tx_rep := fun g s v => (exists w, log_tx_rep g s v w /\ log_tx_ghost D0 W0 o0 s w) /\ forall m, m ∈ t_dirty v -> ~ g_log g m |}.
  - intros g s v n [(w & R & _) _]. rewrite (lt_block _ _ _ _ R). apply (bc_block_ok _ _ _ _ (lo_rep _ _ _ (lt_log _ _ _ _ R))).
  - intros g s v b n [(w & R & _) _] Hb. rewrite (lt_held _ _ _ _ R) in Hb. rewrite (lt_block _ _ _ _ R).
    by apply (bc_handle _ _ _ _ _ (lo_rep _ _ _ (lt_log _ _ _ _ R))).
  - intros g s v n [(w & R & G) Hd] Hn Hh Hsz. destruct (log_tx_bread _ _ _ _ n R Hd Hn Hh Hsz) as (b & c & w' & E & Hb & R' & S').
    exists b, (set_lbc c s). cbn. unfold on_bc, zoom. rewrite E. do 2 (split; [done|]). split; [|done].
    exists w'. split; [done|]. by eapply ghost_step.
  - intros g s v b n [(w & R & G) Hd] Hb Hn. destruct (log_tx_brelse _ _ _ _ _ _ R Hd Hb Hn) as (c & w' & E & R' & S').
    exists (set_lbc c s). cbn. unfold on_bc, zoom. rewrite E. split; [done|]. split; [|done].
    exists w'. split; [done|]. by eapply ghost_step.
  - intros g s v b n d [(w & R & G) Hd] Hb Hn Hblk. destruct (log_tx_set_data _ _ _ _ _ _ _ R Hd Hb Hn Hblk) as (w' & R' & S').
    split; [exists w'; split; [done|by eapply ghost_step]|]. cbn. set_solver.
  - intros g s v b n [(w & R & G) Hd] Hb Hlog Hn Hsz.
    destruct (log_tx_log_write _ _ _ _ _ _ R Hb Hlog Hn Hsz) as (s' & w' & E & R' & S' & (_ & _ & _ & So & Sc)).
    exists s'. split; [exact E|]. split; [exists w'; split; [done|by eapply ghost_step]|]. cbn. set_solver.
Defined.
End LogTx.
