(* ===== verification/Fs.v ===== *)
(** * kernel/fs.c: blocks, inodes, directories and paths

    Over the transaction interface [TxDisk] and the user memory interface
    [UserAccess].  An in-memory inode is an index of [icache.inode]; the spinlock
    [icache.lock] makes its critical sections single steps.  A [short] or [uint] is
    a [Z] of its range; a disk structure is a byte list at its offset in a block. *)
From stdpp Require Import base list numbers strings.
From Stdlib Require Import ZArith Lia.
From S2P Require Import Prelude Bytes Access Sleeplock.
From S2P Require Import Bio TxDisk Log BlockCache.
Open Scope Z_scope.

Definition ROOTINO : Z := 1.
Definition FSMAGIC : Z := 0x10203040.
Definition NINODE : nat := 50.
Definition NDIRECT : Z := 12.
Definition NINDIRECT : Z := BSIZE / 4.
Definition MAXFILE : Z := NDIRECT + NINDIRECT.
Definition IPB : Z := BSIZE / 64.
Definition BPB : Z := BSIZE * 8.
Definition DIRSIZ : nat := 14.
Definition T_DIR : Z := 1.
Definition T_FILE : Z := 2.
Definition T_DEVICE : Z := 3.
Definition fs_ROOTDEV : Z := 1.

Record superblock := mk_sb {
  sb_magic : Z;
  sb_size : Z;
  sb_nblocks : Z;
  sb_ninodes : Z;
  sb_nlog : Z;
  sb_logstart : Z;
  sb_inodestart : Z;
  sb_bmapstart : Z
}.

Definition IBLOCK (i : Z) (sb : superblock) : Z := u32 (i / IPB + sb_inodestart sb).
Definition BBLOCK (b : Z) (sb : superblock) : Z := u32 (b / BPB + sb_bmapstart sb).

(** The on-disk inode: [short type, major, minor, nlink; uint size, addrs[13]]. *)
Record dinode := mk_dinode {
  d_type : Z;
  d_major : Z;
  d_minor : Z;
  d_nlink : Z;
  d_size : Z;
  d_addrs : list Z
}.

Definition doff (inum : Z) : nat := Z.to_nat (inum mod IPB * 64).

Fixpoint get_addrs (o : nat) (k : nat) (d : list Z) : list Z :=
  match k with
  | O => []
  | S k' => get32 o d :: get_addrs (o + 4) k' d
  end.

Fixpoint put_addrs (o : nat) (l : list Z) (d : list Z) : list Z :=
  match l with
  | [] => d
  | a :: l' => put_addrs (o + 4) l' (put32 o a d)
  end.

Definition get_dinode (o : nat) (d : list Z) : dinode :=
  mk_dinode (i16 (get16 o d)) (i16 (get16 (o + 2) d)) (i16 (get16 (o + 4) d)) (i16 (get16 (o + 6) d))
    (get32 (o + 8) d) (get_addrs (o + 12) 13 d).

(** The assignments to the fields of [*dip]; the last is a [memmove]. *)
Definition put_dinode (o : nat) (i : dinode) (d : list Z) : list Z :=
  put_addrs (o + 12) (d_addrs i)
    (put32 (o + 8) (d_size i) (put16 (o + 6) (d_nlink i) (put16 (o + 4) (d_minor i)
      (put16 (o + 2) (d_major i) (put16 o (d_type i) d))))).

(** [struct inode], the in-memory copy. *)
Record inode := mk_inode {
  i_dev : Z;
  i_inum : Z;
  i_ref : Z;
  i_lock : sleeplock;
  i_valid : Z;
  i_type : Z;
  i_major : Z;
  i_minor : Z;
  i_nlink : Z;
  i_size : Z;
  i_addrs : list Z
}.

#[export] Instance inode_inhabited : Inhabited inode :=
  populate (mk_inode 0 0 0 (mk_slk 0 "" 0) 0 0 0 0 0 0 (replicate 13 0)).

Definition set_ref (r : Z) (i : inode) : inode :=
  mk_inode (i_dev i) (i_inum i) r (i_lock i) (i_valid i) (i_type i) (i_major i) (i_minor i) (i_nlink i) (i_size i) (i_addrs i).
Definition set_lock (l : sleeplock) (i : inode) : inode :=
  mk_inode (i_dev i) (i_inum i) (i_ref i) l (i_valid i) (i_type i) (i_major i) (i_minor i) (i_nlink i) (i_size i) (i_addrs i).
Definition set_valid (v : Z) (i : inode) : inode :=
  mk_inode (i_dev i) (i_inum i) (i_ref i) (i_lock i) v (i_type i) (i_major i) (i_minor i) (i_nlink i) (i_size i) (i_addrs i).
Definition set_type (t : Z) (i : inode) : inode :=
  mk_inode (i_dev i) (i_inum i) (i_ref i) (i_lock i) (i_valid i) t (i_major i) (i_minor i) (i_nlink i) (i_size i) (i_addrs i).
Definition set_nlink (n : Z) (i : inode) : inode :=
  mk_inode (i_dev i) (i_inum i) (i_ref i) (i_lock i) (i_valid i) (i_type i) (i_major i) (i_minor i) n (i_size i) (i_addrs i).
Definition set_major_minor (a b : Z) (i : inode) : inode :=
  mk_inode (i_dev i) (i_inum i) (i_ref i) (i_lock i) (i_valid i) (i_type i) a b (i_nlink i) (i_size i) (i_addrs i).
Definition set_size (n : Z) (i : inode) : inode :=
  mk_inode (i_dev i) (i_inum i) (i_ref i) (i_lock i) (i_valid i) (i_type i) (i_major i) (i_minor i) (i_nlink i) n (i_addrs i).
Definition set_addr (k : Z) (a : Z) (i : inode) : inode :=
  mk_inode (i_dev i) (i_inum i) (i_ref i) (i_lock i) (i_valid i) (i_type i) (i_major i) (i_minor i) (i_nlink i) (i_size i)
    (<[Z.to_nat k := a]> (i_addrs i)).
Definition set_identity (dev inum ref valid : Z) (i : inode) : inode :=
  mk_inode dev inum ref (i_lock i) valid (i_type i) (i_major i) (i_minor i) (i_nlink i) (i_size i) (i_addrs i).
Definition set_dinode (d : dinode) (i : inode) : inode :=
  mk_inode (i_dev i) (i_inum i) (i_ref i) (i_lock i) (i_valid i) (d_type d) (d_major d) (d_minor d) (d_nlink d) (d_size d) (d_addrs d).
Definition dinode_of (i : inode) : dinode :=
  mk_dinode (i_type i) (i_major i) (i_minor i) (i_nlink i) (i_size i) (i_addrs i).

Record stat := mk_stat { st_dev : Z; st_ino : Z; st_type : Z; st_nlink : Z; st_size : Z }.

(** Where [readi] copies to and [writei] from: a user address, a kernel address, or
    a variable of the caller (for [writei] with its content). *)
Inductive mdst := DUser (va : Z) | DKern (a : Z) | DLocal.
Inductive msrc := SUser (va : Z) | SKern (a : Z) | SLocal (bs : list Z).

Record fs_st (T U : Type) := mk_fs {
  ftx : T;
  fsb : superblock;
  icache : list inode;
  fmem : U;
  fpid : Z;
  fpagetable : Z;
  fcwd : nat;
  flocal : list Z;
  fwoken : list chan
}.
Arguments mk_fs {T U}.
Arguments ftx {T U}. Arguments fsb {T U}. Arguments icache {T U}. Arguments fmem {T U}. Arguments fpid {T U}.
Arguments fpagetable {T U}. Arguments fcwd {T U}. Arguments flocal {T U}. Arguments fwoken {T U}.

Section State.
Context {T U : Type}.
Definition set_ftx (t : T) (s : fs_st T U) : fs_st T U :=
  mk_fs t (fsb s) (icache s) (fmem s) (fpid s) (fpagetable s) (fcwd s) (flocal s) (fwoken s).
Definition set_fsb (b : superblock) (s : fs_st T U) : fs_st T U :=
  mk_fs (ftx s) b (icache s) (fmem s) (fpid s) (fpagetable s) (fcwd s) (flocal s) (fwoken s).
Definition set_icache (l : list inode) (s : fs_st T U) : fs_st T U :=
  mk_fs (ftx s) (fsb s) l (fmem s) (fpid s) (fpagetable s) (fcwd s) (flocal s) (fwoken s).
Definition set_fmem (u : U) (s : fs_st T U) : fs_st T U :=
  mk_fs (ftx s) (fsb s) (icache s) u (fpid s) (fpagetable s) (fcwd s) (flocal s) (fwoken s).
Definition set_local (d : list Z) (s : fs_st T U) : fs_st T U :=
  mk_fs (ftx s) (fsb s) (icache s) (fmem s) (fpid s) (fpagetable s) (fcwd s) d (fwoken s).
Definition set_woken (w : list chan) (s : fs_st T U) : fs_st T U :=
  mk_fs (ftx s) (fsb s) (icache s) (fmem s) (fpid s) (fpagetable s) (fcwd s) (flocal s) w.

Definition the_inode (ip : nat) (s : fs_st T U) : inode := icache s !!! ip.
Definition upd_inode (ip : nat) (f : inode -> inode) (s : fs_st T U) : fs_st T U := set_icache (alter f ip (icache s)) s.
Definition on_tx {A} (m : M T A) : M (fs_st T U) A := zoom ftx set_ftx m.
Definition on_mem {A} (m : M U A) : M (fs_st T U) A := zoom fmem set_fmem m.
Definition on_ilock {A} (ip : nat) (m : M slk_st A) : M (fs_st T U) A :=
  zoom (fun s => mk_slkst (i_lock (the_inode ip s)) (fwoken s))
    (fun k s => set_woken (slk_woken k) (upd_inode ip (set_lock (slk k)) s)) m.
End State.

Section Fs.
Context {T U : Type} `{TxDisk T} `{UserAccess U}.
Notation FS := (M (fs_st T U)).

Definition bdata (b : nat) : FS (list Z) := gets (fun s => tx_data b (ftx s)).
Definition set_bdata (b : nat) (d : list Z) : FS unit := modify (fun s => set_ftx (tx_set_data b d (ftx s)) s).
Definition f_bread (dev n : Z) : FS nat := on_tx (tx_bread dev n).
Definition f_brelse (b : nat) : FS unit := on_tx (tx_brelse b).
Definition f_log_write (b : nat) : FS unit := on_tx (tx_log_write b).

(** ** Blocks *)

Definition readsb (dev : Z) : FS unit :=
  let! bp := f_bread dev 1 in
  let! d := bdata bp in
  modify (set_fsb (mk_sb (get32 0 d) (get32 4 d) (get32 8 d) (get32 12 d) (get32 16 d) (get32 20 d) (get32 24 d) (get32 28 d))) ;;
  f_brelse bp.

Definition bzero (dev bno : Z) : FS unit :=
  let! bp := f_bread dev (u32 bno) in
  set_bdata bp (replicate (Z.to_nat BSIZE) 0) ;;
  f_log_write bp ;;
  f_brelse bp.

(** The bit of block [bi] in a block of the free map. *)
Definition bit_of (d : list Z) (bi : Z) : Z := Z.land (d !!! Z.to_nat (bi / 8)) (Z.shiftl 1 (bi mod 8)).
Definition set_bit (d : list Z) (bi : Z) : list Z :=
  <[Z.to_nat (bi / 8) := Z.lor (d !!! Z.to_nat (bi / 8)) (Z.shiftl 1 (bi mod 8))]> d.
(** [&= ~m], stored in a [uchar]. *)
Definition clear_bit (d : list Z) (bi : Z) : list Z :=
  <[Z.to_nat (bi / 8) := u8 (Z.land (d !!! Z.to_nat (bi / 8)) (Z.lnot (Z.shiftl 1 (bi mod 8))))]> d.

(** The inner loop: the first free bit, if there is one. *)
Fixpoint balloc_scan (size : Z) (d : list Z) (b bi : Z) (k : nat) : option Z :=
  match k with
  | O => None
  | S k' =>
      if (bi <? BPB) && (u32 (b + bi) <? size)
      then if bit_of d bi =? 0 then Some bi else balloc_scan size d b (bi + 1) k'
      else None
  end.

(** The outer loop; [b] is an [int]. *)
Fixpoint balloc_loop (dev b : Z) (fuel : nat) : FS Z :=
  match fuel with
  | O => diverge
  | S fuel' =>
      let! s := get in
      if u32 b <? sb_size (fsb s) then
        let! bp := f_bread dev (BBLOCK b (fsb s)) in
        let! d := bdata bp in
        match balloc_scan (sb_size (fsb s)) d b 0 (Z.to_nat BPB) with
        | Some bi =>
            set_bdata bp (set_bit d bi) ;;
            f_log_write bp ;;
            f_brelse bp ;;
            bzero dev (b + bi) ;;
            ret (u32 (b + bi))
        | None =>
            f_brelse bp ;;
            if 2 ^ 31 <=? b + BPB then undefined else balloc_loop dev (b + BPB) fuel'
        end
      else panic "balloc: out of blocks"
  end.

Definition balloc (dev : Z) : FS Z :=
  let! s := get in balloc_loop dev 0 (Z.to_nat (sb_size (fsb s) / BPB + 2)).

Definition bfree (dev b : Z) : FS unit :=
  let! s := get in
  let! bp := f_bread dev (BBLOCK b (fsb s)) in
  let bi := b mod BPB in
  let! d := bdata bp in
  if bit_of d bi =? 0 then panic "freeing free block"
  else
    set_bdata bp (clear_bit d bi) ;;
    f_log_write bp ;;
    f_brelse bp.

(** ** Inodes *)

Definition iinit : FS unit :=
  modify (fun s => set_icache (set_lock (initsleeplock "inode") <$> icache s) s).

(** The search of [iget]: the cached entry, and the first empty slot. *)
Fixpoint iget_scan (dev inum : Z) (l : list inode) (i : nat) (empty : option nat) : option nat * option nat :=
  match l with
  | [] => (None, empty)
  | x :: l' =>
      if (0 <? i_ref x) && (i_dev x =? dev) && (i_inum x =? inum) then (Some i, empty)
      else iget_scan dev inum l' (S i)
             (match empty with
              | None => if i_ref x =? 0 then Some i else None
              | Some _ => empty
              end)
  end.

Definition iget (dev inum : Z) : FS nat :=
  let! s := get in
  match iget_scan dev inum (icache s) 0 None with
  | (Some ip, _) => modify (upd_inode ip (fun i => set_ref (i32 (i_ref i + 1)) i)) ;; ret ip
  | (None, None) => panic "iget: no inodes"
  | (None, Some ip) => modify (upd_inode ip (set_identity dev inum 1 0)) ;; ret ip
  end.

Fixpoint ialloc_loop (dev type inum : Z) (fuel : nat) : FS nat :=
  match fuel with
  | O => diverge
  | S fuel' =>
      let! s := get in
      if u32 inum <? sb_ninodes (fsb s) then
        let! bp := f_bread dev (IBLOCK inum (fsb s)) in
        let! d := bdata bp in
        if get16 (doff inum) d =? 0 then
          set_bdata bp (put16 (doff inum) type (putn (doff inum) (replicate 64 0) d)) ;;
          f_log_write bp ;;
          f_brelse bp ;;
          iget dev inum
        else
          f_brelse bp ;;
          if 2 ^ 31 <=? inum + 1 then undefined else ialloc_loop dev type (inum + 1) fuel'
      else panic "ialloc: no inodes"
  end.

Definition ialloc (dev type : Z) : FS nat :=
  let! s := get in ialloc_loop dev type 1 (Z.to_nat (sb_ninodes (fsb s) + 1)).

Definition iupdate (ip : nat) : FS unit :=
  let! s := get in
  let i := the_inode ip s in
  let! bp := f_bread (i_dev i) (IBLOCK (i_inum i) (fsb s)) in
  let! d := bdata bp in
  set_bdata bp (put_dinode (doff (i_inum i)) (dinode_of i) d) ;;
  f_log_write bp ;;
  f_brelse bp.

Definition idup (ip : nat) : FS nat :=
  modify (upd_inode ip (fun i => set_ref (i32 (i_ref i + 1)) i)) ;; ret ip.

Definition ilock (p : option nat) : FS unit :=
  let! s := get in
  match p with
  | None => panic "ilock"
  | Some ip =>
      if i_ref (the_inode ip s) <? 1 then panic "ilock"
      else
        on_ilock ip (acquiresleep (CInodeLock ip) (fpid s)) ;;
        let! s := get in
        let i := the_inode ip s in
        if i_valid i =? 0 then
          let! bp := f_bread (i_dev i) (IBLOCK (i_inum i) (fsb s)) in
          let! d := bdata bp in
          modify (upd_inode ip (set_dinode (get_dinode (doff (i_inum i)) d))) ;;
          f_brelse bp ;;
          modify (upd_inode ip (set_valid 1)) ;;
          let! s := get in
          if i_type (the_inode ip s) =? 0 then panic "ilock: no type" else ret tt
        else ret tt
  end.

Definition iunlock (p : option nat) : FS unit :=
  let! s := get in
  match p with
  | None => panic "iunlock"
  | Some ip =>
      if negb (holdingsleep (fpid s) (i_lock (the_inode ip s))) || (i_ref (the_inode ip s) <? 1) then panic "iunlock"
      else on_ilock ip (releasesleep (CInodeLock ip))
  end.

(** ** Inode content *)

(** [a[bn]] of the indirect block, as [uint*]. *)
Definition ioff (bn : Z) : nat := Z.to_nat (bn * 4).

(** The entry of the indirect block [ind], allocated if it is missing. *)
Definition bmap_entry (dev ind bn : Z) : FS Z :=
  let! bp := f_bread dev ind in
  let! d := bdata bp in
  let! addr :=
    (let addr := get32 (ioff bn) d in
     if addr =? 0 then
       let! addr := balloc dev in
       let! d := bdata bp in
       set_bdata bp (put32 (ioff bn) addr d) ;;
       f_log_write bp ;;
       ret addr
     else ret addr) in
  f_brelse bp ;;
  ret addr.

Definition bmap (ip : nat) (bn : Z) : FS Z :=
  let! s := get in
  let i := the_inode ip s in
  if bn <? NDIRECT then
    let addr := i_addrs i !!! Z.to_nat bn in
    if addr =? 0 then
      let! addr := balloc (i_dev i) in
      modify (upd_inode ip (set_addr bn addr)) ;; ret addr
    else ret addr
  else
    let bn := bn - NDIRECT in
    if bn <? NINDIRECT then
      let addr := i_addrs i !!! Z.to_nat NDIRECT in
      if addr =? 0 then
        let! addr := balloc (i_dev i) in
        modify (upd_inode ip (set_addr NDIRECT addr)) ;;
        bmap_entry (i_dev i) addr bn
      else bmap_entry (i_dev i) addr bn
    else panic "bmap: out of range".

Fixpoint itrunc_direct (ip : nat) (i : Z) (k : nat) : FS unit :=
  match k with
  | O => ret tt
  | S k' =>
      let! s := get in
      let n := the_inode ip s in
      (if negb (i_addrs n !!! Z.to_nat i =? 0) then
         bfree (i_dev n) (i_addrs n !!! Z.to_nat i) ;;
         modify (upd_inode ip (set_addr i 0))
       else ret tt) ;;
      itrunc_direct ip (i + 1) k'
  end.

Fixpoint itrunc_indirect (dev : Z) (bp : nat) (j : Z) (k : nat) : FS unit :=
  match k with
  | O => ret tt
  | S k' =>
      let! d := bdata bp in
      (if negb (get32 (ioff j) d =? 0) then bfree dev (get32 (ioff j) d) else ret tt) ;;
      itrunc_indirect dev bp (j + 1) k'
  end.

Definition itrunc (ip : nat) : FS unit :=
  itrunc_direct ip 0 (Z.to_nat NDIRECT) ;;
  let! s := get in
  let n := the_inode ip s in
  (if negb (i_addrs n !!! Z.to_nat NDIRECT =? 0) then
     let! bp := f_bread (i_dev n) (i_addrs n !!! Z.to_nat NDIRECT) in
     itrunc_indirect (i_dev n) bp 0 (Z.to_nat NINDIRECT) ;;
     f_brelse bp ;;
     bfree (i_dev n) (i_addrs n !!! Z.to_nat NDIRECT) ;;
     modify (upd_inode ip (set_addr NDIRECT 0))
   else ret tt) ;;
  modify (upd_inode ip (set_size 0)) ;;
  iupdate ip.

Definition iput (ip : nat) : FS unit :=
  let! s := get in
  let i := the_inode ip s in
  (if (i_ref i =? 1) && negb (i_valid i =? 0) && (i_nlink i =? 0) then
     on_ilock ip (acquiresleep (CInodeLock ip) (fpid s)) ;;
     itrunc ip ;;
     modify (upd_inode ip (set_type 0)) ;;
     iupdate ip ;;
     modify (upd_inode ip (set_valid 0)) ;;
     on_ilock ip (releasesleep (CInodeLock ip))
   else ret tt) ;;
  modify (upd_inode ip (fun i => set_ref (i32 (i_ref i - 1)) i)).

Definition iunlockput (ip : nat) : FS unit := iunlock (Some ip) ;; iput ip.

Definition stati (ip : nat) : FS stat :=
  gets (fun s => let i := the_inode ip s in mk_stat (i32 (i_dev i)) (i_inum i) (i_type i) (i_nlink i) (i_size i)).

(** [either_copyout(user_dst, dst, src, len)], [dst] advanced by [tot]. *)
Definition copy_to (dst : mdst) (tot : Z) (bs : list Z) : FS Z :=
  let! s := get in
  match dst with
  | DUser va => on_mem (either_copyout (fpagetable s) true (u64 (va + tot)) bs)
  | DKern a => on_mem (either_copyout (fpagetable s) false (u64 (a + tot)) bs)
  | DLocal => modify (set_local (putn (Z.to_nat tot) bs (flocal s))) ;; ret 0
  end.

(** [either_copyin(dst, user_src, src, len)]: the result and the bytes copied. *)
Definition copy_from (src : msrc) (tot : Z) (len : Z) : FS (Z * list Z) :=
  let! s := get in
  match src with
  | SUser va => on_mem (either_copyin (fpagetable s) true (u64 (va + tot)) len)
  | SKern a => on_mem (either_copyin (fpagetable s) false (u64 (a + tot)) len)
  | SLocal bs => ret (0, getn (Z.to_nat tot) (Z.to_nat len) bs)
  end.

Fixpoint readi_loop (ip : nat) (dst : mdst) (off n tot : Z) (fuel : nat) : FS Z :=
  match fuel with
  | O => diverge
  | S fuel' =>
      if tot <? n then
        let! s := get in
        let! addr := bmap ip (off / BSIZE) in
        let! bp := f_bread (i_dev (the_inode ip s)) addr in
        let m := Z.min (n - tot) (BSIZE - off mod BSIZE) in
        let! d := bdata bp in
        let! r := copy_to dst tot (getn (Z.to_nat (off mod BSIZE)) (Z.to_nat m) d) in
        if r =? -1 then f_brelse bp ;; ret tot
        else f_brelse bp ;; readi_loop ip dst (u32 (off + m)) n (tot + m) fuel'
      else ret tot
  end.

Definition readi (ip : nat) (dst : mdst) (off n : Z) : FS Z :=
  let! s := get in
  let size := i_size (the_inode ip s) in
  if (size <? off) || (u32 (off + n) <? off) then ret 0
  else
    let n := if size <? u32 (off + n) then size - off else n in
    let! tot := readi_loop ip dst off n 0 (Z.to_nat (n / BSIZE + 3)) in
    ret (i32 tot).

(** The loop of [writei] returns the final [off]. *)
Fixpoint writei_loop (ip : nat) (src : msrc) (off n tot : Z) (fuel : nat) : FS Z :=
  match fuel with
  | O => diverge
  | S fuel' =>
      if tot <? n then
        let! s := get in
        let! addr := bmap ip (off / BSIZE) in
        let! bp := f_bread (i_dev (the_inode ip s)) addr in
        let m := Z.min (n - tot) (BSIZE - off mod BSIZE) in
        let! (r, bs) := copy_from src tot m in
        let! d := bdata bp in
        (if bool_decide (bs = []) then ret tt else set_bdata bp (putn (Z.to_nat (off mod BSIZE)) bs d)) ;;
        if r =? -1 then f_brelse bp ;; ret off
        else
          f_log_write bp ;;
          f_brelse bp ;;
          writei_loop ip src (u32 (off + m)) n (tot + m) fuel'
      else ret off
  end.

Definition writei (ip : nat) (src : msrc) (off n : Z) : FS Z :=
  let! s := get in
  if (i_size (the_inode ip s) <? off) || (u32 (off + n) <? off) then ret (-1)
  else if MAXFILE * BSIZE <? u32 (off + n) then ret (-1)
  else
    let! off := writei_loop ip src off n 0 (Z.to_nat (n / BSIZE + 3)) in
    (if 0 <? n then
       let! s := get in
       (if i_size (the_inode ip s) <? off then modify (upd_inode ip (set_size off)) else ret tt) ;;
       iupdate ip
     else ret tt) ;;
    ret (i32 n).

(** ** Directories *)

(** [strncmp] on the arrays the file system compares; past the end of a list is NUL. *)
Fixpoint strncmp_arr (p q : list Z) (n : nat) : Z :=
  match n with
  | O => 0
  | S n' =>
      if negb (hd 0 p =? 0) && (hd 0 p =? hd 0 q) then strncmp_arr (tl p) (tl q) n'
      else hd 0 p - hd 0 q
  end.

Definition namecmp (s t : list Z) : Z := strncmp_arr s t DIRSIZ.

(** [strncpy] into an array of [n] bytes. *)
Fixpoint strncpy_arr (t : list Z) (n : nat) : list Z :=
  match n with
  | O => []
  | S n' => if hd 0 t =? 0 then replicate n 0 else hd 0 t :: strncpy_arr (tl t) n'
  end.

Definition DIRENT : Z := 16.
Definition de_inum (de : list Z) : Z := get16 0 de.
Definition de_name (de : list Z) : list Z := getn 2 DIRSIZ de.

Fixpoint dirlookup_loop (dp : nat) (name : list Z) (off : Z) (fuel : nat) : FS (option (nat * Z)) :=
  match fuel with
  | O => diverge
  | S fuel' =>
      let! s := get in
      if off <? i_size (the_inode dp s) then
        let! r := readi dp DLocal off DIRENT in
        if negb (r =? DIRENT) then panic "dirlookup read"
        else
          let! de := gets flocal in
          if de_inum de =? 0 then dirlookup_loop dp name (u32 (off + DIRENT)) fuel'
          else if namecmp name (de_name de) =? 0 then
            let! s := get in
            let! ip := iget (i_dev (the_inode dp s)) (de_inum de) in
            ret (Some (ip, off))
          else dirlookup_loop dp name (u32 (off + DIRENT)) fuel'
      else ret None
  end.

(** The inode found, and the value of [*poff]. *)
Definition dirlookup (dp : nat) (name : list Z) : FS (option (nat * Z)) :=
  let! s := get in
  if negb (i_type (the_inode dp s) =? T_DIR) then panic "dirlookup not DIR"
  else
    modify (set_local (replicate 16 0)) ;;
    dirlookup_loop dp name 0 (Z.to_nat (i_size (the_inode dp s) / DIRENT + 2)).

(** The loop of [dirlink]; [off] is an [int], compared as unsigned. *)
Fixpoint dirlink_loop (dp : nat) (off : Z) (fuel : nat) : FS Z :=
  match fuel with
  | O => diverge
  | S fuel' =>
      let! s := get in
      if u32 off <? i_size (the_inode dp s) then
        let! r := readi dp DLocal (u32 off) DIRENT in
        if negb (r =? DIRENT) then panic "dirlink read"
        else
          let! de := gets flocal in
          if de_inum de =? 0 then ret off else dirlink_loop dp (i32 (off + DIRENT)) fuel'
      else ret off
  end.

Definition dirlink (dp : nat) (name : list Z) (inum : Z) : FS Z :=
  let! r := dirlookup dp name in
  match r with
  | Some (ip, _) => iput ip ;; ret (-1)
  | None =>
      modify (set_local (replicate 16 0)) ;;
      let! s := get in
      let! off := dirlink_loop dp 0 (Z.to_nat (i_size (the_inode dp s) / DIRENT + 2)) in
      modify (fun s => set_local (put16 0 inum (putn 2 (strncpy_arr name DIRSIZ) (flocal s))) s) ;;
      let! de := gets flocal in
      let! w := writei dp (SLocal de) (u32 off) DIRENT in
      if negb (w =? DIRENT) then panic "dirlink" else ret 0
  end.

(** ** Paths *)

(** A path is its bytes; the end of the list is the terminating NUL. *)
Definition SLASH : Z := 47.

Fixpoint skip_slashes (path : list Z) : list Z :=
  match path with
  | c :: path' => if c =? SLASH then skip_slashes path' else path
  | [] => []
  end.

(** The element [path - s], and what follows it. *)
Fixpoint path_elem (path : list Z) : list Z * list Z :=
  match path with
  | c :: path' =>
      if negb (c =? SLASH) && negb (c =? 0)
      then let '(e, r) := path_elem path' in (c :: e, r)
      else ([], path)
  | [] => ([], [])
  end.

(** The rest of the path and the array [name] after the call, or [None] for NULL. *)
Definition skipelem (path name : list Z) : option (list Z * list Z) :=
  let path := skip_slashes path in
  if hd 0 path =? 0 then None
  else
    let '(e, path) := path_elem path in
    let name := if Nat.leb DIRSIZ (length e) then putn 0 (take DIRSIZ e) name else putn 0 (e ++ [0]) name in
    Some (skip_slashes path, name).

(** The loop of [namex]: the inode, if any, and [name]. *)
Fixpoint namex_loop (ip : nat) (path : list Z) (nameiparent : bool) (name : list Z) (fuel : nat) : FS (option nat * list Z) :=
  match fuel with
  | O => diverge
  | S fuel' =>
      match skipelem path name with
      | None => if nameiparent then iput ip ;; ret (None, name) else ret (Some ip, name)
      | Some (path, name) =>
          ilock (Some ip) ;;
          let! s := get in
          if negb (i_type (the_inode ip s) =? T_DIR) then iunlockput ip ;; ret (None, name)
          else if nameiparent && (hd 0 path =? 0) then iunlock (Some ip) ;; ret (Some ip, name)
          else
            let! r := dirlookup ip name in
            match r with
            | None => iunlockput ip ;; ret (None, name)
            | Some (next, _) => iunlockput ip ;; namex_loop next path nameiparent name fuel'
            end
      end
  end.

Definition namex (path : list Z) (nameiparent : bool) (name : list Z) : FS (option nat * list Z) :=
  let! s := get in
  let! ip := (if hd 0 path =? SLASH then iget fs_ROOTDEV ROOTINO else idup (fcwd s)) in
  namex_loop ip path nameiparent name (S (length path)).

Definition namei (path : list Z) : FS (option nat) :=
  let! r := namex path false (replicate DIRSIZ 0) in ret (fst r).

Definition nameiparent (path name : list Z) : FS (option nat * list Z) := namex path true name.
End Fs.

(** ** Mounting *)

Definition fsinit {B U : Type} `{BufCache B} (dev : Z) : M (fs_st (log_st B) U) unit :=
  readsb dev ;;
  let! s := get in
  if negb (sb_magic (fsb s) =? FSMAGIC) then panic "invalid file system"
  else on_tx (initlog dev (sb_logstart (fsb s)) (sb_nlog (fsb s))).
