(* ===== verification/FsBlocks.v ===== *)
(** * kernel/fs.c: the block allocator

    Steps of the file system on the transaction view, the disk layout, the free map,
    and what [balloc], [bzero] and [bfree] do to it. *)
From stdpp Require Import base gmap list numbers functions strings.
From Stdlib Require Import ZArith Lia.
From S2P Require Import Prelude Bytes.
From S2P Require Import Access Bio BlockCache LogDisk TxDisk Fs.
Open Scope Z_scope.

(** The blocks of a disk. *)
Notation blocks := (Z -> list Z) (only parsing).

Definition zeros : list Z := replicate (Z.to_nat BSIZE) 0.

Lemma zeros_block : is_block zeros.
Proof.
  split; [apply length_replicate|]. apply Forall_forall. intros x Hx. apply elem_of_replicate in Hx. lia.
Qed.

(** ** The layout mkfs gives a disk *)

Definition datastart (sb : superblock) : Z := sb_bmapstart sb + sb_size sb / BPB + 1.

Record layout (g : geom) (sb : superblock) : Prop := {
  ly_log : 0 <= g_start g /\ 0 <= g_size g /\ g_start g + g_size g <= sb_inodestart sb;
  ly_inodes : 0 <= sb_ninodes sb /\ sb_inodestart sb + sb_ninodes sb / IPB < sb_bmapstart sb;
  ly_bmap : datastart sb <= sb_size sb;
  ly_size : sb_size sb < 2 ^ 31 - 8192
}.

(** Block [b] is marked in use in the free map. *)
Definition used (sb : superblock) (D : blocks) (b : Z) : Prop := bit_of (D (BBLOCK b sb)) (b mod BPB) <> 0.
#[export] Instance used_dec sb D b : Decision (used sb D b).
Proof. unfold used. apply _. Defined.

Definition is_bmap (sb : superblock) (m : Z) : Prop := sb_bmapstart sb <= m < datastart sb.

(** The blocks of the free map. *)
Definition bmaps (sb : superblock) : gset Z :=
  list_to_set (seqZ (sb_bmapstart sb) (sb_size sb / BPB + 1)).

Section Layout.
Context (g : geom) (sb : superblock) (HL : layout g sb).

Lemma size_div : 0 <= sb_size sb / BPB < 2 ^ 18 /\ 0 <= sb_ninodes sb / IPB /\ 0 < sb_bmapstart sb.
Proof.
  destruct HL as [[H1 [H2 H3]] [H4 H5] H6 H7]. assert (0 <= sb_ninodes sb / IPB) by (apply Z.div_pos; [lia|done]).
  unfold datastart in *. change BPB with 8192 in *.
  assert (0 <= sb_size sb). { destruct (Z.ltb_spec (sb_size sb) 0) as [Hs|]; [|lia]. pose proof (Z.div_le_mono (sb_size sb) 0 8192). 
    pose proof (Z.mul_div_le (sb_size sb) 8192). pose proof (Z.mul_succ_div_gt (sb_size sb) 8192). nia. }
  split; [|lia]. split; [apply Z.div_pos; lia|]. apply Z.div_lt_upper_bound; lia.
Qed.

Lemma bblock_bmap b : 0 <= b < sb_size sb -> BBLOCK b sb = b / BPB + sb_bmapstart sb /\ is_bmap sb (BBLOCK b sb).
Proof.
  intros Hb. pose proof size_div. pose proof (ly_size _ _ HL). pose proof (ly_bmap _ _ HL).
  assert (0 <= b / BPB <= sb_size sb / BPB) by (split; [apply Z.div_pos; [lia|done]|apply Z.div_le_mono; [done|lia]]).
  unfold BBLOCK, is_bmap, datastart in *. rewrite u32_small by lia. split; [done|lia].
Qed.

Lemma bmap_bmaps m : m ∈ bmaps sb <-> is_bmap sb m.
Proof. unfold bmaps, is_bmap, datastart. rewrite elem_of_list_to_set, elem_of_seqZ. lia. Qed.

(** The layout keeps the log, the inodes, the free map and the data apart. *)
Lemma bmap_not_log m : is_bmap sb m -> ~ g_log g m /\ 0 <= m < 2 ^ 32.
Proof.
  pose proof size_div. destruct HL as [[H1 [H2 H3]] [H4 H5] H6 H7]. unfold is_bmap, g_log, in_log, datastart in *. lia.
Qed.
Lemma data_not_log m : datastart sb <= m < sb_size sb -> ~ g_log g m /\ 0 < m < 2 ^ 31 /\ ~ is_bmap sb m.
Proof.
  pose proof size_div. destruct HL as [[H1 [H2 H3]] [H4 H5] H6 H7]. unfold is_bmap, g_log, in_log, datastart in *. lia.
Qed.

(** The block of an inode. *)
Definition is_iblock (m : Z) : Prop := sb_inodestart sb <= m < sb_bmapstart sb.
Lemma iblock_ok i : 0 <= i < sb_ninodes sb ->
  IBLOCK i sb = i / IPB + sb_inodestart sb /\ is_iblock (IBLOCK i sb).
Proof.
  intros Hi. pose proof size_div. destruct HL as [[H1 [H2 H3]] [H4 H5] H6 H7].
  assert (0 <= i / IPB <= sb_ninodes sb / IPB) by (split; [apply Z.div_pos; [lia|done]|apply Z.div_le_mono; [done|lia]]).
  unfold IBLOCK, is_iblock, datastart in *. rewrite u32_small by lia. split; [done|lia].
Qed.
Lemma iblock_not_log m : is_iblock m -> ~ g_log g m /\ 0 <= m < 2 ^ 32 /\ ~ is_bmap sb m /\ m < datastart sb.
Proof.
  pose proof size_div. destruct HL as [[H1 [H2 H3]] [H4 H5] H6 H7]. unfold is_iblock, is_bmap, g_log, in_log, datastart in *. lia.
Qed.
End Layout.

(** ** Bits of the free map *)

Lemma bit_of_testbit d bi : 0 <= bi -> bit_of d bi <> 0 <-> Z.testbit (d !!! Z.to_nat (bi / 8)) (bi mod 8) = true.
Proof.
  intros Hbi. pose proof (Z.mod_pos_bound bi 8). unfold bit_of. rewrite Z.shiftl_1_l. split.
  - intros Hz. destruct (Z.testbit _ _) eqn:E; [done|]. destruct Hz. apply Z.bits_inj'. intros n Hn.
    rewrite Z.land_spec, Z.pow2_bits_eqb, Z.bits_0 by lia. destruct (Z.eqb_spec (bi mod 8) n) as [<-|]; [by rewrite E|apply andb_false_r].
  - intros Hz E. assert (Z.testbit (Z.land (d !!! Z.to_nat (bi / 8)) (2 ^ (bi mod 8))) (bi mod 8) = true) as Ht.
    { rewrite Z.land_spec, Hz, Z.pow2_bits_true by lia. done. }
    rewrite E, Z.bits_0 in Ht. done.
Qed.

Section Bits.
Context (d : list Z) (Hd : is_block d).

Lemma bit_index bi : 0 <= bi < BPB -> (Z.to_nat (bi / 8) < length d)%nat.
Proof.
  intros Hb. destruct Hd as [-> _]. change BPB with 8192 in *. change (Z.to_nat BSIZE) with 1024%nat.
  assert (0 <= bi / 8 < 1024) by (split; [apply Z.div_pos; lia|apply Z.div_lt_upper_bound; lia]). lia.
Qed.

Lemma bit_same bi bj : 0 <= bi -> 0 <= bj -> Z.to_nat (bi / 8) = Z.to_nat (bj / 8) -> bi mod 8 = bj mod 8 -> bi = bj.
Proof.
  intros. assert (0 <= bi / 8) by (apply Z.div_pos; lia). assert (0 <= bj / 8) by (apply Z.div_pos; lia).
  assert (bi / 8 = bj / 8) as E by lia. rewrite (Z.div_mod bi 8), (Z.div_mod bj 8), E by lia. lia.
Qed.

Lemma bit_of_insert bi bj x : 0 <= bi < BPB -> 0 <= bj < BPB ->
  bit_of (<[Z.to_nat (bi / 8) := x]> d) bj <> 0 <->
  if decide (Z.to_nat (bi / 8) = Z.to_nat (bj / 8)) then Z.testbit x (bj mod 8) = true else bit_of d bj <> 0.
Proof.
  intros Hi Hj. rewrite !bit_of_testbit by lia. case_decide as E.
  - rewrite E, list_lookup_total_insert_eq; [done|]. by apply bit_index.
  - rewrite list_lookup_total_insert_ne by done. symmetry. apply bit_of_testbit. lia.
Qed.

Lemma set_bit_spec bi bj : 0 <= bi < BPB -> 0 <= bj < BPB ->
  bit_of (set_bit d bi) bj <> 0 <-> bj = bi \/ bit_of d bj <> 0.
Proof.
  intros Hi Hj. unfold set_bit. rewrite bit_of_insert by done. pose proof (Z.mod_pos_bound bi 8). pose proof (Z.mod_pos_bound bj 8).
  case_decide as E.
  - rewrite Z.lor_spec, orb_true_iff, Z.shiftl_1_l, Z.pow2_bits_eqb, Z.eqb_eq, E, <- bit_of_testbit by lia.
    split; [intros [|He]; [by right|left; apply bit_same; lia]|intros [->|]; tauto].
  - split; [tauto|]. intros [->|]; tauto.
Qed.

Lemma clear_bit_spec bi bj : 0 <= bi < BPB -> 0 <= bj < BPB ->
  bit_of (clear_bit d bi) bj <> 0 <-> bj <> bi /\ bit_of d bj <> 0.
Proof.
  intros Hi Hj. unfold clear_bit. rewrite bit_of_insert by done. pose proof (Z.mod_pos_bound bi 8). pose proof (Z.mod_pos_bound bj 8).
  case_decide as E.
  - unfold u8, wrap. rewrite Z.mod_pow2_bits_low, Z.land_spec, andb_true_iff, Z.lnot_spec, Z.shiftl_1_l, Z.pow2_bits_eqb, E, <- bit_of_testbit by lia.
    destruct (Z.eqb_spec (bi mod 8) (bj mod 8)) as [Em|Em]; cbn; (split; [intros [H1 H2]|intros [H2 H1]]); try done.
    + destruct H2. apply bit_same; lia || congruence.
    + split; [congruence|done].
  - split; [|tauto]. intros. split; [congruence|done].
Qed.

Lemma byte_at i : 0 <= d !!! i < 256.
Proof.
  destruct (decide (i < length d)%nat) as [Hi|Hi].
  - destruct (lookup_lt_is_Some_2 d i Hi) as [x Hx]. rewrite (list_lookup_total_correct _ _ _ Hx).
    destruct Hd as [_ Hb]. exact (Forall_lookup_1 _ _ _ _ Hb Hx).
  - rewrite list_lookup_total_alt, lookup_ge_None_2 by lia. cbn. lia.
Qed.

Lemma set_bit_block bi : is_block (set_bit d bi).
Proof.
  destruct Hd as [Hl Hb]. split; [by unfold set_bit; rewrite length_insert|]. apply Forall_insert; [done|].
  pose proof (byte_at (Z.to_nat (bi / 8))) as Hx. pose proof (Z.mod_pos_bound bi 8). rewrite Z.shiftl_1_l.
  assert (0 <= 2 ^ (bi mod 8) < 256) as Hp.
  { split; [apply Z.pow_nonneg; lia|]. change 256 with (2 ^ 8). apply Z.pow_lt_mono_r; lia. }
  split; [apply Z.lor_nonneg; lia|]. set (x := d !!! _) in *. apply Z.log2_lt_cancel. change (Z.log2 256) with 8.
  rewrite Z.log2_lor by lia. apply Z.max_lub_lt; [|rewrite Z.log2_pow2; lia].
  destruct (decide (x = 0)) as [->|]; [done|]. apply Z.log2_lt_pow2; lia.
Qed.

Lemma clear_bit_block bi : is_block (clear_bit d bi).
Proof.
  destruct Hd as [Hl Hb]. split; [by unfold clear_bit; rewrite length_insert|]. apply Forall_insert; [done|]. apply u8_range.
Qed.
End Bits.

(** ** Steps on the transaction view *)

(** Room for one more block in the transaction, and for its buffers. *)
Definition cap (g : geom) : Z := Z.min (g_size g - 1) (Z.of_nat NBUF - 1).
Definition room (g : geom) (L : gset Z) : Prop := Z.of_nat (size L) < cap g.

Section Steps.
Context {T U : Type} `{TxDiskLaws T} `{UserAccess U} (g : geom).
Implicit Types (s : fs_st T U) (D : blocks) (h : gmap nat Z) (L : gset Z).

(** The blocks are [D], this process holds the buffers [h], and the transaction
    has logged [L]; no buffer has a change that is not logged. *)
Definition frep s D h L : Prop := tx_rep g (ftx s) (mk_tview D h ∅ L).

Lemma frep_block s D h L n : frep s D h L -> is_block (D n).
Proof. apply tx_block_ok. Qed.

Lemma frep_same s s' D h L : ftx s' = ftx s -> frep s D h L -> frep s' D h L.
Proof. unfold frep. by intros ->. Qed.

Lemma bread_step s D h L n : frep s D h L -> 0 <= n < 2 ^ 32 -> (forall b, h !! b <> Some n) ->
  (size h <= 1)%nat -> room g L ->
  exists b t, f_bread (g_dev g) n s = Ok b (set_ftx t s) /\ h !! b = None /\ frep (set_ftx t s) D (<[b := n]> h) L.
Proof.
  intros R Hn Hh Hs Hr. unfold room, cap in Hr. destruct (tx_bread_ok _ _ _ n R) as (b & t & E & Hb & R'); cbn; try done; try lia.
  exists b, t. unfold f_bread, on_tx, zoom. by rewrite E.
Qed.

Lemma bdata_step s D h L b n : frep s D h L -> h !! b = Some n -> bdata b s = Ok (D n) s.
Proof. intros R Hb. unfold bdata, gets. by rewrite (tx_handle _ _ _ _ _ R Hb). Qed.

Lemma brelse_step s D h L b n : frep s D (<[b := n]> h) L -> h !! b = None ->
  exists t, f_brelse b s = Ok tt (set_ftx t s) /\ frep (set_ftx t s) D h L.
Proof.
  intros R Hb. destruct (tx_brelse_ok _ _ _ b n R) as (t & E & R'); cbn; [apply lookup_insert_eq|set_solver|].
  exists t. unfold f_brelse, on_tx, zoom. rewrite E. split; [done|]. cbn in R'. by rewrite delete_insert_id in R'.
Qed.

Lemma logput_step s D h L b n d : frep s D h L -> h !! b = Some n -> is_block d -> ~ g_log g n -> 0 <= n < 2 ^ 32 -> room g L ->
  exists t, (forall A (k : M (fs_st T U) A), (set_bdata b d ;; f_log_write b ;; k) s = k (set_ftx t s)) /\
    frep (set_ftx t s) (<[n := d]> D) h ({[ n ]} ∪ L).
Proof.
  intros R Hb Hd Hl Hn Hr. unfold room, cap in Hr.
  pose proof (tx_set_data_ok _ _ _ b n d R Hb Hl Hd) as R1.
  destruct (tx_log_write_ok _ _ _ b n R1 Hb Hl Hn) as (t & E & R2); [cbn; lia|].
  exists t. split.
  - intros A k. erewrite bind_Ok by reflexivity. unfold f_log_write, on_tx. unfold bind at 1, zoom. cbn [ftx set_ftx].
    rewrite E. done.
  - unfold frep. cbn. unfold t_log, t_put in R2. cbn in R2.
    replace (({[n]} ∪ ∅) ∖ {[n]}) with (∅ : gset Z) in R2 by set_solver. done.
Qed.

(** The pattern of every update of fs.c: change a buffer, log it, release it. *)
Lemma update_step s D h L b n d : frep s D (<[b := n]> h) L -> h !! b = None -> is_block d ->
  ~ g_log g n -> 0 <= n < 2 ^ 32 -> room g L ->
  exists t, (set_bdata b d ;; f_log_write b ;; f_brelse b) s = Ok tt (set_ftx t s) /\
    (forall A (k : M (fs_st T U) A), (set_bdata b d ;; f_log_write b ;; f_brelse b ;; k) s = k (set_ftx t s)) /\
    frep (set_ftx t s) (<[n := d]> D) h ({[ n ]} ∪ L).
Proof.
  intros R Hb Hd Hl Hn Hr. destruct (logput_step _ _ _ _ b n d R ltac:(apply lookup_insert_eq) Hd Hl Hn Hr) as (t & E & R1).
  destruct (brelse_step _ _ _ _ _ _ R1 Hb) as (t' & E' & R2). exists t'. split; [|split].
  - by rewrite E, E'.
  - intros A k. rewrite E. erewrite bind_Ok by exact E'. done.
  - exact R2.
Qed.

Lemma bzero_ok s D h L n : frep s D h L -> 0 <= n < 2 ^ 32 -> ~ g_log g n -> (forall b, h !! b <> Some n) ->
  (size h <= 1)%nat -> room g L ->
  exists t, bzero (g_dev g) n s = Ok tt (set_ftx t s) /\ frep (set_ftx t s) (<[n := zeros]> D) h ({[ n ]} ∪ L).
Proof.
  intros R Hn Hl Hh Hs Hr. unfold bzero. rewrite u32_small by done.
  destruct (bread_step _ _ _ _ n R Hn Hh Hs Hr) as (b & t & E & Hb & R1). erewrite bind_Ok by exact E.
  destruct (update_step _ _ _ _ _ _ zeros R1 Hb zeros_block Hl Hn Hr) as (t' & E' & _ & R2).
  exists t'. split; [exact E'|]. exact R2.
Qed.

(** ** [balloc] *)

Lemma balloc_scan_spec size d b k : forall bi, 0 <= b -> 0 <= bi -> bi + Z.of_nat k = BPB -> b + BPB < 2 ^ 32 ->
  match balloc_scan size d b bi k with
  | Some r => bi <= r < BPB /\ b + r < size /\ bit_of d r = 0 /\ forall j, bi <= j < r -> bit_of d j <> 0
  | None => forall j, bi <= j < BPB -> b + j < size -> bit_of d j <> 0
  end.
Proof.
  induction k as [|k IH]; intros bi Hb Hbi Hk H32; cbn [balloc_scan]; [intros j Hj; lia|].
  destruct (Z.ltb_spec bi BPB); [|lia]. rewrite u32_small by lia. destruct (Z.ltb_spec (b + bi) size) as [Hs|Hs]; cbn [andb].
  2: { intros j Hj ?. lia. }
  destruct (Z.eqb_spec (bit_of d bi) 0) as [E|E].
  - split; [lia|]. split; [lia|]. split; [done|]. intros j Hj. lia.
  - specialize (IH (bi + 1)). destruct (balloc_scan size d b (bi + 1) k).
    + destruct IH as (I1 & I2 & I3 & I4); try lia. split; [lia|]. split; [done|]. split; [done|].
      intros j Hj. destruct (decide (j = bi)) as [->|]; [done|]. apply I4. lia.
    + intros j Hj Hjs. destruct (decide (j = bi)) as [->|]; [done|]. apply IH; lia.
Qed.

Context (sb : superblock) (HL : layout g sb).

Lemma chunk j r : 0 <= r < BPB -> (BPB * j + r) / BPB = j /\ (BPB * j + r) mod BPB = r /\ BBLOCK (BPB * j + r) sb = BBLOCK (BPB * j) sb.
Proof.
  intros Hr. assert ((BPB * j + r) / BPB = j) as E by (rewrite Z.mul_comm, Z.div_add_l, Z.div_small; lia).
  split; [done|]. split; [rewrite Z.mul_comm, Z.add_comm, Z.mod_add, Z.mod_small; lia|].
  unfold BBLOCK. rewrite E. f_equal. f_equal. rewrite Z.mul_comm, Z.div_mul; [done|]. lia.
Qed.

Lemma used_chunk D j r : 0 <= r < BPB -> used sb D (BPB * j + r) <-> bit_of (D (BBLOCK (BPB * j) sb)) r <> 0.
Proof. intros Hr. unfold used. destruct (chunk j r Hr) as (_ & -> & ->). done. Qed.

(** The blocks outside the data area are marked in use, as mkfs leaves them. *)
Definition meta_used D : Prop := forall m, 0 <= m < datastart sb -> used sb D m.

Definition bmark (b : Z) D : blocks := <[BBLOCK b sb := set_bit (D (BBLOCK b sb)) (b mod BPB)]> D.

(** The buffers held across a [balloc] are of data blocks in use. *)
Definition held_data D h : Prop := (size h <= 1)%nat /\ forall b n, h !! b = Some n -> datastart sb <= n < sb_size sb /\ used sb D n.

Lemma room_mono L L' : L ⊆ L' -> room g L' -> room g L.
Proof. unfold room. intros Hs%subseteq_size. lia. Qed.

(** The result of [balloc]: the first free block, marked and zeroed; or no block is free. *)
Definition balloc_post s D h L (o : outcome (fs_st T U) Z) : Prop :=
  (exists b t, datastart sb <= b < sb_size sb /\ ~ used sb D b /\ (forall m, 0 <= m < b -> used sb D m) /\
    o = Ok b (set_ftx t s) /\ frep (set_ftx t s) (<[b := zeros]> (bmark b D)) h ({[ b ]} ∪ ({[ BBLOCK b sb ]} ∪ L))) \/
  (forall m, 0 <= m < sb_size sb -> used sb D m) /\ o = Panic "balloc: out of blocks".

(** A free bit of the block [bp] that is being scanned. *)
Lemma balloc_found s D h L bp j r : frep s D (<[bp := BBLOCK (BPB * j) sb]> h) L -> h !! bp = None -> meta_used D ->
  held_data D h -> room g (bmaps sb ∪ L) -> 0 <= j -> 0 <= r < BPB -> BPB * j + r < sb_size sb ->
  bit_of (D (BBLOCK (BPB * j) sb)) r = 0 -> (forall m, 0 <= m < BPB * j + r -> used sb D m) ->
  balloc_post s D h L ((set_bdata bp (set_bit (D (BBLOCK (BPB * j) sb)) r) ;; f_log_write bp ;; f_brelse bp ;;
    bzero (g_dev g) (BPB * j + r) ;; ret (u32 (BPB * j + r))) s).
Proof.
  intros R Hbp Hm [Hh1 Hh2] Hr Hj Hr0 Hs Hbit Hu. set (b := BPB * j + r) in *.
  assert (0 <= b) by (unfold b; change BPB with 8192 in *; lia). destruct (chunk j r Hr0) as (_ & Em & Eb). fold b in Em, Eb.
  assert (~ used sb D b) as Hfree by (unfold b; rewrite used_chunk by done; lia).
  assert (datastart sb <= b) as Hd. { destruct (Z.ltb_spec b (datastart sb)) as [Hlt|]; [|done]. destruct Hfree. apply Hm. lia. }
  destruct (bblock_bmap _ _ HL b) as [_ Hbm]; [lia|]. destruct (bmap_not_log _ _ HL _ Hbm) as [Hl1 Hl2].
  destruct (data_not_log _ _ HL b) as (Hd1 & Hd2 & Hd3); [lia|].
  left. exists b. rewrite <- Eb in R. rewrite <- Eb.
  destruct (update_step _ _ _ _ _ _ (set_bit (D (BBLOCK b sb)) r) R Hbp) as (t & _ & E & R1); try done.
  { apply set_bit_block. by eapply frep_block. }
  { eapply room_mono; [|exact Hr]. set_solver. }
  destruct (bzero_ok _ _ _ _ b R1) as (t' & E' & R2); try done; try lia.
  { intros b' Hb'. destruct (Hh2 _ _ Hb') as [_ Hub]. done. }
  { eapply room_mono; [|exact Hr]. apply bmap_bmaps in Hbm. set_solver. }
  exists t'. split; [lia|]. split; [done|]. split; [done|]. split.
  - rewrite E. erewrite bind_Ok by exact E'. unfold ret. rewrite u32_small by lia. done.
  - unfold bmark. rewrite Em. exact R2.
Qed.

Lemma balloc_loop_ok s0 D h L : meta_used D -> held_data D h -> room g (bmaps sb ∪ L) ->
  forall fuel j t, fsb s0 = sb -> frep (set_ftx t s0) D h L -> 0 <= j -> BPB * (j - 1) < sb_size sb ->
  sb_size sb <= BPB * (j + Z.of_nat fuel - 1) -> (forall m, 0 <= m < BPB * j -> m < sb_size sb -> used sb D m) ->
  balloc_post s0 D h L (balloc_loop (g_dev g) (BPB * j) fuel (set_ftx t s0)).
Proof.
  intros Hm [Hh1 Hh2] Hr fuel. pose proof (ly_size _ _ HL). change BPB with 8192 in *.
  induction fuel as [|fuel IH]; intros j t Hsb R Hj Hj' Hf Hu; [lia|].
  cbn [balloc_loop]. erewrite bind_Ok by reflexivity. cbn [fsb set_ftx]. rewrite Hsb, u32_small by lia.
  destruct (Z.ltb_spec (8192 * j) (sb_size sb)) as [Hlt|Hge].
  2: { right. split; [|done]. intros m Hm'. apply Hu; lia. }
  destruct (bblock_bmap _ _ HL (8192 * j)) as [_ Hbm]; [lia|]. destruct (bmap_not_log _ _ HL _ Hbm) as [Hl1 Hl2].
  destruct (bread_step _ _ _ _ (BBLOCK (8192 * j) sb) R) as (bp & t' & E & Hbp & R1); try done.
  { intros b Hb. destruct (Hh2 _ _ Hb) as [Hd _]. unfold is_bmap in Hbm. lia. }
  { eapply room_mono; [|exact Hr]. set_solver. }
  erewrite bind_Ok by exact E. erewrite bind_Ok by (eapply bdata_step; [exact R1|apply lookup_insert_eq]).
  pose proof (balloc_scan_spec (sb_size sb) (D (BBLOCK (8192 * j) sb)) (8192 * j) (Z.to_nat 8192) 0) as Hsc.
  destruct (balloc_scan _ _ _ _ _) as [r|].
  - destruct Hsc as (Hs1 & Hs2 & Hs3 & Hs4); try lia; try (change BPB with 8192; lia).
    change (balloc_post s0) with (balloc_post (set_ftx t' s0)). apply (balloc_found (set_ftx t' s0)); try done; try lia.
    intros m Hm'. change BPB with 8192 in *. destruct (decide (m < 8192 * j)); [apply Hu; lia|].
    replace m with (8192 * j + (m - 8192 * j)) by lia. apply used_chunk; [change BPB with 8192 in *; lia|]. apply Hs4. lia.
  - destruct (brelse_step _ _ _ _ _ _ R1 Hbp) as (t2 & E2 & R2). erewrite bind_Ok by exact E2.
    destruct (Z.leb_spec (2 ^ 31) (8192 * j + BPB)) as [Hov|Hov]; [change BPB with 8192 in *; lia|].
    replace (8192 * j + BPB) with (8192 * (j + 1)) by (change BPB with 8192; lia).
    apply IH; try done; try lia. intros m Hm' Hms. destruct (decide (m < 8192 * j)); [apply Hu; lia|].
    replace m with (8192 * j + (m - 8192 * j)) by lia. apply used_chunk; [change BPB with 8192 in *; lia|].
    apply Hsc; change BPB with 8192; lia.
Qed.

Lemma balloc_ok s D h L : fsb s = sb -> frep s D h L -> meta_used D -> held_data D h -> room g (bmaps sb ∪ L) ->
  balloc_post s D h L (balloc (g_dev g) s).
Proof.
  intros Hsb R Hm Hh Hr. unfold balloc. erewrite bind_Ok by reflexivity. rewrite Hsb. pose proof (size_div _ _ HL).
  pose proof (ly_bmap _ _ HL). unfold datastart in *. change 0 with (BPB * 0) at 1.
  replace s with (set_ftx (ftx s) s) at 2 by (by destruct s).
  apply balloc_loop_ok; try done; try (by destruct s); change BPB with 8192 in *; Z.div_mod_to_equations; lia.
Qed.

(** ** [bfree] *)

Definition bclear (b : Z) D : blocks := <[BBLOCK b sb := clear_bit (D (BBLOCK b sb)) (b mod BPB)]> D.

Lemma bfree_ok s D h L b : fsb s = sb -> frep s D h L -> 0 <= b < sb_size sb -> held_data D h -> room g L ->
  if decide (used sb D b)
  then exists t, bfree (g_dev g) b s = Ok tt (set_ftx t s) /\ frep (set_ftx t s) (bclear b D) h ({[ BBLOCK b sb ]} ∪ L)
  else bfree (g_dev g) b s = Panic "freeing free block".
Proof.
  intros Hsb R Hb [Hh1 Hh2] Hr. destruct (bblock_bmap _ _ HL b Hb) as [_ Hbm]. destruct (bmap_not_log _ _ HL _ Hbm) as [Hl1 Hl2].
  destruct (bread_step _ _ _ _ (BBLOCK b sb) R) as (bp & t & E & Hbp & R1); try done.
  { intros b' Hb'. destruct (Hh2 _ _ Hb') as [Hd _]. unfold is_bmap in Hbm. lia. }
  unfold bfree. erewrite bind_Ok by reflexivity. rewrite Hsb. erewrite bind_Ok by exact E.
  erewrite bind_Ok by (eapply bdata_step; [exact R1|apply lookup_insert_eq]).
  unfold used. case_decide as Hu; destruct (Z.eqb_spec (bit_of (D (BBLOCK b sb)) (b mod BPB)) 0); try done.
  destruct (update_step _ _ _ _ _ _ (clear_bit (D (BBLOCK b sb)) (b mod BPB)) R1 Hbp) as (t' & E' & _ & R2); try done.
  { apply clear_bit_block. by eapply frep_block. }
  exists t'. split; [exact E'|exact R2].
Qed.

(** ** The free map after an update *)

Lemma used_update D b m f : (forall n, is_block (D n)) -> 0 <= b < sb_size sb -> 0 <= m < sb_size sb ->
  used sb (<[BBLOCK b sb := f (D (BBLOCK b sb)) (b mod BPB)]> D) m <->
  if decide (b / BPB = m / BPB) then bit_of (f (D (BBLOCK b sb)) (b mod BPB)) (m mod BPB) <> 0 else used sb D m.
Proof.
  intros HD Hb Hm. destruct (bblock_bmap _ _ HL b Hb) as [Eb _], (bblock_bmap _ _ HL m Hm) as [Em _]. unfold used.
  case_decide as E.
  - replace (BBLOCK m sb) with (BBLOCK b sb) by congruence. by rewrite fn_lookup_insert.
  - rewrite fn_lookup_insert_ne by lia. done.
Qed.

Lemma div_mod_eq b m : b / BPB = m / BPB -> b mod BPB = m mod BPB -> b = m.
Proof. intros E1 E2. change BPB with 8192 in *. rewrite (Z.div_mod b 8192), (Z.div_mod m 8192) by lia. lia. Qed.

Lemma used_bmark D b m : (forall n, is_block (D n)) -> 0 <= b < sb_size sb -> 0 <= m < sb_size sb ->
  used sb (bmark b D) m <-> m = b \/ used sb D m.
Proof.
  intros HD Hb Hm. unfold bmark. rewrite (used_update D b m set_bit) by done.
  destruct (bblock_bmap _ _ HL b Hb) as [Eb _], (bblock_bmap _ _ HL m Hm) as [Em _].
  case_decide as E; [|split; [tauto|intros [->|]; tauto]]. rewrite set_bit_spec by (done || by apply Z.mod_pos_bound).
  unfold used. replace (BBLOCK m sb) with (BBLOCK b sb) by congruence. split; (intros [H'|H']; [left|by right]).
  - by apply div_mod_eq.
  - by subst.
Qed.

Lemma used_bclear D b m : (forall n, is_block (D n)) -> 0 <= b < sb_size sb -> 0 <= m < sb_size sb ->
  used sb (bclear b D) m <-> m <> b /\ used sb D m.
Proof.
  intros HD Hb Hm. unfold bclear. rewrite (used_update D b m clear_bit) by done.
  destruct (bblock_bmap _ _ HL b Hb) as [Eb _], (bblock_bmap _ _ HL m Hm) as [Em _].
  case_decide as E; [|split; [intros; split; [congruence|done]|tauto]]. rewrite clear_bit_spec by (done || by apply Z.mod_pos_bound).
  unfold used. replace (BBLOCK m sb) with (BBLOCK b sb) by congruence. split; intros [Hn Hu]; (split; [|done]).
  - congruence.
  - intros Heq. apply Hn. by apply div_mod_eq.
Qed.

Lemma used_write D n d m : ~ is_bmap sb n -> 0 <= m < sb_size sb -> used sb (<[n := d]> D) m <-> used sb D m.
Proof.
  intros Hn Hm. destruct (bblock_bmap _ _ HL m Hm) as [_ Hbm]. unfold used. rewrite fn_lookup_insert_ne; [done|]. by intros ->.
Qed.

Lemma bmark_other b D m : ~ is_bmap sb m -> 0 <= b < sb_size sb -> bmark b D m = D m.
Proof. intros Hm Hb. unfold bmark. apply fn_lookup_insert_ne. intros <-. by apply Hm, (bblock_bmap _ _ HL). Qed.
Lemma bclear_other b D m : ~ is_bmap sb m -> 0 <= b < sb_size sb -> bclear b D m = D m.
Proof. intros Hm Hb. unfold bclear. apply fn_lookup_insert_ne. intros <-. by apply Hm, (bblock_bmap _ _ HL). Qed.
End Steps.
