(* ===== verification/FsFile.v ===== *)
(** * kernel/fs.c: the blocks of a file

    The block addresses of an inode, its content as a function of the blocks of the
    disk, the invariant that no block is shared, and [bmap]. *)
From stdpp Require Import base gmap list numbers functions strings.
From Stdlib Require Import ZArith Lia.
From S2P Require Import Prelude Bytes.
From S2P Require Import Access Bio BlockCache LogDisk TxDisk Fs FsBlocks.
Open Scope Z_scope.

Definition ind (l : list Z) : Z := l !!! 12%nat.

(** The address of block [bn] of the file with addresses [l]; 0 if it has none. *)
Definition addr_of (D : blocks) (l : list Z) (bn : Z) : Z :=
  if bn <? NDIRECT then l !!! Z.to_nat bn
  else if ind l =? 0 then 0 else get32 (ioff (bn - NDIRECT)) (D (ind l)).

(** Its content; a block that is not allocated reads as zeros. *)
Definition fblock (D : blocks) (l : list Z) (bn : Z) : list Z :=
  if addr_of D l bn =? 0 then zeros else D (addr_of D l bn).

Definition in_file (bn : Z) : Prop := 0 <= bn < MAXFILE.

Section File.
Context (g : geom) (sb : superblock) (HL : layout g sb).
Implicit Types (D : blocks) (l : list Z).

Definition data_used D (a : Z) : Prop := datastart sb <= a < sb_size sb /\ used sb D a.

Record iok D l : Prop := {
  io_len : length l = 13%nat;
  io_used bn : in_file bn -> addr_of D l bn <> 0 -> data_used D (addr_of D l bn);
  io_ind : ind l <> 0 -> data_used D (ind l);
  io_inj bn bn' : in_file bn -> in_file bn' -> addr_of D l bn <> 0 -> addr_of D l bn = addr_of D l bn' -> bn = bn';
  io_ind_ne bn : in_file bn -> addr_of D l bn <> 0 -> addr_of D l bn <> ind l
}.

(** [D1] is [D] with the free block [b] allocated. *)
Record allocated D (b : Z) D1 : Prop := {
  al_range : datastart sb <= b < sb_size sb;
  al_fresh : ~ used sb D b;
  al_used m : 0 <= m < sb_size sb -> used sb D1 m <-> m = b \/ used sb D m;
  al_zero : D1 b = zeros;
  al_frame m : ~ is_bmap sb m -> m <> b -> D1 m = D m
}.

(** There are [k] free blocks. *)
Definition has_free D (k : nat) : Prop :=
  exists X : gset Z, (k <= size X)%nat /\ forall b, b ∈ X -> datastart sb <= b < sb_size sb /\ ~ used sb D b.

Lemma has_free_le D k k' : (k' <= k)%nat -> has_free D k -> has_free D k'.
Proof. intros Hk (X & HX & Hf). exists X. split; [lia|done]. Qed.

Lemma has_free_alloc D b D1 k : allocated D b D1 -> has_free D (S k) -> has_free D1 k.
Proof.
  intros A (X & HX & Hf). exists (X ∖ {[ b ]}). split.
  - rewrite size_difference_alt. assert (size (X ∩ {[ b ]}) <= size ({[ b ]} : gset Z))%nat by (apply subseteq_size; set_solver).
    rewrite size_singleton in *. lia.
  - intros x [Hx Hb]%elem_of_difference. destruct (Hf x Hx) as [Hr Hu]. split; [done|].
    rewrite (al_used _ _ _ A) by (pose proof (size_div _ _ HL); unfold datastart in *; lia). set_solver.
Qed.

Lemma data_pos a : datastart sb <= a < sb_size sb -> 0 < a.
Proof. intros Ha. destruct (data_not_log _ _ HL a Ha). lia. Qed.

Lemma allocated_ne D b D1 a : allocated D b D1 -> data_used D a -> a <> b /\ D1 a = D a /\ data_used D1 a.
Proof.
  intros A [Ha Hu]. assert (a <> b) as Hne by (intros ->; by apply (al_fresh _ _ _ A)).
  pose proof (data_pos a Ha). destruct (data_not_log _ _ HL a Ha) as (_ & _ & Hbm).
  split; [done|]. split; [by apply (al_frame _ _ _ A)|]. split; [done|]. apply (al_used _ _ _ A); [lia|]. by right.
Qed.

Section Alloc.
Context D l b D1 (HD : iok D l) (A : allocated D b D1).

Lemma alloc_addr bn : addr_of D1 l bn = addr_of D l bn.
Proof.
  unfold addr_of. destruct (bn <? NDIRECT); [done|]. destruct (Z.eqb_spec (ind l) 0); [done|].
  destruct (allocated_ne _ _ _ (ind l) A) as (_ & -> & _); [by apply HD|done].
Qed.

Lemma alloc_fblock bn : in_file bn -> fblock D1 l bn = fblock D l bn.
Proof.
  intros Hbn. unfold fblock. rewrite alloc_addr. destruct (Z.eqb_spec (addr_of D l bn) 0); [done|].
  by apply (allocated_ne _ _ _ _ A), (io_used _ _ HD).
Qed.

Lemma alloc_iok : iok D1 l.
Proof.
  destruct HD as [H1 H2 H3 H4 H5]. split; [done|..].
  - intros bn Hbn. rewrite alloc_addr. intros Hn. by apply (allocated_ne _ _ _ _ A), H2.
  - intros Hn. by apply (allocated_ne _ _ _ _ A), H3.
  - intros bn bn' Hbn Hbn'. rewrite !alloc_addr. by apply H4.
  - intros bn Hbn. rewrite alloc_addr. by apply H5.
Qed.

(** The new block is none of the file's. *)
Lemma alloc_new bn : in_file bn -> addr_of D l bn <> b.
Proof.
  intros Hbn He. pose proof (al_range _ _ _ A) as Hr. pose proof (data_pos b Hr).
  destruct (allocated_ne _ _ _ (addr_of D l bn) A); [apply (io_used _ _ HD); [done|lia]|done].
Qed.
Lemma alloc_new_ind : ind l <> b.
Proof.
  intros He. pose proof (al_range _ _ _ A) as Hr. pose proof (data_pos b Hr).
  destruct (allocated_ne _ _ _ (ind l) A); [apply (io_ind _ _ HD); lia|done].
Qed.

Lemma alloc_data : data_used D1 b.
Proof.
  pose proof (al_range _ _ _ A) as Hr. pose proof (data_pos b Hr). split; [done|]. apply (al_used _ _ _ A); [lia|by left].
Qed.
End Alloc.

(** ** Files that grow *)

Definition owns D l (m : Z) : Prop := m <> 0 /\ (m = ind l \/ exists bn, in_file bn /\ addr_of D l bn = m).
Definition free D (m : Z) : Prop := datastart sb <= m < sb_size sb /\ ~ used sb D m.

(** From [D], [l] to [D'], [l'] the file has only taken free blocks and changed its own. *)
Record grown D l D' l' : Prop := {
  gr_iok : iok D' l';
  gr_addr bn : in_file bn -> addr_of D l bn <> 0 -> addr_of D' l' bn = addr_of D l bn;
  gr_used m : 0 <= m < sb_size sb -> used sb D m -> used sb D' m;
  gr_new m : 0 <= m < sb_size sb -> used sb D' m -> used sb D m \/ owns D' l' m;
  gr_own m : owns D' l' m -> owns D l m \/ free D m;
  gr_keep m : owns D l m -> owns D' l' m;
  gr_frame m : ~ is_bmap sb m -> ~ free D m -> ~ owns D l m -> D' m = D m
}.

Lemma grown_refl D l : iok D l -> grown D l D l.
Proof. intros. split; try done; tauto. Qed.

Lemma free_range D m : free D m -> 0 <= m < sb_size sb.
Proof. intros [Hr _]. pose proof (data_pos m Hr). lia. Qed.

Lemma grown_trans D l D1 l1 D2 l2 : grown D l D1 l1 -> grown D1 l1 D2 l2 -> grown D l D2 l2.
Proof.
  intros G1 G2. assert (forall m, free D1 m -> free D m) as Hfree.
  { intros m Hm. pose proof (free_range _ _ Hm). destruct Hm as [Hr Hu]. split; [done|].
    intros Hu'. by apply Hu, (gr_used _ _ _ _ G1). }
  split.
  - apply G2.
  - intros bn Hbn Ha. pose proof (gr_addr _ _ _ _ G1 bn Hbn Ha) as E. rewrite (gr_addr _ _ _ _ G2); congruence.
  - intros m Hm Hu. by apply (gr_used _ _ _ _ G2), (gr_used _ _ _ _ G1).
  - intros m Hm [Hu|Ho]%(gr_new _ _ _ _ G2); [|by right|done]. apply (gr_new _ _ _ _ G1) in Hu as [Hu|Ho]; [by left| |done].
    right. by apply (gr_keep _ _ _ _ G2).
  - intros m [Ho|Hf]%(gr_own _ _ _ _ G2); [by apply (gr_own _ _ _ _ G1)|right; by apply Hfree].
  - intros m Ho. by apply (gr_keep _ _ _ _ G2), (gr_keep _ _ _ _ G1).
  - intros m Hb Hf Ho. rewrite (gr_frame _ _ _ _ G2 m Hb), (gr_frame _ _ _ _ G1 m Hb Hf Ho); [done| |].
    + intros Hf1. by apply Hf, Hfree.
    + intros Ho1. destruct (gr_own _ _ _ _ G1 m Ho1); tauto.
Qed.

Lemma grown_meta D l D' l' : grown D l D' l' -> meta_used sb D -> meta_used sb D'.
Proof. intros G Hm m Hr. apply (gr_used _ _ _ _ G); [pose proof (ly_bmap _ _ HL); lia|by apply Hm]. Qed.

Lemma owns_used D l m : iok D l -> owns D l m -> data_used D m.
Proof. intros I [Hn [->|(bn & Hbn & <-)]]; [by apply I|by apply (io_used _ _ I)]. Qed.

(** A change to the blocks of the file that moves none of them. *)
Lemma grown_write D l D' : iok D l -> (forall m, is_bmap sb m -> D' m = D m) ->
  (forall bn, in_file bn -> addr_of D' l bn = addr_of D l bn) -> (forall m, ~ owns D l m -> D' m = D m) -> grown D l D' l.
Proof.
  intros I Hb Ha Hf.
  assert (forall m, 0 <= m < sb_size sb -> used sb D' m <-> used sb D m) as Hu.
  { intros m Hm. unfold used. rewrite (Hb (BBLOCK m sb)); [done|]. by apply (bblock_bmap _ _ HL). }
  assert (forall m, owns D' l m <-> owns D l m) as Ho.
  { intros m. unfold owns. split; intros [Hn [|(bn & Hbn & E)]]; (split; [done|]); auto; right; exists bn;
      (split; [done|]); [by rewrite <- Ha|by rewrite Ha]. }
  assert (forall m, data_used D m -> data_used D' m) as Hd.
  { intros m [Hr Hm]. split; [done|]. apply Hu; [|done]. pose proof (data_pos m Hr). lia. }
  split.
  - destruct I as [H1 H2 H3 H4 H5]. split; [done|..].
    + intros bn Hbn. rewrite Ha by done. intros Hn. by apply Hd, H2.
    + intros Hn. by apply Hd, H3.
    + intros bn bn' Hbn Hbn'. rewrite !Ha by done. by apply H4.
    + intros bn Hbn. rewrite Ha by done. by apply H5.
  - intros bn Hbn _. by apply Ha.
  - intros m Hm. by apply Hu.
  - intros m Hm. left. by apply Hu.
  - intros m Hm. left. by apply Ho.
  - intros m Hm. by apply Ho.
  - intros m _ _ Hm. by apply Hf.
Qed.

(** ** Giving a block to the file *)

Section Assign.
Context D l b D1 (HD : iok D l) (A : allocated D b D1).

Lemma alloc_free : free D b.
Proof. split; apply A. Qed.

(** [D'] and [l'] have the new block as block [bn], which was missing. *)
Lemma assign_grown D' l' bn :
  in_file bn -> addr_of D l bn = 0 -> length l' = 13%nat -> ind l' = ind l ->
  (forall m, m = 0 \/ m <> ind l -> D' m = D1 m) -> ~ is_bmap sb (ind l) ->
  (forall m, in_file m -> addr_of D' l' m = if decide (m = bn) then b else addr_of D l m) ->
  grown D l D' l' /\ forall m, in_file m -> fblock D' l' m = fblock D l m.
Proof.
  intros Hbn Hz Hlen Hind HD' Hib Ha.
  pose proof (alloc_new _ _ _ _ HD A) as Hnew. pose proof (alloc_new_ind _ _ _ _ HD A) as Hni.
  destruct (alloc_data _ _ _ A) as [Hbr _]. pose proof (data_pos b Hbr) as Hb0.
  assert (forall m, 0 <= m < sb_size sb -> used sb D' m <-> m = b \/ used sb D m) as Hu.
  { intros m Hm. rewrite <- (al_used _ _ _ A) by done. unfold used. rewrite HD'; [done|]. right.
    intros E. apply Hib. rewrite <- E. by apply (bblock_bmap _ _ HL). }
  assert (forall m, data_used D m -> data_used D' m) as Hdu.
  { intros m [Hr Hm]. split; [done|]. apply Hu; [|by right]. pose proof (data_pos m Hr). lia. }
  assert (data_used D' b) as Hdb by (split; [done|]; apply Hu; [lia|by left]).
  assert (forall m, owns D' l' m <-> m = b \/ owns D l m) as Hown.
  { intros m. unfold owns. rewrite Hind. split.
    - intros [Hn [->|(k & Hk & E)]]; [by right; auto|]. rewrite Ha in E by done. case_decide; [by left|]. right. eauto.
    - intros [->|[Hn [->|(k & Hk & E)]]]; [|by auto|]; (split; [lia || done|]); right.
      + exists bn. split; [done|]. rewrite Ha by done. by rewrite decide_True.
      + exists k. split; [done|]. rewrite Ha by done. rewrite decide_False; [done|]. intros ->. congruence. }
  pose proof HD as [H1 H2 H3 H4 H5]. split; [split|].
  - split; [done|..].
    + intros m Hm. rewrite Ha by done. case_decide; [done|]. intros Hn. by apply Hdu, H2.
    + rewrite Hind. intros Hn. by apply Hdu, H3.
    + intros m m' Hm Hm'. rewrite !Ha by done. repeat case_decide; subst; try done.
      * intros _ He. by destruct (Hnew m' Hm').
      * intros _ He. by destruct (Hnew m Hm).
      * by apply H4.
    + intros m Hm. rewrite Hind, Ha by done. case_decide; [done|]. by apply H5.
  - intros m Hm Hn. rewrite Ha by done. rewrite decide_False; [done|]. by intros ->.
  - intros m Hm Hum. apply Hu; [done|by right].
  - intros m Hm [->|]%Hu; [right; apply Hown; by left|by left|done].
  - intros m [->|]%Hown; [right; exact alloc_free|by left].
  - intros m Hm. apply Hown. by right.
  - intros m Hbm Hf Ho. rewrite HD'.
    + apply (al_frame _ _ _ A); [done|]. intros ->. by apply Hf, alloc_free.
    + destruct (decide (m = 0)); [by left|]. right. intros ->. apply Ho. by split; [|left].
  - intros m Hm. unfold fblock. rewrite Ha by done. case_decide; subst.
    + rewrite Hz. destruct (Z.eqb_spec b 0); [lia|]. rewrite HD' by auto. apply A.
    + destruct (Z.eqb_spec (addr_of D l m) 0); [done|]. rewrite HD' by (right; by apply H5). by apply (allocated_ne _ _ _ _ A), H2.
Qed.
End Assign.

Lemma direct_addr D l bn b m : length l = 13%nat -> in_file bn -> bn < NDIRECT -> in_file m ->
  addr_of D (<[Z.to_nat bn := b]> l) m = (if decide (m = bn) then b else addr_of D l m) /\
  ind (<[Z.to_nat bn := b]> l) = ind l.
Proof.
  intros Hl [Hb1 Hb2] Hd [Hm1 Hm2]. change NDIRECT with 12 in *. unfold addr_of, ind. change NDIRECT with 12.
  rewrite (list_lookup_total_insert_ne _ (Z.to_nat bn) 12%nat) by lia. split; [|done].
  destruct (Z.ltb_spec m 12) as [Hm|Hm]; case_decide as E; subst; try lia; try done.
  - by rewrite list_lookup_total_insert_eq by lia.
  - by rewrite list_lookup_total_insert_ne by lia.
Qed.

Lemma get32_zeros o : get32 o zeros = 0.
Proof.
  unfold get32, getn, zeros. rewrite drop_replicate, take_replicate.
  destruct (4 `min` (Z.to_nat BSIZE - o))%nat as [|[|[|[|[|n]]]]] eqn:E; try done. lia.
Qed.

Lemma ind_addr D l b m : length l = 13%nat -> ind l = 0 -> 0 < b -> D b = zeros -> in_file m ->
  addr_of D (<[12%nat := b]> l) m = addr_of D l m /\ ind (<[12%nat := b]> l) = b.
Proof.
  intros Hl Hi Hb Hz [Hm1 Hm2]. unfold addr_of. assert (ind (<[12%nat := b]> l) = b) as E.
  { unfold ind. by rewrite list_lookup_total_insert_eq by lia. }
  rewrite E, Hi. split; [|done]. change NDIRECT with 12. destruct (Z.ltb_spec m 12) as [Hm|Hm].
  - by rewrite list_lookup_total_insert_ne by lia.
  - destruct (Z.eqb_spec b 0); [lia|]. rewrite Hz, get32_zeros. done.
Qed.

Lemma entry_addr D l bn b m : NDIRECT <= bn -> in_file bn -> in_file m -> ind l <> 0 -> is_block (D (ind l)) -> 0 <= b < 2 ^ 32 ->
  addr_of (<[ind l := put32 (ioff (bn - NDIRECT)) b (D (ind l))]> D) l m = if decide (m = bn) then b else addr_of D l m.
Proof.
  intros Hbn [Hb1 Hb2] [Hm1 Hm2] Hi [Hlen _] Hb. unfold addr_of. change MAXFILE with 268 in *. change NDIRECT with 12 in *.
  change (Z.to_nat BSIZE) with 1024%nat in *.
  destruct (Z.ltb_spec m 12) as [Hm|Hm]; [case_decide; [lia|done]|]. destruct (Z.eqb_spec (ind l) 0); [done|].
  rewrite fn_lookup_insert. unfold ioff. case_decide as E.
  - subst m. apply get32_put32_eq; lia.
  - apply get32_put32_ne. lia.
Qed.

(** The first indirect block of the file. *)
Lemma ind_grown D l b D1 : iok D l -> allocated D b D1 -> ind l = 0 ->
  grown D l D1 (<[12%nat := b]> l) /\ forall m, in_file m -> fblock D1 (<[12%nat := b]> l) m = fblock D l m.
Proof.
  intros HD A Hi. destruct (alloc_data _ _ _ A) as [Hbr Hbu]. pose proof (data_pos b Hbr) as Hb0.
  assert (forall m, in_file m -> addr_of D1 (<[12%nat := b]> l) m = addr_of D l m) as Ha.
  { intros m Hm. destruct (ind_addr D1 l b m) as [-> _]; try done; [apply HD|apply A|]. by eapply alloc_addr. }
  assert (ind (<[12%nat := b]> l) = b) as Hind.
  { unfold ind. rewrite list_lookup_total_insert_eq; [done|]. rewrite (io_len _ _ HD). lia. }
  assert (forall m, owns D1 (<[12%nat := b]> l) m <-> m = b \/ owns D l m) as Hown.
  { intros m. unfold owns. rewrite Hind, Hi. split.
    - intros [Hn [->|(k & Hk & E)]]; [by left|]. rewrite Ha in E by done. right. eauto.
    - intros [->|[Hn [|(k & Hk & E)]]]; [split; [lia|by left]|done|]. split; [done|]. right. exists k. by rewrite Ha. }
  pose proof (alloc_iok _ _ _ _ HD A) as I1. split; [split|].
  - destruct I1 as [H1 H2 H3 H4 H5]. pose proof (alloc_addr _ _ _ _ HD A) as E1. split.
    + rewrite length_insert. apply HD.
    + intros m Hm. rewrite Ha, <- E1 by done. by apply H2.
    + rewrite Hind. intros _. by split.
    + intros m m' Hm Hm'. rewrite !Ha, <- !E1 by done. by apply H4.
    + intros m Hm. rewrite Hind, Ha by done. intros _. by eapply alloc_new.
  - intros m Hm _. by apply Ha.
  - intros m Hm Hu. apply (al_used _ _ _ A); [done|by right].
  - intros m Hm [->|]%(al_used _ _ _ A); [right; apply Hown; by left|by left|done].
  - intros m [->|]%Hown; [right; by eapply alloc_free|by left].
  - intros m Hm. apply Hown. by right.
  - intros m Hbm Hf Ho. apply (al_frame _ _ _ A); [done|]. intros ->. by apply Hf, (alloc_free _ _ _ A).
  - intros m Hm. unfold fblock. rewrite Ha by done. destruct (Z.eqb_spec (addr_of D l m) 0); [done|].
    by apply (allocated_ne _ _ _ _ A), (io_used _ _ HD).
Qed.

(** ** The size of a transaction *)

Definition inds l : gset Z := if ind l =? 0 then ∅ else {[ ind l ]}.
Definition ineed l : nat := if ind l =? 0 then 1 else 0.

(** With the free map, the indirect block and [k] data blocks the transaction has less
    than [N] blocks, and it has room for [N]. *)
Definition budget (N : Z) l (L : gset Z) (k : nat) : Prop :=
  Z.of_nat (size (bmaps sb ∪ inds l ∪ L) + ineed l + k) < N <= cap g.

Lemma budget_size N l L L' k : budget N l L k -> L' ⊆ bmaps sb ∪ inds l ∪ L -> Z.of_nat (size L') < N <= cap g.
Proof. clear HL. unfold budget. intros Hb Hs%subseteq_size. lia. Qed.

Lemma budget_room N l L L' k : budget N l L k -> L' ⊆ bmaps sb ∪ inds l ∪ L -> room g L'.
Proof. clear HL. unfold budget, room. intros Hb Hs%subseteq_size. lia. Qed.

Lemma size_add (a : Z) (X Y : gset Z) : Y ⊆ {[ a ]} ∪ X -> (size Y <= S (size X))%nat.
Proof.
  clear HL. intros Hs%subseteq_size. rewrite size_union_alt, size_singleton in Hs.
  assert (size (X ∖ {[ a ]}) <= size X)%nat by (apply subseteq_size; set_solver). lia.
Qed.

(** A data block [a] is logged; the indirect block may be new. *)
Lemma budget_step N l L l' L' a k : budget N l L (S k) ->
  L' ⊆ {[ a ]} ∪ (bmaps sb ∪ inds l' ∪ L) -> ind l' = ind l \/ ind l = 0 /\ ind l' <> 0 -> budget N l' ({[ a ]} ∪ L') k.
Proof.
  clear HL. unfold budget. intros Hb HL' Hi.
  assert (size (bmaps sb ∪ inds l' ∪ ({[ a ]} ∪ L')) <= S (size (bmaps sb ∪ inds l' ∪ L)))%nat as H1.
  { apply (size_add a). set_solver. }
  destruct Hi as [E|[E Hn]]; unfold inds, ineed in *; rewrite E in *.
  - lia.
  - change (0 =? 0) with true in *. cbn iota in *. destruct (Z.eqb_spec (ind l') 0); [done|].
    assert (size (bmaps sb ∪ {[ ind l' ]} ∪ L) <= S (size (bmaps sb ∪ ∅ ∪ L)))%nat by (apply (size_add (ind l')); set_solver). lia.
Qed.
End File.

Definition set_addrs (l : list Z) (i : inode) : inode :=
  mk_inode (i_dev i) (i_inum i) (i_ref i) (i_lock i) (i_valid i) (i_type i) (i_major i) (i_minor i) (i_nlink i) (i_size i) l.

Section Bmap.
Context {T U : Type} `{TxDiskLaws T} `{UserAccess U} (g : geom) (sb : superblock) (HL : layout g sb) (N : Z).
Implicit Types (s : fs_st T U) (D : blocks) (h : gmap nat Z) (L : gset Z) (l : list Z).

Lemma the_inode_lookup s ip i : icache s !! ip = Some i -> the_inode ip s = i.
Proof. intros E. unfold the_inode. by apply list_lookup_total_correct. Qed.

Lemma upd_inode_id s ip i f : icache s !! ip = Some i -> f i = i -> upd_inode ip f s = s.
Proof.
  intros E Hf. unfold upd_inode, set_icache. replace (alter f ip (icache s)) with (icache s); [by destruct s|].
  apply list_eq. intros j. destruct (decide (j = ip)) as [->|].
  - rewrite list_lookup_alter_eq, E. cbn. by rewrite Hf.
  - by rewrite list_lookup_alter_ne.
Qed.

Lemma upd_inode_ext s ip i f f' : icache s !! ip = Some i -> f i = f' i -> upd_inode ip f s = upd_inode ip f' s.
Proof.
  intros E Hf. unfold upd_inode, set_icache. f_equal. apply list_eq. intros j. destruct (decide (j = ip)) as [->|].
  - rewrite !list_lookup_alter_eq, E. cbn. by rewrite Hf.
  - by rewrite !list_lookup_alter_ne.
Qed.

Lemma upd_addrs_id s ip i : icache s !! ip = Some i -> upd_inode ip (set_addrs (i_addrs i)) s = s.
Proof. intros E. eapply upd_inode_id; [exact E|]. by destruct i. Qed.

Lemma held_data_empty D : held_data sb D ∅.
Proof. split; [rewrite map_size_empty; lia|]. intros b n Hb. by rewrite lookup_empty in Hb. Qed.

Lemma balloc_alloc s D h L k : fsb s = sb -> frep g s D h L -> meta_used sb D -> held_data sb D h ->
  room g (bmaps sb ∪ L) -> has_free sb D (S k) ->
  exists b t D1, balloc (g_dev g) s = Ok b (set_ftx t s) /\ allocated sb D b D1 /\
    frep g (set_ftx t s) D1 h ({[ b ]} ∪ ({[ BBLOCK b sb ]} ∪ L)) /\ has_free sb D1 k /\ BBLOCK b sb ∈ bmaps sb.
Proof.
  intros Hsb R Hm Hh Hr Hf. destruct (balloc_ok g sb HL s D h L Hsb R Hm Hh Hr) as [(b & t & Hb & Hu & _ & E & R1)|[Hall _]].
  - assert (allocated sb D b (<[b := zeros]> (bmark sb b D))) as A.
    { pose proof (data_pos _ _ HL b Hb). destruct (data_not_log _ _ HL b Hb) as (_ & _ & Hbm).
      pose proof (fun n => frep_block g _ _ _ _ n R) as HD. split; try done.
      - intros m Hm'. rewrite (used_write g sb HL), (used_bmark g sb HL) by (done || lia). done.
      - apply fn_lookup_insert.
      - intros m Hm1 Hm2. rewrite fn_lookup_insert_ne by done. apply (bmark_other g sb HL); [done|lia]. }
    eexists b, t, _. split; [exact E|]. split; [exact A|]. split; [exact R1|]. split; [by eapply has_free_alloc|].
    apply bmap_bmaps. apply (bblock_bmap _ _ HL). pose proof (data_pos _ _ HL b Hb). lia.
  - destruct Hf as (X & HX & Hx). destruct (decide (X = ∅)) as [->|[x Hin]%set_choose_L]; [rewrite size_empty in HX; lia|].
    destruct (Hx x Hin) as [Hr' Hu]. destruct Hu. apply Hall. pose proof (data_pos _ _ HL x Hr'). lia.
Qed.

(** [bmap] has returned [a]. *)
Definition bmap_post s ip l D L bn q k (o : outcome (fs_st T U) Z) : Prop :=
  exists a t l' D' L', o = Ok a (set_ftx t (upd_inode ip (set_addrs l') s)) /\ frep g (set_ftx t s) D' ∅ L' /\
    grown sb D l D' l' /\ (forall m, in_file m -> fblock D' l' m = fblock D l m) /\ addr_of D' l' bn = a /\ a <> 0 /\
    has_free sb D' (q + ineed l') /\ budget g sb N l' ({[ a ]} ∪ L') k.

Section At.
Context (ip : nat) (bn : Z) (q k : nat) (Hbn : in_file bn).

Lemma bmap_same s i D L : icache s !! ip = Some i -> frep g s D ∅ L -> iok sb D (i_addrs i) ->
  addr_of D (i_addrs i) bn <> 0 -> has_free sb D (S q + ineed (i_addrs i)) -> budget g sb N (i_addrs i) L (S k) ->
  forall t, frep g (set_ftx t s) D ∅ L -> bmap_post s ip (i_addrs i) D L bn q k (Ok (addr_of D (i_addrs i) bn) (set_ftx t s)).
Proof.
  intros Hi R I Ha Hf Hb t Rt. eexists _, t, (i_addrs i), D, L. rewrite (upd_addrs_id s ip i Hi). split; [done|].
  split; [done|]. split; [by apply grown_refl|]. split; [done|]. split; [done|]. split; [done|]. split.
  - eapply has_free_le; [|exact Hf]. lia.
  - eapply budget_step; [exact Hb|set_solver|by left].
Qed.

Lemma bmap_direct s i D L : icache s !! ip = Some i -> i_dev i = g_dev g -> fsb s = sb -> frep g s D ∅ L -> meta_used sb D ->
  iok sb D (i_addrs i) -> bn < NDIRECT -> has_free sb D (S q + ineed (i_addrs i)) -> budget g sb N (i_addrs i) L (S k) ->
  bmap_post s ip (i_addrs i) D L bn q k (bmap ip bn s).
Proof.
  intros Hi Hdev Hsb R Hm I Hd Hf Hb. unfold bmap. erewrite bind_Ok by reflexivity.
  rewrite (the_inode_lookup s ip i Hi). destruct (Z.ltb_spec bn NDIRECT); [|lia].
  assert (addr_of D (i_addrs i) bn = i_addrs i !!! Z.to_nat bn) as Ea by (unfold addr_of; destruct (Z.ltb_spec bn NDIRECT); [done|lia]).
  rewrite <- Ea. destruct (Z.eqb_spec (addr_of D (i_addrs i) bn) 0) as [E0|Hn].
  2: { replace s with (set_ftx (ftx s) s) at 2 by (by destruct s). apply bmap_same; try done; by destruct s. }
  rewrite Hdev. destruct (balloc_alloc s D ∅ L (q + ineed (i_addrs i)) Hsb R Hm (held_data_empty D)) as (b & t & D1 & E & A & R1 & F1 & Bm); try done.
  { eapply budget_room; [exact Hb|]. set_solver. }
  erewrite bind_Ok by exact E. erewrite bind_Ok by reflexivity.
  pose proof (fun m => direct_addr D1 (i_addrs i) bn b m (io_len _ _ _ I) Hbn Hd) as Hda.
  pose proof (Hda bn Hbn) as [_ Hind].
  destruct (assign_grown g sb HL D (i_addrs i) b D1 I A D1 (<[Z.to_nat bn := b]> (i_addrs i)) bn) as [G C]; try done.
  { rewrite length_insert. apply I. }
  { destruct (decide (ind (i_addrs i) = 0)) as [->|Hn]; [pose proof (size_div _ _ HL); unfold is_bmap; lia|].
    destruct (io_ind _ _ _ I Hn) as [Hr _]. by apply (data_not_log _ _ HL). }
  { intros m Hm'. rewrite (proj1 (Hda m Hm')). case_decide; [done|]. by apply (alloc_addr g sb HL _ _ _ _ I A). }
  eexists b, t, (<[Z.to_nat bn := b]> (i_addrs i)), D1, _.
  split; [unfold ret; f_equal; by apply (upd_inode_ext (set_ftx t s) ip i)|]. split; [exact R1|]. split; [exact G|]. split; [exact C|].
  split; [rewrite (proj1 (Hda bn Hbn)); by rewrite decide_True|]. split; [pose proof (data_pos _ _ HL b (al_range _ _ _ _ A)); lia|].
  unfold ineed. rewrite Hind. split; [exact F1|]. eapply budget_step; [exact Hb|set_solver|]. by left.
Qed.

(** The entry phase, on the addresses [l] after the indirect block is there. *)
Lemma bmap_entry_ok s D L l : fsb s = sb -> frep g s D ∅ L -> meta_used sb D -> iok sb D l -> NDIRECT <= bn -> ind l <> 0 ->
  has_free sb D (S q) -> budget g sb N l L (S k) ->
  exists a t D' L', bmap_entry (g_dev g) (ind l) (bn - NDIRECT) s = Ok a (set_ftx t s) /\ frep g (set_ftx t s) D' ∅ L' /\
    grown sb D l D' l /\ (forall m, in_file m -> fblock D' l m = fblock D l m) /\ addr_of D' l bn = a /\ a <> 0 /\
    has_free sb D' q /\ budget g sb N l ({[ a ]} ∪ L') k.
Proof.
  intros Hsb R Hm I Hd Hi Hf Hb. destruct (io_ind _ _ _ I Hi) as [Hir Hiu]. destruct (data_not_log _ _ HL _ Hir) as (Hil & Hi32 & Hib).
  assert (inds l = {[ ind l ]}) as Einds by (unfold inds; destruct (Z.eqb_spec (ind l) 0); done).
  destruct (bread_step g s D ∅ L (ind l) R) as (bp & t & E & _ & R1); [lia|done|rewrite map_size_empty; lia|eapply budget_room; [exact Hb|set_solver]|].
  unfold bmap_entry. erewrite bind_Ok by exact E.
  erewrite bind_Ok by (eapply bdata_step; [exact R1|apply lookup_insert_eq]).
  assert (addr_of D l bn = get32 (ioff (bn - NDIRECT)) (D (ind l))) as Ea.
  { unfold addr_of. destruct (Z.ltb_spec bn NDIRECT); [lia|]. destruct (Z.eqb_spec (ind l) 0); [done|]. done. }
  rewrite <- Ea. destruct (Z.eqb_spec (addr_of D l bn) 0) as [E0|Hn].
  - destruct (balloc_alloc (set_ftx t s) D {[ bp := ind l ]} L q Hsb R1 Hm) as (b & t1 & D1 & E1 & A & R2 & F1 & Bm); try done.
    { split; [by rewrite map_size_singleton|]. intros b n [<- <-]%lookup_singleton_Some. done. }
    { eapply budget_room; [exact Hb|]. set_solver. }
    pose proof (data_pos _ _ HL b (al_range _ _ _ _ A)) as Hb0. pose proof (data_not_log _ _ HL b (al_range _ _ _ _ A)) as (_ & Hb32 & _).
    destruct (allocated_ne _ _ HL _ _ _ (ind l) A) as (Hne & ED & _); [done|].
    destruct (logput_step g _ _ _ _ bp (ind l) (put32 (ioff (bn - NDIRECT)) b (D1 (ind l))) R2) as (t2 & E2 & R3); try done; try lia.
    { apply lookup_singleton_eq. }
    { pose proof (frep_block g _ _ _ _ (ind l) R2) as [Hl Hy]. split; [by rewrite length_put32|by apply put32_bytes]. }
    { eapply budget_room; [eapply (budget_step g sb N l L l L b); [exact Hb|set_solver|by left]|set_solver]. }
    destruct (brelse_step g _ _ ∅ _ bp (ind l) R3) as (t3 & E3 & R4); [done|].
    exists b, t3. eexists _, _. split; [|split; [exact R4|]].
    { rewrite (bind_Ok _ _ _ b (set_ftx t2 s)); [by erewrite bind_Ok by exact E3|]. erewrite bind_Ok by exact E1.
      erewrite bind_Ok by (eapply bdata_step; [exact R2|apply lookup_singleton_eq]). apply E2. }
    assert (is_block (D1 (ind l))) as Hblk by (by eapply frep_block).
    pose proof (fun m Hm' => entry_addr D1 l bn b m Hd Hbn Hm' Hi Hblk ltac:(lia)) as Hea.
    destruct (assign_grown g sb HL D l b D1 I A (<[ind l := put32 (ioff (bn - NDIRECT)) b (D1 (ind l))]> D1) l bn) as [G C]; try done.
    { apply I. }
    { intros m [->|Hne']; apply fn_lookup_insert_ne; congruence. }
    { intros m Hm'. rewrite Hea by done. case_decide; [done|]. by apply (alloc_addr g sb HL _ _ _ _ I A). }
    split; [exact G|]. split; [exact C|]. split; [rewrite Hea by done; by rewrite decide_True|]. split; [lia|]. split.
    + destruct F1 as (X & HX & Hx). exists X. split; [done|]. intros x Hin. destruct (Hx x Hin) as [Hr Hu]. split; [done|].
      rewrite (used_write g sb HL); [done|done|]. pose proof (data_pos _ _ HL x Hr). lia.
    + eapply budget_step; [exact Hb|rewrite Einds; set_solver|by left].
  - destruct (brelse_step g _ _ ∅ _ bp (ind l) R1) as (t3 & E3 & R4); [done|].
    exists (addr_of D l bn), t3, D, L. split; [|split; [exact R4|]].
    + erewrite bind_Ok by reflexivity. erewrite bind_Ok by exact E3. done.
    + split; [by apply grown_refl|]. split; [done|]. split; [done|]. split; [done|]. split.
      * eapply has_free_le; [|exact Hf]. lia.
      * eapply budget_step; [exact Hb|set_solver|by left].
Qed.

Lemma bmap_ok s i D L : icache s !! ip = Some i -> i_dev i = g_dev g -> fsb s = sb -> frep g s D ∅ L -> meta_used sb D ->
  iok sb D (i_addrs i) -> has_free sb D (S q + ineed (i_addrs i)) -> budget g sb N (i_addrs i) L (S k) ->
  bmap_post s ip (i_addrs i) D L bn q k (bmap ip bn s).
Proof.
  intros Hi Hdev Hsb R Hm I Hf Hb. destruct (decide (bn < NDIRECT)) as [Hd|Hd]; [by apply bmap_direct|].
  unfold bmap. erewrite bind_Ok by reflexivity. rewrite (the_inode_lookup s ip i Hi), Hdev.
  destruct (Z.ltb_spec bn NDIRECT); [lia|]. destruct (Z.ltb_spec (bn - NDIRECT) NINDIRECT) as [_|].
  2: { unfold in_file in Hbn. change MAXFILE with (NDIRECT + NINDIRECT) in Hbn. lia. }
  change (i_addrs i !!! Z.to_nat NDIRECT) with (ind (i_addrs i)). set (l := i_addrs i) in *.
  destruct (Z.eqb_spec (ind l) 0) as [E0|Hn].
  - unfold ineed in Hf. rewrite E0 in Hf. change (0 =? 0)%Z with true in Hf. cbn iota in Hf.
    destruct (balloc_alloc s D ∅ L (S q) Hsb R Hm (held_data_empty D)) as (b & t & D1 & E & A & R1 & F1 & Bm).
    { eapply budget_room; [exact Hb|]. set_solver. }
    { eapply has_free_le; [|exact Hf]. lia. }
    erewrite bind_Ok by exact E. erewrite bind_Ok by reflexivity.
    replace (upd_inode ip (set_addr NDIRECT b) (set_ftx t s)) with (set_ftx t (upd_inode ip (set_addrs (<[12%nat := b]> l)) s)).
    2: { symmetry. apply (upd_inode_ext (set_ftx t s) ip i); [exact Hi|done]. }
    destruct (ind_grown g sb HL D l b D1 I A E0) as [G C]. pose proof (data_pos _ _ HL b (al_range _ _ _ _ A)) as Hb0.
    destruct (ind_addr D1 l b bn (io_len _ _ _ I) E0 Hb0 (al_zero _ _ _ _ A) Hbn) as [_ Ei]. set (l1 := <[12%nat := b]> l) in *.
    assert (budget g sb N l1 ({[ b ]} ∪ ({[ BBLOCK b sb ]} ∪ L)) (S k)) as Hb1.
    { unfold budget, inds, ineed in *. rewrite E0 in Hb. rewrite Ei. destruct (Z.eqb_spec b 0); [lia|]. change (0 =? 0) with true in Hb. cbn iota in Hb.
      assert (size (bmaps sb ∪ {[ b ]} ∪ ({[ b ]} ∪ ({[ BBLOCK b sb ]} ∪ L))) <= S (size (bmaps sb ∪ ∅ ∪ L)))%nat by (apply (size_add b); set_solver). lia. }
    rewrite <- Ei. destruct (bmap_entry_ok (set_ftx t (upd_inode ip (set_addrs l1) s)) D1 _ l1 Hsb R1) as (a & t' & D' & L' & E' & R' & G' & C' & Ha & Ha0 & F' & B'); try done.
    { by eapply grown_meta. }
    { apply G. }
    { lia. }
    exists a, t', l1, D', L'. split; [exact E'|]. split; [exact R'|]. split; [by eapply grown_trans|].
    split; [intros m Hm'; rewrite C', C; done|]. split; [done|]. split; [done|]. split; [|done].
    unfold ineed. rewrite Ei. destruct (Z.eqb_spec b 0); [lia|]. eapply has_free_le; [|exact F']. lia.
  - destruct (bmap_entry_ok s D L l Hsb R) as (a & t' & D' & L' & E' & R' & G' & C' & Ha & Ha0 & F' & B'); try done; try lia.
    { eapply has_free_le; [|exact Hf]. lia. }
    exists a, t', l, D', L'. pose proof (upd_addrs_id s ip i Hi) as Eid. fold l in Eid. rewrite Eid. split; [exact E'|]. do 5 (split; [done|]). split; [|done].
    unfold ineed. destruct (Z.eqb_spec (ind l) 0); [done|]. eapply has_free_le; [|exact F']. lia.
Qed.
End At.
End Bmap.
