(* ===== verification/FsRw.v ===== *)
(** * kernel/fs.c: reading and writing inodes

    The on-disk inode, [iupdate], and [readi] and [writei] on the content of a file. *)
From stdpp Require Import base gmap list numbers functions strings.
From Stdlib Require Import ZArith Lia.
From S2P Require Import Prelude Mem Bytes.
From S2P Require Import Access Bio BlockCache LogDisk TxDisk Fs FsBlocks FsFile.
Open Scope Z_scope.

(** ** On-disk inodes *)

Lemma get_addrs_lookup k : forall o d i, get_addrs o k d !! i = if decide (i < k)%nat then Some (get32 (o + 4 * i) d) else None.
Proof.
  induction k as [|k IH]; intros o d i; cbn [get_addrs]; [by rewrite decide_False by lia|].
  destruct i as [|i]; cbn; [by rewrite Nat.add_0_r|]. rewrite IH. repeat case_decide; try lia; [|done].
  do 2 f_equal. lia.
Qed.

Lemma length_put_addrs l : forall o d, length (put_addrs o l d) = length d.
Proof. induction l as [|a l IH]; intros o d; cbn; [done|]. by rewrite IH, length_put32. Qed.

Lemma put_addrs_bytes l : forall o d, bytes d -> bytes (put_addrs o l d).
Proof. induction l as [|a l IH]; intros o d Hd; cbn; [done|]. by apply IH, put32_bytes. Qed.

(** A field outside the addresses is kept. *)
Lemma put_addrs_getn l : forall o d o' n, (o' + n <= o \/ o + 4 * length l <= o')%nat -> getn o' n (put_addrs o l d) = getn o' n d.
Proof.
  induction l as [|a l IH]; intros o d o' n Hd; cbn in *; [done|]. rewrite IH by lia. apply getn_putn_ne.
  rewrite length_le by done. lia.
Qed.

Lemma put_addrs_get l : forall o d i a, (o + 4 * length l <= length d)%nat -> Forall (fun a => 0 <= a < 2 ^ 32) l ->
  l !! i = Some a -> get32 (o + 4 * i) (put_addrs o l d) = a.
Proof.
  induction l as [|x l IH]; intros o d i a Hlen Hl Hi; [done|]. apply Forall_cons in Hl as [Hx Hl]. cbn in *. destruct i as [|i]; cbn in Hi.
  - injection Hi as ->. rewrite Nat.add_0_r. unfold get32. rewrite put_addrs_getn by lia. apply get32_put32_eq; [lia|done].
  - etrans; [|apply (IH (o + 4)%nat (put32 o x d) i a); [rewrite length_put32; lia|done|done]]. f_equal. lia.
Qed.

Definition short (z : Z) : Prop := - 2 ^ 15 <= z < 2 ^ 15.

Record dinode_ok (i : dinode) : Prop := {
  dk_type : short (d_type i);
  dk_major : short (d_major i);
  dk_minor : short (d_minor i);
  dk_nlink : short (d_nlink i);
  dk_size : 0 <= d_size i < 2 ^ 32;
  dk_len : length (d_addrs i) = 13%nat;
  dk_addrs : Forall (fun a => 0 <= a < 2 ^ 32) (d_addrs i)
}.

Lemma i16_get16 o z d : (o + 2 <= length d)%nat -> short z -> i16 (get16 o (put16 o z d)) = z.
Proof.
  intros Ho [H1 H2]. unfold get16, put16. pose proof (getn_putn_eq o (Z_to_little_endian 2 8 z) d) as E.
  rewrite length_le in E by done. change (Z.to_nat 2) with 2%nat in E. rewrite E by lia.
  rewrite little_endian_to_Z_to_little_endian by lia. unfold i16, sext. change (2 * 8) with 16. change (16 - 1) with 15.
  rewrite Zplus_mod_idemp_l, Z.mod_small; lia.
Qed.

Lemma get16_put_addrs o o' l d : (o' + 2 <= o)%nat -> get16 o' (put_addrs o l d) = get16 o' d.
Proof. intros. unfold get16. by rewrite put_addrs_getn by lia. Qed.
Lemma get32_put_addrs o o' l d : (o' + 4 <= o)%nat -> get32 o' (put_addrs o l d) = get32 o' d.
Proof. intros. unfold get32. by rewrite put_addrs_getn by lia. Qed.

Lemma get_put_dinode o i d : (o + 64 <= length d)%nat -> dinode_ok i -> get_dinode o (put_dinode o i d) = i.
Proof.
  intros Ho [H1 H2 H3 H4 H5 H6 H7]. unfold get_dinode, put_dinode.
  rewrite !get16_put_addrs, !get32_put_addrs, !get16_put32_ne by lia.
  destruct i as [ty ma mi nl sz ad]; cbn [d_type d_major d_minor d_nlink d_size d_addrs] in *. f_equal.
  - rewrite !get16_put16_ne by lia. apply i16_get16; [lia|done].
  - rewrite !(get16_put16_ne (o + 2)) by lia. apply i16_get16; [rewrite !length_put16; lia|done].
  - rewrite !(get16_put16_ne (o + 4)) by lia. apply i16_get16; [rewrite !length_put16; lia|done].
  - apply i16_get16; [rewrite !length_put16; lia|done].
  - apply get32_put32_eq; [rewrite !length_put16; lia|done].
  - apply list_eq. intros j. rewrite get_addrs_lookup. case_decide as Hj; [|by rewrite lookup_ge_None_2 by lia].
    destruct (lookup_lt_is_Some_2 ad j) as [a Ha]; [lia|]. rewrite Ha. f_equal.
    apply put_addrs_get; [rewrite length_put32, !length_put16; lia|done|done].
Qed.

Lemma length_put_dinode o i d : length (put_dinode o i d) = length d.
Proof. unfold put_dinode. by rewrite length_put_addrs, length_put32, !length_put16. Qed.

Lemma put_dinode_bytes o i d : bytes d -> bytes (put_dinode o i d).
Proof. intros. unfold put_dinode. by apply put_addrs_bytes, put32_bytes, put16_bytes, put16_bytes, put16_bytes, put16_bytes. Qed.

Lemma getn_get_dinode o d d' : (forall j, (o <= j < o + 64)%nat -> d !! j = d' !! j) -> get_dinode o d = get_dinode o d'.
Proof.
  intros E. assert (forall o' n, (o <= o' /\ o' + n <= o + 64)%nat -> getn o' n d = getn o' n d') as Eg.
  { intros o' n Hn. apply list_eq. intros j. rewrite !getn_lookup. case_decide; [|done]. apply E. lia. }
  unfold get_dinode, get16, get32. rewrite !Eg by lia. f_equal.
  apply list_eq. intros j. rewrite !get_addrs_lookup. case_decide; [|done]. unfold get32. by rewrite Eg by lia.
Qed.

(** Another inode of the block is kept. *)
Lemma put_dinode_other o i o' d : length (d_addrs i) = 13%nat -> (o' + 64 <= o \/ o + 64 <= o')%nat ->
  get_dinode o' (put_dinode o i d) = get_dinode o' d.
Proof.
  intros Hl Ho. assert (forall n j, (o' <= j /\ j + n <= o' + 64)%nat -> getn j n (put_dinode o i d) = getn j n d) as Eg.
  { intros n j Hj. unfold put_dinode. rewrite put_addrs_getn by lia.
    unfold put32, put16. rewrite !getn_putn_ne by (rewrite length_le by done; lia). done. }
  unfold get_dinode, get16, get32. rewrite !Eg by lia. f_equal.
  apply list_eq. intros j. rewrite !get_addrs_lookup. case_decide; [|done]. unfold get32. by rewrite Eg by lia.
Qed.

Lemma doff_bound inum : (doff inum + 64 <= Z.to_nat BSIZE)%nat.
Proof. unfold doff. change IPB with 16. pose proof (Z.mod_pos_bound inum 16). change (Z.to_nat BSIZE) with 1024%nat. lia. Qed.

Lemma doff_apart i j : 0 <= i -> 0 <= j -> i / IPB = j / IPB -> i <> j -> (doff j + 64 <= doff i \/ doff i + 64 <= doff j)%nat.
Proof.
  intros Hi Hj E Hn. unfold doff. change IPB with 16 in *.
  pose proof (Z.div_mod i 16). pose proof (Z.div_mod j 16). pose proof (Z.mod_pos_bound i 16). pose proof (Z.mod_pos_bound j 16). lia.
Qed.

(** The inode [inum] on the disk. *)
Definition disk_inode (sb : superblock) (D : blocks) (inum : Z) : dinode := get_dinode (doff inum) (D (IBLOCK inum sb)).

Section Iupdate.
Context {T U : Type} `{TxDiskLaws T} `{UserAccess U} (g : geom) (sb : superblock) (HL : layout g sb).
Implicit Types (s : fs_st T U) (D : blocks) (h : gmap nat Z) (L : gset Z) (l : list Z).

(** The blocks after [iupdate] of the inode [i]. *)
Definition iput_disk (i : inode) D : blocks :=
  <[IBLOCK (i_inum i) sb := put_dinode (doff (i_inum i)) (dinode_of i) (D (IBLOCK (i_inum i) sb))]> D.

Lemma iupdate_ok s ip i D L : icache s !! ip = Some i -> i_dev i = g_dev g -> 0 <= i_inum i < sb_ninodes sb -> fsb s = sb ->
  frep g s D ∅ L -> room g L ->
  exists t, iupdate ip s = Ok tt (set_ftx t s) /\ frep g (set_ftx t s) (iput_disk i D) ∅ ({[ IBLOCK (i_inum i) sb ]} ∪ L).
Proof.
  intros Hi Hdev Hin Hsb R Hr. unfold iupdate. erewrite bind_Ok by reflexivity. rewrite (the_inode_lookup s ip i Hi), Hdev, Hsb.
  destruct (iblock_ok _ _ HL _ Hin) as [_ Hib]. destruct (iblock_not_log _ _ HL _ Hib) as (Hl1 & Hl2 & _).
  destruct (bread_step g s D ∅ L (IBLOCK (i_inum i) sb) R) as (bp & t & E & Hbp & R1); try done.
  { rewrite map_size_empty. lia. }
  erewrite bind_Ok by exact E. erewrite bind_Ok by (eapply bdata_step; [exact R1|apply lookup_insert_eq]).
  destruct (update_step g _ _ _ _ _ _ (put_dinode (doff (i_inum i)) (dinode_of i) (D (IBLOCK (i_inum i) sb))) R1 Hbp) as (t' & E' & _ & R2); try done.
  { destruct (frep_block g _ _ _ _ (IBLOCK (i_inum i) sb) R). split; [by rewrite length_put_dinode|by apply put_dinode_bytes]. }
  exists t'. split; [exact E'|exact R2].
Qed.

Lemma iput_disk_other i D m : m <> IBLOCK (i_inum i) sb -> iput_disk i D m = D m.
Proof. intros. by apply fn_lookup_insert_ne. Qed.

(** What [iupdate] wrote is what [ilock] reads back, and no other inode changes. *)
Lemma disk_inode_iput i D : (forall n, is_block (D n)) -> dinode_ok (dinode_of i) -> 0 <= i_inum i < sb_ninodes sb ->
  disk_inode sb (iput_disk i D) (i_inum i) = dinode_of i /\
  forall j, 0 <= j < sb_ninodes sb -> j <> i_inum i -> disk_inode sb (iput_disk i D) j = disk_inode sb D j.
Proof.
  intros HD Hok Hin. unfold disk_inode, iput_disk. split.
  - rewrite fn_lookup_insert. apply get_put_dinode; [|done]. rewrite (proj1 (HD _)). apply doff_bound.
  - intros j Hj Hne. destruct (iblock_ok _ _ HL _ Hin) as [Ei _], (iblock_ok _ _ HL _ Hj) as [Ej _].
    destruct (decide (IBLOCK j sb = IBLOCK (i_inum i) sb)) as [E|E].
    + rewrite E, fn_lookup_insert. apply put_dinode_other; [apply Hok|]. apply doff_apart; lia.
    + by rewrite fn_lookup_insert_ne.
Qed.
End Iupdate.

(** ** The content of a file *)

Definition FILEMAX : Z := MAXFILE * BSIZE.

(** The byte at offset [x]. *)
Definition fbyte (D : blocks) (l : list Z) (x : Z) : Z := fblock D l (x / BSIZE) !!! Z.to_nat (x mod BSIZE).

Lemma in_file_div x : 0 <= x < FILEMAX -> in_file (x / BSIZE).
Proof.
  intros Hx. unfold in_file. change FILEMAX with (268 * 1024) in Hx. change MAXFILE with 268. change BSIZE with 1024.
  Z.div_mod_to_equations. lia.
Qed.

Section Content.
Context (g : geom) (sb : superblock) (HL : layout g sb).
Implicit Types (D : blocks) (l : list Z).

Lemma fblock_block D l bn : (forall n, is_block (D n)) -> is_block (fblock D l bn).
Proof. intros HD. unfold fblock. destruct (addr_of D l bn =? 0); [apply zeros_block|apply HD]. Qed.

Lemma fbyte_same D l D' l' x : (forall m, in_file m -> fblock D' l' m = fblock D l m) -> 0 <= x < FILEMAX -> fbyte D' l' x = fbyte D l x.
Proof. intros C Hx. unfold fbyte. by rewrite C by (by apply in_file_div). Qed.

Lemma has_free_write D n d k : ~ is_bmap sb n -> has_free sb D k -> has_free sb (<[n := d]> D) k.
Proof.
  intros Hn (X & HX & Hx). exists X. split; [done|]. intros x Hin. destruct (Hx x Hin) as [Hr Hu]. split; [done|].
  rewrite (used_write g sb HL); [done|done|]. pose proof (data_pos _ _ HL x Hr). lia.
Qed.

(** Changing the content of block [bn] of a file. *)
Lemma write_block D l bn d : iok sb D l -> in_file bn -> addr_of D l bn <> 0 ->
  let D' := <[addr_of D l bn := d]> D in
  grown sb D l D' l /\ forall m, in_file m -> fblock D' l m = if decide (m = bn) then d else fblock D l m.
Proof.
  intros I Hbn Ha D'. destruct (io_used _ _ _ I bn Hbn Ha) as [Hr Hu]. destruct (data_not_log _ _ HL _ Hr) as (_ & _ & Hb).
  pose proof (io_ind_ne _ _ _ I bn Hbn Ha) as Hne.
  assert (forall m, in_file m -> addr_of D' l m = addr_of D l m) as Ea.
  { intros m Hm. unfold addr_of, D'. destruct (m <? NDIRECT); [done|]. destruct (ind l =? 0); [done|].
    by rewrite fn_lookup_insert_ne. }
  split.
  - apply (grown_write g sb HL); try done.
    + intros m Hm. apply fn_lookup_insert_ne. congruence.
    + intros m Hm. apply fn_lookup_insert_ne. intros <-. apply Hm. split; [done|]. right. eauto.
  - intros m Hm. unfold fblock. rewrite Ea by done. case_decide as E.
    + subst m. destruct (Z.eqb_spec (addr_of D l bn) 0); [done|]. apply fn_lookup_insert.
    + destruct (Z.eqb_spec (addr_of D l m) 0); [done|]. apply fn_lookup_insert_ne.
      intros He. apply E. symmetry. by apply (io_inj _ _ _ I).
Qed.

(** Storing [bs] at offset [off] inside one block. *)
Lemma fbyte_store D l D' l' off bs x : (forall n, is_block (D n)) -> 0 <= off ->
  off mod BSIZE + Z.of_nat (length bs) <= BSIZE -> 0 <= x < FILEMAX ->
  (forall m, in_file m -> fblock D' l' m = if decide (m = off / BSIZE) then putn (Z.to_nat (off mod BSIZE)) bs (fblock D l m) else fblock D l m) ->
  fbyte D' l' x = if decide (off <= x < off + Z.of_nat (length bs)) then bs !!! Z.to_nat (x - off) else fbyte D l x.
Proof.
  intros HD Ho Hlen Hx C. unfold fbyte. rewrite C by (by apply in_file_div).
  destruct (fblock_block D l (x / BSIZE) HD) as [Hl _]. change (Z.to_nat BSIZE) with 1024%nat in Hl. change BSIZE with 1024 in *.
  pose proof (Z.div_mod x 1024). pose proof (Z.div_mod off 1024). pose proof (Z.mod_pos_bound x 1024). pose proof (Z.mod_pos_bound off 1024).
  case_decide as Eb.
  - rewrite !list_lookup_total_alt, putn_lookup. case_decide as E1; rewrite Hl in E1.
    + rewrite decide_True by lia. do 2 f_equal. lia.
    + rewrite decide_False by lia. done.
  - rewrite decide_False; [done|]. intros Hin. apply Eb. assert (x / 1024 = off / 1024) by nia. done.
Qed.
End Content.

Section Writei.
Context {T U : Type} `{TxDiskLaws T} `{UserAccess U} (g : geom) (sb : superblock) (HL : layout g sb) (N : Z).
Implicit Types (s : fs_st T U) (D : blocks) (h : gmap nat Z) (L : gset Z) (l : list Z).

(** The source of a [writei] has the bytes [bs]. *)
Definition gives (src : msrc) (bs : list Z) s : Prop :=
  forall s' tot m, fmem s' = fmem s -> fpagetable s' = fpagetable s -> 0 <= tot -> 0 < m -> tot + m <= Z.of_nat (length bs) ->
    copy_from src tot m s' = Ok (0, getn (Z.to_nat tot) (Z.to_nat m) bs) s'.

Lemma gives_local bs s : gives (SLocal bs) bs s.
Proof. intros s' tot m _ _ _ _ _. done. Qed.

(** The state between two blocks: inode [ip] of device [g_dev g] has addresses [l]. *)
Record at_file s ip i D L : Prop := {
  af_inode : icache s !! ip = Some i;
  af_dev : i_dev i = g_dev g;
  af_sb : fsb s = sb;
  af_rep : frep g s D ∅ L;
  af_meta : meta_used sb D;
  af_iok : iok sb D (i_addrs i)
}.

Lemma upd_upd s ip f f' : upd_inode ip f (upd_inode ip f' s) = upd_inode ip (fun i => f (f' i)) s.
Proof.
  unfold upd_inode. cbn. unfold set_icache. cbn. f_equal.
  apply list_eq. intros j. destruct (decide (j = ip)) as [->|].
  - rewrite !list_lookup_alter_eq. by destruct (icache s !! ip).
  - by rewrite !list_lookup_alter_ne.
Qed.

Lemma upd_inode_lookup s ip i f : icache s !! ip = Some i -> icache (upd_inode ip f s) !! ip = Some (f i).
Proof. intros E. cbn. by rewrite list_lookup_alter_eq, E. Qed.

Lemma at_file_next s ip i D L t l' D' L' : at_file s ip i D L -> grown sb D (i_addrs i) D' l' -> frep g (set_ftx t s) D' ∅ L' ->
  at_file (set_ftx t (upd_inode ip (set_addrs l') s)) ip (set_addrs l' i) D' L'.
Proof.
  intros [A1 A2 A3 A4 A5 A6] G R. split; try done.
  - apply (upd_inode_lookup (set_ftx t s)). exact A1.
  - by eapply grown_meta.
  - apply G.
Qed.

Lemma chunk_len off n tot : 0 <= tot < n -> 0 <= off -> let m := Z.min (n - tot) (BSIZE - off mod BSIZE) in 0 < m /\ tot + m <= n /\ off mod BSIZE + m <= BSIZE.
Proof. intros Ht Ho. change BSIZE with 1024. pose proof (Z.mod_pos_bound off 1024). lia. Qed.

(** After the first block the offset is aligned. *)
Lemma chunk_next off n tot k : 0 <= tot < n -> 0 <= off -> off mod BSIZE + (n - tot) <= BSIZE * Z.of_nat (S k) ->
  let m := Z.min (n - tot) (BSIZE - off mod BSIZE) in
  tot + m < n -> (off + m) mod BSIZE + (n - (tot + m)) <= BSIZE * Z.of_nat k.
Proof.
  intros Ht Ho Hk m. unfold m. intros Hlast. change BSIZE with 1024 in *. pose proof (Z.div_mod off 1024). pose proof (Z.mod_pos_bound off 1024).
  destruct (Z.min_spec (n - tot) (1024 - off mod 1024)) as [[Hlt E]|[Hge E]]; rewrite E in *; [lia|].
  replace ((off + (1024 - off mod 1024)) mod 1024) with 0; [lia|]. apply (Z.mod_unique_pos _ _ (off / 1024 + 1)); lia.
Qed.

(** One block of [writei]. *)
Lemma writei_chunk ip src bs off tot q k s i D L : let n := Z.of_nat (length bs) in let m := Z.min (n - tot) (BSIZE - off mod BSIZE) in
  at_file s ip i D L -> has_free sb D (S q + ineed (i_addrs i)) -> budget g sb N (i_addrs i) L (S k) -> gives src bs s -> bytes bs ->
  0 <= tot < n -> 0 <= off -> off + (n - tot) <= FILEMAX ->
  exists t l' D' L', (forall fuel, writei_loop ip src off n tot (S fuel) s =
      writei_loop ip src (off + m) n (tot + m) fuel (set_ftx t (upd_inode ip (set_addrs l') s))) /\
    frep g (set_ftx t s) D' ∅ L' /\ grown sb D (i_addrs i) D' l' /\ has_free sb D' (q + ineed l') /\ budget g sb N l' L' k /\
    addr_of D' l' (off / BSIZE) <> 0 /\
    forall x, 0 <= x < FILEMAX -> fbyte D' l' x = if decide (off <= x < off + m) then bs !!! Z.to_nat (tot + x - off) else fbyte D (i_addrs i) x.
Proof.
  intros n m [Hi Hdev Hsb R Hmeta I] Hf Hb Hsrc Hbytes Htot Hoff Hmax.
  destruct (chunk_len off n tot Htot Hoff) as (Hm1 & Hm2 & Hm3). fold m in Hm1, Hm2, Hm3.
  assert (off < FILEMAX) by lia. pose proof (in_file_div off) as Hin. specialize (Hin ltac:(lia)).
  destruct (bmap_ok g sb HL N ip (off / BSIZE) q k Hin s i D L) as (a & t & l' & D1 & L1 & E & R1 & G1 & C1 & Ea & Ha & F1 & B1); try done.
  pose proof (gr_iok _ _ _ _ _ G1) as I1. assert (data_used sb D1 a) as [Hr Hu] by (rewrite <- Ea; apply (io_used _ _ _ I1); [done|by rewrite Ea]).
  destruct (data_not_log _ _ HL a Hr) as (Hal & Ha32 & Hab).
  assert (room g L1) as Hroom by (eapply budget_room; [exact B1|set_solver]).
  set (s1 := set_ftx t (upd_inode ip (set_addrs l') s)) in *.
  destruct (bread_step g s1 D1 ∅ L1 a R1) as (bp & t2 & E2 & Hbp & R2); [lia|done|rewrite map_size_empty; lia|done|].
  set (bs1 := getn (Z.to_nat tot) (Z.to_nat m) bs). assert (length bs1 = Z.to_nat m) as Hl1 by (apply length_getn; lia).
  set (d := putn (Z.to_nat (off mod BSIZE)) bs1 (D1 a)).
  destruct (update_step g _ _ _ _ _ _ d R2 Hbp) as (t3 & _ & E3 & R3); try done; [|lia|].
  { destruct (frep_block g _ _ _ _ a R2) as [Hlb Hbb]. split; [by unfold d; rewrite length_putn|].
    apply putn_bytes; [|done]. by apply Forall_take, Forall_drop. }
  destruct (write_block g sb HL D1 l' (off / BSIZE) d I1 Hin) as [G2 C2]; [by rewrite Ea|]. rewrite Ea in G2, C2.
  exists t3, l'. eexists _, _. split; [|split; [exact R3|]].
  { intros fuel. cbn [writei_loop]. destruct (Z.ltb_spec tot n); [|lia]. erewrite bind_Ok by reflexivity.
    erewrite bind_Ok by exact E. rewrite (the_inode_lookup s ip i Hi), Hdev. erewrite bind_Ok by exact E2.
    erewrite bind_Ok by (apply Hsrc; try done; lia). cbn beta iota.
    erewrite bind_Ok by (eapply bdata_step; [exact R2|apply lookup_insert_eq]).
    fold m bs1 d. rewrite bool_decide_eq_false_2 by (intros Hnil; rewrite Hnil in Hl1; cbn in Hl1; lia).
    change (0 =? -1) with false. cbn iota. rewrite E3. rewrite u32_small; [done|]. change FILEMAX with (268 * 1024) in *. lia. }
  split; [by eapply grown_trans|]. split; [by apply (has_free_write g)|]. split; [done|]. split.
  { rewrite (gr_addr _ _ _ _ _ G2); [by rewrite Ea|done|by rewrite Ea]. }
  intros x Hx. rewrite <- (fbyte_same D (i_addrs i) D1 l' x C1 Hx).
  assert (fblock D1 l' (off / BSIZE) = D1 a) as Eblk by (unfold fblock; rewrite Ea; by destruct (Z.eqb_spec a 0)).
  rewrite (fbyte_store D1 l' (<[a := d]> D1) l' off bs1 x); [|intros; by eapply frep_block|done|lia|done|].
  - rewrite Hl1, Z2Nat.id by lia. case_decide; [|done]. unfold bs1. rewrite !list_lookup_total_alt, getn_lookup, decide_True by lia.
    do 2 f_equal. lia.
  - intros y Hy. rewrite C2 by done. case_decide; [|done]. subst y. by rewrite Eblk.
Qed.

(** The number of blocks that [n] bytes at [off] touch. *)
Definition nblk (off n : Z) : nat := Z.to_nat ((off mod BSIZE + n + (BSIZE - 1)) / BSIZE).

Lemma nblk_bound off n : 0 <= off -> 0 <= n -> off mod BSIZE + n <= BSIZE * Z.of_nat (nblk off n) /\ Z.of_nat (nblk off n) < n / BSIZE + 3.
Proof.
  intros Ho Hn. unfold nblk. change BSIZE with 1024. pose proof (Z.mod_pos_bound off 1024).
  set (o := off mod 1024) in *. Z.div_mod_to_equations. lia.
Qed.

(** Several blocks. *)
Definition wrote (bs : list Z) (off tot : Z) D l D' l' : Prop :=
  let n := Z.of_nat (length bs) in
  grown sb D l D' l' /\ (forall x, off <= x < off + (n - tot) -> addr_of D' l' (x / BSIZE) <> 0) /\
  forall x, 0 <= x < FILEMAX -> fbyte D' l' x =
    if decide (off <= x < off + (n - tot)) then bs !!! Z.to_nat (tot + x - off) else fbyte D l x.

Lemma writei_loop_ok ip src bs e : let n := Z.of_nat (length bs) in bytes bs -> forall fuel k off tot s i D L,
  at_file s ip i D L -> has_free sb D (k + e + ineed (i_addrs i)) -> budget g sb N (i_addrs i) L k -> gives src bs s ->
  0 <= tot <= n -> 0 <= off -> off + (n - tot) <= FILEMAX -> (tot < n -> off mod BSIZE + (n - tot) <= BSIZE * Z.of_nat k) -> (k < fuel)%nat ->
  exists t l' D' L', writei_loop ip src off n tot fuel s = Ok (off + (n - tot)) (set_ftx t (upd_inode ip (set_addrs l') s)) /\
    frep g (set_ftx t s) D' ∅ L' /\ Z.of_nat (size L') < N <= cap g /\ has_free sb D' (e + ineed l') /\ wrote bs off tot D (i_addrs i) D' l'.
Proof.
  intros n Hbytes fuel. induction fuel as [|fuel IH]; intros k off tot s i D L A Hf Hb Hsrc Htot Hoff Hmax Hk Hfuel; [lia|].
  pose proof A as [Hi Hdev Hsb R Hmeta I]. destruct (decide (tot < n)) as [Hlt|Hge].
  2: { exists (ftx s), (i_addrs i), D, L. replace (set_ftx (ftx s) s) with s by (by destruct s). rewrite (upd_addrs_id s ip i Hi).
    cbn [writei_loop]. destruct (Z.ltb_spec tot n); [lia|]. split; [unfold ret; f_equal; [lia|by destruct s]|]. split; [done|].
    split; [eapply budget_size; [exact Hb|set_solver]|]. split; [eapply has_free_le; [|exact Hf]; lia|]. split; [by apply grown_refl|]. split; [intros x Hx; fold n in Hx; lia|].
    intros x Hx. fold n. rewrite decide_False by lia. done. }
  destruct k as [|k]; [specialize (Hk Hlt); pose proof (Z.mod_pos_bound off BSIZE ltac:(done)); lia|].
  destruct (writei_chunk ip src bs off tot (k + e) k s i D L A Hf Hb Hsrc Hbytes) as (t & l1 & D1 & L1 & E & R1 & G1 & F1 & B1 & Ha1 & C1); try done; [lia|].
  destruct (chunk_len off n tot) as (Hm1 & Hm2 & Hm3); [lia|done|]. set (m := Z.min (n - tot) (BSIZE - off mod BSIZE)) in *.
  pose proof (at_file_next _ _ _ _ _ _ _ _ _ A G1 R1) as A1.
  destruct (IH k (off + m) (tot + m) _ _ D1 L1 A1) as (t2 & l2 & D2 & L2 & E2 & R2 & Hroom & F2 & G2 & Ha2 & C2); try done; try lia.
  { apply chunk_next; [lia|done|by apply Hk]. }
  fold n in Ha2, C2. exists t2, l2, D2, L2. fold n in E. fold m in E, C1. split; [|split; [exact R2|]].
  { rewrite E, E2. f_equal; [lia|]. change (set_ftx t2 (upd_inode ip (set_addrs l2) (upd_inode ip (set_addrs l1) s)) = set_ftx t2 (upd_inode ip (set_addrs l2) s)).
    by rewrite upd_upd. }
  split; [done|]. split; [done|]. split; [by eapply grown_trans|]. fold n. change FILEMAX with (268 * 1024) in *. split.
  - intros x Hx. destruct (decide (x < off + m)); [|apply Ha2; lia].
    assert (x / BSIZE = off / BSIZE) as Eb. { change BSIZE with 1024 in *. Z.div_mod_to_equations. nia. }
    pose proof (in_file_div x) as Hin. rewrite Eb in *.
    rewrite (gr_addr _ _ _ _ _ G2); [done|apply Hin; change FILEMAX with (268 * 1024); lia|done].
  - intros x Hx. rewrite C2, C1 by done. fold n. repeat case_decide; try lia; done || (f_equal; lia).
Qed.

(** The inode and the blocks after [writei]. *)
Definition write_inode (i : inode) (end_ : Z) l' : inode := set_size (Z.max (i_size i) end_) (set_addrs l' i).

Lemma writei_ok ip src bs e off s i D L : let n := Z.of_nat (length bs) in
  at_file s ip i D L -> 0 <= i_inum i < sb_ninodes sb -> gives src bs s -> bytes bs -> 0 <= off <= i_size i -> off + n <= FILEMAX ->
  has_free sb D (nblk off n + e + ineed (i_addrs i)) -> budget g sb N (i_addrs i) L (nblk off n) ->
  exists t l' D1 L', let i' := write_inode i (off + n) l' in let D' := if decide (n = 0) then D1 else iput_disk sb i' D1 in
    writei ip src off n s = Ok n (set_ftx t (upd_inode ip (fun _ => i') s)) /\
    frep g (set_ftx t s) D' ∅ L' /\ Z.of_nat (size L') <= N /\ has_free sb D' (e + ineed l') /\ wrote bs off 0 D (i_addrs i) D1 l'.
Proof.
  intros n A Hin Hsrc Hbytes Hoff Hmax Hf Hb. pose proof A as [Hi Hdev Hsb R Hmeta I]. unfold writei.
  erewrite bind_Ok by reflexivity. rewrite (the_inode_lookup s ip i Hi). assert (0 <= n) by lia.
  change FILEMAX with (268 * 1024) in *. change (MAXFILE * BSIZE) with (268 * 1024). rewrite u32_small by lia.
  destruct (Z.ltb_spec (i_size i) off); [lia|]. destruct (Z.ltb_spec (off + n) off); [lia|]. cbn [orb].
  destruct (Z.ltb_spec (268 * 1024) (off + n)); [lia|]. destruct (nblk_bound off n) as [K1 K2]; [lia|lia|].
  destruct (writei_loop_ok ip src bs e Hbytes (Z.to_nat (n / BSIZE + 3)) (nblk off n) off 0 s i D L A Hf Hb Hsrc) as (t & l' & D1 & L1 & E & R1 & Hroom & F1 & W); try lia.
  { change FILEMAX with (268 * 1024). lia. }
  fold n in E. erewrite bind_Ok by exact E. replace (off + (n - 0)) with (off + n) by lia.
  destruct (Z.ltb_spec 0 n) as [Hpos|Hz].
  - set (s1 := set_ftx t (upd_inode ip (set_addrs l') s)).
    assert (icache s1 !! ip = Some (set_addrs l' i)) as Hi1 by (by apply (upd_inode_lookup (set_ftx t s))).
    set (i' := write_inode i (off + n) l').
    assert (exists s2, (let! s0 := get in (if i_size (the_inode ip s0) <? off + n then modify (upd_inode ip (set_size (off + n))) else ret tt) ;; iupdate ip) s1
      = iupdate ip s2 /\ s2 = set_ftx t (upd_inode ip (fun _ => i') s)) as (s2 & E2 & Es2).
    { eexists. split; [|reflexivity]. erewrite bind_Ok by reflexivity. rewrite (the_inode_lookup s1 ip _ Hi1). cbn [i_size set_addrs].
      destruct (Z.ltb_spec (i_size i) (off + n)) as [Hs|Hs].
      - erewrite bind_Ok by reflexivity. f_equal. unfold s1. change (upd_inode ip (set_size (off + n)) (set_ftx t (upd_inode ip (set_addrs l') s)))
          with (set_ftx t (upd_inode ip (set_size (off + n)) (upd_inode ip (set_addrs l') s))). f_equal. rewrite upd_upd.
        apply (upd_inode_ext s ip i); [done|]. unfold i', write_inode. by rewrite Z.max_r by lia.
      - erewrite bind_Ok by reflexivity. f_equal. unfold s1. f_equal. apply (upd_inode_ext s ip i); [done|].
        unfold i', write_inode. rewrite Z.max_l by lia. done. }
    assert (room g L1) by (unfold room; lia).
    destruct (iupdate_ok g sb HL s2 ip i' D1 L1) as (t2 & E3 & R2); try done; try (by subst s2).
    { subst s2. exact (upd_inode_lookup (set_ftx t s) ip i (fun _ => i') Hi). }
    exists t2, l', D1. eexists. split.
    + erewrite bind_Ok by (etrans; [exact E2|exact E3]). unfold ret. f_equal; [apply i32_small; lia|]. by subst s2.
    + rewrite decide_False by lia. split; [subst s2; exact R2|]. split; [|split; [|exact W]].
      2: { destruct (iblock_ok _ _ HL _ Hin) as [_ Hib]. apply (has_free_write g sb HL); [by apply (iblock_not_log _ _ HL)|done]. }
      pose proof (size_add (IBLOCK (i_inum i') sb) L1 _ (reflexivity _)). lia.
  - exists t, l', D1, L1. assert (n = 0) as -> by lia. split.
    + erewrite bind_Ok by reflexivity. unfold ret. f_equal. f_equal. apply (upd_inode_ext s ip i); [done|].
      unfold write_inode. rewrite Z.max_l by lia. done.
    + rewrite decide_True by done. split; [exact R1|]. split; [lia|split; [done|exact W]].
Qed.
End Writei.

(** [n] bytes of the file from offset [off]. *)
Definition fslice (D : blocks) (l : list Z) (off n : Z) : list Z := (fun j => fbyte D l (off + j)) <$> seqZ 0 n.

Lemma length_fslice D l off n : length (fslice D l off n) = Z.to_nat n.
Proof. unfold fslice. by rewrite length_fmap, length_seqZ. Qed.

Lemma fslice_lookup D l off n j : (j < Z.to_nat n)%nat -> fslice D l off n !! j = Some (fbyte D l (off + Z.of_nat j)).
Proof. intros Hj. unfold fslice. rewrite list_lookup_fmap, lookup_seqZ_lt by lia. cbn. do 2 f_equal. Qed.

Section Readi.
Context {T U : Type} `{TxDiskLaws T} `{UserAccess U} (g : geom) (sb : superblock) (HL : layout g sb).
Implicit Types (s : fs_st T U) (D : blocks) (h : gmap nat Z) (L : gset Z) (l : list Z).

Lemma slice_chunk D l off n tot m : (forall k, is_block (D k)) -> 0 <= off -> 0 <= tot -> 0 < m -> tot + m <= n ->
  (off + tot) mod BSIZE + m <= BSIZE ->
  getn (Z.to_nat ((off + tot) mod BSIZE)) (Z.to_nat m) (fblock D l ((off + tot) / BSIZE)) = getn (Z.to_nat tot) (Z.to_nat m) (fslice D l off n).
Proof.
  intros HD Ho Ht Hm Hn Hb. apply list_eq. intros j. rewrite !getn_lookup. case_decide as Hj; [|done].
  rewrite fslice_lookup by lia. unfold fbyte. destruct (fblock_block D l ((off + tot) / BSIZE) HD) as [Hl _].
  change (Z.to_nat BSIZE) with 1024%nat in Hl. change BSIZE with 1024 in *.
  pose proof (Z.mod_pos_bound (off + tot) 1024). pose proof (Z.div_mod (off + tot) 1024).
  set (q := (off + tot) / 1024) in *. set (r := (off + tot) mod 1024) in *.
  assert ((off + Z.of_nat (Z.to_nat tot + j)) / 1024 = q) as -> by (symmetry; apply (Z.div_unique_pos _ _ _ (r + Z.of_nat j)); lia).
  assert ((off + Z.of_nat (Z.to_nat tot + j)) mod 1024 = r + Z.of_nat j) as -> by (symmetry; apply (Z.mod_unique_pos _ _ q); lia).
  rewrite list_lookup_total_alt. destruct (lookup_lt_is_Some_2 (fblock D l q) (Z.to_nat r + j)) as [x Hx]; [lia|].
  replace (Z.to_nat (r + Z.of_nat j)) with (Z.to_nat r + j)%nat by lia. rewrite Hx. done.
Qed.

(** [bmap] of a block the file has changes nothing. *)
Lemma bmap_read s ip i D L bn : at_file g sb s ip i D L -> room g L -> in_file bn -> addr_of D (i_addrs i) bn <> 0 ->
  exists t, bmap ip bn s = Ok (addr_of D (i_addrs i) bn) (set_ftx t s) /\ frep g (set_ftx t s) D ∅ L.
Proof.
  intros [Hi Hdev Hsb R Hmeta I] Hr Hbn Ha. unfold bmap. erewrite bind_Ok by reflexivity.
  rewrite (the_inode_lookup s ip i Hi), Hdev. unfold addr_of in *. destruct (Z.ltb_spec bn NDIRECT).
  - exists (ftx s). replace (set_ftx (ftx s) s) with s by (by destruct s). destruct (Z.eqb_spec (i_addrs i !!! Z.to_nat bn) 0); done.
  - destruct (Z.ltb_spec (bn - NDIRECT) NINDIRECT) as [_|]; [|unfold in_file in Hbn; change MAXFILE with (NDIRECT + NINDIRECT) in Hbn; lia].
    change (i_addrs i !!! Z.to_nat NDIRECT) with (ind (i_addrs i)). destruct (Z.eqb_spec (ind (i_addrs i)) 0) as [|Hn]; [done|].
    destruct (io_ind _ _ _ I Hn) as [Hir _]. destruct (data_not_log _ _ HL _ Hir) as (_ & Hi32 & _).
    destruct (bread_step g s D ∅ L (ind (i_addrs i)) R) as (bp & t & E & Hbp & R1); [lia|done|rewrite map_size_empty; lia|done|].
    destruct (brelse_step g _ _ _ _ _ _ R1 Hbp) as (t2 & E2 & R2). exists t2. split; [|exact R2].
    unfold bmap_entry. erewrite bind_Ok by exact E. erewrite bind_Ok by (eapply bdata_step; [exact R1|apply lookup_insert_eq]).
    destruct (Z.eqb_spec (get32 (ioff (bn - NDIRECT)) (D (ind (i_addrs i)))) 0); [done|]. erewrite bind_Ok by reflexivity.
    by erewrite bind_Ok by exact E2.
Qed.

(** A destination: [K tot] holds of user memory and the local variable once the first
    [tot] bytes of [data] have arrived; [Kf tot] when the next copy has failed. *)
Definition takes (dst : mdst) (pt : Z) (data : list Z) (K Kf : Z -> U -> list Z -> Prop) : Prop :=
  forall s tot m, fpagetable s = pt -> K tot (fmem s) (flocal s) -> 0 <= tot -> 0 < m -> tot + m <= Z.of_nat (length data) ->
    exists r u loc, copy_to dst tot (getn (Z.to_nat tot) (Z.to_nat m) data) s = Ok r (set_local loc (set_fmem u s)) /\
      (r = 0 /\ K (tot + m) u loc \/ r = -1 /\ Kf tot u loc).

(** No block of the first [n] bytes is missing. *)
Definition no_holes D l (n : Z) : Prop := forall x, 0 <= x < n -> addr_of D l (x / BSIZE) <> 0.

Lemma readi_loop_ok ip dst K Kf off n D L i pt : 0 <= off -> 0 <= n -> off + n <= FILEMAX -> no_holes D (i_addrs i) (off + n) ->
  room g L -> takes dst pt (fslice D (i_addrs i) off n) K Kf -> forall fuel k tot s,
  at_file g sb s ip i D L -> fpagetable s = pt -> K tot (fmem s) (flocal s) -> 0 <= tot <= n ->
  (tot < n -> (off + tot) mod BSIZE + (n - tot) <= BSIZE * Z.of_nat k) -> (k < fuel)%nat ->
  exists r t u loc, readi_loop ip dst (off + tot) n tot fuel s = Ok r (set_local loc (set_fmem u (set_ftx t s))) /\
    frep g (set_ftx t s) D ∅ L /\ (r = n /\ K n u loc \/ 0 <= r < n /\ Kf r u loc).
Proof.
  intros Ho Hn Hmax Hh Hroom Hd fuel. induction fuel as [|fuel IH]; intros k tot s A Hpt HK Ht Hk Hfuel; [lia|].
  cbn [readi_loop]. pose proof A as [Hi Hdev Hsb R Hmeta I]. destruct (Z.ltb_spec tot n) as [Hlt|Hge].
  2: { exists n, (ftx s), (fmem s), (flocal s). replace (set_ftx (ftx s) s) with s by (by destruct s).
    replace tot with n in * by lia. split; [by destruct s|]. split; [done|]. left. done. }
  destruct k as [|k]; [specialize (Hk Hlt); pose proof (Z.mod_pos_bound (off + tot) BSIZE ltac:(done)); lia|].
  pose proof (in_file_div (off + tot) ltac:(lia)) as Hin. pose proof (Hh (off + tot) ltac:(lia)) as Ha.
  destruct (chunk_len (off + tot) n tot) as (Hm1 & Hm2 & Hm3); [lia|lia|].
  pose proof (chunk_next (off + tot) n tot k ltac:(lia) ltac:(lia) (Hk Hlt)) as Hnext. cbn zeta in *.
  set (m := Z.min (n - tot) (BSIZE - (off + tot) mod BSIZE)) in *.
  destruct (bmap_read s ip i D L _ A Hroom Hin Ha) as (t & E & R1). destruct (io_used _ _ _ I _ Hin Ha) as [Hr _].
  destruct (data_not_log _ _ HL _ Hr) as (_ & Ha32 & _). erewrite bind_Ok by reflexivity. erewrite bind_Ok by exact E.
  rewrite (the_inode_lookup s ip i Hi), Hdev.
  destruct (bread_step g _ D ∅ L (addr_of D (i_addrs i) ((off + tot) / BSIZE)) R1) as (bp & t2 & E2 & Hbp & R2); [lia|done|rewrite map_size_empty; lia|done|].
  erewrite bind_Ok by exact E2. erewrite bind_Ok by (eapply bdata_step; [exact R2|apply lookup_insert_eq]).
  replace (D (addr_of D (i_addrs i) ((off + tot) / BSIZE))) with (fblock D (i_addrs i) ((off + tot) / BSIZE)).
  2: { unfold fblock. destruct (Z.eqb_spec (addr_of D (i_addrs i) ((off + tot) / BSIZE)) 0); done. }
  rewrite (slice_chunk D _ off n tot m) by (done || lia || (intros; by eapply frep_block)).
  destruct (Hd (set_ftx t2 (set_ftx t s)) tot m) as (r & u & loc & Ec & Hres); try done; try lia; [rewrite length_fslice; lia|].
  erewrite bind_Ok by exact Ec.
  destruct (brelse_step g (set_local loc (set_fmem u (set_ftx t2 s))) _ _ _ _ _ R2 Hbp) as (t3 & E3 & R3).
  destruct Hres as [[-> HK']|[-> HKf]].
  - change (0 =? -1) with false. cbn iota. erewrite bind_Ok by exact E3.
    destruct (IH k (tot + m) (set_ftx t3 (set_local loc (set_fmem u s)))) as (r & t4 & u' & loc' & E4 & R4 & Hres); try done; try lia.
    { replace (off + (tot + m)) with (off + tot + m) by lia. exact Hnext. }
    exists r, t4, u', loc'. split; [|split; [exact R4|exact Hres]].
    rewrite u32_small by (change FILEMAX with (268 * 1024) in *; lia). replace (off + tot + m) with (off + (tot + m)) by lia. exact E4.
  - change (-1 =? -1) with true. cbn iota. erewrite bind_Ok by exact E3. exists tot, t3, u, loc. split; [done|]. split; [exact R3|].
    right. split; [lia|done].
Qed.

Lemma readi_ok ip dst K Kf off n D L i s : 0 <= off <= i_size i -> 0 <= n -> off + n < 2 ^ 32 -> i_size i <= FILEMAX ->
  let n' := Z.min n (i_size i - off) in
  no_holes D (i_addrs i) (i_size i) -> room g L -> takes dst (fpagetable s) (fslice D (i_addrs i) off n') K Kf ->
  at_file g sb s ip i D L -> K 0 (fmem s) (flocal s) ->
  exists r t u loc, readi ip dst off n s = Ok r (set_local loc (set_fmem u (set_ftx t s))) /\
    frep g (set_ftx t s) D ∅ L /\ (r = n' /\ K n' u loc \/ 0 <= r < n' /\ Kf r u loc).
Proof.
  intros Ho Hn H32 Hmax n' Hh Hroom Hd A HK. pose proof A as [Hi Hdev Hsb R Hmeta I]. unfold readi. erewrite bind_Ok by reflexivity.
  rewrite (the_inode_lookup s ip i Hi), u32_small by lia.
  destruct (Z.ltb_spec (i_size i) off); [lia|]. destruct (Z.ltb_spec (off + n) off); [lia|]. cbn [orb].
  assert ((if i_size i <? off + n then i_size i - off else n) = n') as -> by (unfold n'; destruct (Z.ltb_spec (i_size i) (off + n)); lia).
  destruct (nblk_bound off n') as [K1 K2]; [lia|lia|].
  destruct (readi_loop_ok ip dst K Kf off n' D L i (fpagetable s)) with (fuel := Z.to_nat (n' / BSIZE + 3)) (k := nblk off n') (tot := 0) (s := s)
    as (r & t & u & loc & E & R1 & Hres); try done; try lia.
  { intros x Hx. apply Hh. lia. }
  { rewrite Z.add_0_r, Z.sub_0_r. done. }
  rewrite Z.add_0_r in E. exists r, t, u, loc. split; [|split; [exact R1|exact Hres]].
  erewrite bind_Ok by exact E. unfold ret. rewrite i32_small; [done|]. change FILEMAX with (268 * 1024) in *. lia.
Qed.
End Readi.
