(* ===== verification/FsSpec.v ===== *)
(** * The file system as a map from inode numbers to contents

    [abs_fs] is what the inodes on the disk mean: a type and a sequence of bytes for
    every inode in use.  [fs_ok] is the invariant of the disk.  [writei] and [readi]
    implement the write and the read of that map. *)
From stdpp Require Import base gmap list numbers functions strings.
From Stdlib Require Import ZArith Lia.
From S2P Require Import Prelude Mem Bytes.
From S2P Require Import Access Bio BlockCache LogDisk TxDisk Fs FsBlocks FsFile FsRw.
Open Scope Z_scope.

Section Spec.
Context (g : geom) (sb : superblock) (HL : layout g sb).
Implicit Types (D : blocks) (l : list Z).

Definition iaddrs D (j : Z) : list Z := d_addrs (disk_inode sb D j).
Definition isize D (j : Z) : Z := d_size (disk_inode sb D j).
Definition live D (j : Z) : Prop := d_type (disk_inode sb D j) <> 0.
Definition is_inum (j : Z) : Prop := 0 <= j < sb_ninodes sb.

(** The content of inode [j]. *)
Definition content D (j : Z) : list Z := fslice D (iaddrs D j) 0 (isize D j).

Definition abs_fs D (j : Z) : option (Z * list Z) :=
  if decide (d_type (disk_inode sb D j) = 0) then None else Some (d_type (disk_inode sb D j), content D j).

Record file_ok D (j : Z) : Prop := {
  fo_iok : iok sb D (iaddrs D j);
  fo_dinode : dinode_ok (disk_inode sb D j);
  fo_size : isize D j <= FILEMAX;
  fo_holes : no_holes D (iaddrs D j) (isize D j)
}.

(** Every inode in use is well formed, and no two of them share a block. *)
Record fs_ok D : Prop := {
  fk_meta : meta_used sb D;
  fk_file j : is_inum j -> live D j -> file_ok D j;
  fk_apart j j' m : is_inum j -> is_inum j' -> live D j -> live D j' -> j <> j' ->
    owns D (iaddrs D j) m -> ~ owns D (iaddrs D j') m
}.

(** ** A file whose blocks are kept *)
Section Frame.
Context D D' l (I : iok sb D l) (Hown : forall m, owns D l m -> D' m = D m).

Lemma frame_addr bn : addr_of D' l bn = addr_of D l bn.
Proof.
  unfold addr_of. destruct (bn <? NDIRECT); [done|]. destruct (Z.eqb_spec (ind l) 0); [done|].
  rewrite Hown; [done|]. split; [done|by left].
Qed.

Lemma frame_owns m : owns D' l m <-> owns D l m.
Proof. unfold owns. setoid_rewrite frame_addr. done. Qed.

Lemma frame_fblock bn : in_file bn -> fblock D' l bn = fblock D l bn.
Proof.
  intros Hbn. unfold fblock. rewrite frame_addr. destruct (Z.eqb_spec (addr_of D l bn) 0); [done|].
  apply Hown. split; [done|]. right. eauto.
Qed.

Lemma frame_iok : (forall m, data_used sb D m -> data_used sb D' m) -> iok sb D' l.
Proof.
  intros Hu. destruct I as [H1 H2 H3 H4 H5]. split; [done|..].
  - intros bn Hbn. rewrite frame_addr. intros Hn. by apply Hu, H2.
  - intros Hn. by apply Hu, H3.
  - intros bn bn' Hbn Hbn'. rewrite !frame_addr. by apply H4.
  - intros bn Hbn. rewrite frame_addr. by apply H5.
Qed.
End Frame.

Lemma fslice_eq D l D' l' off n : (forall x, off <= x < off + n -> fbyte D' l' x = fbyte D l x) -> fslice D' l' off n = fslice D l off n.
Proof.
  intros Hx. unfold fslice. apply list_fmap_ext. intros i j [-> Hj]%lookup_seqZ. apply Hx. lia.
Qed.

(** A file of which neither the inode nor a block changes. *)
Lemma file_frame D D' j : file_ok D j -> disk_inode sb D' j = disk_inode sb D j ->
  (forall m, owns D (iaddrs D j) m -> D' m = D m) -> (forall m, data_used sb D m -> data_used sb D' m) ->
  file_ok D' j /\ content D' j = content D j /\ (forall m, owns D' (iaddrs D' j) m <-> owns D (iaddrs D j) m).
Proof.
  intros [F1 F2 F3 F4] Ed Hown Hu. assert (iaddrs D' j = iaddrs D j) as Ea by (unfold iaddrs; by rewrite Ed).
  assert (isize D' j = isize D j) as Es by (unfold isize; by rewrite Ed). rewrite Ea. split; [|split].
  - split; rewrite ?Ea, ?Es, ?Ed; try done.
    + by apply (frame_iok D).
    + intros x Hx. rewrite (frame_addr D) by done. by apply F4.
  - unfold content. rewrite Ea, Es. apply fslice_eq. intros x Hx. apply fbyte_same; [by apply frame_fblock|lia].
  - by apply frame_owns.
Qed.

Lemma iok_addrs D l : iok sb D l -> Forall (fun a => 0 <= a < 2 ^ 32) l.
Proof.
  intros I. apply Forall_lookup_2. intros j a Hj. pose proof (lookup_lt_Some _ _ _ Hj) as Hlt. rewrite (io_len _ _ _ I) in Hlt.
  destruct (decide (a = 0)) as [->|Ha]; [lia|].
  assert (datastart sb <= a < sb_size sb) as Hr.
  { destruct (decide (j = 12%nat)) as [->|Hj'].
    - assert (ind l = a) as E by (unfold ind; by apply list_lookup_total_correct). rewrite <- E. apply (io_ind _ _ _ I). congruence.
    - assert (addr_of D l (Z.of_nat j) = a) as E.
      { unfold addr_of. change NDIRECT with 12. destruct (Z.ltb_spec (Z.of_nat j) 12); [|lia]. rewrite Nat2Z.id.
        by apply list_lookup_total_correct. }
      rewrite <- E. apply (io_used _ _ _ I); [|congruence]. unfold in_file. change MAXFILE with 268. lia. }
  destruct (data_not_log _ _ HL a Hr). lia.
Qed.

(** ** The disk after [writei] *)

(** [bs] put at offset [off] of [c]. *)
Definition splice (off : Z) (bs c : list Z) : list Z :=
  take (Z.to_nat off) c ++ bs ++ drop (Z.to_nat off + length bs) c.

Lemma splice_lookup off bs c i : 0 <= off <= Z.of_nat (length c) ->
  splice off bs c !! i = if decide (off <= Z.of_nat i < off + Z.of_nat (length bs)) then bs !! (i - Z.to_nat off)%nat else
    if decide (Z.of_nat i < Z.max (Z.of_nat (length c)) (off + Z.of_nat (length bs))) then c !! i else None.
Proof.
  intros Ho. unfold splice. assert (length (take (Z.to_nat off) c) = Z.to_nat off) as Hl by (rewrite length_take; lia).
  destruct (decide (i < Z.to_nat off)%nat).
  - rewrite lookup_app_l, lookup_take_lt by lia. rewrite decide_False by lia. rewrite decide_True by lia. done.
  - rewrite lookup_app_r by lia. rewrite Hl. case_decide as Hin.
    + rewrite lookup_app_l by lia. done.
    + rewrite lookup_app_r by lia. rewrite lookup_drop. replace (Z.to_nat off + length bs + (i - Z.to_nat off - length bs))%nat with i by lia.
      case_decide; [done|]. apply lookup_ge_None_2. lia.
Qed.

Lemma fslice_splice D l D' l' off bs sz : 0 <= off <= sz ->
  (forall x, 0 <= x < Z.max sz (off + Z.of_nat (length bs)) -> fbyte D' l' x =
    if decide (off <= x < off + Z.of_nat (length bs)) then bs !!! Z.to_nat (x - off) else fbyte D l x) ->
  fslice D' l' 0 (Z.max sz (off + Z.of_nat (length bs))) = splice off bs (fslice D l 0 sz).
Proof.
  intros Ho Hx. apply list_eq. intros i. rewrite splice_lookup by (rewrite length_fslice; lia). rewrite length_fslice.
  rewrite Z2Nat.id by lia. destruct (decide (Z.of_nat i < Z.max sz (off + Z.of_nat (length bs)))) as [Hi|Hi].
  - rewrite fslice_lookup, Z.add_0_l by lia. rewrite Hx by lia. case_decide as Hin.
    + destruct (lookup_lt_is_Some_2 bs (i - Z.to_nat off)) as [b Hb]; [lia|]. rewrite Hb. f_equal.
      replace (Z.to_nat (Z.of_nat i - off)) with (i - Z.to_nat off)%nat by lia. by apply list_lookup_total_correct.
    + rewrite fslice_lookup by lia. done.
  - rewrite lookup_ge_None_2 by (rewrite length_fslice; lia). rewrite decide_False by lia. done.
Qed.

(** What a [writei] of [bs] at [off] to inode [j] does to the file system. *)
Definition writes_file D D' (j off : Z) (bs : list Z) : Prop :=
  fs_ok D' /\ forall k, is_inum k ->
    abs_fs D' k = if decide (k = j) then Some (d_type (disk_inode sb D j), splice off bs (content D j)) else abs_fs D k.

Section Update.
Context D (i : inode) off bs D1 l' (Hfs : fs_ok D) (Hj : is_inum (i_inum i)) (Hlive : live D (i_inum i))
  (Hsync : dinode_of i = disk_inode sb D (i_inum i)) (Hblk : forall n, is_block (D1 n))
  (Hoff : 0 <= off <= i_size i) (Hmax : off + Z.of_nat (length bs) <= FILEMAX) (HW : wrote sb bs off 0 D (i_addrs i) D1 l').
Let j := i_inum i.
Let i' := write_inode i (off + Z.of_nat (length bs)) l'.
Let D' := iput_disk sb i' D1.

Lemma upd_addrs_eq : iaddrs D j = i_addrs i /\ isize D j = i_size i.
Proof. unfold iaddrs, isize, j. by rewrite <- Hsync. Qed.

Lemma upd_data m : datastart sb <= m < sb_size sb -> D' m = D1 m.
Proof.
  intros Hm. apply iput_disk_other. intros E. destruct (iblock_ok _ _ HL _ Hj) as [_ Hib].
  destruct (iblock_not_log _ _ HL _ Hib) as (_ & _ & _ & Hlt). subst m. unfold i', write_inode in Hm. cbn in Hm. lia.
Qed.

Lemma upd_used m : data_used sb D m -> data_used sb D' m.
Proof.
  intros [Hr Hu]. split; [done|]. pose proof (data_pos _ _ HL m Hr). destruct (iblock_ok _ _ HL _ Hj) as [_ Hib].
  destruct (iblock_not_log _ _ HL _ Hib) as (_ & _ & Hb & _).
  apply (used_write g sb HL); [done|lia|]. apply (gr_used _ _ _ _ _ (proj1 HW)); [lia|done].
Qed.

Lemma upd_dinode : dinode_ok (dinode_of i').
Proof.
  destruct (fo_dinode _ _ (fk_file _ Hfs _ Hj Hlive)) as [K1 K2 K3 K4 K5 K6 K7]. rewrite <- Hsync in *. cbn in *.
  pose proof (gr_iok _ _ _ _ _ (proj1 HW)) as I1. split; cbn; try done; try lia.
  - change FILEMAX with (268 * 1024) in *. lia.
  - apply I1.
  - by eapply iok_addrs.
Qed.

Lemma upd_disk : disk_inode sb D' j = dinode_of i' /\ forall k, is_inum k -> k <> j -> disk_inode sb D' k = disk_inode sb D k.
Proof.
  destruct (disk_inode_iput g sb HL i' D1 Hblk upd_dinode Hj) as [E1 E2]. split; [exact E1|]. intros k Hk Hn.
  unfold D'. rewrite E2 by done. unfold disk_inode. f_equal. destruct (iblock_ok _ _ HL _ Hk) as [_ Hib].
  destruct (iblock_not_log _ _ HL _ Hib) as (_ & Hm & Hb & Hlt).
  apply (gr_frame _ _ _ _ _ (proj1 HW)); [done|intros [? _]; lia|]. intros Ho.
  pose proof (fk_file _ Hfs j Hj Hlive) as F. destruct (upd_addrs_eq) as [Ea _]. rewrite <- Ea in Ho.
  destruct (owns_used _ _ _ _ (fo_iok _ _ F) Ho). lia.
Qed.

(** The file itself. *)
Lemma upd_self : file_ok D' j /\ content D' j = splice off bs (content D j) /\ forall m, owns D' (iaddrs D' j) m <-> owns D1 l' m.
Proof.
  destruct upd_disk as [Ed _]. destruct upd_addrs_eq as [Ea Es]. pose proof HW as (G & Ha & Hc).
  pose proof (gr_iok _ _ _ _ _ G) as I1. pose proof (fk_file _ Hfs j Hj Hlive) as F.
  assert (iaddrs D' j = l' /\ isize D' j = Z.max (i_size i) (off + Z.of_nat (length bs))) as [Ea' Es'] by (unfold iaddrs, isize; by rewrite Ed).
  assert (forall m, owns D1 l' m -> D' m = D1 m) as Hown by (intros m Ho; apply upd_data, (owns_used _ _ _ _ I1 Ho)).
  rewrite Ea'. assert (Z.max (i_size i) (off + Z.of_nat (length bs)) <= FILEMAX) as Hm.
  { pose proof (fo_size _ _ F) as Hs. rewrite Es in Hs. lia. }
  split; [split|split].
  - rewrite Ea'. apply (frame_iok D1); [done|done|]. intros m [Hr Hu]. split; [done|]. pose proof (data_pos _ _ HL m Hr).
    destruct (iblock_ok _ _ HL _ Hj) as [_ Hib]. destruct (iblock_not_log _ _ HL _ Hib) as (_ & _ & Hb & _).
    apply (used_write g sb HL); [done|lia|done].
  - rewrite Ed. apply upd_dinode.
  - by rewrite Es'.
  - rewrite Ea', Es'. intros x Hx. rewrite (frame_addr D1) by done.
    destruct (decide (off <= x < off + Z.of_nat (length bs))); [apply Ha; lia|].
    pose proof (fo_holes _ _ F x) as Hn. rewrite Ea, Es in Hn. specialize (Hn ltac:(lia)).
    rewrite (gr_addr _ _ _ _ _ G); [done| |done]. apply in_file_div. lia.
  - unfold content. rewrite Ea', Es', Ea, Es. apply fslice_splice; [done|]. intros x Hx.
    rewrite (fbyte_same D1 l' D' l' x); [|by apply (frame_fblock D1)|lia]. rewrite Hc by lia.
    rewrite Z.sub_0_r. by rewrite Z.add_0_l.
  - by apply frame_owns.
Qed.

(** Every other file. *)
Lemma upd_other k : is_inum k -> k <> j -> live D k ->
  file_ok D' k /\ content D' k = content D k /\ forall m, owns D' (iaddrs D' k) m <-> owns D (iaddrs D k) m.
Proof.
  intros Hk Hn Hl. destruct upd_disk as [_ Ed]. destruct upd_addrs_eq as [Ea Es]. pose proof (fk_file _ Hfs _ Hk Hl) as F.
  apply file_frame; [done|by apply Ed| |exact upd_used]. intros m Ho.
  destruct (owns_used _ _ _ _ (fo_iok _ _ F) Ho) as [Hr Hu]. rewrite (upd_data m Hr).
  apply (gr_frame _ _ _ _ _ (proj1 HW)).
  - by apply (data_not_log _ _ HL).
  - intros [_ Hf]. done.
  - rewrite <- Ea. by apply (fk_apart _ Hfs k j).
Qed.

Lemma upd_live k : is_inum k -> live D' k <-> live D k.
Proof.
  intros Hk. destruct upd_disk as [Ed Eo]. unfold live. destruct (decide (k = j)) as [->|Hn]; [|by rewrite Eo].
  rewrite Ed. unfold j. by rewrite <- Hsync.
Qed.

Lemma upd_writes : writes_file D D' j off bs.
Proof.
  destruct upd_disk as [Ed Eo]. destruct upd_addrs_eq as [Ea Es]. destruct upd_self as (S1 & S2 & S3).
  pose proof HW as (G & _ & _). split; [split|].
  - intros m Hm. destruct (iblock_ok _ _ HL _ Hj) as [_ Hib]. destruct (iblock_not_log _ _ HL _ Hib) as (_ & _ & Hb & _).
    pose proof (ly_bmap _ _ HL). apply (used_write g sb HL); [done|lia|]. exact (grown_meta g sb HL _ _ _ _ G (fk_meta _ Hfs) m Hm).
  - intros k Hk Hl%upd_live; [|done]. destruct (decide (k = j)) as [->|Hn]; [done|]. by apply upd_other.
  - intros k k' m Hk Hk' Hl%upd_live Hl'%upd_live Hn; [|done|done].
    assert (forall q, is_inum q -> live D q -> q <> j -> owns D (iaddrs D q) m -> ~ owns D1 l' m) as Hx.
    { intros q Hq Hlq Hqn Ho Ho1. destruct (gr_own _ _ _ _ _ G m Ho1) as [Ho'|[Hr Hf]].
      - rewrite <- Ea in Ho'. by apply (fk_apart _ Hfs q j m Hq Hj Hlq Hlive Hqn).
      - by destruct (owns_used _ _ _ _ (fo_iok _ _ (fk_file _ Hfs _ Hq Hlq)) Ho). }
    destruct (decide (k = j)) as [->|H1], (decide (k' = j)) as [->|H2]; try done.
    + destruct (upd_other k' Hk' H2 Hl') as (_ & _ & O2). rewrite S3, O2. intros Ho1 Ho2. by apply (Hx k').
    + destruct (upd_other k Hk H1 Hl) as (_ & _ & O1). rewrite S3, O1. by apply Hx.
    + destruct (upd_other k Hk H1 Hl) as (_ & _ & O1). destruct (upd_other k' Hk' H2 Hl') as (_ & _ & O2). rewrite O1, O2. by apply Hfs.
  - intros k Hk. pose proof (upd_live k Hk) as Hlk. unfold live in Hlk. unfold abs_fs. destruct (decide (k = j)) as [->|Hn].
    + rewrite decide_False by (by apply Hlk). rewrite S2, Ed. unfold j. by rewrite <- Hsync.
    + repeat case_decide; try tauto. rewrite Eo by done. by destruct (upd_other k Hk Hn) as (_ & -> & _).
Qed.
End Update.
End Spec.

Section Refine.
Context {T U : Type} `{TxDiskLaws T} `{UserAccessLaws U} (g : geom) (sb : superblock) (HL : layout g sb) (N : Z).
Implicit Types (s : fs_st T U) (D : blocks) (L : gset Z).

(** A locked inode [ip], the copy of inode [i_inum i] of the disk, and a transaction
    that has logged [L]. *)
Record locked_file s (ip : nat) (i : inode) D L : Prop := {
  lf_at : at_file g sb s ip i D L;
  lf_fs : fs_ok sb D;
  lf_inum : is_inum sb (i_inum i);
  lf_live : live sb D (i_inum i);
  lf_sync : dinode_of i = disk_inode sb D (i_inum i)
}.

Lemma writei_refine_ok s ip i D L src bs e off : let n := Z.of_nat (length bs) in
  locked_file s ip i D L -> gives src bs s -> bytes bs -> bs <> [] -> 0 <= off <= i_size i -> off + n <= FILEMAX ->
  has_free sb D (nblk off n + e + ineed (i_addrs i)) -> budget g sb N (i_addrs i) L (nblk off n) ->
  exists t l' D' L', let i' := write_inode i (off + n) l' in let s' := set_ftx t (upd_inode ip (fun _ => i') s) in
    writei ip src off n s = Ok n s' /\ locked_file s' ip i' D' L' /\ Z.of_nat (size L') <= N /\ has_free sb D' (e + ineed l') /\ writes_file sb D D' (i_inum i) off bs.
Proof.
  intros n [A Hfs Hj Hl Hsync] Hsrc Hby Hne Ho Hmax Hf Hb.
  destruct (writei_ok g sb HL N ip src bs e off s i D L A Hj Hsrc Hby Ho Hmax Hf Hb) as (t & l' & D1 & L' & E & R & Hsz & HF & W).
  fold n in E, R, HF. assert (n <> 0) as Hn0 by (destruct bs; [done|]; cbn in *; lia). rewrite decide_False in R, HF by done.
  pose proof A as [Hi Hdev Hsb R0 Hmeta I].
  assert (forall m, is_block (D1 m)) as Hblk.
  { intros m. destruct (decide (m = IBLOCK (i_inum i) sb)) as [->|Hm].
    - rewrite (gr_frame _ _ _ _ _ (proj1 W)); [by eapply frep_block|..];
        destruct (iblock_ok _ _ HL _ Hj) as [_ Hib]; destruct (iblock_not_log _ _ HL _ Hib) as (_ & _ & Hb' & Hlt); [done|intros [? _]; lia|].
      intros Hown. destruct (owns_used _ _ _ _ I Hown). lia.
    - pose proof (frep_block g _ _ _ _ m R) as Hm'. by rewrite iput_disk_other in Hm'. }
  pose proof (upd_writes g sb HL D i off bs D1 l' Hfs Hj Hl Hsync Hblk Ho Hmax W) as WF.
  pose proof (upd_disk g sb HL D i off bs D1 l' Hfs Hj Hl Hsync Hblk Ho Hmax W) as [Ed _].
  pose proof (upd_self g sb HL D i off bs D1 l' Hfs Hj Hl Hsync Hblk Ho Hmax W) as [Fself _].
  fold n in Ed. assert (iaddrs sb (iput_disk sb (write_inode i (off + n) l') D1) (i_inum i) = l') as Eaddr by (unfold iaddrs; by rewrite Ed).
  exists t, l', (iput_disk sb (write_inode i (off + n) l') D1), L'. split; [exact E|]. split; [|split; [exact Hsz|split; [exact HF|exact WF]]].
  destruct WF as [Hfs' _]. split; try done.
  - split; try done.
    + exact (upd_inode_lookup (set_ftx t s) ip i (fun _ => write_inode i (off + n) l') Hi).
    + apply Hfs'.
    + destruct Fself as [F _ _ _]. fold n in F. rewrite Eaddr in F. exact F.
  - change (live sb (iput_disk sb (write_inode i (off + n) l') D1) (i_inum i)). unfold live. rewrite Ed.
    unfold live in Hl. by rewrite <- Hsync in Hl.
Qed.

(** ** Reading into user memory *)

Lemma takes_user va pt P data u0 loc0 : 0 <= va -> va + Z.of_nat (length data) <= 2 ^ 64 -> ua_ok u0 P -> pt ∈ P -> bytes data ->
  takes (T := T) (DUser va) pt data
    (fun tot u loc => loc = loc0 /\ ua_ok u P /\ forall va', ua_view u pt va' = if decide (va <= va' < va + tot) then data !! Z.to_nat (va' - va) else ua_view u0 pt va')
    (fun tot u loc => loc = loc0 /\ ua_ok u P /\ exists q, tot <= q < Z.of_nat (length data) /\ ua_view u0 pt (va + q) = None /\
      forall va', ua_view u pt va' = if decide (va <= va' < va + q) then data !! Z.to_nat (va' - va) else ua_view u0 pt va').
Proof.
  intros Hva H64 Hok Hpt Hb s tot m Es (Eloc & HP & Hview) Ht Hm Hlen.
  unfold copy_to, either_copyout, on_mem. erewrite bind_Ok by reflexivity. rewrite Es, u64_small by lia. unfold zoom.
  set (bs := getn (Z.to_nat tot) (Z.to_nat m) data). assert (length bs = Z.to_nat m) as Hl by (apply length_getn; lia).
  assert (bytes bs) as Hbb by (by apply Forall_take, Forall_drop).
  destruct (ua_copyout_ok (fmem s) P pt (va + tot) bs HP Hpt ltac:(lia) Hbb) as (r & u' & n & E & HP' & Hres & Hv).
  rewrite E. exists r, u', (flocal s). split; [by destruct s|].
  assert (forall k va', (k <= length bs)%nat -> n = k -> ua_view u' pt va' =
    if decide (va <= va' < va + (tot + Z.of_nat k)) then data !! Z.to_nat (va' - va) else ua_view u0 pt va') as Hall.
  { intros k va' Hk ->. rewrite Hv, Hview. repeat case_decide; try lia; try done.
    unfold bs. rewrite getn_lookup, decide_True by lia. f_equal. lia. }
  destruct Hres as [[-> Hn]|(-> & Hn & Hnone)]; [left|right]; (split; [done|]); (split; [done|]); (split; [done|]).
  - intros va'. rewrite (Hall (length bs) va') by done. rewrite Hl, Z2Nat.id by lia. done.
  - exists (tot + Z.of_nat n). split; [lia|]. split; [|intros va'; apply Hall; [lia|done]].
    rewrite Hview, decide_False in Hnone by lia. by replace (va + (tot + Z.of_nat n)) with (va + tot + Z.of_nat n) by lia.
Qed.

Lemma fslice_content D l sz off n : 0 <= off -> 0 <= n -> off + n <= sz ->
  fslice D l off n = take (Z.to_nat n) (drop (Z.to_nat off) (fslice D l 0 sz)).
Proof.
  intros Ho Hn Hs. apply list_eq. intros k. destruct (decide (k < Z.to_nat n)%nat).
  - rewrite lookup_take_lt, lookup_drop, !fslice_lookup by lia. do 2 f_equal. lia.
  - rewrite lookup_ge_None_2, lookup_take_ge by (rewrite ?length_fslice; lia). done.
Qed.

Lemma fbyte_range D l x : (forall n, is_block (D n)) -> 0 <= fbyte D l x < 256.
Proof. intros HD. unfold fbyte. apply byte_at. by apply fblock_block. Qed.

Lemma fslice_bytes D l off n : (forall k, is_block (D k)) -> bytes (fslice D l off n).
Proof. intros HD. apply Forall_fmap, Forall_forall. intros j _. by apply fbyte_range. Qed.

(** C29: [readi] to a user address copies the file's bytes from [off], at most [n] and
    not past the end, and changes nothing on the disk and in the inode.  It returns the
    number of bytes of the blocks it could copy completely: all of them, or fewer
    exactly when an address of the destination is not mapped; the user's memory is
    changed only from [va] to the first unmapped address. *)
Theorem readi_user_content s ip i D L va off n P :
  locked_file s ip i D L -> ua_ok (fmem s) P -> fpagetable s ∈ P -> 0 <= off <= i_size i -> 0 <= n -> off + n < 2 ^ 32 ->
  0 <= va -> va + n <= 2 ^ 64 -> room g L ->
  let pt := fpagetable s in let want := Z.min n (i_size i - off) in
  let data := take (Z.to_nat want) (drop (Z.to_nat off) (content sb D (i_inum i))) in
  exists r s' q, readi ip (DUser va) off n s = Ok r s' /\ locked_file s' ip i D L /\ ua_ok (fmem s') P /\
    (r = want /\ q = want \/ 0 <= r <= q /\ q < want /\ ua_view (fmem s) pt (va + q) = None) /\
    forall va', ua_view (fmem s') pt va' = if decide (va <= va' < va + q) then data !! Z.to_nat (va' - va) else ua_view (fmem s) pt va'.
Proof.
  intros [A Hfs Hj Hl Hsync] Hok Hpt Ho Hn H32 Hva H64 Hr pt want data. pose proof A as [Hi Hdev Hsb R Hmeta I].
  destruct (fk_file _ _ Hfs _ Hj Hl) as [F1 F2 F3 F4]. unfold iaddrs, isize in F1, F3, F4. rewrite <- Hsync in F1, F3, F4. cbn in F1, F3, F4.
  assert (fslice D (i_addrs i) off want = data) as Ed.
  { unfold data, content, iaddrs, isize. rewrite <- Hsync. cbn. apply fslice_content; lia. }
  assert (length data = Z.to_nat want) as Hlen by (rewrite <- Ed; apply length_fslice).
  assert (bytes data) as Hby by (rewrite <- Ed; apply fslice_bytes; intros; by eapply frep_block).
  destruct (readi_ok g sb HL ip (DUser va) _ _ off n D L i s Ho Hn H32 F3 F4 Hr
    ltac:(fold want; rewrite Ed; apply (takes_user va pt P data (fmem s) (flocal s)); [done|lia|done|done|done]) A) as (r & t & u & loc & E & R' & Hres).
  { split; [done|]. split; [done|]. intros va'. rewrite decide_False by lia. done. }
  fold want in Hres. set (s' := set_local loc (set_fmem u (set_ftx t s))) in *.
  assert (locked_file s' ip i D L) as Hl' by (split; try done; split; done).
  destruct Hres as [[-> (_ & HP & Hv)]|[Hrr (_ & HP & q & Hq & Hnone & Hv)]].
  - exists want, s', want. do 3 (split; [done|]). split; [by left|exact Hv].
  - exists r, s', q. do 3 (split; [done|]). split; [right; split; [lia|split; [lia|done]]|exact Hv].
Qed.

(** C8: [writei] inside a transaction implements the write of the abstract file system:
    it returns [n], the bytes are put into the file at [off], the file grows when they
    reach past its end, no other file changes, and the disk stays well formed (no block
    in two files, every block of a file allocated, the in-memory inode equal to the one
    on the disk).  The transaction logs at most [N] blocks, for any [N] greater than the
    data blocks touched, one indirect block and the free map. *)
Theorem writei_refines s ip i D L src bs off : let n := Z.of_nat (length bs) in
  locked_file s ip i D L -> gives src bs s -> bytes bs -> bs <> [] -> 0 <= off <= i_size i -> off + n <= FILEMAX ->
  has_free sb D (nblk off n + ineed (i_addrs i)) -> budget g sb N (i_addrs i) L (nblk off n) ->
  exists s' i' D' L', writei ip src off n s = Ok n s' /\ locked_file s' ip i' D' L' /\ i_inum i' = i_inum i /\
    i_size i' = Z.max (i_size i) (off + n) /\ Z.of_nat (size L') <= N /\ writes_file sb D D' (i_inum i) off bs.
Proof.
  intros n A Hsrc Hby Hne Ho Hmax Hf Hb.
  destruct (writei_refine_ok s ip i D L src bs 0 off A Hsrc Hby Hne Ho Hmax) as (t & l' & D' & L' & E & A' & Hsz & _ & W); [by rewrite Nat.add_0_r|done|].
  eexists _, _, D', L'. split; [exact E|]. split; [exact A'|]. done.
Qed.
End Refine.
