(* ===== verification/FsDir.v ===== *)
(** * kernel/fs.c: directories

    A directory is a file of 16-byte entries; [dir_lookup] is the finite map from names
    to inode numbers it stands for.  [dirlookup] reads that map, and [dirlink] adds a
    name to it. *)
From stdpp Require Import base gmap list numbers functions strings.
From Stdlib Require Import ZArith Lia.
From S2P Require Import Prelude Mem Bytes.
From S2P Require Import Access Bio BlockCache LogDisk TxDisk Fs FsBlocks FsFile FsRw FsSpec.
Open Scope Z_scope.

(** ** Names *)

(** Two names are the same for a directory: the arrays [strncpy] makes of them agree. *)
Definition same_name (a b : list Z) : Prop := strncpy_arr a DIRSIZ = strncpy_arr b DIRSIZ.
#[export] Instance same_name_dec a b : Decision (same_name a b).
Proof. unfold same_name. apply _. Defined.

Lemma strncmp_strncpy n : forall p q, strncmp_arr p q n = 0 <-> strncpy_arr p n = strncpy_arr q n.
Proof.
  induction n as [|n IH]; intros p q; cbn [strncmp_arr strncpy_arr]; [done|].
  destruct (Z.eqb_spec (hd 0 p) 0) as [Hp|Hp], (Z.eqb_spec (hd 0 q) 0) as [Hq|Hq]; cbn [negb andb].
  - split; [done|lia].
  - split; [lia|]. intros [= E _]. congruence.
  - destruct (Z.eqb_spec (hd 0 p) (hd 0 q)); [congruence|]. split; [lia|]. intros [= E _]. congruence.
  - destruct (Z.eqb_spec (hd 0 p) (hd 0 q)) as [E|E].
    + rewrite IH, E. split; [by intros ->|by intros [=]].
    + split; [lia|]. by intros [= E' _].
Qed.

Lemma namecmp_same a b : namecmp a b = 0 <-> same_name a b.
Proof. apply strncmp_strncpy. Qed.

Lemma length_strncpy n : forall t, length (strncpy_arr t n) = n.
Proof.
  induction n as [|n IH]; intros t; cbn [strncpy_arr]; [done|]. destruct (hd 0 t =? 0); [apply length_replicate|]. cbn. by rewrite IH.
Qed.

Lemma strncpy_zeros m n : strncpy_arr (replicate m 0) n = replicate n 0.
Proof. destruct n, m; reflexivity. Qed.

Lemma strncpy_idem n : forall t, strncpy_arr (strncpy_arr t n) n = strncpy_arr t n.
Proof.
  induction n as [|n IH]; intros t; [done|]. cbn [strncpy_arr]. destruct (hd 0 t =? 0) eqn:E.
  - cbn [replicate hd]. done.
  - cbn [hd tl]. by rewrite E, IH.
Qed.

Lemma strncpy_bytes n : forall t, bytes t -> bytes (strncpy_arr t n).
Proof.
  induction n as [|n IH]; intros t Ht; cbn [strncpy_arr]; [constructor|]. destruct (Z.eqb_spec (hd 0 t) 0).
  - apply Forall_replicate. lia.
  - destruct Ht as [|x t Hx Ht]; [done|]. constructor; [done|by apply IH].
Qed.

(** ** The entries of a directory *)

Definition entry (c : list Z) (k : nat) : list Z := getn (16 * k) 16 c.
Definition entries (c : list Z) : list (list Z) := entry c <$> seq 0 (length c / 16).

(** The entry is in use and has this name. *)
Definition names (name de : list Z) : Prop := de_inum de <> 0 /\ same_name name (de_name de).
#[export] Instance names_dec name de : Decision (names name de).
Proof. unfold names. apply _. Defined.

Definition dir_find (c name : list Z) : option (nat * list Z) := list_find (names name) (entries c).
Definition dir_lookup (c name : list Z) : option Z := (fun x => de_inum x.2) <$> dir_find c name.

Lemma entries_lookup c k : entries c !! k = if decide (k < length c / 16)%nat then Some (entry c k) else None.
Proof.
  unfold entries. rewrite list_lookup_fmap. case_decide.
  - by rewrite lookup_seq_lt.
  - by rewrite lookup_seq_ge by lia.
Qed.

Lemma length_entries c : length (entries c) = (length c / 16)%nat.
Proof. unfold entries. by rewrite length_fmap, length_seq. Qed.

(** A directory whose names are the same name has the same entries. *)
#[export] Instance names_proper : Proper (same_name ==> eq ==> iff) names.
Proof. intros a b E de ? <-. unfold names, same_name in *. by rewrite E. Qed.

Lemma dir_lookup_same c a b : same_name a b -> dir_lookup c a = dir_lookup c b.
Proof.
  intros E. unfold dir_lookup, dir_find. f_equal. apply list_find_ext. intros x. by rewrite E.
Qed.

Lemma find_app {A} (P : A -> Prop) `{forall x, Decision (P x)} (l l' : list A) :
  list_find P (l ++ l') = match list_find P l with Some x => Some x | None => prod_map (Nat.add (length l)) id <$> list_find P l' end.
Proof.
  induction l as [|x l IH]; cbn.
  - by destruct (list_find P l') as [[]|].
  - case_decide; [done|]. rewrite IH. destruct (list_find P l) as [[]|]; [done|]. by destruct (list_find P l') as [[]|].
Qed.

(** One entry is replaced: the first free one, or the first past the end. *)
Section Insert.
Context (es : list (list Z)) (k : nat) (de name : list Z).
Hypothesis absent : list_find (names name) es = None.
Hypothesis slot : (forall old, es !! k = Some old -> de_inum old = 0) /\ (k <= length es)%nat.
Hypothesis new : de_inum de <> 0 /\ same_name name (de_name de).

Lemma find_insert n : (fun x => de_inum x.2) <$> list_find (names n) (take k es ++ de :: drop (S k) es) =
  if decide (same_name n name) then Some (de_inum de) else (fun x : nat * list Z => de_inum x.2) <$> list_find (names n) es.
Proof.
  destruct slot as [Hold Hk]. case_decide as E.
  - assert (list_find (names n) (take k es ++ de :: drop (S k) es) = Some (k, de)) as ->; [|done].
    apply list_find_Some. split; [|split].
    + apply list_lookup_middle. rewrite length_take. lia.
    + rewrite E. exact new.
    + intros j y Hj Hlt. rewrite lookup_app_l in Hj by (rewrite length_take; lia). rewrite lookup_take_lt in Hj by done.
      rewrite E. apply list_find_None in absent. by eapply (Forall_lookup_1 _ _ _ _ absent).
  - assert (~ names n de) as Hde by (intros [_ H]; apply E; unfold same_name in *; destruct new; congruence).
    assert (list_find (names n) (de :: drop (S k) es) = prod_map S id <$> list_find (names n) (drop (S k) es)) as E1 by (cbn; by rewrite decide_False).
    rewrite <- (take_drop k es) at 3. rewrite !find_app, E1. destruct (list_find (names n) (take k es)) as [[j y]|]; [done|]. cbn.
    destruct (drop k es) as [|old rest] eqn:Ed.
    + replace (drop (S k) es) with (@nil (list Z)); [done|]. rewrite <- Nat.add_1_r, <- drop_drop, Ed. done.
    + replace (drop (S k) es) with rest by (rewrite <- Nat.add_1_r, <- drop_drop, Ed; done).
      assert (es !! k = Some old) as Ho by (rewrite <- (Nat.add_0_r k), <- lookup_drop, Ed; done).
      cbn [list_find]. rewrite decide_False by (intros [H _]; by apply H, Hold).
      destruct (list_find (names n) rest) as [[j y]|]; done.
Qed.
End Insert.

(** Writing an entry into the file. *)
Lemma entries_splice c k de : (length c mod 16 = 0)%nat -> length de = 16%nat -> (k <= length c / 16)%nat ->
  entries (splice (16 * Z.of_nat k) de c) = take k (entries c) ++ de :: drop (S k) (entries c) /\
  (length (splice (16 * Z.of_nat k) de c) mod 16 = 0)%nat.
Proof.
  intros Hc Hde Hk. pose proof (Nat.div_mod_eq (length c) 16) as Ec. set (q := (length c / 16)%nat) in *.
  assert (length (splice (16 * Z.of_nat k) de c) = 16 * Nat.max q (S k))%nat as Hl.
  { unfold splice. rewrite !length_app, length_take, length_drop, Hde. lia. }
  rewrite Hl, Nat.mul_comm. split; [|by apply Nat.Div0.mod_mul]. apply list_eq. intros j. rewrite entries_lookup, Hl.
  rewrite (Nat.mul_comm 16), Nat.div_mul by lia. destruct (decide (j = k)) as [->|Hj].
  - rewrite decide_True by lia. rewrite list_lookup_middle by (rewrite length_take, length_entries; lia). f_equal.
    apply list_eq. intros i. unfold entry. rewrite getn_lookup. case_decide as Hi.
    + rewrite splice_lookup by lia. rewrite decide_True by lia. f_equal. lia.
    + rewrite lookup_ge_None_2; [done|lia].
  - assert ((take k (entries c) ++ de :: drop (S k) (entries c)) !! j = entries c !! j) as ->.
    { destruct (decide (j < k)%nat).
      - rewrite lookup_app_l, lookup_take_lt by (rewrite ?length_take, ?length_entries; lia). done.
      - rewrite lookup_app_r by (rewrite length_take, length_entries; lia). rewrite length_take, length_entries, Nat.min_l by done.
        destruct (j - k)%nat as [|m] eqn:Em; [lia|]. change ((de :: drop (S k) (entries c)) !! S m) with (drop (S k) (entries c) !! m). rewrite lookup_drop. f_equal. lia. }
    rewrite entries_lookup. fold q. repeat case_decide; try lia; try done. f_equal. apply list_eq. intros i. unfold entry.
    rewrite !getn_lookup. case_decide; [|done]. rewrite splice_lookup by lia. rewrite decide_False, decide_True by lia. done.
Qed.

Section Dir.
Context {T U : Type} `{TxDiskLaws T} `{UserAccessLaws U} (g : geom) (sb : superblock) (HL : layout g sb) (N : Z).
Implicit Types (s : fs_st T U) (D : blocks) (L : gset Z).

(** ** Reading an entry into a variable *)

Lemma takes_local pt data (u0 : U) loc0 : length loc0 = length data ->
  takes (T := T) DLocal pt data (fun tot u loc => u = u0 /\ loc = putn 0 (take (Z.to_nat tot) data) loc0) (fun _ _ _ => False).
Proof.
  intros Hl s tot m _ [Eu El] Ht Hm Hlen. exists 0, (fmem s), (putn (Z.to_nat tot) (getn (Z.to_nat tot) (Z.to_nat m) data) (flocal s)).
  split; [by destruct s|]. left. split; [done|]. split; [done|]. rewrite El. apply list_eq. intros i.
  rewrite !putn_lookup, length_putn, getn_lookup, length_getn, !length_take by lia.
  repeat case_decide; try lia; try done.
  - rewrite lookup_take_lt by lia. f_equal. lia.
  - rewrite !lookup_take_lt by lia. done.
Qed.

Lemma readi_local s ip i D L off n : locked_file g sb s ip i D L -> room g L -> 0 <= off -> 0 <= n -> off + n <= i_size i ->
  length (flocal s) = Z.to_nat n ->
  exists t, readi ip DLocal off n s = Ok n (set_local (getn (Z.to_nat off) (Z.to_nat n) (content sb D (i_inum i))) (set_ftx t s)) /\ frep g (set_ftx t s) D ∅ L.
Proof.
  intros [A Hfs Hj Hl Hsync] Hr Ho Hn Hsz Hloc.
  destruct (fk_file _ _ Hfs _ Hj Hl) as [F1 F2 F3 F4]. unfold iaddrs, isize in F1, F3, F4. rewrite <- Hsync in F1, F3, F4. cbn in F1, F3, F4.
  assert (Z.min n (i_size i - off) = n) as Em by lia.
  assert (fslice D (i_addrs i) off n = getn (Z.to_nat off) (Z.to_nat n) (content sb D (i_inum i))) as Ed.
  { unfold content, iaddrs, isize. rewrite <- Hsync. cbn. apply fslice_content; lia. }
  change FILEMAX with (268 * 1024) in F3.
  destruct (readi_ok g sb HL ip DLocal (fun tot u loc => u = fmem s /\ loc = putn 0 (take (Z.to_nat tot) (fslice D (i_addrs i) off n)) (flocal s))
    (fun _ _ _ => False) off n D L i s) as (r & t & u & loc & E & R & Hres); try done; try lia.
  - rewrite Em. apply takes_local. by rewrite length_fslice.
  - rewrite Em in Hres. destruct Hres as [(-> & -> & ->)|[_ []]]. exists t. split; [|exact R]. rewrite E. f_equal.
    rewrite take_ge by (rewrite length_fslice; lia). rewrite <- Ed. replace (set_fmem (fmem s) (set_ftx t s)) with (set_ftx t s) by (by destruct s).
    f_equal. rewrite <- (firstn_all (putn _ _ _)), length_putn, Hloc.
    pose proof (getn_putn_eq 0 (fslice D (i_addrs i) off n) (flocal s)) as Eq. rewrite length_fslice in Eq. apply Eq. lia.
Qed.

(** The state after steps that touch only buffers and the local variable. *)
Lemma locked_file_local s ip i D L t loc : locked_file g sb s ip i D L -> frep g (set_ftx t s) D ∅ L ->
  locked_file g sb (set_local loc (set_ftx t s)) ip i D L.
Proof. intros [[A1 A2 A3 A4 A5 A6] Hfs Hj Hl Hsync] R. split; [by split|done..]. Qed.

Lemma length_content D j : length (content sb D j) = Z.to_nat (isize sb D j).
Proof. apply length_fslice. Qed.

Lemma locked_size s ip i D L : locked_file g sb s ip i D L -> length (content sb D (i_inum i)) = Z.to_nat (i_size i) /\ 0 <= i_size i <= FILEMAX.
Proof.
  intros [A Hfs Hj Hl Hsync]. destruct (fk_file _ _ Hfs _ Hj Hl) as [F1 F2 F3 F4]. rewrite length_content. unfold isize in *.
  rewrite <- Hsync in *. split; [done|]. split; [apply F2|exact F3].
Qed.

(** ** [dirlookup] *)

(** A locked directory. *)
Record locked_dir s (dp : nat) (i : inode) D L : Prop := {
  ld_file : locked_file g sb s dp i D L;
  ld_type : i_type i = T_DIR;
  ld_size : i_size i mod DIRENT = 0
}.

Lemma read_entry s dp i D L k : locked_dir s dp i D L -> room g L -> length (flocal s) = 16%nat -> (k < length (entries (content sb D (i_inum i))))%nat ->
  exists t, readi dp DLocal (16 * Z.of_nat k) DIRENT s = Ok DIRENT (set_local (entry (content sb D (i_inum i)) k) (set_ftx t s)) /\ frep g (set_ftx t s) D ∅ L.
Proof.
  intros [A Ht Hz] Hr Hloc Hk. destruct (locked_size _ _ _ _ _ A) as [El Hs]. rewrite length_entries, El in Hk.
  pose proof (Nat.div_mod_eq (Z.to_nat (i_size i)) 16). pose proof (Nat.mod_upper_bound (Z.to_nat (i_size i)) 16).
  destruct (readi_local s dp i D L (16 * Z.of_nat k) DIRENT A Hr) as (t & E & R); [lia|done|unfold DIRENT in *; lia|done|].
  exists t. split; [|exact R]. rewrite E. unfold entry. do 3 f_equal. lia.
Qed.

Lemma locked_dir_local s dp i D L t loc : locked_dir s dp i D L -> frep g (set_ftx t s) D ∅ L -> locked_dir (set_local loc (set_ftx t s)) dp i D L.
Proof. intros [A Ht Hz] R. split; [by apply locked_file_local|done..]. Qed.

Lemma dir_off s dp i D L k : locked_dir s dp i D L -> (k <= length (entries (content sb D (i_inum i))))%nat ->
  (16 * Z.of_nat k <? i_size (the_inode dp s)) = bool_decide (k < length (entries (content sb D (i_inum i))))%nat /\ u32 (16 * Z.of_nat k) = 16 * Z.of_nat k /\
  16 * Z.of_nat k <= i_size i.
Proof.
  intros [A Ht Hz] Hk. destruct (locked_size _ _ _ _ _ A) as [El Hs]. rewrite length_entries, El in *.
  rewrite (the_inode_lookup s dp i) by apply A. change FILEMAX with (268 * 1024) in Hs. unfold DIRENT in Hz.
  assert (i_size i = 16 * Z.of_nat (Z.to_nat (i_size i) / 16)%nat) as E.
  { rewrite Nat2Z.inj_div, Z2Nat.id by lia. pose proof (Z.div_mod (i_size i) 16). lia. }
  set (q := (Z.to_nat (i_size i) / 16)%nat) in *. split; [|split; [apply u32_small; lia|lia]].
  case_bool_decide; [apply Z.ltb_lt|apply Z.ltb_ge]; lia.
Qed.

(** The loop from entry [k] on: what [list_find] finds there, then [iget]. *)
Lemma dirlookup_loop_ok dp i D L name fuel : forall k s, let es := entries (content sb D (i_inum i)) in
  locked_dir s dp i D L -> room g L -> length (flocal s) = 16%nat -> (k <= length es)%nat -> (length es - k < fuel)%nat ->
  exists t loc, frep g (set_ftx t s) D ∅ L /\ length loc = 16%nat /\ let s1 := set_local loc (set_ftx t s) in
    dirlookup_loop dp name (16 * Z.of_nat k) fuel s =
      match list_find (names name) (drop k es) with
      | Some (m, de) => (let! ip := iget (g_dev g) (de_inum de) in ret (Some (ip, 16 * Z.of_nat (k + m)))) s1
      | None => Ok None s1
      end.
Proof.
  induction fuel as [|fuel IH]; intros k s es A Hr Hloc Hk Hf; [lia|]. cbn [dirlookup_loop]. erewrite bind_Ok by reflexivity.
  destruct (dir_off _ _ _ _ _ k A Hk) as (-> & E32 & _). fold es. case_bool_decide as Hlt.
  2: { exists (ftx s), (flocal s). rewrite drop_ge by lia. split; [by destruct s; apply A|]. split; [done|]. by destruct s. }
  destruct (read_entry s dp i D L k A Hr Hloc Hlt) as (t & E & R). erewrite bind_Ok by exact E. change (negb (DIRENT =? DIRENT)) with false. cbn iota.
  erewrite bind_Ok by reflexivity. set (de := entry (content sb D (i_inum i)) k) in *. change (flocal (set_local de (set_ftx t s))) with de.
  assert (k < length (content sb D (i_inum i)) / 16)%nat as Hk16 by (unfold es in Hlt; by rewrite length_entries in Hlt).
  assert (es !! k = Some de) as Hde by (unfold es; by rewrite entries_lookup, decide_True by exact Hk16).
  assert (length de = 16%nat) as Hl16.
  { unfold de, entry. apply length_getn. pose proof (Nat.div_mod_eq (length (content sb D (i_inum i))) 16). lia. }
  rewrite (drop_S _ _ _ Hde). cbn [list_find].
  assert (forall r : outcome (fs_st T U) (option (nat * Z)), r = dirlookup_loop dp name (u32 (16 * Z.of_nat k + DIRENT)) fuel (set_local de (set_ftx t s)) ->
    exists t' loc', frep g (set_ftx t' s) D ∅ L /\ length loc' = 16%nat /\ r =
      match prod_map S id <$> list_find (names name) (drop (S k) es) with
      | Some (m, de) => (let! ip := iget (g_dev g) (de_inum de) in ret (Some (ip, 16 * Z.of_nat (k + m)))) (set_local loc' (set_ftx t' s))
      | None => Ok None (set_local loc' (set_ftx t' s))
      end) as Hnext.
  { intros r ->. destruct (dir_off _ _ _ _ _ (S k) A ltac:(fold es; lia)) as (_ & E32' & _). replace (16 * Z.of_nat k + DIRENT) with (16 * Z.of_nat (S k)) by (unfold DIRENT; lia).
    rewrite E32'. destruct (IH (S k) (set_local de (set_ftx t s))) as (t' & loc' & R' & Hl' & E'); [by apply locked_dir_local|done|done|fold es; lia|fold es; lia|].
    exists t', loc'. split; [exact R'|]. split; [done|]. rewrite E'. fold es. destruct (list_find (names name) (drop (S k) es)) as [[m x]|]; [|done]. cbn.
    replace (k + S m)%nat with (S (k + m)) by lia. done. }
  destruct (Z.eqb_spec (de_inum de) 0) as [Ez|Ez].
  { rewrite decide_False by (by intros [? _]). by apply Hnext. }
  destruct (Z.eqb_spec (namecmp name (de_name de)) 0) as [En|En].
  - rewrite decide_True by (split; [done|by apply namecmp_same]). exists t, de. split; [exact R|]. split; [done|].
    erewrite bind_Ok by reflexivity. rewrite Nat.add_0_r. rewrite (the_inode_lookup _ dp i) by apply A.
    destruct A as [[A _ _ _ _] _ _]. by rewrite (af_dev _ _ _ _ _ _ _ A).
  - rewrite decide_False by (intros [_ Hn]; by apply En, namecmp_same). by apply Hnext.
Qed.

Lemma dirlookup_ok s dp i D L name : locked_dir s dp i D L -> room g L ->
  exists t loc, frep g (set_ftx t s) D ∅ L /\ length loc = 16%nat /\ let s1 := set_local loc (set_ftx t s) in
    dirlookup dp name s =
      match dir_find (content sb D (i_inum i)) name with
      | Some (k, de) => (let! ip := iget (g_dev g) (de_inum de) in ret (Some (ip, 16 * Z.of_nat k))) s1
      | None => Ok None s1
      end.
Proof.
  intros A Hr. pose proof (ld_file _ _ _ _ _ A) as Af. destruct (locked_size _ _ _ _ _ Af) as [El Hs]. unfold dirlookup. erewrite bind_Ok by reflexivity.
  rewrite (the_inode_lookup s dp i) by apply Af. rewrite (ld_type _ _ _ _ _ A). change (negb (T_DIR =? T_DIR)) with false. cbn iota. erewrite bind_Ok by reflexivity.
  assert (set_ftx (ftx s) s = s) as Es by (by destruct s).
  destruct (dirlookup_loop_ok dp i D L name (Z.to_nat (i_size i / DIRENT + 2)) 0 (set_local (replicate 16 0) s)) as (t & loc & R & Hl & E); try done.
  - rewrite <- Es. apply locked_dir_local; [done|]. rewrite Es. apply Af.
  - lia.
  - rewrite length_entries, El. unfold DIRENT. rewrite Z2Nat.inj_add, Z2Nat.inj_div by (try apply Z.div_pos; lia). change (Z.to_nat 16) with 16%nat. lia.
  - exists t, loc. split; [exact R|]. split; [done|]. change (16 * Z.of_nat 0) with 0 in E. rewrite E, drop_0. done.
Qed.

(** ** [iget] and [iput] *)

Definition is_cached (dev inum : Z) (x : inode) : Prop := 0 < i_ref x /\ i_dev x = dev /\ i_inum x = inum.

Lemma iget_scan_spec dev inum l : forall i empty, match iget_scan dev inum l i empty with
  | (Some ip, _) => exists k x, ip = (i + k)%nat /\ l !! k = Some x /\ is_cached dev inum x
  | (None, e) => (forall k x, l !! k = Some x -> ~ is_cached dev inum x) /\
      match empty, e with
      | Some a, _ => e = Some a
      | None, Some a => exists k x, a = (i + k)%nat /\ l !! k = Some x /\ i_ref x = 0
      | None, None => forall k x, l !! k = Some x -> i_ref x <> 0
      end
  end.
Proof.
  unfold is_cached. induction l as [|x l IH]; intros i empty; cbn [iget_scan]; [split; [done|by destruct empty]|].
  destruct (Z.ltb_spec 0 (i_ref x)), (Z.eqb_spec (i_dev x) dev), (Z.eqb_spec (i_inum x) inum); cbn [andb].
  1: by exists 0%nat, x; rewrite Nat.add_0_r.
  all: set (e' := match empty with None => _ | Some _ => empty end); specialize (IH (S i) e'); destruct (iget_scan dev inum l (S i) e') as [[ip|] e2];
    [destruct IH as (k & y & -> & Hk & Hy); exists (S k), y; split; [lia|done]|].
  all: destruct IH as [Hno Hem]; split; [by intros [|k] y Hy; [injection Hy as <-; lia || naive_solver|apply (Hno k)]|]; clear Hno.
  all: destruct empty as [a|]; subst e'; [done|]; destruct (Z.eqb_spec (i_ref x) 0); [subst e2; exists 0%nat, x; rewrite Nat.add_0_r; done|].
  all: destruct e2 as [a|]; [destruct Hem as (k & y & -> & Hy); exists (S k), y; split; [lia|done]|intros [|k] y Hy; [by injection Hy as <-|by apply (Hem k)]].
Qed.

Lemma iget_cases s dev inum :
  (exists ip x, icache s !! ip = Some x /\ is_cached dev inum x /\ iget dev inum s = Ok ip (upd_inode ip (fun i => set_ref (i32 (i_ref i + 1)) i) s)) \/
  (forall k x, icache s !! k = Some x -> ~ is_cached dev inum x) /\
    ((exists ip x, icache s !! ip = Some x /\ i_ref x = 0 /\ iget dev inum s = Ok ip (upd_inode ip (set_identity dev inum 1 0) s)) \/
     (forall k x, icache s !! k = Some x -> i_ref x <> 0) /\ iget dev inum s = Panic "iget: no inodes").
Proof.
  unfold iget. erewrite bind_Ok by reflexivity. pose proof (iget_scan_spec dev inum (icache s) 0 None) as Hs.
  destruct (iget_scan dev inum (icache s) 0 None) as [[ip|] e].
  - left. destruct Hs as (k & x & -> & Hk & Hx). exists k, x. done.
  - right. destruct Hs as [H1' H2']. split; [done|]. destruct e as [a|]; [left|right; done]. destruct H2' as (k & x & -> & Hk & Hx). exists k, x. done.
Qed.

(** [iput] of an inode that stays referenced or linked, or was never read, only drops the reference. *)
Lemma iput_drops s ip x : icache s !! ip = Some x -> i_ref x <> 1 \/ i_valid x = 0 \/ i_nlink x <> 0 ->
  iput ip s = Ok tt (upd_inode ip (fun i => set_ref (i32 (i_ref i - 1)) i) s).
Proof.
  intros Hx Hk. unfold iput. erewrite bind_Ok by reflexivity. rewrite (the_inode_lookup s ip x Hx).
  assert ((i_ref x =? 1) && negb (i_valid x =? 0) && (i_nlink x =? 0) = false) as ->; [|done].
  destruct (Z.eqb_spec (i_ref x) 1), (Z.eqb_spec (i_valid x) 0), (Z.eqb_spec (i_nlink x) 0); try done. lia.
Qed.

(** The inodes in use stay as they are, and no other one comes into use. *)
Definition same_refs s s' : Prop :=
  forall k x, icache s !! k = Some x -> (0 < i_ref x -> icache s' !! k = Some x) /\ (i_ref x = 0 -> exists y, icache s' !! k = Some y /\ i_ref y = 0).
Definition keeps_refs s s' : Prop := (exists l, s' = set_icache l s) /\ same_refs s s'.

Lemma iget_iput s dev inum : Forall (fun x => 0 <= i_ref x < 2 ^ 31 - 1) (icache s) -> (exists k x, icache s !! k = Some x /\ i_ref x = 0) ->
  exists ip s1 s2, iget dev inum s = Ok ip s1 /\ iput ip s1 = Ok tt s2 /\ keeps_refs s s2.
Proof.
  intros Hrange (k0 & x0 & Hx0 & Hr0). destruct (iget_cases s dev inum) as [(ip & x & Hx & (Hr & _) & E)|[_ [(ip & x & Hx & Hr & E)|[Hall _]]]].
  - pose proof (Forall_lookup_1 _ _ _ _ Hrange Hx) as Hxr. cbn beta in Hxr. eexists ip, _, _. split; [exact E|].
    pose proof (upd_inode_lookup s ip x (fun i => set_ref (i32 (i_ref i + 1)) i) Hx) as Hx1.
    split; [eapply iput_drops; [exact Hx1|left; cbn; rewrite i32_small by lia; lia]|]. rewrite upd_upd.
    rewrite (upd_inode_id s ip x) by (done || destruct x; cbn in *; unfold set_ref; cbn; rewrite (i32_small (_ + 1)), i32_small by lia; f_equal; lia).
    split; [exists (icache s); by destruct s|]. intros k y Hy. split; [done|eauto].
  - eexists ip, _, _. split; [exact E|]. pose proof (upd_inode_lookup s ip x (set_identity dev inum 1 0) Hx) as Hx1.
    split; [eapply iput_drops; [exact Hx1|right; by left]|]. rewrite upd_upd. split; [by eexists|]. intros k y Hy. cbn. destruct (decide (ip = k)) as [->|Hne].
    + rewrite Hx in Hy. injection Hy as <-. split; [lia|]. intros _. rewrite list_lookup_alter_eq, Hx. by eexists.
    + rewrite list_lookup_alter_ne by done. split; [done|eauto].
  - by destruct (Hall k0 x0 Hx0).
Qed.

(** ** [dirlink] *)

(** Where [dirlink] puts an entry: the first free one, or the end. *)
Definition first_free (es : list (list Z)) : nat := default (length es) (fst <$> list_find (fun de => de_inum de = 0) es).

Lemma first_free_slot es : (forall old, es !! first_free es = Some old -> de_inum old = 0) /\ (first_free es <= length es)%nat.
Proof.
  unfold first_free. destruct (list_find _ es) as [[k de]|] eqn:E; cbn.
  - apply list_find_Some in E as (Hk & Hz & _). pose proof (lookup_lt_Some _ _ _ Hk). split; [intros old Ho; congruence|lia].
  - split; [|done]. intros old Ho. rewrite lookup_ge_None_2 in Ho by done. done.
Qed.

Lemma dirlink_loop_ok dp i D L fuel : forall k s, let es := entries (content sb D (i_inum i)) in
  locked_dir s dp i D L -> room g L -> length (flocal s) = 16%nat -> bytes (flocal s) -> (k <= length es)%nat -> (length es - k < fuel)%nat ->
  exists t loc, frep g (set_ftx t s) D ∅ L /\ length loc = 16%nat /\ bytes loc /\
    dirlink_loop dp (16 * Z.of_nat k) fuel s = Ok (16 * Z.of_nat (k + first_free (drop k es))) (set_local loc (set_ftx t s)).
Proof.
  induction fuel as [|fuel IH]; intros k s es A Hr Hloc Hby Hk Hf; [lia|]. cbn [dirlink_loop]. erewrite bind_Ok by reflexivity.
  destruct (dir_off _ _ _ _ _ k A Hk) as (Eb & E32 & _). rewrite E32, Eb. clear Eb. fold es. case_bool_decide as Hlt.
  2: { exists (ftx s), (flocal s). rewrite drop_ge by lia. split; [by destruct s; apply A|]. split; [done|]. split; [done|]. unfold ret. f_equal; [cbn; lia|by destruct s]. }
  destruct (read_entry s dp i D L k A Hr Hloc Hlt) as (t & E & R). erewrite bind_Ok by exact E. change (negb (DIRENT =? DIRENT)) with false. cbn iota.
  erewrite bind_Ok by reflexivity. set (de := entry (content sb D (i_inum i)) k) in *. change (flocal (set_local de (set_ftx t s))) with de.
  assert (k < length (content sb D (i_inum i)) / 16)%nat as Hk16 by (unfold es in Hlt; by rewrite length_entries in Hlt).
  assert (es !! k = Some de) as Hde by (unfold es; by rewrite entries_lookup, decide_True by exact Hk16).
  assert (length de = 16%nat) as Hl16.
  { unfold de, entry. apply length_getn. pose proof (Nat.div_mod_eq (length (content sb D (i_inum i))) 16). lia. }
  assert (bytes de) as Hdb by (apply Forall_take, Forall_drop, fslice_bytes; intros; eapply frep_block, A).
  rewrite (drop_S _ _ _ Hde). unfold first_free. cbn [list_find length]. destruct (Z.eqb_spec (de_inum de) 0) as [Ez|Ez].
  - exists t, de. rewrite decide_True by done. split; [exact R|]. do 2 (split; [done|]). cbn. by rewrite Nat.add_0_r.
  - rewrite decide_False by done. destruct (dir_off _ _ _ _ _ (S k) A ltac:(fold es; lia)) as (_ & _ & Hle).
    pose proof (locked_size _ _ _ _ _ (ld_file _ _ _ _ _ A)) as [_ Hsz]. change FILEMAX with (268 * 1024) in Hsz.
    unfold DIRENT at 1. rewrite i32_small by lia. replace (16 * Z.of_nat k + 16) with (16 * Z.of_nat (S k)) by lia.
    destruct (IH (S k) (set_local de (set_ftx t s))) as (t' & loc' & R' & Hl' & Hb' & E'); [by apply locked_dir_local|done|done|done|fold es; lia|fold es; lia|].
    exists t', loc'. split; [exact R'|]. do 2 (split; [done|]). rewrite E'. fold es. f_equal. unfold first_free.
    destruct (list_find _ (drop (S k) es)) as [[m x]|]; cbn; f_equal; f_equal; lia.
Qed.

(** The entry [dirlink] writes. *)
Definition new_entry (loc name : list Z) (inum : Z) : list Z := put16 0 inum (putn 2 (strncpy_arr name DIRSIZ) loc).

Lemma new_entry_ok loc name inum : length loc = 16%nat -> 0 < inum < 2 ^ 16 ->
  length (new_entry loc name inum) = 16%nat /\ de_inum (new_entry loc name inum) = inum /\ same_name name (de_name (new_entry loc name inum)).
Proof.
  intros Hl Hi. unfold new_entry. pose proof (length_strncpy DIRSIZ name) as Hs. split; [by rewrite length_put16, length_putn|]. split.
  - unfold de_inum. apply get16_put16_eq; [rewrite length_putn, Hl; lia|lia].
  - unfold same_name, de_name. unfold put16. rewrite getn_putn_ne by (rewrite length_le by done; right; done).
    pose proof (getn_putn_eq 2 (strncpy_arr name DIRSIZ) loc) as E. rewrite Hs in E. rewrite E by (rewrite Hl; done). by rewrite strncpy_idem.
Qed.

Lemma new_entry_bytes loc name inum : bytes loc -> bytes name -> bytes (new_entry loc name inum).
Proof. intros. unfold new_entry. apply put16_bytes, putn_bytes; [by apply strncpy_bytes|done]. Qed.

Lemma locked_dir_keeps s s' dp i D L : locked_dir s dp i D L -> 1 <= i_ref i -> keeps_refs s s' -> locked_dir s' dp i D L.
Proof.
  intros [[[A1 A2 A3 A4 A5 A6] Hfs Hj Hl Hsync] Ht Hz] Hr [[l ->] Hk]. split; [split; [split; try done|done..]|done..].
  apply (Hk dp i A1). lia.
Qed.

(** The write of the new entry, once its place is known. *)
Lemma dirlink_write s dp i D L name inum loc : let c := content sb D (i_inum i) in let k := first_free (entries c) in let de := new_entry loc name inum in
  locked_dir s dp i D L -> dir_lookup c name = None -> length loc = 16%nat -> bytes loc -> bytes name -> 0 < inum < 2 ^ 16 ->
  i_size i + DIRENT <= FILEMAX -> has_free sb D (1 + ineed (i_addrs i)) -> budget g sb N (i_addrs i) L 1 ->
  exists s' i' D' L', writei dp (SLocal de) (16 * Z.of_nat k) DIRENT s = Ok DIRENT s' /\ locked_dir s' dp i' D' L' /\ i_inum i' = i_inum i /\
    Z.of_nat (size L') <= N /\
    (forall n, dir_lookup (content sb D' (i_inum i)) n = if decide (same_name n name) then Some inum else dir_lookup c n) /\
    forall m, is_inum sb m -> m <> i_inum i -> abs_fs sb D' m = abs_fs sb D m.
Proof.
  intros c k de A Hnone Hl Hlb Hnb Hi Hmax Hf Hb. pose proof (ld_file _ _ _ _ _ A) as Af.
  destruct (locked_size _ _ _ _ _ Af) as [El Hsz]. destruct (first_free_slot (entries c)) as [Hfree Hk]. fold k in Hfree, Hk.
  destruct (dir_off _ _ _ _ _ k A Hk) as (_ & _ & Hle). destruct (new_entry_ok loc name inum Hl Hi) as (Hdl & Hdi & Hdn). fold de in Hdl, Hdi, Hdn.
  assert (nblk (16 * Z.of_nat k) DIRENT = 1%nat) as Hnb1.
  { unfold nblk, DIRENT. change BSIZE with 1024. set (o := 16 * Z.of_nat k) in *. assert (o mod 16 = 0) by (unfold o; rewrite Z.mul_comm; by apply Z.mod_mul).
    clearbody o. Z.div_mod_to_equations. lia. }
  assert (Z.of_nat (length de) = DIRENT) as Hd16 by (by rewrite Hdl).
  destruct (writei_refine_ok g sb HL N s dp i D L (SLocal de) de 0 (16 * Z.of_nat k) Af) as (t & l' & D' & L' & E & Lf & HN & _ & [_ W]); rewrite ?Hd16, ?Hnb1; try done; try lia.
  { by apply new_entry_bytes. }
  { intros ->. done. }
  rewrite Hd16 in E, Lf. eexists _, (write_inode i (16 * Z.of_nat k + DIRENT) l'), D', L'. split; [exact E|].
  pose proof (W (i_inum i) (lf_inum _ _ _ _ _ _ _ Af)) as Ej. rewrite decide_True in Ej by done.
  assert (content sb D' (i_inum i) = splice (16 * Z.of_nat k) de c) as Ec by (unfold abs_fs in Ej; case_decide; [done|]; by injection Ej).
  assert (length c mod 16 = 0)%nat as Hc16.
  { unfold c. rewrite El. apply Nat2Z.inj. rewrite Nat2Z.inj_mod, Z2Nat.id by lia. exact (ld_size _ _ _ _ _ A). }
  rewrite length_entries in Hk. destruct (entries_splice c k de Hc16 Hdl Hk) as [Ees Hm16].
  split; [|split; [done|split; [done|split]]].
  - split; [exact Lf|exact (ld_type _ _ _ _ _ A)|]. destruct (locked_size _ _ _ _ _ Lf) as [El' Hs']. change (i_inum (write_inode i (16 * Z.of_nat k + DIRENT) l')) with (i_inum i) in El'.
    rewrite Ec in El'. apply (f_equal Z.of_nat) in Hm16. rewrite Nat2Z.inj_mod, El', Z2Nat.id in Hm16 by lia. exact Hm16.
  - intros n. rewrite Ec. unfold dir_lookup, dir_find. rewrite Ees, <- Hdi. apply find_insert; [|split; [done|by rewrite length_entries]|by rewrite Hdi; split; [lia|]].
    unfold dir_lookup, dir_find in Hnone. by destruct (list_find (names name) (entries c)).
  - intros m Hm Hne. rewrite W by done. by rewrite decide_False.
Qed.

(** C9: [dirlink] implements insertion into the finite map a directory stands for.  If
    the name is absent it returns 0 and the directory maps the name (cut to 14 bytes) to
    the inode number and every other name as before; no other file changes and the
    invariants of the file system hold.  If the name is present it returns -1, the disk,
    the directory and every inode in use are as before, and no other inode is in use.  [dirlookup] finds exactly
    what the map has ([dirlookup_ok] above). *)
Theorem dirlink_refines s dp i D L name inum : let c := content sb D (i_inum i) in
  locked_dir s dp i D L -> 1 <= i_ref i -> Forall (fun x => 0 <= i_ref x < 2 ^ 31 - 1) (icache s) -> (exists k x, icache s !! k = Some x /\ i_ref x = 0) ->
  bytes name -> 0 < inum < 2 ^ 16 -> i_size i + DIRENT <= FILEMAX -> has_free sb D (1 + ineed (i_addrs i)) -> budget g sb N (i_addrs i) L 1 ->
  match dir_lookup c name with
  | Some _ => exists s', dirlink dp name inum s = Ok (-1) s' /\ locked_dir s' dp i D L /\ same_refs s s'
  | None => exists s' i' D' L', dirlink dp name inum s = Ok 0 s' /\ locked_dir s' dp i' D' L' /\ i_inum i' = i_inum i /\ Z.of_nat (size L') <= N /\
      (forall n, dir_lookup (content sb D' (i_inum i)) n = if decide (same_name n name) then Some inum else dir_lookup c n) /\
      forall m, is_inum sb m -> m <> i_inum i -> abs_fs sb D' m = abs_fs sb D m
  end.
Proof.
  intros c A Href Hrange Hslot Hby Hi Hmax Hf Hb. assert (room g L) as Hr by (eapply budget_room; [exact Hb|set_solver]).
  destruct (dirlookup_ok s dp i D L name A Hr) as (t & loc & R & Hl & E). fold c in E. destruct (dir_lookup c name) as [j|] eqn:Ed.
  - unfold dir_lookup in Ed. destruct (dir_find c name) as [[k de]|]; [|done].
    destruct (iget_iput (set_local loc (set_ftx t s)) (g_dev g) (de_inum de)) as (ip & s1 & s2 & E1 & E2 & Hk); [done|done|].
    cbv zeta in E. erewrite bind_Ok in E by exact E1. exists s2. split; [|split; [eapply locked_dir_keeps; [by apply locked_dir_local|done|exact Hk]|exact (proj2 Hk)]].
    unfold dirlink. erewrite bind_Ok by exact E. cbv beta iota. by erewrite bind_Ok by exact E2.
  - assert (dir_find c name = None) as Ef by (unfold dir_lookup in Ed; by destruct (dir_find c name)). rewrite Ef in E.
    unfold dirlink. erewrite bind_Ok by exact E. cbv beta iota. erewrite bind_Ok by reflexivity. erewrite bind_Ok by reflexivity.
    set (s2 := set_local (replicate 16 0) (set_local loc (set_ftx t s))). assert (locked_dir s2 dp i D L) as A2 by (by apply (locked_dir_local s)).
    rewrite (the_inode_lookup s2 dp i) by apply A2. destruct (locked_size _ _ _ _ _ (ld_file _ _ _ _ _ A2)) as [El Hsz].
    destruct (dirlink_loop_ok dp i D L (Z.to_nat (i_size i / DIRENT + 2)) 0 s2 A2 Hr) as (t3 & loc3 & R3 & Hl3 & Hb3 & E3); [done|by apply Forall_replicate|lia|..].
    { rewrite length_entries, El. unfold DIRENT. rewrite Z2Nat.inj_add, Z2Nat.inj_div by (try apply Z.div_pos; lia). change (Z.to_nat 16) with 16%nat. lia. }
    change (16 * Z.of_nat 0) with 0 in E3. rewrite drop_0, Nat.add_0_l in E3. fold c in E3. erewrite bind_Ok by exact E3. do 2 erewrite bind_Ok by reflexivity.
    cbn [flocal set_local]. fold (new_entry loc3 name inum).
    set (s3 := set_local (new_entry loc3 name inum) (set_local loc3 (set_ftx t3 s2))). assert (locked_dir s3 dp i D L) as A3 by (by apply (locked_dir_local s2)).
    destruct (first_free_slot (entries c)) as [_ Hk]. destruct (dir_off _ _ _ _ _ _ A3 Hk) as (_ & -> & _).
    destruct (dirlink_write s3 dp i D L name inum loc3 A3 Ed) as (s' & i' & D' & L' & Ew & A' & H'); try done.
    exists s', i', D', L'. split; [|done]. by erewrite bind_Ok by exact Ew.
Qed.
End Dir.
