(* ===== verification/File.v ===== *)
(** * kernel/file.c: open files, and [pipealloc] of pipe.c

    The open-file table over pipes, the console and the file system.  A call that
    sleeps in a pipe or in the console is [Block] at that point. *)
From stdpp Require Import base gmap list numbers strings.
From Stdlib Require Import ZArith Lia.
From S2P Require Import Prelude Bytes Kalloc Access Uart.
From S2P Require Pipe Console.
From S2P Require Import Bio BlockCache Log TxDisk Fs.
Open Scope Z_scope.

Definition NFILE : nat := 100.
Definition NDEV : Z := 10.
Definition CONSOLE : Z := 1.

Inductive fd_type := FD_NONE | FD_PIPE | FD_INODE | FD_DEVICE.
#[export] Instance fd_type_eq_dec : EqDecision fd_type.
Proof. solve_decision. Defined.

Record file := mk_file {
  f_type : fd_type;
  f_ref : Z;
  f_readable : Z;
  f_writable : Z;
  f_pipe : Z;
  f_ip : nat;
  f_off : Z;
  f_major : Z
}.
#[export] Instance file_inhabited : Inhabited file := populate (mk_file FD_NONE 0 0 0 0 0 0 0).

Definition set_fref (r : Z) (f : file) : file :=
  mk_file (f_type f) r (f_readable f) (f_writable f) (f_pipe f) (f_ip f) (f_off f) (f_major f).
Definition set_ftype (t : fd_type) (f : file) : file :=
  mk_file t (f_ref f) (f_readable f) (f_writable f) (f_pipe f) (f_ip f) (f_off f) (f_major f).
Definition set_foff (o : Z) (f : file) : file :=
  mk_file (f_type f) (f_ref f) (f_readable f) (f_writable f) (f_pipe f) (f_ip f) o (f_major f).
Definition set_fpipe (t : fd_type) (r w pi : Z) (f : file) : file :=
  mk_file t (f_ref f) r w pi (f_ip f) (f_off f) (f_major f).

(** [kalloc] and [kfree], as pipe.c uses them. *)
Class KPages (U : Type) := { kp_alloc : M U Z; kp_free : Z -> M U unit }.
#[export] Instance kmem_pages {L : Linker} : KPages kmem_st := {| kp_alloc := kalloc; kp_free := kfree |}.

(** [devsw]: whether the entries of a major number are set. *)
Record devsw_t := mk_devsw { dev_read : bool; dev_write : bool }.

Record file_st (B U : Type) := mk_fst {
  ffs : fs_st (log_st B) U;
  ftable : list file;
  fpipes : gmap Z Pipe.pipe;
  fcons : Console.cons_st U;
  fdevsw : list devsw_t;
  fkilled : bool
}.
Arguments mk_fst {B U}.
Arguments ffs {B U}. Arguments ftable {B U}. Arguments fpipes {B U}. Arguments fcons {B U}. Arguments fdevsw {B U}.
Arguments fkilled {B U}.

Section File.
Context {B U : Type} `{BufCache B} `{UserAccess U} `{KPages U}.
Notation FM := (M (file_st B U)).
Implicit Types (s : file_st B U).

Definition set_ffs (x : fs_st (log_st B) U) s : file_st B U :=
  mk_fst x (ftable s) (fpipes s) (fcons s) (fdevsw s) (fkilled s).
Definition set_ftable (l : list file) s : file_st B U :=
  mk_fst (ffs s) l (fpipes s) (fcons s) (fdevsw s) (fkilled s).
Definition the_file (f : nat) s : file := ftable s !!! f.
Definition upd_file (f : nat) (u : file -> file) s : file_st B U := set_ftable (alter u f (ftable s)) s.

Definition on_fs {A} (m : M (fs_st (log_st B) U) A) : FM A := zoom ffs set_ffs m.
Definition on_log {A} (m : M (log_st B) A) : FM A := on_fs (on_tx m).
Definition on_umem {A} (m : M U A) : FM A := on_fs (Fs.on_mem m).

(** A pipe at address [a], with the memory of the process and the woken channels. *)
Definition on_pipe {A} (a : Z) (m : M (Pipe.pipe_st U) A) : FM A :=
  zoom (fun s => Pipe.mk_pst (default (Pipe.mk_pipe [] 0 0 0 0) (fpipes s !! a)) (fmem (ffs s)) (fwoken (ffs s)))
    (fun k s => mk_fst (set_woken (Pipe.woken k) (set_fmem (Pipe.um k) (ffs s))) (ftable s) (<[a := Pipe.pi k]> (fpipes s))
       (fcons s) (fdevsw s) (fkilled s)) m.

Definition with_cum (u : U) (c : Console.cons_st U) : Console.cons_st U :=
  Console.mk_cons (Console.cbuf c) (Console.cr c) (Console.cw c) (Console.ce c) (Console.ust c) u (Console.cwoken c).
Definition on_cons {A} (m : M (Console.cons_st U) A) : FM A :=
  zoom (fun s => with_cum (fmem (ffs s)) (fcons s))
    (fun c s => mk_fst (set_fmem (Console.cum c) (ffs s)) (ftable s) (fpipes s) c (fdevsw s) (fkilled s)) m.

(** The search of [filealloc]. *)
Fixpoint filealloc_scan (l : list file) (i : nat) : option nat :=
  match l with
  | [] => None
  | f :: l' => if f_ref f =? 0 then Some i else filealloc_scan l' (S i)
  end.

Definition filealloc : FM (option nat) :=
  let! s := get in
  match filealloc_scan (ftable s) 0 with
  | Some f => modify (upd_file f (set_fref 1)) ;; ret (Some f)
  | None => ret None
  end.

Definition filedup (f : nat) : FM nat :=
  let! s := get in
  if f_ref (the_file f s) <? 1 then panic "filedup"
  else modify (upd_file f (fun x => set_fref (i32 (f_ref x + 1)) x)) ;; ret f.

Definition fileclose (f : nat) : FM unit :=
  let! s := get in
  if f_ref (the_file f s) <? 1 then panic "fileclose"
  else
    modify (upd_file f (fun x => set_fref (f_ref x - 1) x)) ;;
    let! s := get in
    if 0 <? f_ref (the_file f s) then ret tt
    else
      let ff := the_file f s in
      modify (upd_file f (fun x => set_ftype FD_NONE (set_fref 0 x))) ;;
      match f_type ff with
      | FD_PIPE => on_pipe (f_pipe ff) (Pipe.pipeclose kp_free (f_pipe ff) (negb (f_writable ff =? 0)))
      | FD_INODE | FD_DEVICE =>
          on_log begin_op ;;
          on_fs (iput (f_ip ff)) ;;
          on_log end_op
      | FD_NONE => ret tt
      end.

(** [struct stat] as [copyout] sees it; [pad] is the padding before [size]. *)
Definition stat_bytes (pad : list Z) (st : stat) : list Z :=
  put32 0 (u32 (st_dev st)) (put32 4 (st_ino st) (put16 8 (st_type st) (put16 10 (st_nlink st)
    (putn 12 (take 4 pad) (putn 16 (Z_to_little_endian 8 8 (st_size st)) (replicate 24 0)))))).

Definition filestat (pad : list Z) (f : nat) (addr : Z) : FM Z :=
  let! s := get in
  let x := the_file f s in
  match f_type x with
  | FD_INODE | FD_DEVICE =>
      on_fs (ilock (Some (f_ip x))) ;;
      let! st := on_fs (stati (f_ip x)) in
      on_fs (iunlock (Some (f_ip x))) ;;
      let! r := on_umem (ua_copyout (fpagetable (ffs s)) addr (stat_bytes pad st)) in
      if r <? 0 then ret (-1) else ret 0
  | _ => ret (-1)
  end.

Definition dev_ok (sel : devsw_t -> bool) (major : Z) s : bool :=
  negb ((major <? 0) || (NDEV <=? major)) &&
  match fdevsw s !! Z.to_nat major with Some d => sel d | None => false end.

(** [devsw[CONSOLE]] is the only entry the kernel sets. *)
Definition fileread (f : nat) (addr n : Z) : FM Z :=
  let! s := get in
  let x := the_file f s in
  let pt := fpagetable (ffs s) in
  if f_readable x =? 0 then ret (-1)
  else
    match f_type x with
    | FD_PIPE =>
        let! r := on_pipe (f_pipe x) (Pipe.piperead (f_pipe x) pt (fkilled s) addr n) in
        match r with
        | Pipe.PDone r => ret r
        | Pipe.PSleep _ => block (CPipeRead (f_pipe x))
        end
    | FD_DEVICE =>
        if negb (dev_ok dev_read (f_major x) s) then ret (-1)
        else
          let! r := on_cons (Console.consoleread pt true (fkilled s) n addr n) in
          match r with
          | Console.CDone r => ret r
          | Console.CSleep _ _ => block CConsR
          end
    | FD_INODE =>
        on_fs (ilock (Some (f_ip x))) ;;
        let! r := on_fs (readi (f_ip x) (DUser addr) (f_off x) (u32 n)) in
        (if 0 <? r then modify (upd_file f (fun x => set_foff (u32 (f_off x + r)) x)) else ret tt) ;;
        on_fs (iunlock (Some (f_ip x))) ;;
        ret r
    | FD_NONE => panic "fileread"
    end.

Definition filewrite_max : Z := ((MAXOPBLOCKS - 1 - 1 - 2) / 2) * BSIZE.

(** One transaction of [filewrite]: up to the end of [end_op], returning [r]. *)
Definition filewrite_chunk (f : nat) (addr n1 : Z) : FM Z :=
  let! s := get in
  let ip := f_ip (the_file f s) in
  on_log begin_op ;;
  on_fs (ilock (Some ip)) ;;
  let! r := on_fs (writei ip (SUser addr) (f_off (the_file f s)) (u32 n1)) in
  (if 0 <? r then modify (upd_file f (fun x => set_foff (u32 (f_off x + r)) x)) else ret tt) ;;
  on_fs (iunlock (Some ip)) ;;
  on_log end_op ;;
  ret r.

(** The loop; it returns the final [i]. *)
Fixpoint filewrite_loop (f : nat) (addr n i : Z) (fuel : nat) : FM Z :=
  match fuel with
  | O => diverge
  | S fuel' =>
      if i <? n then
        let n1 := if filewrite_max <? n - i then filewrite_max else n - i in
        let! r := filewrite_chunk f (u64 (addr + i)) n1 in
        if r <? 0 then ret i
        else if negb (r =? n1) then panic "short filewrite"
        else filewrite_loop f addr n (i + r) fuel'
      else ret i
  end.

Definition filewrite (f : nat) (addr n : Z) : FM Z :=
  let! s := get in
  let x := the_file f s in
  let pt := fpagetable (ffs s) in
  if f_writable x =? 0 then ret (-1)
  else
    match f_type x with
    | FD_PIPE =>
        let! r := on_pipe (f_pipe x) (Pipe.pipewrite (f_pipe x) pt (fkilled s) addr n 0) in
        match r with
        | Pipe.PDone r => ret r
        | Pipe.PSleep _ => block (CPipeWrite (f_pipe x))
        end
    | FD_DEVICE =>
        if negb (dev_ok dev_write (f_major x) s) then ret (-1)
        else on_cons (Console.consolewrite pt true addr n)
    | FD_INODE =>
        let! i := filewrite_loop f addr n 0 (Z.to_nat (n / filewrite_max + 2)) in
        ret (if i =? n then n else -1)
    | FD_NONE => panic "filewrite"
    end.

(** pipe.c: [pipealloc]; a page of [kalloc] is filled with 5. *)
Definition pipealloc_bad (f0 f1 : option nat) : FM (option (nat * nat)) :=
  match f0 with Some f => fileclose f | None => ret tt end ;;
  match f1 with Some f => fileclose f | None => ret tt end ;;
  ret None.

Definition pipealloc : FM (option (nat * nat)) :=
  let! f0 := filealloc in
  match f0 with
  | None => pipealloc_bad None None
  | Some a =>
      let! f1 := filealloc in
      match f1 with
      | None => pipealloc_bad f0 None
      | Some b =>
          let! pi := on_umem kp_alloc in
          if pi =? 0 then pipealloc_bad f0 f1
          else
            modify (fun s => mk_fst (ffs s) (ftable s) (<[pi := Pipe.pipe_init (replicate 512 5)]> (fpipes s)) (fcons s) (fdevsw s) (fkilled s)) ;;
            modify (upd_file a (set_fpipe FD_PIPE 1 0 pi)) ;;
            modify (upd_file b (set_fpipe FD_PIPE 0 1 pi)) ;;
            ret (Some (a, b))
      end
  end.
End File.
