(* ===== verification/FileSpec.v ===== *)
(** * A write system call and crashes

    One transaction of [filewrite] from [begin_op] to [end_op]: the file system on the
    disk has, after a crash at any point and recovery, the content before or after the
    whole write. *)
From stdpp Require Import base gmap list numbers functions strings.
From Stdlib Require Import ZArith Lia.
From S2P Require Import Prelude Mem Bytes Access Sleeplock.
From S2P Require Import Bio BlockCache Log LogDisk LogSpec LogOps TxDisk Fs FsBlocks FsFile FsRw FsSpec File.
Open Scope Z_scope.

(** ** The ends of a transaction *)
Section Bounds.
Context {B : Type} `{BufCacheLaws B} (g : geom).

(** No operation is outstanding and no buffer is in use; [w] is the state of the disk. *)
Record log_idle (ls : log_st B) (w : bview) : Prop := {
  li_log : log_ok ∅ ls w;
  li_dev : log_dev ls = g_dev g;
  li_start : log_start ls = g_start g;
  li_size : log_size ls = g_size g;
  li_out : outstanding ls = 0;
  li_com : committing ls = 0;
  li_homes : homes ls = [];
  li_held : v_held w = ∅;
  li_other : v_other w = ∅;
  li_refs m : v_refs w m = 0
}.

Notation laws w := (log_tx_laws (v_disk w) (v_writes w) 1).

Lemma begin_op_tx ls w : log_idle ls w ->
  exists ls1, begin_op ls = Ok tt ls1 /\ tx_rep (TxDiskLaws := laws w) g ls1 (mk_tview (v_block w) ∅ ∅ ∅).
Proof.
  intros [L Hd Hs Hz Ho Hc Hh Hh' Ho' Hr]. pose proof (length_homes _ _ _ L) as Hl. rewrite Hh in Hl. cbn in Hl.
  pose proof (lo_n _ _ _ L). assert (lh_n ls = 0) as En by lia.
  unfold begin_op. erewrite bind_Ok by reflexivity. rewrite Hc, Ho, En. change (negb (0 =? 0)) with false.
  change (LOGSIZE <? 0 + (0 + 1) * MAXOPBLOCKS) with false. cbn iota. eexists. split; [reflexivity|].
  split; [|intros m Hm; by apply elem_of_empty in Hm]. exists w. split; [|by split]. split; cbn; try done.
  - destruct L; by split.
  - change (homes (set_ops (0 + 1) 0 ls)) with (homes ls). by rewrite Hh.
  - intros m. change (homes (set_ops (0 + 1) 0 ls)) with (homes ls). rewrite Hh, Hr, Hh'.
    rewrite !b2z_false; [done| |]; [|apply not_elem_of_nil]. rewrite held_blocks_spec. intros [b Hb]. by rewrite lookup_empty in Hb.
Qed.

Lemma end_op_tx D0 W0 ls D L : tx_rep (TxDiskLaws := log_tx_laws D0 W0 1) g ls (mk_tview D ∅ ∅ L) -> (size L < NBUF)%nat ->
  exists ls' w' ws, end_op ls = Ok tt ls' /\ log_idle ls' w' /\ v_writes w' = W0 ++ ws /\
    (forall m, v_disk w' m = replay D0 ws m) /\ (forall m, ~ g_log g m -> v_disk w' m = D m /\ v_block w' m = D m) /\
    atomic_update (g_start g) (g_size g) D0 D ws.
Proof.
  intros [(w & R & [G1 G2 G3 G4]) _] Hsz. pose proof (lt_log _ _ _ _ R) as Lg. cbn in Lg.
  pose proof (lt_held _ _ _ _ R) as Hh. pose proof (lt_other _ _ _ _ R) as Ho. pose proof (lt_block _ _ _ _ R) as Hb. cbn in Hh, Hb.
  assert (idle ls w) as I.
  { split.
    - split; [done|]. rewrite Ho. intros n Hn. by apply elem_of_empty in Hn.
    - apply (log_tx_room _ _ _ _ R). cbn. rewrite map_size_empty. lia.
    - intros m _. rewrite Ho. pose proof (log_tx_refs _ _ _ _ m R). split; [apply not_elem_of_empty|lia]. }
  destruct (end_op_commits ls w Lg I G3 G4) as (ls' & w' & ws & E & C). exists ls', w', ws. split; [exact E|].
  destruct C as [C1 C2 C3 C4 C5 C6 C7 C8 C9 C10 C11 C12 C13 C14].
  pose proof (lt_start _ _ _ _ R) as Es. pose proof (lt_size _ _ _ _ R) as Ez. pose proof (lt_dev _ _ _ _ R) as Ed.
  rewrite Es, Ez in *. rewrite <- Hb in *. subst D0 W0. split; [|done].
  split; try congruence.
  - intros m. rewrite C12, (lt_refs _ _ _ _ R m). rewrite (b2z_false (m ∈ held_blocks _)).
    2: { rewrite held_blocks_spec, <- Hh. intros [b Hb']. by rewrite lookup_empty in Hb'. }
    case_decide; [rewrite b2z_true by done|rewrite b2z_false by done]; done.
Qed.
End Bounds.

(** ** Locking an inode *)
Section Lock.
Context {T U : Type} `{TxDiskLaws T} `{UserAccess U} (g : geom) (sb : superblock) (HL : layout g sb).
Implicit Types (s : fs_st T U) (D : blocks) (L : gset Z).

(** A cached inode: not locked, and, if it has been read, equal to the inode on the disk. *)
Record cached s (ip : nat) (i : inode) D : Prop := {
  ca_inode : icache s !! ip = Some i;
  ca_dev : i_dev i = g_dev g;
  ca_ref : 1 <= i_ref i;
  ca_free : sl_locked (i_lock i) = 0;
  ca_valid : i_valid i = 0 \/ i_valid i = 1 /\ dinode_of i = disk_inode sb D (i_inum i)
}.

Definition lock_inode (pid : Z) D (i : inode) : inode :=
  set_lock (mk_slk 1 (sl_name (i_lock i)) pid) (set_valid 1 (set_dinode (disk_inode sb D (i_inum i)) i)).

(** [ilock] of such an inode does not sleep. *)
Lemma ilock_ok s ip i D L : cached s ip i D -> fsb s = sb -> frep g s D ∅ L -> room g L -> is_inum sb (i_inum i) -> live sb D (i_inum i) ->
  exists t, ilock (Some ip) s = Ok tt (set_ftx t (upd_inode ip (fun _ => lock_inode (fpid s) D i) s)) /\ frep g (set_ftx t s) D ∅ L.
Proof.
  intros [Hi Hdev Href Hfree Hval] Hsb R Hroom Hin Hlive. unfold ilock. erewrite bind_Ok by reflexivity.
  rewrite (the_inode_lookup s ip i Hi). destruct (Z.ltb_spec (i_ref i) 1); [lia|].
  set (i1 := set_lock (mk_slk 1 (sl_name (i_lock i)) (fpid s)) i). set (s1 := upd_inode ip (fun _ => i1) s).
  assert (on_ilock ip (acquiresleep (CInodeLock ip) (fpid s)) s = Ok tt s1) as E1.
  { unfold on_ilock, zoom, acquiresleep, bind, get. cbn [slk slk_woken]. rewrite (the_inode_lookup s ip i Hi), Hfree. cbn.
    f_equal. trans (upd_inode ip (set_lock (mk_slk 1 (sl_name (i_lock i)) (fpid s))) s); [by destruct s|by apply (upd_inode_ext s ip i)]. }
  erewrite bind_Ok by exact E1. erewrite bind_Ok by reflexivity.
  assert (icache s1 !! ip = Some i1) as Hi1 by exact (upd_inode_lookup s ip i (fun _ => i1) Hi).
  rewrite (the_inode_lookup s1 ip i1 Hi1). cbn [i_valid i_dev i_inum set_lock i1]. destruct Hval as [Hv|[Hv Hsync]]; rewrite Hv.
  - change (0 =? 0) with true. cbn iota. change (fsb s1) with (fsb s). rewrite Hdev, Hsb.
    destruct (iblock_ok _ _ HL _ Hin) as [_ Hib]. destruct (iblock_not_log _ _ HL _ Hib) as (_ & H32 & _).
    destruct (bread_step g s1 D ∅ L (IBLOCK (i_inum i) sb) R) as (bp & t & E & Hbp & R1); try done; [rewrite map_size_empty; lia|].
    erewrite bind_Ok by exact E. erewrite bind_Ok by (eapply bdata_step; [exact R1|apply lookup_insert_eq]).
    erewrite bind_Ok by reflexivity. fold (disk_inode sb D (i_inum i)).
    destruct (brelse_step g (upd_inode ip (set_dinode (disk_inode sb D (i_inum i))) (set_ftx t s1)) _ _ _ _ _ R1 Hbp) as (t2 & E2 & R2).
    erewrite bind_Ok by exact E2. do 2 erewrite bind_Ok by reflexivity. exists t2.
    set (s2 := upd_inode ip (set_valid 1) _).
    assert (s2 = set_ftx t2 (upd_inode ip (fun _ => lock_inode (fpid s) D i) s)) as ->.
    { unfold s2, s1. change (set_ftx t2 (upd_inode ip (set_valid 1) (upd_inode ip (set_dinode (disk_inode sb D (i_inum i))) (upd_inode ip (fun _ => i1) s)))
        = set_ftx t2 (upd_inode ip (fun _ => lock_inode (fpid s) D i) s)). rewrite !upd_upd. done. }
    rewrite (the_inode_lookup _ ip (lock_inode (fpid s) D i)) by exact (upd_inode_lookup (set_ftx t2 s) ip i (fun _ => _) Hi).
    cbn [lock_inode i_type set_lock set_valid set_dinode]. unfold live in Hlive.
    destruct (Z.eqb_spec (d_type (disk_inode sb D (i_inum i))) 0); [done|]. split; [done|exact R2].
  - change (1 =? 0) with false. cbn iota. exists (ftx s). split; [|by destruct s]. unfold ret. f_equal. unfold s1.
    replace (lock_inode (fpid s) D i) with i1; [by destruct s|]. unfold lock_inode, i1. rewrite <- Hsync. destruct i. cbn in Hv. by subst.
Qed.

Lemma iunlock_ok s ip i : icache s !! ip = Some i -> 1 <= i_ref i -> sl_locked (i_lock i) <> 0 -> sl_pid (i_lock i) = fpid s ->
  exists w, iunlock (Some ip) s = Ok tt (set_woken w (upd_inode ip (fun _ => set_lock (mk_slk 0 (sl_name (i_lock i)) 0) i) s)).
Proof.
  intros Hi Hr Hl Hp. unfold iunlock. erewrite bind_Ok by reflexivity. rewrite (the_inode_lookup s ip i Hi). unfold holdingsleep.
  destruct (Z.eqb_spec (sl_locked (i_lock i)) 0); [done|]. rewrite Hp, Z.eqb_refl. destruct (Z.ltb_spec (i_ref i) 1); [lia|]. cbn [negb andb orb].
  eexists. unfold on_ilock, zoom, releasesleep, modify. cbn [slk slk_woken]. rewrite (the_inode_lookup s ip i Hi). do 2 f_equal.
  by apply (upd_inode_ext s ip i).
Qed.

(** Lock, write, unlock. *)
Lemma locked_write_ok N s ip i D src bs e off : let n := Z.of_nat (length bs) in let j := i_inum i in
  cached s ip i D -> fsb s = sb -> frep g s D ∅ ∅ -> room g ∅ -> fs_ok sb D -> is_inum sb j -> live sb D j ->
  gives src bs s -> bytes bs -> bs <> [] -> 0 <= off <= isize sb D j -> off + n <= FILEMAX ->
  has_free sb D (nblk off n + e + ineed (iaddrs sb D j)) -> budget g sb N (iaddrs sb D j) ∅ (nblk off n) ->
  exists s2 s3 s4 i' D' L', ilock (Some ip) s = Ok tt s2 /\ writei ip src off n s2 = Ok n s3 /\ iunlock (Some ip) s3 = Ok tt s4 /\
    frep g s4 D' ∅ L' /\ Z.of_nat (size L') <= N /\ has_free sb D' (e + ineed (iaddrs sb D' j)) /\ writes_file sb D D' j off bs /\
    isize sb D' j = Z.max (isize sb D j) (off + n) /\ live sb D' j /\
    cached s4 ip i' D' /\ i_inum i' = j /\ fsb s4 = sb /\ fmem s4 = fmem s /\ fpagetable s4 = fpagetable s.
Proof.
  intros n j C Hsb R Hr F Hj Hl Hsrc Hby Hne Ho Hmax Hf Hb.
  destruct (ilock_ok s ip i D ∅ C Hsb R Hr Hj Hl) as (t2 & E2 & R2). set (i1 := lock_inode (fpid s) D i) in *.
  set (s2 := set_ftx t2 (upd_inode ip (fun _ => i1) s)) in *.
  assert (dinode_of i1 = disk_inode sb D j) as Hsync by (unfold i1, lock_inode, j; cbn; by destruct (disk_inode sb D (i_inum i))).
  assert (locked_file g sb s2 ip i1 D ∅) as Hlf.
  { split; try done. split; try done.
    - exact (upd_inode_lookup (set_ftx t2 s) ip i (fun _ => i1) (ca_inode _ _ _ _ C)).
    - exact (ca_dev _ _ _ _ C).
    - apply F.
    - apply (fk_file _ _ F _ Hj Hl). }
  destruct (writei_refine_ok g sb HL N s2 ip i1 D ∅ src bs e off Hlf) as (t3 & l' & D' & L' & E3 & Hlf3 & Hsz & HF & W); try done.
  fold n in E3, Hlf3. set (i2 := write_inode i1 (off + n) l') in *. set (s3 := set_ftx t3 (upd_inode ip (fun _ => i2) s2)) in *.
  destruct (iunlock_ok s3 ip i2) as (wk & E4); [apply Hlf3|exact (ca_ref _ _ _ _ C)|done|done|].
  set (i3 := set_lock (mk_slk 0 (sl_name (i_lock i2)) 0) i2) in *. set (s4 := set_woken wk (upd_inode ip (fun _ => i3) s3)) in *.
  pose proof (lf_sync _ _ _ _ _ _ _ Hlf3) as Hs3. change (i_inum i2) with j in Hs3.
  assert (iaddrs sb D' j = l') as El by (unfold iaddrs; by rewrite <- Hs3).
  exists s2, s3, s4, i3, D', L'. do 3 (split; [done|]). split; [exact (af_rep _ _ _ _ _ _ _ (lf_at _ _ _ _ _ _ _ Hlf3))|].
  split; [done|]. split; [by rewrite El|]. split; [exact W|]. split; [unfold isize; by rewrite <- Hs3|].
  split; [exact (lf_live _ _ _ _ _ _ _ Hlf3)|]. split; [|done]. split; try done.
  - exact (upd_inode_lookup s3 ip i2 (fun _ => i3) (af_inode _ _ _ _ _ _ _ (lf_at _ _ _ _ _ _ _ Hlf3))).
  - exact (ca_dev _ _ _ _ C).
  - exact (ca_ref _ _ _ _ C).
  - right. split; [done|]. exact Hs3.
Qed.
End Lock.

(** ** The file system does not depend on the log *)
Section Ext.
Context (g : geom) (sb : superblock) (HL : layout g sb).

Lemma fs_ok_ext D D' : (forall m, ~ g_log g m -> D' m = D m) -> fs_ok sb D ->
  fs_ok sb D' /\ forall j, is_inum sb j -> abs_fs sb D' j = abs_fs sb D j.
Proof.
  intros Hext [F1 F2 F3].
  assert (forall b, 0 <= b < sb_size sb -> used sb D' b <-> used sb D b) as Hu.
  { intros b Hb. unfold used. rewrite Hext; [done|]. by apply (bmap_not_log _ _ HL), (bblock_bmap _ _ HL). }
  assert (forall m, data_used sb D m -> data_used sb D' m) as Hdu.
  { intros m [Hr Hm]. split; [done|]. apply Hu; [|done]. pose proof (data_pos _ _ HL m Hr). lia. }
  assert (forall j, is_inum sb j -> disk_inode sb D' j = disk_inode sb D j) as Hd.
  { intros j Hj. unfold disk_inode. rewrite Hext; [done|]. by apply (iblock_not_log _ _ HL), (iblock_ok _ _ HL). }
  assert (forall j, is_inum sb j -> live sb D j -> forall m, owns D (iaddrs sb D j) m -> D' m = D m) as Hown.
  { intros j Hj Hl m Ho. apply Hext. apply (data_not_log _ _ HL). by apply (owns_used _ _ _ _ (fo_iok _ _ _ (F2 j Hj Hl)) Ho). }
  assert (forall j, is_inum sb j -> live sb D' j <-> live sb D j) as Hlv by (intros j Hj; unfold live; by rewrite Hd).
  assert (forall j (Hj : is_inum sb j) (Hl : live sb D j), file_ok sb D' j /\ content sb D' j = content sb D j /\
    (forall m, owns D' (iaddrs sb D' j) m <-> owns D (iaddrs sb D j) m)) as Hf.
  { intros j Hj Hl. apply (file_frame sb D D' j); [by apply F2|by apply Hd|by apply Hown|done]. }
  split; [split|].
  - intros m Hm. apply Hu; [|by apply F1]. pose proof (ly_bmap _ _ HL). lia.
  - intros j Hj Hl%Hlv; [|done]. by apply Hf.
  - intros j j' m Hj Hj' Hl%Hlv Hl'%Hlv Hn; [|done|done]. rewrite (proj2 (proj2 (Hf j Hj Hl))), (proj2 (proj2 (Hf j' Hj' Hl'))). by apply F3.
  - intros j Hj. unfold abs_fs. rewrite (Hd j Hj). case_decide as E; [done|]. by rewrite (proj1 (proj2 (Hf j Hj E))).
Qed.
End Ext.

(** ** One transaction of [filewrite] *)
Section Chunk.
Context {B U : Type} `{BufCacheLaws B} `{UserAccessLaws U} (g : geom) (sb : superblock) (HL : layout g sb).
Implicit Types (s : file_st B U).

Lemma zoom_Ok {X Y A} (p : X -> Y) (q : Y -> X -> X) (m : M Y A) x a y : m (p x) = Ok a y -> zoom p q m x = Ok a (q y x).
Proof. unfold zoom. by intros ->. Qed.

Lemma alter_as_insert {A} (l : list A) i x f : l !! i = Some x -> alter f i l = <[i := f x]> l.
Proof.
  intros E. apply list_eq. intros j. destruct (decide (j = i)) as [->|].
  - rewrite list_lookup_alter_eq, E, list_lookup_insert_eq; [done|]. by eapply lookup_lt_Some.
  - by rewrite list_lookup_alter_ne, list_lookup_insert_ne.
Qed.

(** The process has the bytes [bs] at [va]. *)
Definition user_has (u : U) (pt va : Z) (bs : list Z) : Prop :=
  forall k b, bs !! k = Some b -> ua_view u pt (va + Z.of_nat k) = Some b.

Lemma gives_user {T} va bs P (fs : fs_st T U) : ua_ok (fmem fs) P -> fpagetable fs ∈ P -> 0 <= va -> va + Z.of_nat (length bs) <= 2 ^ 64 ->
  user_has (fmem fs) (fpagetable fs) va bs -> gives (SUser va) bs fs.
Proof.
  intros Hok Hpt Hva H64 Hu fs' tot m Em Ept Ht Hm Hlen. unfold copy_from, either_copyin, Fs.on_mem. erewrite bind_Ok by reflexivity.
  rewrite Ept, u64_small by lia. unfold zoom. rewrite Em.
  destruct (ua_copyin_ok (fmem fs) P (fpagetable fs) (va + tot) m Hok Hpt ltac:(lia) ltac:(lia)) as (r & bs' & E & Hv & Hres). rewrite E.
  assert (forall k, (Z.of_nat k < m) -> exists b, bs !! (Z.to_nat tot + k)%nat = Some b /\ ua_view (fmem fs) (fpagetable fs) (va + tot + Z.of_nat k) = Some b) as Hb.
  { intros k Hk. destruct (lookup_lt_is_Some_2 bs (Z.to_nat tot + k)) as [b Hb]; [lia|]. exists b. split; [done|].
    apply Hu in Hb. rewrite <- Hb. f_equal. lia. }
  destruct Hres as [[-> Hl]|(-> & Hl & Hnone)].
  - f_equal; [|rewrite <- Em; by destruct fs']. f_equal. apply list_eq. intros k. rewrite getn_lookup. case_decide as Hk.
    + destruct (lookup_lt_is_Some_2 bs' k) as [b Hbk]; [lia|]. rewrite Hbk. destruct (Hb k) as (b' & -> & Hb'); [lia|].
      apply Hv in Hbk. congruence.
    + apply lookup_ge_None_2. lia.
  - destruct (Hb (length bs')) as (b & _ & Hb'); [lia|]. congruence.
Qed.

Lemma user_bytes_ok (u : U) P pt va bs : ua_ok u P -> pt ∈ P -> user_has u pt va bs -> bytes bs.
Proof. intros Hok Hpt Hu. apply Forall_lookup_2. intros k b Hb. by apply (ua_view_byte u P pt (va + Z.of_nat k) b Hok Hpt), Hu. Qed.

(** A chunk of [filewrite] touches at most four blocks. *)
Lemma nblk_chunk off n : 0 <= off -> 0 <= n <= filewrite_max -> (nblk off n <= 4)%nat.
Proof.
  intros Ho Hn. change filewrite_max with 3072 in Hn. unfold nblk. change BSIZE with 1024. pose proof (Z.mod_pos_bound off 1024).
  set (o := off mod 1024) in *. Z.div_mod_to_equations. lia.
Qed.

Lemma chunk_budget l off n : (size (bmaps sb) <= 1)%nat -> MAXOPBLOCKS <= cap g -> 0 <= off -> 0 <= n <= filewrite_max ->
  budget g sb MAXOPBLOCKS l ∅ (nblk off n).
Proof.
  intros Hb Hc Ho Hn. pose proof (nblk_chunk off n Ho Hn). unfold budget. split; [|done].
  assert (size (bmaps sb ∪ inds l ∪ ∅) + ineed l <= 2)%nat; [|change MAXOPBLOCKS with 10; lia].
  unfold inds, ineed. destruct (ind l =? 0).
  - assert (size (bmaps sb ∪ ∅ ∪ ∅) <= size (bmaps sb))%nat by (apply subseteq_size; set_solver). lia.
  - assert (size (bmaps sb ∪ {[ind l]} ∪ ∅) <= S (size (bmaps sb)))%nat by (apply (size_add (ind l)); set_solver). lia.
Qed.

(** File [f], open on inode [i], can be written [bs] from the user address [addr], and
    there are [q] free blocks and one for an indirect block. *)
Record can_write s (w : bview) (f : nat) (x : file) (i : inode) (P : gset Z) (addr : Z) (bs : list Z) (q : nat) : Prop := {
  cw_log : log_idle g (ftx (ffs s)) w;
  cw_sb : fsb (ffs s) = sb;
  cw_fs : fs_ok sb (v_block w);
  cw_file : ftable s !! f = Some x;
  cw_inode : cached g sb (ffs s) (f_ip x) i (v_block w);
  cw_inum : is_inum sb (i_inum i);
  cw_live : live sb (v_block w) (i_inum i);
  cw_user : ua_ok (fmem (ffs s)) P /\ fpagetable (ffs s) ∈ P;
  cw_bytes : user_has (fmem (ffs s)) (fpagetable (ffs s)) addr bs;
  cw_addr : 0 <= addr /\ addr + Z.of_nat (length bs) <= 2 ^ 64;
  cw_off : 0 <= f_off x <= isize sb (v_block w) (i_inum i);
  cw_end : f_off x + Z.of_nat (length bs) <= FILEMAX;
  cw_free : has_free sb (v_block w) (q + ineed (iaddrs sb (v_block w) (i_inum i)));
  cw_map : (size (bmaps sb) <= 1)%nat;
  cw_cap : MAXOPBLOCKS <= cap g
}.

(** The disk at a crash after [k] of the writes [ws], after recovery. *)
Definition crash_disk (D : blocks) (ws : list (Z * list Z)) (k : nat) : blocks := recovered (g_start g) (replay D (take k ws)).

Lemma idle_clean ls w m : log_idle g ls w -> ~ g_log g m -> v_disk w m = v_block w m.
Proof.
  intros I Hm. symmetry. apply (lo_clean _ _ _ (li_log _ _ _ I)); [rewrite (li_homes _ _ _ I); apply not_elem_of_nil|apply not_elem_of_empty|].
  by rewrite (li_start _ _ _ I), (li_size _ _ _ I).
Qed.

Lemma writes_file_ext D D' new j off bs : (forall m, ~ g_log g m -> new m = D' m) -> writes_file sb D D' j off bs -> writes_file sb D new j off bs.
Proof.
  intros Hext [F W]. destruct (fs_ok_ext g sb HL D' new Hext F) as [F' Ea]. split; [done|]. intros k Hk. rewrite Ea by done. by apply W.
Qed.

Lemma splice_nil off c : 0 <= off -> splice off [] c = c.
Proof. intros Ho. unfold splice. cbn. rewrite Nat.add_0_r. apply take_drop. Qed.

Lemma writes_nothing D j off : fs_ok sb D -> live sb D j -> 0 <= off -> writes_file sb D D j off [].
Proof.
  intros F Hl Ho. split; [done|]. intros k Hk. case_decide as E; [subst|done]. unfold abs_fs, live in *. rewrite decide_False by done.
  by rewrite splice_nil.
Qed.

(** Recovery finds the file system before the write or after it. *)
Definition crash_atomic (D0 D : blocks) (j off : Z) (bs : list Z) (ws : list (Z * list Z)) : Prop :=
  forall k, valid_log (g_start g) (g_size g) (replay D0 (take k ws)) /\
    (writes_file sb D (crash_disk D0 ws k) j off [] \/ writes_file sb D (crash_disk D0 ws k) j off bs).

Lemma crash_atomic_of w D' j off bs ws ls : log_idle g ls w -> atomic_update (g_start g) (g_size g) (v_disk w) D' ws ->
  fs_ok sb (v_block w) -> live sb (v_block w) j -> 0 <= off -> writes_file sb (v_block w) D' j off bs -> crash_atomic (v_disk w) (v_block w) j off bs ws.
Proof.
  intros I [cp Hcp] F Hl Ho W k. destruct (Hcp k) as [Hv Hr]. split; [done|]. destruct (decide (k <= cp)%nat) as [Hk|Hk]; [left|right].
  - eapply writes_file_ext; [|by apply writes_nothing]. intros m Hm. unfold crash_disk. rewrite Hr by done. by eapply idle_clean.
  - eapply writes_file_ext; [|exact W]. intros m Hm. unfold crash_disk. by rewrite Hr.
Qed.

(** One transaction, of the first [length bs] bytes of what is left. *)
Lemma chunk_ok s w f x i P addr bs rest e : let n := Z.of_nat (length bs) in
  can_write s w f x i P addr (bs ++ rest) (4 + e) -> bs <> [] -> n <= filewrite_max ->
  exists s' w' i' ws, filewrite_chunk f addr n s = Ok n s' /\
    can_write s' w' f (set_foff (f_off x + n) x) i' P (addr + n) rest e /\ i_inum i' = i_inum i /\
    writes_file sb (v_block w) (v_block w') (i_inum i) (f_off x) bs /\
    v_writes w' = v_writes w ++ ws /\ (forall m, v_disk w' m = replay (v_disk w) ws m) /\
    crash_atomic (v_disk w) (v_block w) (i_inum i) (f_off x) bs ws.
Proof.
  intros n [C1 C2 C3 C4 C5 C6 C7 [C8 C8'] C9 C10 C11 C12 C13 C14 C15] Hne Hmax. set (D := v_block w) in *.
  rewrite length_app in C10, C12. assert (n = Z.of_nat (length bs)) as En by done.
  pose (laws := log_tx_laws (v_disk w) (v_writes w) 1 : TxDiskLaws (log_st B)).
  destruct (begin_op_tx g _ w C1) as (ls1 & E1 & R1). set (fs1 := set_ftx ls1 (ffs s)).
  assert (0 < n) as Hn by (destruct bs; [done|cbn in *; lia]).
  assert (frep g fs1 D ∅ ∅) as Fr1 by exact R1. assert (room g ∅) as Hr0 by (unfold room; rewrite size_empty; change MAXOPBLOCKS with 10 in *; lia).
  assert (cached g sb fs1 (f_ip x) i D) as C5' by (destruct C5; by split).
  assert (user_has (fmem (ffs s)) (fpagetable (ffs s)) addr bs) as Hub.
  { intros k b Hb. apply C9. rewrite lookup_app_l; [done|]. by eapply lookup_lt_Some. }
  destruct (locked_write_ok g sb HL MAXOPBLOCKS fs1 (f_ip x) i D (SUser addr) bs e (f_off x) C5' C2 Fr1 Hr0 C3 C6 C7)
    as (s2 & s3 & s4 & i' & D' & L' & E2 & E3 & E4 & R4 & Hsz & HF & W & Eis & Hlv & C' & Ej & Hsb4 & Hm4 & Hp4); try done; try lia.
  { apply (gives_user addr bs P); [done|done|lia|lia|done]. }
  { by eapply user_bytes_ok. }
  { eapply has_free_le; [|exact C13]. pose proof (nblk_chunk (f_off x) n ltac:(lia) ltac:(lia)). fold n. lia. }
  { apply chunk_budget; [done|done|lia|lia]. }
  destruct (end_op_tx g (v_disk w) (v_writes w) (ftx s4) D' L' R4) as (ls5 & w' & ws & E5 & Hidle & Ew & Ed & Hdisk & Hat).
  { change MAXOPBLOCKS with 10 in Hsz. unfold NBUF. lia. }
  assert (forall m, ~ g_log g m -> v_block w' m = D' m) as Hext by (intros m Hm; by apply Hdisk).
  destruct (fs_ok_ext g sb HL D' (v_block w') Hext (proj1 W)) as [Fw Hab].
  assert (disk_inode sb (v_block w') (i_inum i) = disk_inode sb D' (i_inum i)) as Edi.
  { unfold disk_inode. rewrite Hext; [done|]. by apply (iblock_not_log _ _ HL), (iblock_ok _ _ HL). }
  set (sf := mk_fst (set_ftx ls5 s4) (<[f := set_foff (f_off x + n) x]> (ftable s)) (fpipes s) (fcons s) (fdevsw s) (fkilled s)).
  exists sf, w', i', ws. split; [|split].
  - unfold filewrite_chunk. erewrite bind_Ok by reflexivity. unfold the_file. rewrite (list_lookup_total_correct _ _ _ C4).
    erewrite bind_Ok by (apply zoom_Ok, zoom_Ok; exact E1). erewrite bind_Ok by (apply zoom_Ok; exact E2).
    rewrite u32_small by (change filewrite_max with 3072 in Hmax; lia). erewrite bind_Ok by (apply zoom_Ok; exact E3).
    fold n. destruct (Z.ltb_spec 0 n); [|lia]. erewrite bind_Ok by reflexivity.
    erewrite bind_Ok by (apply zoom_Ok; exact E4). erewrite bind_Ok by (apply zoom_Ok, zoom_Ok; exact E5). unfold ret. f_equal.
    unfold sf, upd_file, set_ftable, set_ffs. cbn. f_equal. rewrite (alter_as_insert _ _ _ _ C4).
    rewrite u32_small; [done|]. change FILEMAX with (268 * 1024) in *. lia.
  - split; cbn -[isize iaddrs live disk_inode]; rewrite ?Ej; try done; try lia.
    + rewrite list_lookup_insert_eq; [done|]. by eapply lookup_lt_Some.
    + destruct C' as [Q1 Q2 Q3 Q4 Q5]. split; try done. rewrite Ej in *. by rewrite Edi.
    + unfold live. by rewrite Edi.
    + rewrite Hm4, Hp4. done.
    + rewrite Hm4, Hp4. intros k b Hb. replace (addr + n + Z.of_nat k) with (addr + Z.of_nat (length bs + k)) by lia.
      apply C9. rewrite lookup_app_r by lia. by replace (length bs + k - length bs)%nat with k by lia.
    + unfold isize. rewrite Edi. fold (isize sb D' (i_inum i)). rewrite Eis. lia.
    + unfold iaddrs. rewrite Edi. destruct HF as (X & HX & Hx). exists X. split; [done|]. intros b Hb. destruct (Hx b Hb) as [Hr Hu].
      split; [done|]. unfold used. rewrite Hext; [done|]. apply (bmap_not_log _ _ HL), (bblock_bmap _ _ HL). pose proof (data_pos _ _ HL b Hr). lia.
  - split; [done|]. split; [by eapply writes_file_ext|]. split; [done|]. split; [done|].
    eapply crash_atomic_of; [exact C1|exact Hat|done|done|lia|exact W].
Qed.

(** ** The whole write *)

Lemma length_splice off bs c : 0 <= off <= Z.of_nat (length c) ->
  Z.of_nat (length (splice off bs c)) = Z.max (Z.of_nat (length c)) (off + Z.of_nat (length bs)).
Proof. intros Ho. unfold splice. rewrite !length_app, length_take, length_drop. lia. Qed.

Lemma splice_splice off b1 b2 c : 0 <= off <= Z.of_nat (length c) ->
  splice (off + Z.of_nat (length b1)) b2 (splice off b1 c) = splice off (b1 ++ b2) c.
Proof.
  intros Ho. pose proof (length_splice off b1 c Ho) as Hl. apply list_eq. intros k.
  rewrite !splice_lookup by (rewrite ?Hl; lia). rewrite Hl, length_app, Nat2Z.inj_add.
  repeat case_decide; try lia; try done.
  - rewrite lookup_app_r by lia. f_equal. lia.
  - by rewrite lookup_app_l by lia.
Qed.

Lemma writes_file_trans D D1 D2 j off b1 b2 : is_inum sb j -> 0 <= off <= isize sb D j ->
  writes_file sb D D1 j off b1 -> writes_file sb D1 D2 j (off + Z.of_nat (length b1)) b2 -> writes_file sb D D2 j off (b1 ++ b2).
Proof.
  intros Hj Ho [F1 W1] [F2 W2]. split; [done|]. intros k Hk. rewrite W2 by done. pose proof (W1 j Hj) as E. rewrite decide_True in E by done.
  unfold abs_fs in E. destruct (decide (d_type (disk_inode sb D1 j) = 0)); [done|].
  assert (d_type (disk_inode sb D1 j) = d_type (disk_inode sb D j)) as -> by congruence.
  assert (content sb D1 j = splice off b1 (content sb D j)) as -> by congruence.
  case_decide; [|rewrite W1 by done; by rewrite decide_False].
  rewrite splice_splice; [done|]. unfold content. rewrite length_fslice. lia.
Qed.

(** After a crash and recovery, the file has a prefix of the bytes: whole transactions. *)
Definition crash_prefix (D0 D : blocks) (j off : Z) (bs : list Z) (ws : list (Z * list Z)) : Prop :=
  forall k, valid_log (g_start g) (g_size g) (replay D0 (take k ws)) /\
    exists c, (c = length bs \/ Z.of_nat c mod filewrite_max = 0 /\ (c < length bs)%nat) /\
      writes_file sb D (crash_disk D0 ws k) j off (take c bs).

Lemma crash_ext D D' start k : (forall m, D' m = D m) -> (forall m, recovered start D' m = recovered start D m) /\ (valid_log start k D -> valid_log start k D').
Proof.
  intros E. split.
  - intros m. unfold recovered. rewrite !E. by destruct (list_find _ _) as [[]|].
  - intros [V1 V2 V3]. split; by rewrite E.
Qed.

(** The first transaction wrote [b1], and the rest of the write is [b2]. *)
Lemma crash_prefix_app D0 D D0' D1 j off b1 b2 ws1 ws2 : is_inum sb j -> 0 <= off <= isize sb D j ->
  b1 <> [] -> b2 = [] \/ Z.of_nat (length b1) = filewrite_max ->
  writes_file sb D D1 j off b1 -> crash_atomic D0 D j off b1 ws1 -> (forall m, D0' m = replay D0 ws1 m) ->
  crash_prefix D0' D1 j (off + Z.of_nat (length b1)) b2 ws2 -> crash_prefix D0 D j off (b1 ++ b2) (ws1 ++ ws2).
Proof.
  intros Hj Ho Hb1 Hb2 W Hat HD0 Hrest k. destruct (decide (k <= length ws1)%nat) as [Hk|Hk].
  - unfold crash_disk. rewrite take_app_le by done. destruct (Hat k) as [Hv [Hw|Hw]]; (split; [done|]).
    + exists 0%nat. split; [|exact Hw]. right. split; [done|]. destruct b1; [done|]. cbn. lia.
    + exists (length b1). rewrite take_app_length. split; [|exact Hw]. rewrite length_app.
      destruct b2 as [|y b2]; [left; cbn; lia|]. destruct Hb2 as [|Hb2]; [done|]. right. rewrite Hb2. split; [done|cbn; lia].
  - unfold crash_disk. rewrite take_app_ge, replay_app by lia. set (k' := (k - length ws1)%nat).
    destruct (Hrest k') as [Hv (c & Hc & Hw)].
    destruct (crash_ext (replay D0' (take k' ws2)) (replay (replay D0 ws1) (take k' ws2)) (g_start g) (g_size g)) as [Er Ev].
    { intros m. apply replay_at. by rewrite HD0. }
    split; [by apply Ev|]. exists (length b1 + c)%nat. split.
    + rewrite length_app. destruct Hc as [->|[Hc Hlt]]; [by left|]. right. split; [|lia].
      destruct Hb2 as [->|Hb2]; [cbn in Hlt; lia|]. rewrite Nat2Z.inj_add, Hb2. rewrite <- Zplus_mod_idemp_l, Z_mod_same_full. done.
    + rewrite take_app_add. apply (writes_file_ext _ (crash_disk D0' ws2 k')); [intros m _; apply Er|]. by eapply writes_file_trans.
Qed.

Lemma filewrite_loop_ok f P addr n fuel : forall bs idx kc s w x i,
  can_write s w f x i P (addr + idx) bs (4 * kc) -> idx + Z.of_nat (length bs) = n -> 0 <= addr -> 0 <= idx ->
  Z.of_nat (length bs) <= filewrite_max * Z.of_nat kc -> (kc < fuel)%nat ->
  exists s' w' i' ws, filewrite_loop f addr n idx fuel s = Ok n s' /\
    can_write s' w' f (set_foff (f_off x + Z.of_nat (length bs)) x) i' P (addr + n) [] 0 /\
    writes_file sb (v_block w) (v_block w') (i_inum i) (f_off x) bs /\ v_writes w' = v_writes w ++ ws /\
    crash_prefix (v_disk w) (v_block w) (i_inum i) (f_off x) bs ws.
Proof.
  induction fuel as [|fuel IH]; intros bs idx kc s w x i C En Ha Hi Hk Hf; [lia|].
  pose proof C as [C1 C2 C3 C4 C5 C6 C7 C8 C9 C10 C11 C12 C13 C14 C15]. cbn [filewrite_loop]. destruct bs as [|b bs'].
  - cbn in En. destruct (Z.ltb_spec idx n); [lia|]. exists s, w, i, []. replace idx with n in * by lia.
    assert (writes_file sb (v_block w) (v_block w) (i_inum i) (f_off x) []) as W0 by (by apply writes_nothing; [..|lia]).
    split; [done|]. split.
    { cbn. rewrite Z.add_0_r. destruct x as [ty rf rd wr pp ipx o0 mj]. split; try done. eapply has_free_le; [|exact C13]. lia. }
    split; [done|]. split; [by rewrite app_nil_r|]. intros k. rewrite take_nil. cbn. pose proof (lo_head _ _ _ (li_log _ _ _ C1)) as Hh.
    rewrite (li_start _ _ _ C1) in Hh. split.
    + split; rewrite Hh; cbn; [pose proof (lo_n _ _ _ (li_log _ _ _ C1)); rewrite (li_size _ _ _ C1) in *; lia|by constructor|].
      intros m Hm. by apply elem_of_nil in Hm.
    + exists 0%nat. split; [by left|]. cbn. eapply writes_file_ext; [|exact W0]. intros m Hm. unfold crash_disk. rewrite take_nil. cbn.
      rewrite recovered_empty by done. by eapply idle_clean.
  - destruct kc as [|kc]; [cbn in Hk; lia|]. set (bs := b :: bs') in *. destruct (Z.ltb_spec idx n); [|cbn in *; lia].
    set (n1 := if filewrite_max <? n - idx then filewrite_max else n - idx).
    assert (n1 = Z.min filewrite_max (Z.of_nat (length bs)) /\ 0 < n1) as [En1 Hn1].
    { unfold n1. change filewrite_max with 3072. destruct (Z.ltb_spec 3072 (n - idx)); cbn in *; lia. }
    set (b1 := take (Z.to_nat n1) bs). set (b2 := drop (Z.to_nat n1) bs).
    assert (bs = b1 ++ b2) as Eb by (symmetry; apply take_drop).
    assert (Z.of_nat (length b1) = n1 /\ Z.of_nat (length b2) = Z.of_nat (length bs) - n1) as [L1 L2].
    { unfold b1, b2. rewrite length_take, length_drop. lia. }
    rewrite Eb in C. destruct (chunk_ok s w f x i P (addr + idx) b1 b2 (4 * kc)) as (s1 & w1 & i1 & ws1 & E1 & C' & Ej & W1 & Ew1 & Ed1 & A1).
    { by replace (4 + 4 * kc)%nat with (4 * S kc)%nat by lia. }
    { intros Hn. rewrite Hn in L1. cbn in L1. lia. }
    { lia. }
    rewrite L1 in *. rewrite <- Z.add_assoc in C'.
    destruct (IH b2 (idx + n1) kc s1 w1 _ i1 C') as (s2 & w2 & i2 & ws2 & E2 & C2' & W2 & Ew2 & P2); try lia.
    { change filewrite_max with 3072 in *. lia. }
    rewrite Ej in W2, P2. cbn [f_off set_foff] in W2, P2, C2'. rewrite Eb. exists s2, w2, i2, (ws1 ++ ws2). split; [|split; [|split; [|split]]].
    + destruct C10 as [A0 A64]. rewrite u64_small by lia. erewrite bind_Ok by exact E1. destruct (Z.ltb_spec n1 0); [lia|].
      rewrite Z.eqb_refl. cbn [negb]. exact E2.
    + rewrite length_app, Nat2Z.inj_add, L1. rewrite <- Z.add_assoc in C2'. exact C2'.
    + eapply writes_file_trans; [done|done|exact W1|]. by rewrite L1.
    + by rewrite Ew2, Ew1, app_assoc.
    + eapply crash_prefix_app; try done; [intros Hn; rewrite Hn in L1; cbn in L1; lia| |by rewrite L1].
      destruct (decide (Z.of_nat (length b2) = 0)); [left; destruct b2; [done|cbn in *; lia]|right; lia].
Qed.

(** C1: [filewrite] to a regular file on an idle system: all [n] bytes are written at
    the file's offset, which advances by [n]; the disk then holds the new content and no
    other file has changed.  If the machine crashes during the call, after any number of
    its disk writes, recovery finds a well-formed file system in which the file has a
    prefix of the new bytes, a whole number of [filewrite]'s transactions, and every
    other file is as before. *)
Theorem filewrite_crash_safe s w f x i P addr bs : let n := Z.of_nat (length bs) in
  can_write s w f x i P addr bs (4 * Z.to_nat (n / filewrite_max + 1)) -> f_type x = FD_INODE -> f_writable x <> 0 ->
  exists s' w' ws, filewrite f addr n s = Ok n s' /\ log_idle g (ftx (ffs s')) w' /\ f_off (the_file f s') = f_off x + n /\
    v_writes w' = v_writes w ++ ws /\ writes_file sb (v_block w) (v_disk w') (i_inum i) (f_off x) bs /\
    crash_prefix (v_disk w) (v_block w) (i_inum i) (f_off x) bs ws.
Proof.
  intros n C Ht Hw. pose proof C as [_ _ _ C4 _ _ _ _ _ C10 _ _ _ _ _].
  destruct (filewrite_loop_ok f P addr n (Z.to_nat (n / filewrite_max + 2)) bs 0 (Z.to_nat (n / filewrite_max + 1)) s w x i)
    as (s' & w' & i' & ws & E & C' & W & Ew & Pc); try lia.
  { by rewrite Z.add_0_r. }
  { change filewrite_max with 3072. fold n. Z.div_mod_to_equations. lia. }
  { change filewrite_max with 3072. Z.div_mod_to_equations. lia. }
  exists s', w', ws. split; [|split; [apply C'|split; [|split; [done|split; [|done]]]]].
  - unfold filewrite. erewrite bind_Ok by reflexivity. unfold the_file. rewrite (list_lookup_total_correct _ _ _ C4), Ht.
    destruct (Z.eqb_spec (f_writable x) 0); [done|]. erewrite bind_Ok by exact E. by rewrite Z.eqb_refl.
  - unfold the_file. by rewrite (list_lookup_total_correct _ _ _ (cw_file _ _ _ _ _ _ _ _ _ C')).
  - eapply writes_file_ext; [|exact W]. intros m Hm. eapply idle_clean; [apply C'|done].
Qed.
End Chunk.
