(* ===== verification/FsPath.v ===== *)
(** * kernel/fs.c: path names

    The inode cache as a multiset of references, and [namex]: it resolves a path along
    the directories of the disk, and counts exactly one reference for the inode it
    returns. *)
From stdpp Require Import base gmap gmultiset list numbers functions strings.
From Stdlib Require Import ZArith Lia.
From S2P Require Import Prelude Mem Bytes Sleeplock.
From S2P Require Import Access Bio BlockCache LogDisk TxDisk Fs FsBlocks FsFile FsRw FsSpec FsDir File FileSpec.
Open Scope Z_scope.

(** ** The elements of a path *)

(** A name before a slash or the end of the path, cut to 14 bytes. *)
Definition flush (cur : list Z) : list (list Z) := match cur with [] => [] | _ => [take DIRSIZ cur] end.

Fixpoint components (cur path : list Z) : list (list Z) :=
  match path with
  | [] => flush cur
  | c :: path' => if c =? SLASH then flush cur ++ components [] path' else components (cur ++ [c]) path'
  end.
Definition elems (path : list Z) : list (list Z) := components [] path.

(** A C string has no NUL inside. *)
Definition c_string (p : list Z) : Prop := 0 ∉ p.

Lemma elems_skip p : elems (skip_slashes p) = elems p.
Proof. induction p as [|c p IH]; [done|]. unfold elems in *. cbn. destruct (c =? SLASH) eqn:E; cbn; [done|by rewrite E]. Qed.

Lemma skip_length p : (length (skip_slashes p) <= length p)%nat.
Proof. induction p as [|c p IH]; cbn; [done|]. destruct (c =? SLASH); cbn; lia. Qed.

Lemma skip_c_string p : c_string p -> c_string (skip_slashes p).
Proof. unfold c_string. induction p as [|c p IH]; cbn; [done|]. destruct (c =? SLASH); set_solver. Qed.

Lemma skip_hd p : hd 0 (skip_slashes p) <> SLASH.
Proof. induction p as [|c p IH]; cbn; [done|]. destruct (Z.eqb_spec c SLASH); cbn; done. Qed.

Lemma flush_ne cur : cur <> [] -> flush cur = [take DIRSIZ cur].
Proof. by destruct cur. Qed.

Lemma path_elem_spec p : c_string p -> forall cur, let '(e, r) := path_elem p in
  p = e ++ r /\ c_string e /\ components cur p = flush (cur ++ e) ++ elems r /\ (hd SLASH p <> SLASH -> e <> []).
Proof.
  unfold c_string. induction p as [|c p IH]; intros Hp cur; cbn [path_elem].
  { unfold elems. cbn. rewrite !app_nil_r. split; [done|]. split; [set_solver|]. split; [done|]. intros []. done. }
  assert (c <> 0 /\ 0 ∉ p) as [Hc Hp'] by set_solver. destruct (Z.eqb_spec c SLASH) as [->|Hs]; cbn [negb andb].
  - unfold elems. cbn. rewrite app_nil_r. split; [done|]. split; [set_solver|]. split; [done|]. intros []. done.
  - destruct (Z.eqb_spec c 0); [done|]. cbn [negb]. specialize (IH Hp' (cur ++ [c])). destruct (path_elem p) as [e r]. destruct IH as (-> & He & Hcomp & _).
    split; [done|]. split; [set_solver|]. cbn. destruct (Z.eqb_spec c SLASH); [done|]. rewrite Hcomp, <- (assoc_L (++)). done.
Qed.

(** A NUL ends a name. *)
Lemma strncpy_nul n : forall e r, strncpy_arr (e ++ 0 :: r) n = strncpy_arr e n.
Proof.
  induction n as [|n IH]; intros e r; [done|]. cbn [strncpy_arr]. destruct e as [|x e]; cbn; [done|]. destruct (x =? 0); [done|]. by rewrite IH.
Qed.

Lemma strncpy_take n : forall e, strncpy_arr (take n e) n = strncpy_arr e n.
Proof. induction n as [|n IH]; intros e; [done|]. destruct e as [|x e]; [done|]. cbn. destruct (x =? 0); [done|]. by rewrite IH. Qed.

Lemma putn_prefix bs d : (length bs <= length d)%nat -> putn 0 bs d = bs ++ drop (length bs) d.
Proof.
  intros Hl. apply list_eq. intros i. rewrite putn_lookup. case_decide as Hi.
  - rewrite lookup_app_l by lia. f_equal. lia.
  - destruct (decide (i < length bs)%nat); [lia|]. rewrite lookup_app_r, lookup_drop by lia. f_equal. lia.
Qed.

Lemma skipelem_spec path name : c_string path -> length name = DIRSIZ ->
  match skipelem path name with
  | None => elems path = []
  | Some (rest, name') => exists e, elems path = e :: elems rest /\ same_name name' e /\ length name' = DIRSIZ /\
      (length rest < length path)%nat /\ c_string rest /\ (hd 0 rest = 0 <-> elems rest = [])
  end.
Proof.
  intros Hp Hn. unfold skipelem. rewrite <- (elems_skip path). pose proof (skip_c_string path Hp) as Hq. pose proof (skip_length path) as Hl.
  pose proof (skip_hd path) as Hh. destruct (skip_slashes path) as [|c q] eqn:Eq; [done|]. cbn [hd] in *. unfold c_string in Hq.
  destruct (Z.eqb_spec c 0) as [->|Hc]; [set_solver|]. pose proof (path_elem_spec (c :: q) Hq []) as Hs. destruct (path_elem (c :: q)) as [e r].
  destruct Hs as (E & He & Hcomp & Hne). specialize (Hne Hh). cbn [app] in Hcomp. rewrite flush_ne in Hcomp by done. exists (take DIRSIZ e).
  assert (length e + length r = S (length q))%nat as Hlen by (rewrite <- length_app, <- E; done).
  pose proof (skip_length r). assert (0 < length e)%nat by (by destruct e; [|cbn; lia]). cbn in Hl.
  assert (c_string r) as Hr by (unfold c_string; rewrite E in Hq; set_solver).
  split; [by rewrite elems_skip|]. split; [|split; [by case_match; rewrite length_putn|split; [lia|split; [by apply skip_c_string|]]]].
  - unfold same_name. rewrite strncpy_take. destruct (Nat.leb_spec DIRSIZ (length e)).
    + rewrite putn_prefix by (rewrite length_take; lia). rewrite length_take, Nat.min_l, <- Hn, drop_all, app_nil_r, Hn by lia. apply strncpy_take.
    + rewrite putn_prefix by (rewrite length_app; cbn; lia). rewrite <- (assoc_L (++)). apply strncpy_nul.
  - pose proof (skip_hd r) as Hr2. pose proof (skip_c_string r Hr) as Hr3.
    destruct (skip_slashes r) as [|c' r']; [done|]. cbn [hd] in *. unfold c_string in Hr3. split; [intros ->; set_solver|].
    pose proof (path_elem_spec (c' :: r') Hr3 []) as Hs'. destruct (path_elem (c' :: r')) as [e' r'']. destruct Hs' as (_ & _ & Hc' & Hne').
    unfold elems. rewrite Hc'. cbn [app]. rewrite flush_ne by (by apply Hne'). done.
Qed.

(** ** The inode cache *)
Section Cache.
Context (g : geom) (sb : superblock) (pid : Z) (D : blocks).
Implicit Types (l : list inode) (R : gmultiset Z) (lk : option nat).

(** The entry at index [k], when the inodes in use are [R] and this process has locked
    the entry [lk]. *)
Record entry_ok R lk (k : nat) (x : inode) : Prop := {
  en_nonneg : 0 <= i_ref x;
  en_lock : if decide (lk = Some k) then sl_locked (i_lock x) <> 0 /\ sl_pid (i_lock x) = pid /\ i_valid x = 1 /\ 0 < i_ref x else sl_locked (i_lock x) = 0;
  en_used : 0 < i_ref x -> i_dev x = g_dev g /\ is_inum sb (i_inum x) /\ live sb D (i_inum x) /\
    (i_valid x = 0 \/ i_valid x = 1 /\ dinode_of x = disk_inode sb D (i_inum x)) /\ i_ref x = Z.of_nat (multiplicity (i_inum x) R)
}.

(** [R] has every reference to an inode; an inode has one entry. *)
Record cache_ok R lk l : Prop := {
  ck_entry k x : l !! k = Some x -> entry_ok R lk k x;
  ck_inj k k' x y : l !! k = Some x -> l !! k' = Some y -> 0 < i_ref x -> 0 < i_ref y -> i_inum x = i_inum y -> k = k';
  ck_all j : j ∈ R -> exists k x, l !! k = Some x /\ 0 < i_ref x /\ i_inum x = j;
  ck_small : Z.of_nat (size R) < 2 ^ 31 - 1
}.

(** Entry [k] is inode [j], with a reference. *)
Definition ref_to l (k : nat) (j : Z) : Prop := exists x, l !! k = Some x /\ 0 < i_ref x /\ i_inum x = j.

Lemma mult_size R j : (multiplicity j R <= size R)%nat.
Proof.
  induction R as [|x R IH] using gmultiset_ind; [by rewrite multiplicity_empty|]. rewrite multiplicity_disj_union, gmultiset_size_disj_union, gmultiset_size_singleton.
  apply Nat.add_le_mono; [|exact IH]. rewrite multiplicity_singleton. case_decide; lia.
Qed.

(** One entry changes. *)
Lemma cache_update R lk l R' lk' ip x x' : cache_ok R lk l -> l !! ip = Some x -> entry_ok R' lk' ip x' ->
  (forall k y, k <> ip -> l !! k = Some y -> 0 < i_ref y -> i_inum y <> i_inum x') ->
  (0 < i_ref x -> i_inum x = i_inum x') -> (forall k, k <> ip -> lk' = Some k <-> lk = Some k) ->
  (forall j, j <> i_inum x' -> multiplicity j R' = multiplicity j R) -> (i_inum x' ∈ R' -> 0 < i_ref x') ->
  Z.of_nat (size R') < 2 ^ 31 - 1 -> cache_ok R' lk' (<[ip := x']> l).
Proof.
  intros [C1 C2 C3 C4] Hx Hx' Hne Hsame Hlk Hm Hin Hsz. pose proof (lookup_lt_Some _ _ _ Hx) as Hlt. split; [|..|done].
  - intros k y. destruct (decide (k = ip)) as [->|Hk]; [rewrite list_lookup_insert_eq by done; by intros [= <-]|].
    rewrite list_lookup_insert_ne by done. intros Hy. destruct (C1 k y Hy) as [E1 E2 E3]. split; [done|..].
    + repeat case_decide; naive_solver.
    + intros Hp. rewrite Hm by (by apply (Hne k)). by apply E3.
  - intros k k' y z. destruct (decide (k = ip)) as [->|Hk], (decide (k' = ip)) as [->|Hk']; try done;
      rewrite ?list_lookup_insert_eq, ?list_lookup_insert_ne by done.
    + intros [= <-] Hz _ Hp E. by destruct (Hne k' z Hk' Hz Hp).
    + intros Hy [= <-] Hp _ E. by destruct (Hne k y Hk Hy Hp).
    + apply C2.
  - intros j Hj. destruct (decide (j = i_inum x')) as [->|Hn].
    + exists ip, x'. rewrite list_lookup_insert_eq by done. split; [done|]. by split; [apply Hin|].
    + destruct (C3 j) as (k & y & Hy & Hp & <-). { apply elem_of_multiplicity. rewrite <- Hm by done. by apply elem_of_multiplicity. }
      exists k, y. rewrite list_lookup_insert_ne; [done|]. intros ->. simplify_eq. by apply Hn, Hsame.
Qed.

Section Steps.
Context (R : gmultiset Z) (lk : option nat) (l : list inode) (C : cache_ok R lk l).

Lemma entry_used k x : l !! k = Some x -> 0 < i_ref x -> i_ref x = Z.of_nat (multiplicity (i_inum x) R) /\ i_ref x < 2 ^ 31 - 1 /\
  forall k' y, k' <> k -> l !! k' = Some y -> 0 < i_ref y -> i_inum y <> i_inum x.
Proof.
  intros Hx Hp. destruct (en_used _ _ _ _ (ck_entry _ _ _ C k x Hx) Hp) as (_ & _ & _ & _ & E). split; [done|]. split.
  - pose proof (mult_size R (i_inum x)). pose proof (ck_small _ _ _ C). lia.
  - intros k' y Hk Hy Hp' E'. by apply Hk, (ck_inj _ _ _ C k' k y x).
Qed.

(** A reference more. *)
Lemma cache_incr k x : l !! k = Some x -> 0 < i_ref x -> Z.of_nat (size R) < 2 ^ 31 - 2 ->
  cache_ok (R ⊎ {[+ i_inum x +]}) lk (<[k := set_ref (i32 (i_ref x + 1)) x]> l).
Proof.
  intros Hx Hp Hsz. destruct (entry_used k x Hx Hp) as (E & Hs & Hne). destruct (ck_entry _ _ _ C k x Hx) as [_ E2 E3].
  rewrite i32_small by lia. eapply cache_update; [exact C|exact Hx|..]; try done.
  - split; cbn; [lia|case_decide; [|done]; intuition lia|]. intros _. destruct (E3 Hp) as (? & ? & ? & ? & ?).
    rewrite multiplicity_disj_union, multiplicity_singleton_eq. split_and!; try done. lia.
  - intros j Hj. cbn in Hj. rewrite multiplicity_disj_union, multiplicity_singleton_ne by done. lia.
  - intros _. cbn. lia.
  - rewrite gmultiset_size_disj_union, gmultiset_size_singleton. lia.
Qed.

(** A new entry. *)
Lemma cache_new k x j : l !! k = Some x -> i_ref x = 0 -> (forall k' y, l !! k' = Some y -> ~ is_cached (g_dev g) j y) ->
  is_inum sb j -> live sb D j -> Z.of_nat (size R) < 2 ^ 31 - 2 ->
  cache_ok (R ⊎ {[+ j +]}) lk (<[k := set_identity (g_dev g) j 1 0 x]> l).
Proof.
  intros Hx Hz Hno Hj Hl Hsz. destruct (ck_entry _ _ _ C k x Hx) as [_ E2 _].
  assert (forall k' y, l !! k' = Some y -> 0 < i_ref y -> i_inum y <> j) as Hne.
  { intros k' y Hy Hp E. destruct (en_used _ _ _ _ (ck_entry _ _ _ C k' y Hy) Hp) as (Ed & _). by apply (Hno k' y Hy). }
  assert (multiplicity j R = 0%nat) as Hm.
  { destruct (multiplicity j R) eqn:E; [done|]. destruct (ck_all _ _ _ C j) as (k' & y & Hy & Hp & Ej); [apply elem_of_multiplicity; lia|].
    by destruct (Hne k' y Hy Hp). }
  eapply cache_update; [exact C|exact Hx|..]; try done.
  - split; cbn; [lia|case_decide; [|done]; lia|]. intros _. rewrite multiplicity_disj_union, multiplicity_singleton_eq, Hm. split_and!; try done. by left.
  - intros k' y _. apply Hne.
  - lia.
  - intros j' Hj'. cbn in Hj'. rewrite multiplicity_disj_union, multiplicity_singleton_ne by done. lia.
  - rewrite gmultiset_size_disj_union, gmultiset_size_singleton. lia.
Qed.

(** A reference less. *)
Lemma cache_decr k x : l !! k = Some x -> 0 < i_ref x -> lk <> Some k -> cache_ok (R ∖ {[+ i_inum x +]}) lk (<[k := set_ref (i32 (i_ref x - 1)) x]> l).
Proof.
  intros Hx Hp Hlk. destruct (entry_used k x Hx Hp) as (E & Hs & Hne). destruct (ck_entry _ _ _ C k x Hx) as [_ E2 E3].
  rewrite i32_small by lia. eapply cache_update; [exact C|exact Hx|..]; try done.
  - split; cbn; [lia|by rewrite decide_False in *|]. intros _. destruct (E3 Hp) as (? & ? & ? & ? & ?).
    rewrite multiplicity_difference, multiplicity_singleton_eq. split_and!; try done. lia.
  - intros j Hj. cbn in Hj. rewrite multiplicity_difference, multiplicity_singleton_ne by done. lia.
  - cbn. rewrite elem_of_multiplicity, multiplicity_difference, multiplicity_singleton_eq. lia.
  - assert (size (R ∖ {[+ i_inum x +]}) <= size R)%nat by (apply gmultiset_subseteq_size; multiset_solver). pose proof (ck_small _ _ _ C). lia.
Qed.

(** There is a free entry while fewer inodes than entries are in use. *)
Lemma cache_free : (size (dom R) < length l)%nat -> exists k x, l !! k = Some x /\ i_ref x = 0.
Proof.
  intros Hlt. destruct (decide (Exists (fun x => i_ref x = 0) l)) as [(x & [k Hx]%list_elem_of_lookup & Hz)%Exists_exists|Hall].
  { by exists k, x. }
  exfalso. assert (forall k x, l !! k = Some x -> 0 < i_ref x) as Hp.
  { intros k x Hx. pose proof (en_nonneg _ _ _ _ (ck_entry _ _ _ C k x Hx)). apply Forall_Exists_neg in Hall. pose proof (Forall_lookup_1 _ _ _ _ Hall Hx) as Hn. cbn in Hn. lia. }
  assert (NoDup (i_inum <$> l)) as Hnd.
  { apply NoDup_alt. intros k k' j. rewrite !list_lookup_fmap. intros (x & Hx & ->)%fmap_Some (y & Hy & E)%fmap_Some. apply (ck_inj _ _ _ C k k' x y); eauto. }
  assert ((list_to_set (i_inum <$> l) : gset Z) ⊆ dom R) as Hsub.
  { intros j. rewrite elem_of_list_to_set, list_elem_of_fmap. intros (x & -> & [k Hx]%list_elem_of_lookup). apply gmultiset_elem_of_dom, elem_of_multiplicity.
    destruct (entry_used k x Hx (Hp k x Hx)) as (E & _). pose proof (Hp k x Hx). lia. }
  apply subseteq_size in Hsub. rewrite size_list_to_set, length_fmap in Hsub by done. lia.
Qed.
End Steps.

(** [ilock] and [iunlock]. *)
Lemma cache_lock R l k x : cache_ok R None l -> l !! k = Some x -> 0 < i_ref x -> cache_ok R (Some k) (<[k := lock_inode sb pid D x]> l).
Proof.
  intros C Hx Hp. destruct (entry_used _ _ _ C k x Hx Hp) as (E & Hs & Hne). destruct (ck_entry _ _ _ C k x Hx) as [_ E2 E3].
  destruct (E3 Hp) as (Ed & Hj & Hl & _ & Em). eapply cache_update; [exact C|exact Hx|..]; try done.
  - split; [cbn; lia|by rewrite decide_True|]. intros _. split_and!; try done. right. split; [done|].
    change (dinode_of (lock_inode sb pid D x) = disk_inode sb D (i_inum x)). unfold lock_inode. by destruct (disk_inode sb D (i_inum x)).
  - intros k' Hk. split; [|done]. intros [= ->]. done.
  - apply (ck_small _ _ _ C).
Qed.

Lemma cache_unlock R l k x name : cache_ok R (Some k) l -> l !! k = Some x -> cache_ok R None (<[k := set_lock (mk_slk 0 name 0) x]> l).
Proof.
  intros C Hx. destruct (ck_entry _ _ _ C k x Hx) as [E1 E2 E3]. rewrite decide_True in E2 by done. destruct E2 as (_ & _ & _ & Hp).
  destruct (entry_used _ _ _ C k x Hx Hp) as (E & Hs & Hne). eapply cache_update; [exact C|exact Hx|..]; try done.
  - intros k' Hk. split; [done|]. intros [= ->]. done.
  - apply (ck_small _ _ _ C).
Qed.
End Cache.

(** ** The steps of a path walk *)
Section Names.
Context {T U : Type} `{TxDiskLaws T} `{UserAccessLaws U} (g : geom) (sb : superblock) (HL : layout g sb).
Implicit Types (s : fs_st T U) (D : blocks) (L : gset Z) (R : gmultiset Z) (lk : option nat).

(** Inside a transaction on the disk [D]; [R] are the references to inodes, and this
    process holds the lock of [lk] only. *)
Record at_names s D L R lk : Prop := {
  an_sb : fsb s = sb;
  an_rep : frep g s D ∅ L;
  an_cache : cache_ok g sb (fpid s) D R lk (icache s);
  an_fs : fs_ok sb D;
  an_room : room g L
}.

(** What a path walk keeps. *)
Definition same_rest s s' : Prop :=
  fmem s' = fmem s /\ fpid s' = fpid s /\ fpagetable s' = fpagetable s /\ fcwd s' = fcwd s /\ length (icache s') = length (icache s).

#[export] Instance same_rest_po : PreOrder same_rest.
Proof. split; [done|]. intros a b c (?&?&?&?&?) (?&?&?&?&?). split_and!; congruence. Qed.

Lemma icache_upd s ip x f : icache s !! ip = Some x -> icache (upd_inode ip f s) = <[ip := f x]> (icache s).
Proof.
  intros Hx. cbn. apply list_eq. intros k. destruct (decide (k = ip)) as [->|].
  - rewrite list_lookup_alter_eq, Hx, list_lookup_insert_eq; [done|by eapply lookup_lt_Some].
  - by rewrite list_lookup_alter_ne, list_lookup_insert_ne.
Qed.

(** One entry of the cache changes. *)
Lemma at_names_upd s D L R lk R' lk' ip x f : at_names s D L R lk -> icache s !! ip = Some x ->
  cache_ok g sb (fpid s) D R' lk' (<[ip := f x]> (icache s)) -> at_names (upd_inode ip f s) D L R' lk' /\ same_rest s (upd_inode ip f s).
Proof.
  intros [A1 A2 A3 A4 A5] Hx C. split; [split; try done; by rewrite (icache_upd s ip x f Hx)|].
  split_and!; try done. by rewrite (icache_upd s ip x f Hx), length_insert.
Qed.

Lemma ref_to_upd s ip x f : icache s !! ip = Some x -> 0 < i_ref (f x) -> i_inum (f x) = i_inum x -> ref_to (icache (upd_inode ip f s)) ip (i_inum x) /\
  forall k j, ref_to (icache s) k j -> ref_to (icache (upd_inode ip f s)) k j.
Proof.
  intros Hx Hp Hi. rewrite (icache_upd s ip x f Hx). pose proof (lookup_lt_Some _ _ _ Hx).
  assert (ref_to (<[ip := f x]> (icache s)) ip (i_inum x)) as Hr by (exists (f x); by rewrite list_lookup_insert_eq).
  split; [done|]. intros k j (y & Hy & Hpy & <-). destruct (decide (k = ip)) as [->|]; [by simplify_eq|]. exists y. by rewrite list_lookup_insert_ne.
Qed.

(** [iget] succeeds, or every entry is in use. *)
Lemma iget_any s D L R lk j : at_names s D L R lk -> is_inum sb j -> live sb D j -> Z.of_nat (size R) < 2 ^ 31 - 2 ->
  (exists ip s', iget (g_dev g) j s = Ok ip s' /\ at_names s' D L (R ⊎ {[+ j +]}) lk /\ same_rest s s' /\ ref_to (icache s') ip j /\
    forall k j', ref_to (icache s) k j' -> ref_to (icache s') k j') \/
  iget (g_dev g) j s = Panic "iget: no inodes" /\ j ∉ R /\ (length (icache s) <= size (dom R))%nat.
Proof.
  intros A Hj Hl Hsz. pose proof (an_cache _ _ _ _ _ A) as C.
  destruct (iget_cases s (g_dev g) j) as [(ip & x & Hx & (Hp & _ & Ei) & E)|[Hno [(ip & x & Hx & Hz & E)|[Hall E]]]].
  - left. subst j. pose proof (cache_incr _ _ _ _ _ _ _ C ip x Hx Hp Hsz) as C'. destruct (entry_used _ _ _ _ _ _ _ C ip x Hx Hp) as (_ & Hs & _).
    eexists ip, _. split; [exact E|]. destruct (at_names_upd s D L R lk _ lk ip x (fun i => set_ref (i32 (i_ref i + 1)) i) A Hx C') as [A' Sr]. split; [exact A'|]. split; [exact Sr|].
    apply (ref_to_upd s ip x (fun i => set_ref (i32 (i_ref i + 1)) i)); [done| |done]. cbn. rewrite i32_small by lia. lia.
  - left. pose proof (cache_new _ _ _ _ _ _ _ C ip x j Hx Hz Hno Hj Hl Hsz) as C'. eexists ip, _. split; [exact E|].
    destruct (at_names_upd s D L R lk _ lk ip x (set_identity (g_dev g) j 1 0) A Hx C') as [A' Sr]. split; [exact A'|]. split; [exact Sr|].
    rewrite (icache_upd s ip x _ Hx). pose proof (lookup_lt_Some _ _ _ Hx). split.
    + eexists. rewrite list_lookup_insert_eq by done. done.
    + intros k j' (y & Hy & Hpy & <-). exists y. rewrite list_lookup_insert_ne; [done|]. intros ->. simplify_eq. lia.
  - right. split; [done|]. split.
    + intros (k & x & Hx & Hp & Ei)%(ck_all _ _ _ _ _ _ _ C). apply (Hno k x Hx). by destruct (en_used _ _ _ _ _ _ _ _ (ck_entry _ _ _ _ _ _ _ C k x Hx) Hp) as (? & _).
    + destruct (decide (size (dom R) < length (icache s))%nat) as [Hd|]; [|lia]. destruct (cache_free _ _ _ _ _ _ _ C Hd) as (k & x & Hx & Hz). by destruct (Hall k x Hx).
Qed.

Lemma iget_step s D L R lk j : at_names s D L R lk -> is_inum sb j -> live sb D j -> (size (dom R) < length (icache s))%nat -> Z.of_nat (size R) < 2 ^ 31 - 2 ->
  exists ip s', iget (g_dev g) j s = Ok ip s' /\ at_names s' D L (R ⊎ {[+ j +]}) lk /\ same_rest s s' /\ ref_to (icache s') ip j /\
    forall k j', ref_to (icache s) k j' -> ref_to (icache s') k j'.
Proof. intros A Hj Hl Hd Hsz. destruct (iget_any s D L R lk j A Hj Hl Hsz) as [|(_ & _ & ?)]; [done|lia]. Qed.

Lemma idup_step s D L R lk ip j : at_names s D L R lk -> ref_to (icache s) ip j -> Z.of_nat (size R) < 2 ^ 31 - 2 ->
  exists s', idup ip s = Ok ip s' /\ at_names s' D L (R ⊎ {[+ j +]}) lk /\ same_rest s s' /\ ref_to (icache s') ip j.
Proof.
  intros A (x & Hx & Hp & <-) Hsz. pose proof (an_cache _ _ _ _ _ A) as C. pose proof (cache_incr _ _ _ _ _ _ _ C ip x Hx Hp Hsz) as C'.
  destruct (entry_used _ _ _ _ _ _ _ C ip x Hx Hp) as (_ & Hs & _). eexists. split; [reflexivity|].
  destruct (at_names_upd s D L R lk _ lk ip x (fun i => set_ref (i32 (i_ref i + 1)) i) A Hx C') as [A' Sr]. split; [exact A'|]. split; [exact Sr|].
  apply (proj1 (ref_to_upd s ip x (fun i => set_ref (i32 (i_ref i + 1)) i) Hx ltac:(cbn; rewrite i32_small; lia) eq_refl)).
Qed.

Lemma iput_step s D L R ip j : at_names s D L R None -> ref_to (icache s) ip j -> d_nlink (disk_inode sb D j) <> 0 ->
  exists s', iput ip s = Ok tt s' /\ at_names s' D L (R ∖ {[+ j +]}) None /\ same_rest s s' /\
    forall k j', ref_to (icache s) k j' -> j' ∈ R ∖ {[+ j +]} -> ref_to (icache s') k j'.
Proof.
  intros A (x & Hx & Hp & <-) Hn. pose proof (an_cache _ _ _ _ _ A) as C. pose proof (cache_decr _ _ _ _ _ _ _ C ip x Hx Hp ltac:(done)) as C'.
  destruct (en_used _ _ _ _ _ _ _ _ (ck_entry _ _ _ _ _ _ _ C ip x Hx) Hp) as (_ & _ & _ & Hv & _).
  destruct (entry_used _ _ _ _ _ _ _ C ip x Hx Hp) as (Em & Hs & _).
  eexists. split; [apply (iput_drops s ip x Hx)|].
  { right. destruct Hv as [Hv|[_ Hd]]; [by left|right]. by rewrite <- Hd in Hn. }
  destruct (at_names_upd s D L R None _ None ip x (fun i => set_ref (i32 (i_ref i - 1)) i) A Hx C') as [A' Sr]. split; [exact A'|]. split; [exact Sr|].
  rewrite (icache_upd s ip x _ Hx). pose proof (lookup_lt_Some _ _ _ Hx). intros k j' (y & Hy & Hpy & <-) Hin. destruct (decide (k = ip)) as [->|].
  - simplify_eq. eexists. rewrite list_lookup_insert_eq by done. split; [done|]. cbn. rewrite i32_small by lia.
    rewrite elem_of_multiplicity, multiplicity_difference, multiplicity_singleton_eq in Hin. split; [lia|done].
  - exists y. by rewrite list_lookup_insert_ne.
Qed.

Lemma ilock_step s D L R ip j : at_names s D L R None -> ref_to (icache s) ip j ->
  exists s', ilock (Some ip) s = Ok tt s' /\ at_names s' D L R (Some ip) /\ same_rest s s' /\ ref_to (icache s') ip j.
Proof.
  intros A (x & Hx & Hp & <-). pose proof A as [A1 A2 A3 A4 A5]. destruct (ck_entry _ _ _ _ _ _ _ A3 ip x Hx) as [_ Hlock Hu].
  destruct (Hu Hp) as (Hd & Hj & Hl & Hv & _). cbn in Hlock. destruct (ilock_ok g sb HL s ip x D L) as (t & E & R'); try done; [split; try done; lia|].
  eexists. split; [exact E|]. pose proof (cache_lock _ _ _ _ _ _ _ _ A3 Hx Hp) as C'.
  destruct (at_names_upd s D L R None R (Some ip) ip x (fun _ => lock_inode sb (fpid s) D x) A Hx C') as [[B1 B2 B3 B4 B5] Sr].
  split; [by split|]. split; [exact Sr|]. exact (proj1 (ref_to_upd s ip x (fun _ => lock_inode sb (fpid s) D x) Hx Hp eq_refl)).
Qed.

Lemma iunlock_step s D L R ip j : at_names s D L R (Some ip) -> ref_to (icache s) ip j ->
  exists s', iunlock (Some ip) s = Ok tt s' /\ at_names s' D L R None /\ same_rest s s' /\ forall k j', ref_to (icache s) k j' -> ref_to (icache s') k j'.
Proof.
  intros A (x & Hx & Hp & <-). pose proof A as [A1 A2 A3 A4 A5]. destruct (ck_entry _ _ _ _ _ _ _ A3 ip x Hx) as [_ Hlock _].
  rewrite decide_True in Hlock by done. destruct Hlock as (Hl & Hpid & _). destruct (iunlock_ok s ip x Hx ltac:(lia) Hl Hpid) as (w & E).
  eexists. split; [exact E|]. pose proof (cache_unlock _ _ _ _ _ _ _ _ (sl_name (i_lock x)) A3 Hx) as C'.
  set (f := fun _ : inode => set_lock (mk_slk 0 (sl_name (i_lock x)) 0) x) in *.
  destruct (at_names_upd s D L R (Some ip) R None ip x f A Hx C') as [[B1 B2 B3 B4 B5] Sr].
  split; [by split|]. split; [exact Sr|]. exact (proj2 (ref_to_upd s ip x f Hx Hp eq_refl)).
Qed.

Lemma iunlockput_step s D L R ip j : at_names s D L R (Some ip) -> ref_to (icache s) ip j -> d_nlink (disk_inode sb D j) <> 0 ->
  exists s', iunlockput ip s = Ok tt s' /\ at_names s' D L (R ∖ {[+ j +]}) None /\ same_rest s s' /\
    forall k j', ref_to (icache s) k j' -> j' ∈ R ∖ {[+ j +]} -> ref_to (icache s') k j'.
Proof.
  intros A Hr Hn. destruct (iunlock_step s D L R ip j A Hr) as (s1 & E1 & A1 & S1 & K1).
  destruct (iput_step s1 D L R ip j A1 (K1 _ _ Hr) Hn) as (s2 & E2 & A2 & S2 & K2). exists s2. split; [|split; [done|split; [by trans s1|naive_solver]]].
  unfold iunlockput. by erewrite bind_Ok by exact E1.
Qed.

(** The locked entry as a locked file. *)
Lemma at_names_locked s D L R ip j : at_names s D L R (Some ip) -> ref_to (icache s) ip j ->
  exists i, locked_file g sb s ip i D L /\ i_inum i = j /\ icache s !! ip = Some i.
Proof.
  intros [A1 A2 A3 A4 A5] (x & Hx & Hp & <-). destruct (ck_entry _ _ _ _ _ _ _ A3 ip x Hx) as [_ Hlock Hu].
  rewrite decide_True in Hlock by done. destruct Hlock as (_ & _ & Hv1 & _). destruct (Hu Hp) as (Hd & Hj & Hl & Hv & _).
  assert (dinode_of x = disk_inode sb D (i_inum x)) as Hs by (destruct Hv as [Hv|[_ Hv]]; [lia|done]).
  exists x. split; [|done]. split; try done. split; try done; [apply A4|].
  pose proof (fo_iok _ _ _ (fk_file _ _ A4 _ Hj Hl)) as Hi. unfold iaddrs in Hi. by rewrite <- Hs in Hi.
Qed.

Lemma dirlookup_step s D L R ip j name : at_names s D L R (Some ip) -> ref_to (icache s) ip j ->
  d_type (disk_inode sb D j) = T_DIR -> isize sb D j mod DIRENT = 0 ->
  match dir_lookup (content sb D j) name with
  | None => exists s', dirlookup ip name s = Ok None s' /\ at_names s' D L R (Some ip) /\ same_rest s s' /\ icache s' = icache s
  | Some j' => is_inum sb j' -> live sb D j' -> (size (dom R) < length (icache s))%nat -> Z.of_nat (size R) < 2 ^ 31 - 2 ->
      exists next off s', dirlookup ip name s = Ok (Some (next, off)) s' /\ at_names s' D L (R ⊎ {[+ j' +]}) (Some ip) /\ same_rest s s' /\
        ref_to (icache s') next j' /\ ref_to (icache s') ip j
  end.
Proof.
  intros A Hr Ht Hm. destruct (at_names_locked _ _ _ _ _ _ A Hr) as (i & Lf & Ei & Hi). pose proof A as [A1 A2 A3 A4 A5].
  assert (locked_dir g sb s ip i D L) as Ld.
  { pose proof (lf_sync _ _ _ _ _ _ _ Lf) as Hs. rewrite Ei in Hs. split; [done|..].
    - change (d_type (dinode_of i) = T_DIR). by rewrite Hs.
    - change (d_size (dinode_of i) mod DIRENT = 0). by rewrite Hs. }
  destruct (dirlookup_ok g sb HL s ip i D L name Ld A5) as (t & loc & R' & _ & E). rewrite Ei in E. cbv zeta in E.
  set (s1 := set_local loc (set_ftx t s)) in *. assert (at_names s1 D L R (Some ip)) as B by (by split).
  unfold dir_lookup. destruct (dir_find (content sb D j) name) as [[k de]|]; cbn [fmap option_fmap option_map snd].
  - intros Hj Hl Hd Hsz. destruct (iget_step s1 D L R (Some ip) (de_inum de) B Hj Hl Hd Hsz) as (next & s2 & E2 & B2 & S2 & Hn & Hk).
    exists next, (16 * Z.of_nat k), s2. split; [rewrite E; by erewrite bind_Ok by exact E2|]. split; [done|]. split; [done|]. split; [done|]. by apply Hk.
  - exists s1. done.
Qed.

(** ** Any sequence of calls on the cache *)

(** A call, with the references [R] counted beside it: [iget] of an inode, and [idup],
    [ilock] with [iunlock], or [iput] of an entry the caller has. *)
Inductive icall D : fs_st T U * gmultiset Z -> fs_st T U * gmultiset Z -> Prop :=
| call_iget s R j ip s' : is_inum sb j -> live sb D j -> Z.of_nat (size R) < 2 ^ 31 - 2 ->
    iget (g_dev g) j s = Ok ip s' -> icall D (s, R) (s', R ⊎ {[+ j +]})
| call_idup s R ip j s' : ref_to (icache s) ip j -> Z.of_nat (size R) < 2 ^ 31 - 2 ->
    idup ip s = Ok ip s' -> icall D (s, R) (s', R ⊎ {[+ j +]})
| call_ilock s R ip j s' : ref_to (icache s) ip j -> (ilock (Some ip) ;; iunlock (Some ip)) s = Ok tt s' -> icall D (s, R) (s', R)
| call_iput s R ip j s' : ref_to (icache s) ip j -> d_nlink (disk_inode sb D j) <> 0 ->
    iput ip s = Ok tt s' -> icall D (s, R) (s', R ∖ {[+ j +]}).

Lemma icall_ok D L c c' : icall D c c' -> at_names c.1 D L c.2 None -> at_names c'.1 D L c'.2 None /\ same_rest c.1 c'.1.
Proof.
  intros [s R j ip s' Hj Hl Hsz E|s R ip j s' Hr Hsz E|s R ip j s' Hr E|s R ip j s' Hr Hn E] A; cbn [fst snd] in *.
  - destruct (iget_any s D L R None j A Hj Hl Hsz) as [(ip' & s1 & E' & A' & S' & _)|(E' & _)]; rewrite E in E'; [|done]. by injection E' as -> ->.
  - destruct (idup_step s D L R None ip j A Hr Hsz) as (s1 & E' & A' & S' & _). rewrite E in E'. by injection E' as ->.
  - destruct (ilock_step s D L R ip j A Hr) as (s1 & E1 & A1 & S1 & Hr1). destruct (iunlock_step s1 D L R ip j A1 Hr1) as (s2 & E2 & A2 & S2 & _).
    erewrite bind_Ok in E by exact E1. rewrite E in E2. injection E2 as ->. split; [done|by trans s1].
  - destruct (iput_step s D L R ip j A Hr Hn) as (s1 & E' & A' & S' & _). rewrite E in E'. by injection E' as ->.
Qed.


(** ** [namex] *)

(** An inode some directory entry names. *)
Definition linked D (j : Z) : Prop := is_inum sb j /\ live sb D j /\ d_nlink (disk_inode sb D j) <> 0.

(** The entries of a directory name inodes in use. *)
Definition dirs_ok D : Prop := forall j, linked D j -> d_type (disk_inode sb D j) = T_DIR ->
  isize sb D j mod DIRENT = 0 /\ forall n j', dir_lookup (content sb D j) n = Some j' -> linked D j'.

(** The inode the names [es] lead to from inode [j]: each of them looked up in a
    directory; the last is left out for [parent]. *)
Fixpoint walk D (parent : bool) (j : Z) (es : list (list Z)) : option Z :=
  match es with
  | [] => if parent then None else Some j
  | e :: es' =>
      if negb (d_type (disk_inode sb D j) =? T_DIR) then None
      else if parent && bool_decide (es' = []) then Some j
      else j' ← dir_lookup (content sb D j) e; walk D parent j' es'
  end.

(** What a walk from inode [j] leaves behind, over the references [R0] held before it. *)
Definition walk_post s D L R0 parent j path (r : option nat) (name : list Z) s' : Prop :=
  same_rest s s' /\
  match walk D parent j (elems path) with
  | None => r = None /\ at_names s' D L R0 None
  | Some j' => exists ip, r = Some ip /\ ref_to (icache s') ip j' /\ linked D j' /\ at_names s' D L (R0 ⊎ {[+ j' +]}) None /\
      (parent = true -> exists e, last (elems path) = Some e /\ same_name name e)
  end.

Lemma dom_add R0 (j : Z) : (size (dom (R0 ⊎ {[+ j +]})) <= S (size (dom R0)))%nat.
Proof.
  assert (dom (R0 ⊎ {[+ j +]}) ⊆ {[ j ]} ∪ (dom R0 : gset Z)) as Hs%subseteq_size.
  { intros x. rewrite elem_of_union, elem_of_singleton, !gmultiset_elem_of_dom, gmultiset_elem_of_disj_union, gmultiset_elem_of_singleton. tauto. }
  rewrite size_union_alt, size_singleton in Hs. assert (size ((dom R0 : gset Z) ∖ {[ j ]}) <= size (dom R0 : gset Z))%nat by (apply subseteq_size; set_solver). lia.
Qed.

Lemma namex_loop_ok D L R0 parent : dirs_ok D -> Z.of_nat (size R0) < 2 ^ 31 - 4 -> forall fuel path name s ip j,
  at_names s D L (R0 ⊎ {[+ j +]}) None -> ref_to (icache s) ip j -> linked D j -> (S (size (dom R0)) < length (icache s))%nat ->
  c_string path -> length name = DIRSIZ -> (length path < fuel)%nat ->
  exists r name' s', namex_loop ip path parent name fuel s = Ok (r, name') s' /\ walk_post s D L R0 parent j path r name' s'.
Proof.
  intros Hdirs Hsz. induction fuel as [|fuel IH]; intros path name s ip j A Hr Hlj Hdom Hp Hn Hf; [lia|]. cbn [namex_loop]. unfold walk_post.
  assert ((R0 ⊎ {[+ j +]}) ∖ {[+ j +]} = R0) as Edrop by multiset_solver. pose proof Hlj as (_ & _ & Hnl).
  pose proof (skipelem_spec path name Hp Hn) as Hs. destruct (skipelem path name) as [[rest name']|].
  2: { rewrite Hs. cbn [walk]. destruct parent.
    - destruct (iput_step s D L _ ip j A Hr Hnl) as (s1 & E1 & A1 & S1 & _). rewrite Edrop in A1. exists None, name, s1. split; [by erewrite bind_Ok by exact E1|done].
    - exists (Some ip), name, s. split; [done|]. split; [done|]. by exists ip. }
  destruct Hs as (e & Ee & Hsame & Hn' & Hlen & Hc & Hend). rewrite Ee. cbn [walk].
  destruct (ilock_step s D L _ ip j A Hr) as (s1 & E1 & A1 & S1 & Hr1). erewrite bind_Ok by exact E1. erewrite bind_Ok by reflexivity.
  destruct (at_names_locked _ _ _ _ _ _ A1 Hr1) as (i & Lf & Ei & Hi). rewrite (the_inode_lookup s1 ip i Hi).
  assert (i_type i = d_type (disk_inode sb D j)) as Et by (rewrite <- Ei, <- (lf_sync _ _ _ _ _ _ _ Lf); done). rewrite Et.
  destruct (Z.eqb_spec (d_type (disk_inode sb D j)) T_DIR) as [Hdir|Hdir]; cbn [negb].
  2: { destruct (iunlockput_step s1 D L _ ip j A1 Hr1 Hnl) as (s2 & E2 & A2 & S2 & _). rewrite Edrop in A2. exists None, name', s2.
    split; [by erewrite bind_Ok by exact E2|]. split; [by trans s1|done]. }
  assert ((hd 0 rest =? 0) = bool_decide (elems rest = [])) as ->. { case_bool_decide; [by apply Z.eqb_eq, Hend|apply Z.eqb_neq; tauto]. }
  destruct (parent && bool_decide (elems rest = [])) eqn:Epar.
  { apply andb_true_iff in Epar as [-> Hnil%bool_decide_eq_true]. destruct (iunlock_step s1 D L _ ip j A1 Hr1) as (s2 & E2 & A2 & S2 & K2).
    exists (Some ip), name', s2. split; [by erewrite bind_Ok by exact E2|]. split; [by trans s1|]. exists ip. rewrite Hnil. split_and!; try done; [by apply K2|].
    intros _. by exists e. }
  destruct (Hdirs j Hlj Hdir) as [Hmod Hents]. rewrite <- (dir_lookup_same _ name' e Hsame).
  pose proof (dirlookup_step s1 D L _ ip j name' A1 Hr1 Hdir Hmod) as Hl. destruct (dir_lookup (content sb D j) name') as [j'|] eqn:Ed; cbn [mbind option_bind].
  - pose proof (Hents name' j' Ed) as Hlj'. pose proof Hlj' as (Hj' & Hv' & _). pose proof (dom_add R0 j). assert (length (icache s1) = length (icache s)) as El1 by apply S1.
    destruct Hl as (next & off & s2 & E2 & A2 & S2 & Hn2 & Hr2); [done|done|lia|rewrite gmultiset_size_disj_union, gmultiset_size_singleton; lia|].
    erewrite bind_Ok by exact E2. cbv beta iota. destruct (iunlockput_step s2 D L _ ip j A2 Hr2 Hnl) as (s3 & E3 & A3 & S3 & K3). erewrite bind_Ok by exact E3.
    replace (((R0 ⊎ {[+ j +]}) ⊎ {[+ j' +]}) ∖ {[+ j +]}) with (R0 ⊎ {[+ j' +]}) in * by multiset_solver.
    assert (same_rest s s3) as S03 by (trans s1; [done|]; by trans s2). assert (length (icache s3) = length (icache s)) as El3 by apply S03.
    destruct (IH rest name' s3 next j' A3) as (r & n' & s4 & E4 & S4 & W); try done; [apply K3; [done|multiset_solver]|lia|lia|].
    exists r, n', s4. split; [done|]. split; [by trans s3|]. destruct (walk D parent j' (elems rest)) as [j''|]; [|done].
    destruct W as (ip' & ? & ? & ? & ? & Hlast). exists ip'. split_and!; try done. intros Hpar. destruct (Hlast Hpar) as (e' & Hl' & ?). exists e'. split; [|done].
    by destruct (elems rest).
  - destruct Hl as (s2 & E2 & A2 & S2 & Ec2). erewrite bind_Ok by exact E2. cbv beta iota.
    destruct (iunlockput_step s2 D L _ ip j A2 ltac:(by rewrite Ec2) Hnl) as (s3 & E3 & A3 & S3 & _). rewrite Edrop in A3.
    exists None, name', s3. split; [by erewrite bind_Ok by exact E3|]. split; [|done]. trans s1; [done|]. by trans s2.
Qed.

(** Where a path starts: the root, or the current directory. *)
Definition starts_at s (path : list Z) (j : Z) : Prop := if hd 0 path =? SLASH then j = ROOTINO else ref_to (icache s) (fcwd s) j.

Lemma namex_path s D L R path name parent j :
  at_names s D L R None -> dirs_ok D -> g_dev g = fs_ROOTDEV -> starts_at s path j -> linked D j ->
  c_string path -> length name = DIRSIZ -> (S (size (dom R)) < length (icache s))%nat -> Z.of_nat (size R) < 2 ^ 31 - 4 ->
  exists r name' s', namex path parent name s = Ok (r, name') s' /\ walk_post s D L R parent j path r name' s'.
Proof.
  intros A Hdirs Hdev Hstart Hlj Hp Hn Hdom Hsz. unfold namex. erewrite bind_Ok by reflexivity.
  assert (exists ip s1, (if hd 0 path =? SLASH then iget fs_ROOTDEV ROOTINO else idup (fcwd s)) s = Ok ip s1 /\
    at_names s1 D L (R ⊎ {[+ j +]}) None /\ same_rest s s1 /\ ref_to (icache s1) ip j) as (ip & s1 & E1 & A1 & S1 & Hr).
  { unfold starts_at in Hstart. pose proof Hlj as (Hj & Hl & _). destruct (hd 0 path =? SLASH).
    - subst j. rewrite <- Hdev. destruct (iget_step s D L R None ROOTINO A Hj Hl ltac:(lia) ltac:(lia)) as (ip & s1 & ? & ? & ? & ? & _). by exists ip, s1.
    - destruct (idup_step s D L R None (fcwd s) j A Hstart ltac:(lia)) as (s1 & ?). by exists (fcwd s), s1. }
  erewrite bind_Ok by exact E1. assert (length (icache s1) = length (icache s)) as El by apply S1.
  destruct (namex_loop_ok D L R parent Hdirs Hsz (S (length path)) path name s1 ip j A1 Hr Hlj ltac:(lia) Hp Hn ltac:(lia)) as (r & n' & s2 & E2 & S2 & W).
  exists r, n', s2. split; [exact E2|]. split; [by trans s1|exact W].
Qed.

(** C10: [namex] resolves a path along the directories of the disk.  It returns the inode
    that looking up the elements of the path one after the other leads to (the directory
    of the last one, and its name, for [nameiparent]), with exactly one reference more
    than before; it returns 0, and drops every reference it took, exactly when an element
    is missing, is not in a directory, or there is no last element.  It neither sleeps
    nor panics when no other process holds an inode lock and two cache entries are free;
    no lock stays held and the disk is unchanged. *)
Theorem namex_resolves s D L R path name parent j :
  at_names s D L R None -> dirs_ok D -> g_dev g = fs_ROOTDEV -> starts_at s path j -> linked D j ->
  c_string path -> length name = DIRSIZ -> (S (size (dom R)) < length (icache s))%nat -> Z.of_nat (size R) < 2 ^ 31 - 4 ->
  exists r name' s', namex path parent name s = Ok (r, name') s' /\ walk_post s D L R parent j path r name' s'.
Proof. apply namex_path. Qed.
End Names.
