(* ===== verification/FsDemo.v ===== *)
(** * A small file system

    A disk of 100 blocks as mkfs lays it out, with one empty file, mounted on a machine
    that has just booted: the hypotheses of the file-system theorems hold of it. *)
From stdpp Require Import base gmap list numbers functions strings.
From Stdlib Require Import ZArith Lia.
From S2P Require Import Prelude Mem Bytes Kalloc Vm PageTable UserVm UserCopy VmSpec Access Sleeplock Uart.
From S2P Require Pipe Console.
From S2P Require Import Bio BlockCache BioSpec Log LogDisk LogSpec LogOps TxDisk Fs FsBlocks FsFile FsRw FsSpec File FileSpec.
Open Scope Z_scope.

#[local] Existing Instances demo_linker demo_linker_ok.

Definition demo_sb : superblock := mk_sb FSMAGIC 100 65 16 30 2 32 34.
Definition demo_geom : geom := mk_geom 1 2 30.

Definition demo_dinode : dinode := mk_dinode T_FILE 0 0 1 0 (replicate 13 0).
Definition demo_fs (n : Z) : list Z :=
  if n =? 34 then [255; 255; 255; 255; 7] ++ replicate 1019 0
  else if n =? 32 then put_dinode (doff 1) demo_dinode zeros
  else zeros.

Lemma demo_layout : layout demo_geom demo_sb.
Proof. split; vm_compute; repeat split; discriminate. Qed.

Lemma demo_fs_block n : is_block (demo_fs n).
Proof.
  unfold demo_fs. destruct (n =? 34); [|destruct (n =? 32); [|apply zeros_block]].
  - split; [done|]. apply Forall_app. split; [repeat (apply Forall_cons; split; [lia|]); apply Forall_nil_2|apply Forall_replicate; lia].
  - destruct zeros_block as [H1 H2]. split; [by rewrite length_put_dinode|by apply put_dinode_bytes].
Qed.

Lemma demo_meta : meta_used demo_sb demo_fs.
Proof.
  intros m Hm. change (datastart demo_sb) with 35 in Hm.
  assert (forallb (fun m => negb (bit_of (demo_fs (BBLOCK m demo_sb)) (m mod BPB) =? 0)) (seqZ 0 35) = true) as H by (vm_compute; reflexivity).
  rewrite forallb_forall in H. specialize (H m). rewrite <- list_elem_of_In, elem_of_seqZ in H. specialize (H ltac:(lia)).
  unfold used. destruct (Z.eqb_spec (bit_of (demo_fs (BBLOCK m demo_sb)) (m mod BPB)) 0); done.
Qed.

Lemma demo_free m : 35 <= m < 100 -> ~ used demo_sb demo_fs m.
Proof.
  intros Hm.
  assert (forallb (fun m => bit_of (demo_fs (BBLOCK m demo_sb)) (m mod BPB) =? 0) (seqZ 35 65) = true) as H by (vm_compute; reflexivity).
  rewrite forallb_forall in H. specialize (H m). rewrite <- list_elem_of_In, elem_of_seqZ in H. specialize (H ltac:(lia)).
  apply Z.eqb_eq in H. intros Hn. by apply Hn.
Qed.

Lemma demo_has_free k : (k <= 65)%nat -> has_free demo_sb demo_fs k.
Proof.
  intros Hk. exists (list_to_set (seqZ 35 65)). split.
  - rewrite size_list_to_set by apply NoDup_seqZ. by rewrite length_seqZ.
  - intros b Hb. apply elem_of_list_to_set, elem_of_seqZ in Hb. split; [|apply demo_free; lia].
    change (datastart demo_sb) with 35. cbn. lia.
Qed.

Lemma demo_inode : disk_inode demo_sb demo_fs 1 = demo_dinode.
Proof. vm_compute. reflexivity. Qed.

Lemma demo_live j : is_inum demo_sb j -> live demo_sb demo_fs j -> j = 1.
Proof.
  unfold is_inum. cbn. intros Hj Hl.
  assert (forallb (fun j => (d_type (disk_inode demo_sb demo_fs j) =? 0) || (j =? 1)) (seqZ 0 16) = true) as H by (vm_compute; reflexivity).
  rewrite forallb_forall in H. specialize (H j). rewrite <- list_elem_of_In, elem_of_seqZ in H. specialize (H ltac:(lia)).
  unfold live in Hl. apply orb_true_iff in H as [H|H]; apply Z.eqb_eq in H; done.
Qed.

Lemma demo_addr bn : in_file bn -> addr_of demo_fs (replicate 13 0) bn = 0.
Proof.
  intros Hbn. unfold addr_of. destruct (Z.ltb_spec bn NDIRECT); [|done]. unfold in_file in Hbn. change NDIRECT with 12 in *.
  apply lookup_total_replicate_2. lia.
Qed.

Lemma demo_file_ok : file_ok demo_sb demo_fs 1.
Proof.
  split; unfold iaddrs, isize; rewrite demo_inode.
  - split; [done|..].
    + intros bn Hbn. by rewrite demo_addr.
    + done.
    + intros bn bn' Hbn Hbn'. by rewrite demo_addr.
    + intros bn Hbn. by rewrite demo_addr.
  - split; try done; [..|by apply Forall_replicate]; unfold short; cbn; lia.
  - done.
  - intros x Hx. cbn in Hx. lia.
Qed.

Lemma demo_fs_ok : fs_ok demo_sb demo_fs.
Proof.
  split; [exact demo_meta|..].
  - intros j Hj ->%demo_live; [apply demo_file_ok|done].
  - intros j j' m Hj Hj' ->%demo_live ->%demo_live; done.
Qed.

Lemma demo_log : log_blocks (demo_fs 2) = [].
Proof. vm_compute. reflexivity. Qed.

Lemma demo_valid : valid_log 2 30 demo_fs.
Proof.
  split; rewrite demo_log; [done|by constructor|]. intros b Hb. by apply elem_of_nil in Hb.
Qed.

(** The log after the machine has booted from the disk. *)
Lemma demo_boot : exists (ls : log_st bio_st) w, log_idle demo_geom ls w /\
  fs_ok demo_sb (v_block w) /\ (forall m, ~ g_log demo_geom m -> v_block w m = demo_fs m).
Proof.
  assert (30 <= LOGSIZE) as H30 by (unfold LOGSIZE, MAXOPBLOCKS; lia).
  assert (0 <= 2 /\ 2 + 30 <= 2 ^ 32) as [H0 H32] by lia.
  destruct (boot_initlog 2 30 7 demo_fs demo_fs_block demo_valid H30 H0 H32) as (ls & w & ws & E & Hrec & _).
  destruct (initlog_ops ROOTDEV 2 30 (boot_log 7 demo_fs) (boot_view demo_fs) demo_fs ls) as [Eo Ec];
    [apply boot_rep; [discriminate|exact demo_fs_block]|exact (boot_bootable 2 30 7 demo_fs demo_valid H30 H0 H32)|exact E|].
  change (outstanding (boot_log 7 demo_fs)) with 0 in Eo. change (committing (boot_log 7 demo_fs)) with 0 in Ec.
  assert (log_idle demo_geom ls w) as I.
  { destruct Hrec as [R1 R2 R3 R4 R5 R6 R7 R8 R9 R10 R11 R12]. split; [exact R1|exact R7|exact R5|exact R6|exact Eo|exact Ec|exact R2|exact R3|exact R4|].
    intros m. rewrite R12, demo_log. rewrite decide_False; [reflexivity|]. apply not_elem_of_nil. }
  assert (forall m, ~ g_log demo_geom m -> v_block w m = demo_fs m) as Hd.
  { intros m Hm. rewrite <- (idle_clean demo_geom ls w m I Hm). rewrite (rc_content _ _ _ _ _ _ _ Hrec m Hm).
    apply recovered_empty, demo_log. }
  exists ls, w. split; [exact I|]. split; [|exact Hd]. exact (proj1 (fs_ok_ext demo_geom demo_sb demo_layout demo_fs (v_block w) Hd demo_fs_ok)).
Qed.

(** The empty file, open at offset 0, on that machine. *)
Definition demo_slk : sleeplock := mk_slk 0 "inode" 0.
Definition demo_ip : inode := mk_inode 1 1 1 demo_slk 0 0 0 0 0 0 (replicate 13 0).
Definition demo_fs_st (ls : log_st bio_st) (u : kmem_st) (pt : Z) : fs_st (log_st bio_st) kmem_st :=
  mk_fs ls demo_sb [demo_ip] u 7 pt 0 [] [].
Definition demo_file : file := mk_file FD_INODE 1 1 1 0 0 0 0.
Definition demo_file_st (ls : log_st bio_st) (u : kmem_st) (pt : Z) : file_st bio_st kmem_st :=
  mk_fst (demo_fs_st ls u pt) [demo_file] ∅ (Console.demo_cons u) [] false.

Lemma demo_disk_inode D : (forall m, ~ g_log demo_geom m -> D m = demo_fs m) -> disk_inode demo_sb D 1 = demo_dinode.
Proof.
  intros Hd. rewrite <- demo_inode. unfold disk_inode. rewrite Hd; [reflexivity|]. unfold g_log, in_log. vm_compute. intros [_ H]. discriminate.
Qed.

Lemma demo_free_ext D k : (k <= 65)%nat -> (forall m, ~ g_log demo_geom m -> D m = demo_fs m) -> has_free demo_sb D k.
Proof.
  intros Hk Hd. destruct (demo_has_free k Hk) as (X & HX & Hx). exists X. split; [done|]. intros b Hb. destruct (Hx b Hb) as [Hr Hu].
  split; [done|]. unfold used. rewrite Hd; [exact Hu|]. pose proof (data_pos _ _ demo_layout b Hr).
  apply (bmap_not_log _ _ demo_layout), (bblock_bmap _ _ demo_layout). cbn in *. lia.
Qed.

Lemma demo_can_write n q : Z.of_nat n <= 8000 -> (q <= 60)%nat -> exists ls u pt w, let s := demo_file_st ls u pt in
  can_write demo_geom demo_sb s w 0 demo_file demo_ip {[ pt ]} 0 (replicate n 0) q.
Proof.
  intros Hn Hq. destruct demo_boot as (ls & w & I & F & Hd). destruct Pipe.demo_user as (u & pt & Hok & Hb).
  pose proof (demo_disk_inode _ Hd) as Ei. exists ls, u, pt, w. split.
  - exact I.
  - reflexivity.
  - exact F.
  - reflexivity.
  - split; [reflexivity|reflexivity|cbn; lia|reflexivity|]. left. reflexivity.
  - split; [cbn; lia|reflexivity].
  - unfold live. change (i_inum demo_ip) with 1. rewrite Ei. discriminate.
  - split; [exact Hok|]. by apply elem_of_singleton.
  - intros k b [-> Hk]%lookup_replicate. apply Hb. lia.
  - rewrite length_replicate. lia.
  - unfold isize. change (i_inum demo_ip) with 1. rewrite Ei. cbn. lia.
  - rewrite length_replicate. change FILEMAX with (268 * 1024). cbn [f_off demo_file]. lia.
  - unfold iaddrs. change (i_inum demo_ip) with 1. rewrite Ei. change (ineed (d_addrs demo_dinode)) with 1%nat. apply demo_free_ext; [lia|exact Hd].
  - vm_compute. lia.
  - vm_compute. discriminate.
Qed.

Lemma filewrite_crash_safe_witness : exists (s : file_st bio_st kmem_st) s', filewrite 0 0 5000 s = Ok 5000 s' /\ f_off (the_file 0 s') = 5000.
Proof.
  destruct (demo_can_write (Z.to_nat 5000) 8) as (ls & u & pt & w & C); [lia|lia|].
  destruct (filewrite_crash_safe demo_geom demo_sb demo_layout (demo_file_st ls u pt) w 0 demo_file demo_ip {[ pt ]} 0 (replicate (Z.to_nat 5000) 0))
    as (s' & w' & ws & E & _ & Eo & _).
  - rewrite length_replicate, Z2Nat.id by lia. exact C.
  - reflexivity.
  - discriminate.
  - rewrite length_replicate, Z2Nat.id in E, Eo by lia. exists (demo_file_st ls u pt), s'. split; [exact E|exact Eo].
Defined.

(** The file locked inside a transaction. *)
Lemma demo_locked : exists D0 W0, let laws := (log_tx_laws D0 W0 1 : TxDiskLaws (log_st bio_st)) in
  exists (s : fs_st (log_st bio_st) kmem_st) i D, locked_file demo_geom demo_sb s 0 i D ∅ /\ i_size i = 0 /\
    has_free demo_sb D (60 + ineed (i_addrs i)) /\ i_addrs i = replicate 13 0 /\ ua_ok (fmem s) {[ fpagetable s ]} /\
    forall va, 0 <= va < 8192 -> ua_view (fmem s) (fpagetable s) va = Some 0.
Proof.
  destruct demo_boot as (ls & w & I & F & Hd). destruct Pipe.demo_user as (u & pt & Hok & Hb).
  exists (v_disk w), (v_writes w). intros laws. destruct (begin_op_tx demo_geom ls w I) as (ls1 & E1 & R1).
  pose proof (demo_disk_inode _ Hd) as Ei. set (s1 := demo_fs_st ls1 u pt).
  assert (live demo_sb (v_block w) 1) as Hl by (unfold live; rewrite Ei; discriminate).
  assert (is_inum demo_sb 1) as Hj by (split; [lia|reflexivity]).
  assert (cached demo_geom demo_sb s1 0 demo_ip (v_block w)) as C by (split; [reflexivity|reflexivity|cbn; lia|reflexivity|left; reflexivity]).
  assert (room demo_geom ∅) as Hr by (unfold room; rewrite size_empty; reflexivity).
  destruct (ilock_ok demo_geom demo_sb demo_layout s1 0 demo_ip (v_block w) ∅ C eq_refl R1 Hr Hj Hl) as (t2 & E2 & R2).
  exists (set_ftx t2 (upd_inode 0 (fun _ => lock_inode demo_sb 7 (v_block w) demo_ip) s1)), (lock_inode demo_sb 7 (v_block w) demo_ip), (v_block w).
  assert (i_addrs (lock_inode demo_sb 7 (v_block w) demo_ip) = replicate 13 0) as Ea.
  { unfold lock_inode. cbn [i_addrs set_lock set_valid set_dinode i_inum demo_ip]. by rewrite Ei. }
  split; [|split; [|split; [|split; [exact Ea|split; [exact Hok|exact Hb]]]]].
  - split; [split|exact F|exact Hj|exact Hl|].
    + reflexivity.
    + reflexivity.
    + reflexivity.
    + exact R2.
    + apply F.
    + rewrite Ea. pose proof (fo_iok _ _ _ (fk_file _ _ F 1 Hj Hl)) as Iok. unfold iaddrs in Iok. by rewrite Ei in Iok.
    + unfold lock_inode. cbn [dinode_of i_type i_major i_minor i_nlink i_size i_addrs set_lock set_valid set_dinode i_inum demo_ip].
      by destruct (disk_inode demo_sb (v_block w) 1).
  - unfold lock_inode. cbn [i_size set_lock set_valid set_dinode i_inum demo_ip]. by rewrite Ei.
  - rewrite Ea. apply demo_free_ext; [cbn; lia|exact Hd].
Qed.

Lemma demo_budget k : (k <= 4)%nat -> budget demo_geom demo_sb 10 (replicate 13 0) ∅ k.
Proof.
  intros Hk. unfold budget. change (ineed (replicate 13 0)) with 1%nat. change (inds (replicate 13 0)) with (∅ : gset Z).
  replace (size (bmaps demo_sb ∪ ∅ ∪ ∅)) with 1%nat by (vm_compute; reflexivity). split; [lia|]. vm_compute. discriminate.
Qed.

Lemma writei_refines_witness : exists (s s' : fs_st (log_st bio_st) kmem_st), writei 0 (SLocal [104; 105]) 0 2 s = Ok 2 s'.
Proof.
  destruct demo_locked as (D0 & W0 & s & i & D & Hlf & Hs & Hf & Ha & _).
  destruct (writei_refines (H0 := log_tx_laws D0 W0 1) demo_geom demo_sb demo_layout 10 s 0 i D ∅ (SLocal [104; 105]) [104; 105] 0 Hlf)
    as (s' & i' & D' & L' & E & _).
  - apply gives_local.
  - repeat (apply Forall_cons; split; [lia|]). apply Forall_nil_2.
  - discriminate.
  - rewrite Hs. lia.
  - vm_compute. discriminate.
  - eapply has_free_le; [|exact Hf]. rewrite Ha. vm_compute. lia.
  - rewrite Ha. apply demo_budget. vm_compute. lia.
  - exists s, s'. exact E.
Defined.

Lemma readi_user_content_witness : exists (s s' : fs_st (log_st bio_st) kmem_st) r, readi 0 (DUser 0) 0 100 s = Ok r s'.
Proof.
  destruct demo_locked as (D0 & W0 & s & i & D & Hlf & Hs & _ & _ & Hok & Hb).
  destruct (readi_user_content (H0 := log_tx_laws D0 W0 1) demo_geom demo_sb demo_layout s 0 i D ∅ 0 0 100 {[ fpagetable s ]} Hlf Hok) as (r & s' & q & E & _).
  - by apply elem_of_singleton.
  - rewrite Hs. lia.
  - lia.
  - lia.
  - lia.
  - lia.
  - unfold room. rewrite size_empty. reflexivity.
  - exists s, s', r. exact E.
Defined.
