(* ===== verification/Triple.v ===== *)
(** * Triples for the kernel monad

    [triple P m Q R]: from a state of [P], if [m] returns it ends in [Q], and if it
    gives up the CPU it leaves a state of [R].  The rules are one per construct. *)
From stdpp Require Import base list numbers.
From Stdlib Require Import ZArith Lia.
From S2P Require Import Prelude.

Definition triple {T A} (P : T -> Prop) (m : M T A) (Q : A -> T -> Prop) (R : T -> Prop) : Prop :=
  forall s, P s -> match m s with Ok a s' => Q a s' | Block _ s' => R s' | _ => True end.

Section Rules.
Context {T A C : Type}.
Implicit Types (P : T -> Prop) (R : T -> Prop).

Lemma triple_bind P (m : M T A) (k : A -> M T C) Q' Q R :
  triple P m Q' R -> (forall a, triple (Q' a) (k a) Q R) -> triple P (bind m k) Q R.
Proof. intros Hm Hk s Hs. unfold bind. specialize (Hm s Hs). destruct (m s); try done. by apply Hk. Qed.

Lemma triple_conseq P P' (m : M T A) Q Q' (R R' : T -> Prop) :
  triple P' m Q' R' -> (forall s, P s -> P' s) -> (forall a s, Q' a s -> Q a s) -> (forall s, R' s -> R s) ->
  triple P m Q R.
Proof. intros Hm HP HQ HR s Hs. specialize (Hm s (HP s Hs)). destruct (m s); auto. Qed.

Lemma triple_pre P P' (m : M T A) Q R : triple P' m Q R -> (forall s, P s -> P' s) -> triple P m Q R.
Proof. intros Hm HP s Hs. exact (Hm s (HP s Hs)). Qed.

Lemma triple_ret (P : T -> Prop) (a : A) (Q : A -> T -> Prop) R : (forall s, P s -> Q a s) -> triple P (ret a) Q R.
Proof. intros HQ s Hs. by apply HQ. Qed.

Lemma triple_panic P msg (Q : A -> T -> Prop) R : triple P (panic msg) Q R.
Proof. intros s _. done. Qed.

Lemma triple_undefined P (Q : A -> T -> Prop) R : triple P undefined Q R.
Proof. intros s _. done. Qed.

Lemma triple_block P c (Q : A -> T -> Prop) R : (forall s, P s -> R s) -> triple P (block c) Q R.
Proof. intros HR s Hs. by apply HR. Qed.
End Rules.

Section StateRules.
Context {T : Type}.
Implicit Types (P : T -> Prop) (R : T -> Prop).

(** [get] names the state: the rest is proved for that state. *)
Lemma triple_get {C} P (k : T -> M T C) Q R : (forall s, P s -> triple (eq s) (k s) Q R) -> triple P (bind get k) Q R.
Proof. intros Hk s Hs. by apply (Hk s Hs). Qed.

Lemma triple_modify P f (Q : unit -> T -> Prop) R : (forall s, P s -> Q tt (f s)) -> triple P (modify f) Q R.
Proof. intros HQ s Hs. by apply HQ. Qed.

Lemma triple_put P s' (Q : unit -> T -> Prop) R : (forall s, P s -> Q tt s') -> triple P (put s') Q R.
Proof. intros HQ s Hs. by apply (HQ s). Qed.

(** Constructs that keep one invariant. *)
Definition keeps {A} (I : T -> Prop) (R : T -> Prop) (m : M T A) : Prop := triple I m (fun _ => I) R.

Lemma keeps_bind {A C} (I R : T -> Prop) (m : M T A) (k : A -> M T C) :
  keeps I R m -> (forall a, keeps I R (k a)) -> keeps I R (bind m k).
Proof. intros Hm Hk. by eapply triple_bind. Qed.

Lemma keeps_ret {A} (I R : T -> Prop) (a : A) : keeps I R (ret a).
Proof. by apply triple_ret. Qed.

Lemma keeps_get (I R : T -> Prop) : keeps I R get.
Proof. intros s Hs. exact Hs. Qed.

Lemma keeps_modify (I R : T -> Prop) f : (forall s, I s -> I (f s)) -> keeps I R (modify f).
Proof. intros Hf s Hs. by apply Hf. Qed.

Lemma keeps_if {A} (I R : T -> Prop) (b : bool) (m m' : M T A) :
  keeps I R m -> keeps I R m' -> keeps I R (if b then m else m').
Proof. by destruct b. Qed.

Lemma keeps_panic {A} (I R : T -> Prop) msg : keeps I R (panic msg : M T A).
Proof. apply triple_panic. Qed.

Lemma keeps_undefined {A} (I R : T -> Prop) : keeps I R (undefined : M T A).
Proof. apply triple_undefined. Qed.
End StateRules.

#[export] Hint Resolve keeps_ret keeps_get keeps_panic keeps_undefined : xv6.

(** Walk through the constructs that keep an invariant. *)
Ltac keeps_step :=
  match goal with
  | |- keeps _ _ (bind _ _) => apply keeps_bind; [|intros ?]
  | |- keeps _ _ (if ?b then _ else _) => apply keeps_if
  | |- keeps _ _ (match ?x with _ => _ end) => destruct x
  | |- keeps _ _ _ => solve [eauto with xv6]
  end.
