(* ===== verification/Kprintf.v ===== *)
(** * kernel/printf.c: formatted console output

    The characters a call prints are computed first; [printf] sends them to the console
    one by one.  A variadic argument of the wrong kind is undefined. *)
From stdpp Require Import base list numbers strings.
From Stdlib Require Import ZArith Lia.
From S2P Require Import Prelude Uart.
From S2P Require Console.
Open Scope Z_scope.

Inductive va_arg := AInt (x : Z) | APtr (x : Z) | AStr (s : option (list Z)).

(** The bytes of a string literal. *)
Fixpoint lit (s : string) : list Z :=
  match s with EmptyString => [] | String c s' => Z.of_nat (Ascii.nat_of_ascii c) :: lit s' end.

Definition digits : list Z := lit "0123456789abcdef".

(** [do { buf[i++] = digits[x % base]; } while((x /= base) != 0);] *)
Fixpoint digits_loop (digits : list Z) (x base : Z) (fuel : nat) : list Z :=
  match fuel with
  | O => []
  | S f => digits !!! Z.to_nat (x mod base) :: (if x / base =? 0 then [] else digits_loop digits (x / base) base f)
  end.

(** What [printint] sends: [buf] backwards.  A [uint] has at most 32 digits. *)
Definition printint (xx base : Z) (sign : bool) : list Z :=
  let neg := sign && (xx <? 0) in
  let x := if neg then u32 (- xx) else u32 xx in
  let buf := digits_loop digits x base 32 in
  rev (if neg then buf ++ [45] else buf).

Fixpoint printptr_loop (digits : list Z) (x : Z) (k : nat) : list Z :=
  match k with
  | O => []
  | S k' => digits !!! Z.to_nat (Z.shiftr x 60) :: printptr_loop digits (u64 (Z.shiftl x 4)) k'
  end.
Definition printptr (x : Z) : list Z := 48 :: 120 :: printptr_loop digits x 16.

(** The loop of [printf]; [None] for an argument the format does not fit. *)
Fixpoint format (fmt : list Z) (ap : list va_arg) : option (list Z) :=
  match fmt with
  | [] => Some []
  | c :: fmt =>
      if negb (c =? 37) then cons c <$> format fmt ap
      else
        match fmt with
        | [] => Some []
        | c :: fmt =>
            if c =? 100 then
              match ap with AInt x :: ap => app (printint (i32 x) 10 true) <$> format fmt ap | _ => None end
            else if c =? 120 then
              match ap with AInt x :: ap => app (printint (i32 x) 16 true) <$> format fmt ap | _ => None end
            else if c =? 112 then
              match ap with APtr x :: ap => app (printptr (u64 x)) <$> format fmt ap | _ => None end
            else if c =? 115 then
              match ap with AStr s :: ap => app (default (lit "(null)") s) <$> format fmt ap | _ => None end
            else if c =? 37 then cons 37 <$> format fmt ap
            else app [37; c] <$> format fmt ap
        end
  end.

Definition printf (fmt : string) (ap : list va_arg) : M uart_st unit :=
  match format (lit fmt) ap with Some out => Console.put_all out | None => undefined end.

(** [panic] up to its endless loop. *)
Definition panic_output (s : list Z) : M uart_st unit :=
  printf "panic: " [] ;;
  match format s [] with Some out => Console.put_all out | None => undefined end ;;
  Console.put_all [10] ;;
  modify (fun u => mk_uart (uart_tx_buf u) (uart_tx_w u) (uart_tx_r u) (lsr u) (rhr u) (sent u) (regs u) (uwoken u) true (noff u)).
