(* ===== verification/Proc.v ===== *)
(** * kernel/proc.c: processes

    The process table over kernel memory and the file layer.  A process is an index of
    [proc]; the current one is [kcur].  Every function is the sequence of its critical
    sections; giving up the CPU in [sched] is [Block]. *)
From stdpp Require Import base gmap list numbers strings.
From Stdlib Require Import ZArith Lia.
From S2P Require Import Prelude Riscv Mem Bytes Kalloc Vm Access Uart.
From S2P Require Console.
From S2P Require Import Bio BlockCache Log TxDisk Fs File Kprintf.
Open Scope Z_scope.

Definition NPROC : nat := 64.
Definition NOFILE : nat := 16.

Inductive procstate := UNUSED | SLEEPING | RUNNABLE | RUNNING | ZOMBIE.
#[export] Instance procstate_eq_dec : EqDecision procstate.
Proof. solve_decision. Defined.

(** [ra] and [sp] of [struct context]; [swtch] saves and loads the rest. *)
Record context := mk_context { ctx_ra : Z; ctx_sp : Z }.

Record proc := mk_proc {
  p_state : procstate;
  p_parent : option nat;
  p_chan : option chan;
  p_killed : Z;
  p_xstate : Z;
  p_pid : Z;
  p_kstack : Z;
  p_sz : Z;
  p_pagetable : Z;
  p_trapframe : Z;
  p_context : context;
  p_ofile : list (option nat);
  p_cwd : option nat;
  p_name : list Z
}.

Definition proc0 : proc :=
  mk_proc UNUSED None None 0 0 0 0 0 0 0 (mk_context 0 0) (replicate NOFILE None) None (replicate 16 0).
#[export] Instance proc_inhabited : Inhabited proc := populate proc0.

(** Assignments to the fields of [struct proc]. *)
Definition set_state (x : procstate) (p : proc) : proc :=
  mk_proc x (p_parent p) (p_chan p) (p_killed p) (p_xstate p) (p_pid p) (p_kstack p) (p_sz p) (p_pagetable p)
    (p_trapframe p) (p_context p) (p_ofile p) (p_cwd p) (p_name p).
Definition set_parent (x : option nat) (p : proc) : proc :=
  mk_proc (p_state p) x (p_chan p) (p_killed p) (p_xstate p) (p_pid p) (p_kstack p) (p_sz p) (p_pagetable p)
    (p_trapframe p) (p_context p) (p_ofile p) (p_cwd p) (p_name p).
Definition set_chan (x : option chan) (p : proc) : proc :=
  mk_proc (p_state p) (p_parent p) x (p_killed p) (p_xstate p) (p_pid p) (p_kstack p) (p_sz p) (p_pagetable p)
    (p_trapframe p) (p_context p) (p_ofile p) (p_cwd p) (p_name p).
Definition set_killed (x : Z) (p : proc) : proc :=
  mk_proc (p_state p) (p_parent p) (p_chan p) x (p_xstate p) (p_pid p) (p_kstack p) (p_sz p) (p_pagetable p)
    (p_trapframe p) (p_context p) (p_ofile p) (p_cwd p) (p_name p).
Definition set_xstate (x : Z) (p : proc) : proc :=
  mk_proc (p_state p) (p_parent p) (p_chan p) (p_killed p) x (p_pid p) (p_kstack p) (p_sz p) (p_pagetable p)
    (p_trapframe p) (p_context p) (p_ofile p) (p_cwd p) (p_name p).
Definition set_pid (x : Z) (p : proc) : proc :=
  mk_proc (p_state p) (p_parent p) (p_chan p) (p_killed p) (p_xstate p) x (p_kstack p) (p_sz p) (p_pagetable p)
    (p_trapframe p) (p_context p) (p_ofile p) (p_cwd p) (p_name p).
Definition set_kstack (x : Z) (p : proc) : proc :=
  mk_proc (p_state p) (p_parent p) (p_chan p) (p_killed p) (p_xstate p) (p_pid p) x (p_sz p) (p_pagetable p)
    (p_trapframe p) (p_context p) (p_ofile p) (p_cwd p) (p_name p).
Definition set_sz (x : Z) (p : proc) : proc :=
  mk_proc (p_state p) (p_parent p) (p_chan p) (p_killed p) (p_xstate p) (p_pid p) (p_kstack p) x (p_pagetable p)
    (p_trapframe p) (p_context p) (p_ofile p) (p_cwd p) (p_name p).
Definition set_pagetable (x : Z) (p : proc) : proc :=
  mk_proc (p_state p) (p_parent p) (p_chan p) (p_killed p) (p_xstate p) (p_pid p) (p_kstack p) (p_sz p) x
    (p_trapframe p) (p_context p) (p_ofile p) (p_cwd p) (p_name p).
Definition set_trapframe (x : Z) (p : proc) : proc :=
  mk_proc (p_state p) (p_parent p) (p_chan p) (p_killed p) (p_xstate p) (p_pid p) (p_kstack p) (p_sz p) (p_pagetable p)
    x (p_context p) (p_ofile p) (p_cwd p) (p_name p).
Definition set_context (x : context) (p : proc) : proc :=
  mk_proc (p_state p) (p_parent p) (p_chan p) (p_killed p) (p_xstate p) (p_pid p) (p_kstack p) (p_sz p) (p_pagetable p)
    (p_trapframe p) x (p_ofile p) (p_cwd p) (p_name p).
Definition set_ofile (fd : nat) (x : option nat) (p : proc) : proc :=
  mk_proc (p_state p) (p_parent p) (p_chan p) (p_killed p) (p_xstate p) (p_pid p) (p_kstack p) (p_sz p) (p_pagetable p)
    (p_trapframe p) (p_context p) (<[fd := x]> (p_ofile p)) (p_cwd p) (p_name p).
Definition set_cwd (x : option nat) (p : proc) : proc :=
  mk_proc (p_state p) (p_parent p) (p_chan p) (p_killed p) (p_xstate p) (p_pid p) (p_kstack p) (p_sz p) (p_pagetable p)
    (p_trapframe p) (p_context p) (p_ofile p) x (p_name p).
Definition set_name (x : list Z) (p : proc) : proc :=
  mk_proc (p_state p) (p_parent p) (p_chan p) (p_killed p) (p_xstate p) (p_pid p) (p_kstack p) (p_sz p) (p_pagetable p)
    (p_trapframe p) (p_context p) (p_ofile p) (p_cwd p) x.

(** Offsets in [struct trapframe]. *)
Definition TF_epc : Z := 24.
Definition TF_sp : Z := 48.
Definition TF_a0 : Z := 112.
Definition TF_size : Z := 288.

(** [safestrcpy] on arrays; after a copied NUL it stores one more. *)
Fixpoint safestrcpy_arr (s t : list Z) (n : nat) : list Z :=
  match n, s with
  | O, _ => s
  | S O, _ :: s' => 0 :: s'
  | S n', _ :: s' => hd 0 t :: (if hd 0 t =? 0 then <[0%nat := 0]> s' else safestrcpy_arr s' (tl t) n')
  | _, [] => []
  end.

(** [kcur] is [c->proc] while a process runs; [kfirst] is [first] of [forkret],
    [kticks] is [ticks] of trap.c. *)
Record kst := mk_kst {
  kprocs : list proc;
  knextpid : Z;
  kinit : option nat;
  kcur : nat;
  kkpt : Z;
  kfirst : bool;
  kticks : Z;
  kfiles : file_st bio_st kmem_st
}.
Notation K := (M kst).
Notation files := (file_st bio_st kmem_st).

Section Proc.
Context {L : Linker}.
Implicit Types (s : kst).

Definition set_procs (l : list proc) s : kst :=
  mk_kst l (knextpid s) (kinit s) (kcur s) (kkpt s) (kfirst s) (kticks s) (kfiles s).
Definition set_files (f : files) s : kst := mk_kst (kprocs s) (knextpid s) (kinit s) (kcur s) (kkpt s) (kfirst s) (kticks s) f.
Definition set_nextpid (n : Z) s : kst := mk_kst (kprocs s) n (kinit s) (kcur s) (kkpt s) (kfirst s) (kticks s) (kfiles s).
Definition set_init (p : nat) s : kst := mk_kst (kprocs s) (knextpid s) (Some p) (kcur s) (kkpt s) (kfirst s) (kticks s) (kfiles s).
Definition set_cur (p : nat) s : kst := mk_kst (kprocs s) (knextpid s) (kinit s) p (kkpt s) (kfirst s) (kticks s) (kfiles s).
Definition set_first (b : bool) s : kst := mk_kst (kprocs s) (knextpid s) (kinit s) (kcur s) (kkpt s) b (kticks s) (kfiles s).
Definition set_ticks (n : Z) s : kst := mk_kst (kprocs s) (knextpid s) (kinit s) (kcur s) (kkpt s) (kfirst s) n (kfiles s).
Definition the_proc (p : nat) s : proc := kprocs s !!! p.
Definition upd_proc (p : nat) (f : proc -> proc) s : kst := set_procs (alter f p (kprocs s)) s.
Definition myproc s : proc := the_proc (kcur s) s.

Definition wake (c : chan) (x : proc) : proc :=
  if decide (p_state x = SLEEPING /\ p_chan x = Some c) then set_state RUNNABLE x else x.
Definition wakeup (c : chan) : K unit := modify (fun s => set_procs (wake c <$> kprocs s) s).

(** [sleep(chan, lk)] up to the switch in [sched]. *)
Definition sleep {A} (c : chan) : K A :=
  modify (fun s => upd_proc (kcur s) (set_chan (Some c)) s) ;;
  modify (fun s => upd_proc (kcur s) (set_state SLEEPING) s) ;;
  block c.

(** [sleep] from the return of [sched]. *)
Definition sleep_resume : K unit := modify (fun s => upd_proc (kcur s) (set_chan None) s).

(** The state of the lower layers as the current process sees it; they note the
    channels they wake. *)
Definition as_proc (p : proc) (f : files) : files :=
  let x := ffs f in
  let l := ftx x in
  let b := lbc l in
  let c := fcons f in
  let u := Console.ust c in
  mk_fst
    (mk_fs (mk_log (log_start l) (log_size l) (outstanding l) (committing l) (log_dev l) (lh_n l) (lh_block l)
              (mk_bio (bufs b) (p_pid p) (disk b) (writes b) []) [])
       (fsb x) (icache x) (fmem x) (p_pid p) (p_pagetable p) (default 0%nat (p_cwd p)) (flocal x) [])
    (ftable f) (fpipes f)
    (Console.mk_cons (Console.cbuf c) (Console.cr c) (Console.cw c) (Console.ce c)
       (mk_uart (uart_tx_buf u) (uart_tx_w u) (uart_tx_r u) (lsr u) (rhr u) (sent u) (regs u) [] (panicked u) (noff u))
       (Console.cum c) [])
    (fdevsw f) (negb (p_killed p =? 0)).

(** The channels woken, oldest first in each layer. *)
Definition woken_by (f : files) : list chan :=
  rev (bwoken (lbc (ftx (ffs f)))) ++ rev (lwoken (ftx (ffs f))) ++ rev (fwoken (ffs f)) ++
  rev (Console.cwoken (fcons f)) ++ rev (uwoken (Console.ust (fcons f))).

Definition deliver (f : files) s : kst :=
  set_files f (set_procs (foldl (fun l c => wake c <$> l) (kprocs s) (woken_by f)) s).

(** A call into the lower layers by the current process. *)
Definition on_files {A} (m : M files A) : K A := fun s =>
  match m (as_proc (myproc s) (kfiles s)) with
  | Ok a f => Ok a (deliver f s)
  | Panic msg => Panic msg
  | Block c f => sleep c (deliver f s)
  | Diverge => Diverge
  end.
Definition on_kmem {A} (m : M kmem_st A) : K A := on_files (on_umem m).

Definition tf_get (tf off : Z) : K Z := on_kmem (rd64 (tf + off)).
Definition tf_set (tf off v : Z) : K unit := on_kmem (wr64 (tf + off) v).

Fixpoint procinit_loop (i : nat) (k : nat) : K unit :=
  match k with
  | O => ret tt
  | S k' =>
      let! pa := on_kmem kalloc in
      if pa =? 0 then panic "kalloc"
      else
        let va := KSTACK (Z.of_nat i) in
        let! s := get in
        on_kmem (kvmmap (kkpt s) va pa PGSIZE (Z.lor PTE_R PTE_W)) ;;
        modify (upd_proc i (set_kstack va)) ;;
        procinit_loop (S i) k'
  end.

Definition procinit : K unit := procinit_loop 0 NPROC.

(** Overflow of [nextpid], a signed [int], is undefined. *)
Definition allocpid : K Z :=
  let! s := get in
  if knextpid s =? 2 ^ 31 - 1 then undefined
  else put (set_nextpid (knextpid s + 1) s) ;; ret (knextpid s).

Definition proc_pagetable (p : nat) : K Z :=
  let! pagetable := on_kmem uvmcreate in
  if pagetable =? 0 then ret 0
  else
    let! r := on_kmem (mappages pagetable TRAMPOLINE PGSIZE trampoline (Z.lor PTE_R PTE_X)) in
    if r <? 0 then on_kmem (uvmfree pagetable 0) ;; ret 0
    else
      let! s := get in
      let! r := on_kmem (mappages pagetable TRAPFRAME PGSIZE (p_trapframe (the_proc p s)) (Z.lor PTE_R PTE_W)) in
      if r <? 0 then
        on_kmem (uvmunmap pagetable TRAMPOLINE 1 false) ;;
        on_kmem (uvmfree pagetable 0) ;;
        ret 0
      else ret pagetable.

Definition proc_freepagetable (pagetable sz : Z) : K unit :=
  on_kmem (uvmunmap pagetable TRAMPOLINE 1 false) ;;
  on_kmem (uvmunmap pagetable TRAPFRAME 1 false) ;;
  on_kmem (uvmfree pagetable sz).

Definition freeproc (p : nat) : K unit :=
  let! s := get in
  (if negb (p_trapframe (the_proc p s) =? 0) then on_kmem (kfree (p_trapframe (the_proc p s))) else ret tt) ;;
  modify (upd_proc p (set_trapframe 0)) ;;
  (if negb (p_pagetable (the_proc p s) =? 0)
   then proc_freepagetable (p_pagetable (the_proc p s)) (p_sz (the_proc p s)) else ret tt) ;;
  modify (upd_proc p (set_pagetable 0)) ;;
  modify (upd_proc p (set_sz 0)) ;;
  modify (upd_proc p (set_pid 0)) ;;
  modify (upd_proc p (set_parent None)) ;;
  modify (upd_proc p (fun x => set_name (<[0%nat := 0]> (p_name x)) x)) ;;
  modify (upd_proc p (set_chan None)) ;;
  modify (upd_proc p (set_killed 0)) ;;
  modify (upd_proc p (set_xstate 0)) ;;
  modify (upd_proc p (set_state UNUSED)).

(** The search of [allocproc]. *)
Fixpoint find_unused (l : list proc) (i : nat) : option nat :=
  match l with
  | [] => None
  | p :: l' => if decide (p_state p = UNUSED) then Some i else find_unused l' (S i)
  end.

Definition allocproc (forkret : Z) : K (option nat) :=
  let! s := get in
  match find_unused (kprocs s) 0 with
  | None => ret None
  | Some p =>
      let! pid := allocpid in
      modify (upd_proc p (set_pid pid)) ;;
      let! tf := on_kmem kalloc in
      modify (upd_proc p (set_trapframe tf)) ;;
      if tf =? 0 then ret None
      else
        let! pagetable := proc_pagetable p in
        modify (upd_proc p (set_pagetable pagetable)) ;;
        if pagetable =? 0 then freeproc p ;; ret None
        else
          modify (upd_proc p (fun x => set_context (mk_context forkret (p_kstack x + PGSIZE)) x)) ;;
          ret (Some p)
  end.

Definition initcode : list Z :=
  [0x17; 0x05; 0x00; 0x00; 0x13; 0x05; 0x45; 0x02; 0x97; 0x05; 0x00; 0x00; 0x93; 0x85; 0x35; 0x02;
   0x93; 0x08; 0x70; 0x00; 0x73; 0x00; 0x00; 0x00; 0x93; 0x08; 0x20; 0x00; 0x73; 0x00; 0x00; 0x00;
   0xef; 0xf0; 0x9f; 0xff; 0x2f; 0x69; 0x6e; 0x69; 0x74; 0x00; 0x00; 0x24; 0x00; 0x00; 0x00; 0x00;
   0x00; 0x00; 0x00; 0x00].

(** ["initcode"] *)
Definition initcode_name : list Z := [105; 110; 105; 116; 99; 111; 100; 101; 0].

(** [allocproc] returns NULL only to a crash: the pointer is used. *)
Definition userinit (forkret : Z) : K unit :=
  let! r := allocproc forkret in
  match r with
  | None => undefined
  | Some p =>
      modify (set_init p) ;;
      let! s := get in
      on_kmem (uvminit (p_pagetable (the_proc p s)) initcode 52) ;;
      modify (upd_proc p (set_sz PGSIZE)) ;;
      tf_set (p_trapframe (the_proc p s)) TF_epc 0 ;;
      tf_set (p_trapframe (the_proc p s)) TF_sp PGSIZE ;;
      modify (upd_proc p (fun x => set_name (safestrcpy_arr (p_name x) initcode_name 16) x)) ;;
      let! ip := on_files (on_fs (namei [SLASH])) in
      modify (upd_proc p (set_cwd ip)) ;;
      modify (upd_proc p (set_state RUNNABLE))
  end.

(** [sz] is a [uint]: the size is truncated to 32 bits. *)
Definition growproc (n : Z) : K Z :=
  let! s := get in
  let p := myproc s in
  let sz := u32 (p_sz p) in
  if 0 <? n then
    let! r := on_kmem (uvmalloc (p_pagetable p) sz (u32 (sz + n))) in
    if u32 r =? 0 then ret (-1) else modify (upd_proc (kcur s) (set_sz (u32 r))) ;; ret 0
  else if n <? 0 then
    let! r := on_kmem (uvmdealloc (p_pagetable p) sz (u32 (sz + n))) in
    modify (upd_proc (kcur s) (set_sz (u32 r))) ;; ret 0
  else modify (upd_proc (kcur s) (set_sz sz)) ;; ret 0.

Fixpoint fork_files (p np : nat) (i : nat) (k : nat) : K unit :=
  match k with
  | O => ret tt
  | S k' =>
      let! s := get in
      match p_ofile (the_proc p s) !!! i with
      | Some f =>
          let! f' := on_files (filedup f) in
          modify (upd_proc np (set_ofile i (Some f')))
      | None => ret tt
      end ;;
      fork_files p np (S i) k'
  end.

Definition fork (forkret : Z) : K Z :=
  let! s := get in
  let p := kcur s in
  let! r := allocproc forkret in
  match r with
  | None => ret (-1)
  | Some np =>
      let! s := get in
      let! r := on_kmem (uvmcopy (p_pagetable (the_proc p s)) (p_pagetable (the_proc np s)) (p_sz (the_proc p s))) in
      if r <? 0 then freeproc np ;; ret (-1)
      else
        modify (upd_proc np (set_sz (p_sz (the_proc p s)))) ;;
        modify (upd_proc np (set_parent (Some p))) ;;
        on_kmem (kmemmove (p_trapframe (the_proc np s)) (p_trapframe (the_proc p s)) TF_size) ;;
        tf_set (p_trapframe (the_proc np s)) TF_a0 0 ;;
        fork_files p np 0 NOFILE ;;
        let! cwd := on_files (on_fs (idup (default 0%nat (p_cwd (the_proc p s))))) in
        modify (upd_proc np (set_cwd (Some cwd))) ;;
        modify (upd_proc np (fun x => set_name (safestrcpy_arr (p_name x) (p_name (the_proc p s)) 16) x)) ;;
        let pid := p_pid (the_proc np s) in
        modify (upd_proc np (set_state RUNNABLE)) ;;
        ret pid
  end.

(** [for(pp = proc; ...) if(pp->parent == p) pp->parent = initproc;] *)
Definition reparent (p : nat) : K unit :=
  modify (fun s => set_procs ((fun x => if decide (p_parent x = Some p) then set_parent (kinit s) x else x) <$> kprocs s) s).

(** [wakeup1(p)]: [wait] sleeps on the process itself. *)
Definition wakeup1 (p : nat) : K unit := modify (upd_proc p (wake (CProc p))).

Fixpoint exit_files (i : nat) (k : nat) : K unit :=
  match k with
  | O => ret tt
  | S k' =>
      let! s := get in
      match p_ofile (myproc s) !!! i with
      | Some f => on_files (fileclose f) ;; modify (upd_proc (kcur s) (set_ofile i None))
      | None => ret tt
      end ;;
      exit_files (S i) k'
  end.

(** [exit] ends in [sched], which does not return: [Block] on the zombie. *)
Definition exit (status : Z) : K unit :=
  let! s := get in
  let p := kcur s in
  if decide (Some p = kinit s) then panic "init exiting"
  else
    exit_files 0 NOFILE ;;
    on_files (on_log begin_op) ;;
    on_files (on_fs (iput (default 0%nat (p_cwd (myproc s))))) ;;
    on_files (on_log end_op) ;;
    modify (upd_proc p (set_cwd None)) ;;
    match kinit s with Some i => wakeup1 i | None => undefined end ;;
    let! s := get in
    let original_parent := p_parent (the_proc p s) in
    reparent p ;;
    match original_parent with Some q => wakeup1 q | None => undefined end ;;
    modify (upd_proc p (set_xstate status)) ;;
    modify (upd_proc p (set_state ZOMBIE)) ;;
    block (CProc p).

(** One scan of the table by [wait]: a zombie child, or whether there are children. *)
Fixpoint wait_scan (p : nat) (l : list proc) (i : nat) (havekids : bool) : option nat * bool :=
  match l with
  | [] => (None, havekids)
  | x :: l' =>
      if decide (p_parent x = Some p)
      then if decide (p_state x = ZOMBIE) then (Some i, true) else wait_scan p l' (S i) true
      else wait_scan p l' (S i) havekids
  end.

(** A scan of [wait]; a process that sleeps runs it again when it is woken. *)
Definition wait (addr : Z) : K Z :=
  let! s := get in
  let p := kcur s in
  match wait_scan p (kprocs s) 0 false with
  | (Some np, _) =>
      let pid := p_pid (the_proc np s) in
      let! r := (if negb (addr =? 0)
                 then on_kmem (copyout (p_pagetable (myproc s)) addr (Z_to_little_endian 4 8 (p_xstate (the_proc np s))))
                 else ret 0) in
      if r <? 0 then ret (-1) else freeproc np ;; ret pid
  | (None, havekids) =>
      if negb havekids || negb (p_killed (myproc s) =? 0) then ret (-1) else sleep (CProc p)
  end.

(** The process gives up the CPU and stays runnable. *)
Definition yield : K unit :=
  modify (fun s => upd_proc (kcur s) (set_state RUNNABLE) s).

(** [kill]: the first process with that pid. *)
Fixpoint kill_scan (pid : Z) (l : list proc) : option (list proc) :=
  match l with
  | [] => None
  | x :: l' =>
      if p_pid x =? pid
      then let x := set_killed 1 x in Some ((if decide (p_state x = SLEEPING) then set_state RUNNABLE x else x) :: l')
      else match kill_scan pid l' with Some r => Some (x :: r) | None => None end
  end.

Definition kill (pid : Z) : K Z :=
  let! s := get in
  match kill_scan pid (kprocs s) with
  | Some l => put (set_procs l s) ;; ret 0
  | None => ret (-1)
  end.

(** [sched]'s tests, on the CPU and the lock of the process. *)
Definition sched_checks (hold : bool) (noff : Z) (st : procstate) (intr : bool) : option string :=
  if negb hold then Some "sched p->lock"%string
  else if negb (noff =? 1) then Some "sched locks"%string
  else if decide (st = RUNNING) then Some "sched running"%string
  else if intr then Some "sched interruptible"%string
  else None.

(** One pass of [scheduler] over the table from entry [i]; [run p] is the kernel from
    [swtch] to process [p] until it switches back.  The processes run are listed. *)
Fixpoint scheduler_pass (run : nat -> kst -> kst) (i k : nat) s : kst * list nat :=
  match k with
  | O => (s, [])
  | S k' =>
      if decide (p_state (the_proc i s) = RUNNABLE) then
        let s := upd_proc i (set_state RUNNING) s in
        let s := set_cur i s in
        let s := run i s in
        let (s, l) := scheduler_pass run (S i) k' s in
        (s, i :: l)
      else scheduler_pass run (S i) k' s
  end.

(** [usertrapret] follows. *)
Definition forkret_body : K unit :=
  let! s := get in
  if kfirst s then
    modify (set_first false) ;;
    on_files (on_fs (fsinit fs_ROOTDEV))
  else ret tt.

(** The C string in an array. *)
Fixpoint cstr_arr (l : list Z) : list Z :=
  match l with [] => [] | c :: l' => if c =? 0 then [] else c :: cstr_arr l' end.

Definition state_name (st : procstate) : string :=
  match st with UNUSED => "unused" | SLEEPING => "sleep " | RUNNABLE => "runble" | RUNNING => "run   " | ZOMBIE => "zombie" end.

(** What [procdump] prints. *)
Definition procdump s : list Z :=
  10 :: flat_map (fun p =>
    if decide (p_state p = UNUSED) then []
    else default [] (format (lit "%d %s %s") [AInt (p_pid p); AStr (Some (lit (state_name (p_state p)))); AStr (Some (cstr_arr (p_name p)))]) ++ [10])
    (kprocs s).
End Proc.
