(* ===== verification/ProcSpec.v ===== *)
(** * The process table stays well formed

    [pinv] is the invariant of the process table: every process but init has a parent
    that can still call [wait], and pids are unique.  It is shown of every operation
    that changes the table and of every call into the lower layers, then of all states
    the system reaches. *)
From stdpp Require Import base gmap list numbers strings.
From Stdlib Require Import ZArith Lia.
From S2P Require Import Prelude Riscv Mem Bytes Kalloc Vm Access Uart.
From S2P Require Import Bio BlockCache Log TxDisk Fs File Triple Proc.
Open Scope Z_scope.

(** Neither free nor exited. *)
Definition alive (x : proc) : Prop := p_state x <> UNUSED /\ p_state x <> ZOMBIE.

Record pinv (s : kst) : Prop := {
  pi_parent i x q : kprocs s !! i = Some x -> p_parent x = Some q -> exists y, kprocs s !! q = Some y /\ alive y;
  pi_orphan i x : kprocs s !! i = Some x -> p_state x <> UNUSED -> Some i <> kinit s -> p_parent x <> None;
  pi_init : exists i y, kinit s = Some i /\ kprocs s !! i = Some y /\ alive y;
  pi_unique i j x y : kprocs s !! i = Some x -> kprocs s !! j = Some y -> p_pid x = p_pid y -> p_pid x <> 0 -> i = j;
  pi_next i x : kprocs s !! i = Some x -> 0 <= p_pid x < knextpid s;
  pi_live i x : kprocs s !! i = Some x -> p_state x <> UNUSED -> p_pid x <> 0
}.

(** The processes [w] wait for the CPU. *)
Definition ready (w : list nat) (s : kst) : Prop :=
  forall j, j ∈ w -> j <> kcur s /\ exists x, kprocs s !! j = Some x /\ p_state x = RUNNABLE.
(** The current process runs. *)
Definition runs (w : list nat) (s : kst) : Prop :=
  (exists x, kprocs s !! kcur s = Some x /\ p_state x = RUNNING) /\ ready w s.
Definition kinv (w : list nat) (s : kst) : Prop := pinv s /\ runs w s.
(** It has given up the CPU. *)
Definition kout (w : list nat) (s : kst) : Prop := pinv s /\ ready w s.

(** ** Changes that no one but a sleeper notices *)
Definition quiet (x x' : proc) : Prop :=
  p_parent x' = p_parent x /\ p_pid x' = p_pid x /\
  (p_state x' = p_state x \/ p_state x = SLEEPING /\ p_state x' = RUNNABLE).

Record kquiet (s s' : kst) : Prop := {
  kq_procs : Forall2 quiet (kprocs s) (kprocs s');
  kq_cur : kcur s' = kcur s;
  kq_init : kinit s' = kinit s;
  kq_next : knextpid s' = knextpid s
}.

#[export] Instance quiet_refl : Reflexive quiet.
Proof. intros x. split; [done|]. split; [done|]. by left. Qed.

#[export] Instance quiet_trans : Transitive quiet.
Proof. intros x y z (P1 & Q1 & S1) (P2 & Q2 & S2). split; [congruence|]. split; [congruence|]. naive_solver congruence. Qed.

#[export] Instance kquiet_trans : Transitive kquiet.
Proof. intros x y z [A1 A2 A3 A4] [B1 B2 B3 B4]. split; [by etrans|congruence..]. Qed.

Lemma Forall2_alter_r (R : proc -> proc -> Prop) `{!Reflexive R} f i l :
  (forall x, l !! i = Some x -> R x (f x)) -> Forall2 R l (alter f i l).
Proof.
  intros Hf. apply Forall2_same_length_lookup. split; [by rewrite length_alter|].
  intros j x y Hx Hy. rewrite list_lookup_alter in Hy. case_decide as E; subst.
  - rewrite Hx in Hy. cbn in Hy. injection Hy as <-. auto.
  - rewrite Hx in Hy. injection Hy as <-. done.
Qed.

Lemma kquiet_upd i f s : (forall x, quiet x (f x)) -> kquiet s (upd_proc i f s).
Proof. intros Hf. split; try done. cbn. apply Forall2_alter_r; [apply _|auto]. Qed.

Lemma quiet_wake c x : quiet x (wake c x).
Proof. unfold wake. case_decide as E; [|done]. destruct E. split; [done|]. split; [done|]. by right. Qed.

Lemma kquiet_wakes cs l : Forall2 quiet l (foldl (fun l c => wake c <$> l) l cs).
Proof.
  revert l. induction cs as [|c cs IH]; intros l; cbn.
  - reflexivity.
  - etrans; [|apply IH]. apply Forall2_fmap_r, Forall_Forall2_diag, Forall_true. intros. apply quiet_wake.
Qed.

Lemma kquiet_deliver f s : kquiet s (deliver f s).
Proof. split; try done. apply kquiet_wakes. Qed.

Lemma kquiet_lookup s s' i x' : kquiet s s' -> kprocs s' !! i = Some x' ->
  exists x, kprocs s !! i = Some x /\ quiet x x'.
Proof. intros Hq Hi. destruct (Forall2_lookup_r _ _ _ _ _ (kq_procs _ _ Hq) Hi) as (x & Hx & Q). eauto. Qed.

Lemma kquiet_lookup_l s s' i x : kquiet s s' -> kprocs s !! i = Some x ->
  exists x', kprocs s' !! i = Some x' /\ quiet x x'.
Proof. intros Hq Hi. destruct (Forall2_lookup_l _ _ _ _ _ (kq_procs _ _ Hq) Hi) as (x' & Hx & Q). eauto. Qed.

(** ** Changes that keep the invariant *)
Definition mild (x x' : proc) : Prop :=
  p_parent x' = p_parent x /\ p_pid x' = p_pid x /\ (alive x -> alive x') /\ (p_state x' <> UNUSED -> p_state x <> UNUSED).

#[export] Instance mild_refl : Reflexive mild.
Proof. done. Qed.

Lemma quiet_mild x x' : quiet x x' -> mild x x'.
Proof.
  intros (P & Q & S). split; [done|]. split; [done|]. unfold alive. destruct S as [->|[-> ->]]; split; try done; by intros [? ?].
Qed.

Lemma pinv_mild s s' : pinv s -> Forall2 mild (kprocs s) (kprocs s') -> kinit s' = kinit s -> knextpid s' = knextpid s -> pinv s'.
Proof.
  intros [P1 P2 P3 P4 P5 P6] Hm Hi Hn.
  assert (forall i x', kprocs s' !! i = Some x' -> exists x, kprocs s !! i = Some x /\ mild x x') as Hr by (intros; by eapply Forall2_lookup_r).
  assert (forall i x, kprocs s !! i = Some x -> exists x', kprocs s' !! i = Some x' /\ mild x x') as Hl by (intros; by eapply Forall2_lookup_l).
  split.
  - intros i x' q (x & Hx & E1 & E2 & E3 & E4)%Hr Hq. rewrite E1 in Hq. destruct (P1 i x q Hx Hq) as (y & Hy & Ay).
    destruct (Hl _ _ Hy) as (y' & Hy' & _ & _ & F & _). eauto.
  - intros i x' (x & Hx & E1 & E2 & E3 & E4)%Hr Hu. rewrite E1, Hi. eauto.
  - destruct P3 as (i & y & E & Hy & Ay). destruct (Hl _ _ Hy) as (y' & Hy' & _ & _ & F & _). exists i, y'. rewrite Hi. auto.
  - intros i j x' y' (x & Hx & _ & E & _)%Hr (y & Hy & _ & E' & _)%Hr. rewrite E, E'. eauto.
  - intros i x' (x & Hx & _ & E & _)%Hr. rewrite E, Hn. eauto.
  - intros i x' (x & Hx & _ & E & _ & F)%Hr. rewrite E. eauto.
Qed.

Lemma pinv_quiet s s' : pinv s -> kquiet s s' -> pinv s'.
Proof. intros Hp [Q _ Hi Hn]. eapply pinv_mild; eauto. eapply Forall2_impl; [exact Q|]. intros. by apply quiet_mild. Qed.

Lemma quiet_state s s' i x st : kquiet s s' -> kprocs s !! i = Some x -> p_state x = st -> st <> SLEEPING ->
  exists x', kprocs s' !! i = Some x' /\ p_state x' = st.
Proof.
  intros Hq Hx Hs Hn. destruct (kquiet_lookup_l _ _ _ _ Hq Hx) as (x' & Hx' & _ & _ & S). exists x'. split; [done|].
  destruct S as [->|[S _]]; congruence.
Qed.

Lemma runs_quiet w s s' : runs w s -> kquiet s s' -> runs w s'.
Proof.
  intros [(x & Hx & Hs) Hw] Hq. split; [rewrite (kq_cur _ _ Hq); by apply (quiet_state s s' _ x)|].
  intros j (Hj & y & Hy & Es)%Hw. rewrite (kq_cur _ _ Hq). split; [done|]. by apply (quiet_state s s' _ y).
Qed.

Lemma pinv_upd i f s : pinv s -> (forall x, kprocs s !! i = Some x -> mild x (f x)) -> pinv (upd_proc i f s).
Proof. intros Hp Hf. eapply pinv_mild; [exact Hp| |done..]. cbn. by apply Forall2_alter_r; [apply _|]. Qed.

(** A running process may change its state. *)
Lemma ready_upd_cur w f s : ready w s -> ready w (upd_proc (kcur s) f s).
Proof. intros Hw j [Hj Hx]%Hw. split; [done|]. cbn. by rewrite list_lookup_alter_ne. Qed.

Lemma kout_sleep w c s : kinv w s ->
  kout w (upd_proc (kcur s) (set_state SLEEPING) (upd_proc (kcur s) (set_chan (Some c)) s)).
Proof.
  intros [Hp [(x & Hx & Hs) Hw]]. split; [|by apply (ready_upd_cur w _ (upd_proc (kcur s) _ s)), ready_upd_cur]. apply pinv_upd.
  - by apply pinv_upd.
  - cbn. intros y Hy. rewrite list_lookup_alter_eq, Hx in Hy. injection Hy as <-. unfold mild, alive. cbn. rewrite Hs. done.
Qed.

(** ** Assertions about one process, kept by everything it does not notice *)
Definition stable (P : kst -> Prop) : Prop := forall s s', P s -> kquiet s s' -> P s'.
Definition slept (c : chan) (s : kst) : kst :=
  upd_proc (kcur s) (set_state SLEEPING) (upd_proc (kcur s) (set_chan (Some c)) s).
Definition good (P R : kst -> Prop) : Prop := stable P /\ forall c s, P s -> R (slept c s).

Lemma good_stable w (P : kst -> Prop) : stable P -> (forall s, P s -> kinv w s) -> good P (kout w).
Proof. intros Hs Hk. split; [done|]. intros c s Hp. by apply kout_sleep, Hk. Qed.

Lemma kinv_stable w : stable (kinv w).
Proof. intros s s' [Hp Hr] Hq. split; [by eapply pinv_quiet|by eapply runs_quiet]. Qed.

Lemma good_kinv w : good (kinv w) (kout w).
Proof. apply good_stable; [apply kinv_stable|done]. Qed.

(** Entry [np] and the current process [p]. *)
Definition slot (p np : nat) (st : procstate) (par : option nat) (pid : Z) (s : kst) : Prop :=
  kcur s = p /\ exists x, kprocs s !! np = Some x /\ p_state x = st /\ p_parent x = par /\ p_pid x = pid.

Lemma good_slot w p np st par pid : st <> SLEEPING -> good (fun s => kinv w s /\ slot p np st par pid s) (kout w).
Proof.
  intros Hst. apply good_stable; [|naive_solver]. intros s s' [Hk (Ec & x & Hx & E1 & E2 & E3)] Hq. split; [by apply (kinv_stable w) with s|].
  split; [rewrite (kq_cur _ _ Hq); exact Ec|].
  destruct (kquiet_lookup_l _ _ _ _ Hq Hx) as (x' & Hx' & Q1 & Q2 & Q3). exists x'. split; [done|].
  destruct Q3 as [Q3|[Q3 _]]; [|congruence]. repeat split; congruence.
Qed.

(** No process has [p] as its parent, and init is [i]. *)
Definition childless (p i : nat) (s : kst) : Prop :=
  kcur s = p /\ kinit s = Some i /\ forall j x, kprocs s !! j = Some x -> p_parent x <> Some p.

Lemma good_childless w p i : good (fun s => kinv w s /\ childless p i s) (kout w).
Proof.
  apply good_stable; [|naive_solver]. intros s s' [Hk (Ec & Ei & Hn)] Hq. split; [by apply (kinv_stable w) with s|].
  split; [rewrite (kq_cur _ _ Hq); exact Ec|]. split; [rewrite (kq_init _ _ Hq); exact Ei|].
  intros j x' Hj. destruct (kquiet_lookup _ _ _ _ Hq Hj) as (x & Hx & E & _). rewrite E. eauto.
Qed.

#[export] Hint Resolve good_kinv good_childless : xv6.
#[export] Hint Extern 1 (good (fun s => kinv _ s /\ slot _ _ _ _ _ s) _) => apply good_slot; discriminate : xv6.

Lemma keeps_quiet_upd P R i f : good P R -> (forall x, quiet x (f x)) -> keeps P R (modify (upd_proc i f)).
Proof. intros [Hs _] Hf. apply keeps_modify. intros s Hp. eapply Hs; [exact Hp|]. by apply kquiet_upd. Qed.

Lemma keeps_on_files {A} P (m : M files A) R : good P R -> keeps P R (on_files m).
Proof.
  intros [Hs Hk] s Hp. unfold on_files. destruct (m (as_proc (myproc s) (kfiles s))) as [a f| |c f|]; try done.
  - eapply Hs; [exact Hp|]. apply kquiet_deliver.
  - apply (Hk c (deliver f s)). eapply Hs; [exact Hp|]. apply kquiet_deliver.
Qed.

Lemma keeps_on_kmem {A} P (m : M kmem_st A) R : good P R -> keeps P R (on_kmem m).
Proof. apply keeps_on_files. Qed.

Lemma keeps_wakeup1 P p R : good P R -> keeps P R (wakeup1 p).
Proof. intros. apply keeps_quiet_upd; [done|]. intros. apply quiet_wake. Qed.

(** ** The operations of proc.c *)
Ltac quiet_tac := intros ?; repeat split; by left.
#[export] Hint Resolve keeps_on_files keeps_on_kmem keeps_wakeup1 : xv6.
#[export] Hint Extern 2 (keeps _ _ (modify (upd_proc _ _))) => apply keeps_quiet_upd; [auto with xv6|quiet_tac] : xv6.

(** A statement that keeps [P], before the rest. *)
Ltac kept P :=
  apply triple_bind with (fun _ => P);
  [match goal with |- triple _ ?m _ ?R => change (keeps P R m) end; solve [eauto with xv6]|intros ?].

Section Ops.
Context {L : Linker}.
Implicit Types (P R : kst -> Prop).

Lemma proc_pagetable_keeps P p R : good P R -> keeps P R (proc_pagetable p).
Proof. intros. unfold proc_pagetable. repeat keeps_step. Qed.

Lemma proc_freepagetable_keeps P pt sz R : good P R -> keeps P R (proc_freepagetable pt sz).
Proof. intros. unfold proc_freepagetable. repeat keeps_step. Qed.

Lemma fork_files_keeps P p np i k R : good P R -> keeps P R (fork_files p np i k).
Proof. intros HP. revert i. induction k as [|k IH]; intros i; cbn [fork_files]; repeat keeps_step. Qed.

Lemma exit_files_keeps P i k R : good P R -> keeps P R (exit_files i k).
Proof. intros HP. revert i. induction k as [|k IH]; intros i; cbn [exit_files]; repeat keeps_step. Qed.
End Ops.
#[export] Hint Resolve proc_pagetable_keeps proc_freepagetable_keeps fork_files_keeps exit_files_keeps : xv6.

Lemma alter_inv (f : proc -> proc) (i : nat) (l : list proc) (j : nat) (y : proc) : alter f i l !! j = Some y ->
  (j = i /\ exists x, l !! i = Some x /\ y = f x) \/ (j <> i /\ l !! j = Some y).
Proof.
  rewrite list_lookup_alter. case_decide as E; [|by right]. subst. intros (x & Hx & ->)%fmap_Some. left. eauto.
Qed.

Lemma upd_proc_twice i f g s : upd_proc i f (upd_proc i g s) = upd_proc i (f ∘ g) s.
Proof. unfold upd_proc, set_procs. cbn. by rewrite list_alter_alter_eq. Qed.

Lemma ready_upd w i f s : ready w s ->
  (forall x, kprocs s !! i = Some x -> p_state x = RUNNABLE -> p_state (f x) = RUNNABLE) -> ready w (upd_proc i f s).
Proof.
  intros Hw Hf j (Hj & y & Hy & Ey)%Hw. split; [done|]. cbn. rewrite list_lookup_alter. case_decide as E; [|eauto].
  subst. rewrite Hy. cbn. eauto.
Qed.

Lemma runs_upd_ne w i f s : runs w s -> i <> kcur s ->
  (forall x, kprocs s !! i = Some x -> p_state x = RUNNABLE -> p_state (f x) = RUNNABLE) -> runs w (upd_proc i f s).
Proof.
  intros [(x & Hx & Hs) Hw] Hi Hf. split; [|by apply ready_upd]. exists x. split; [|done]. cbn. by rewrite list_lookup_alter_ne.
Qed.

Lemma slot_ne w p np st par pid s : kinv w s -> slot p np st par pid s -> st <> RUNNING -> np <> p.
Proof. intros [_ [(x & Hx & Hs) _]] (Ec & y & Hy & E & _) Hst ->. rewrite Ec in Hx. congruence. Qed.

(** A process that is not alive has no children, so its entry can be emptied. *)
Lemma pinv_free np x g s : pinv s -> kprocs s !! np = Some x -> ~ alive x ->
  (p_state (g x) = UNUSED /\ p_parent (g x) = None /\ p_pid (g x) = 0) -> pinv (upd_proc np g s).
Proof.
  intros [P1 P2 P3 P4 P5 P6] Hx Hd (G1 & G2 & G3).
  assert (forall j y, kprocs (upd_proc np g s) !! j = Some y -> (j = np /\ y = g x) \/ (j <> np /\ kprocs s !! j = Some y)) as HL.
  { intros j y [(-> & z & Hz & ->)|?]%alter_inv; [|auto]. left. rewrite Hx in Hz. injection Hz as <-. done. }
  assert (forall j y, kprocs s !! j = Some y -> alive y -> kprocs (upd_proc np g s) !! j = Some y) as HA.
  { intros j y Hy Ay. cbn. rewrite list_lookup_alter_ne; [done|]. intros ->. congruence. }
  split.
  - intros i y q [[-> ->]|[Hi Hy]]%HL Hq; [congruence|]. destruct (P1 _ _ _ Hy Hq) as (z & Hz & Az). eauto.
  - intros i y [[-> ->]|[Hi Hy]]%HL; [done|]. exact (P2 _ _ Hy).
  - destruct P3 as (i & y & E & Hy & Ay). exists i, y. auto.
  - intros i j y z [[-> ->]|[Hi Hy]]%HL [[-> ->]|[Hj Hz]]%HL; try done; try congruence. eauto.
  - intros i y [[-> ->]|[Hi Hy]]%HL; [|exact (P5 _ _ Hy)]. rewrite G3. specialize (P5 _ _ Hx). cbn. lia.
  - intros i y [[-> ->]|[Hi Hy]]%HL; [congruence|]. exact (P6 _ _ Hy).
Qed.

Section Alloc.
Context {L : Linker} (W : list nat).

Lemma freeproc_ok p np st par pid : st = UNUSED \/ st = ZOMBIE ->
  triple (fun s => kinv W s /\ slot p np st par pid s) (freeproc np)
    (fun _ s => kinv W s /\ slot p np UNUSED None 0 s) (kout W).
Proof.
  intros Hst. assert (st <> SLEEPING) as Hsl by naive_solver.
  pose proof (good_slot W p np st par pid Hsl) as HG. set (P := fun s => kinv W s /\ slot p np st par pid s) in *.
  unfold freeproc. apply triple_get. intros s0 H0.
  apply triple_bind with (fun _ => P); [|intros []].
  { apply triple_conseq with P (fun _ => P) (kout W); [|by intros ? <-|done|done]. apply keeps_if; eauto with xv6. }
  kept P. apply triple_bind with (fun _ => P); [apply keeps_if; eauto with xv6|intros []].
  intros s [[Hp Hr] Hs]. pose proof (slot_ne _ _ _ _ _ _ _ (conj Hp Hr) Hs ltac:(naive_solver)) as Hne.
  destruct Hs as (Ec & x & Hx & E1 & E2 & E3). cbn -[upd_proc]. rewrite !upd_proc_twice. split; [split|].
  - apply (pinv_free np x); [done..| |done]. unfold alive. rewrite E1. naive_solver.
  - apply runs_upd_ne; [done|congruence|]. intros y Hy. assert (y = x) as -> by congruence. intros. destruct Hst; congruence.
  - split; [done|]. eexists. cbn. rewrite list_lookup_alter_eq, Hx. split; [reflexivity|]. done.
Qed.

Lemma find_unused_spec l i n : find_unused l i = Some n ->
  exists x, l !! (n - i)%nat = Some x /\ p_state x = UNUSED /\ (i <= n)%nat.
Proof.
  revert i. induction l as [|y l IH]; intros i; cbn; [done|]. case_decide as E.
  - intros [= <-]. exists y. by rewrite Nat.sub_diag.
  - intros (x & Hx & Hs & Hi)%IH. exists x. replace (n - i)%nat with (S (n - S i)) by lia. repeat split; [done..|lia].
Qed.

(** A free entry takes the next pid. *)
Lemma pinv_newpid np x s : pinv s -> kprocs s !! np = Some x -> p_state x = UNUSED ->
  pinv (upd_proc np (set_pid (knextpid s)) (set_nextpid (knextpid s + 1) s)).
Proof.
  intros [P1 P2 P3 P4 P5 P6] Hx Hu. set (s' := upd_proc _ _ _).
  assert (forall j y, kprocs s' !! j = Some y -> (j = np /\ y = set_pid (knextpid s) x) \/ (j <> np /\ kprocs s !! j = Some y)) as HL.
  { intros j y [(-> & z & Hz & ->)|?]%alter_inv; [|auto]. left. cbn in Hz. rewrite Hx in Hz. injection Hz as <-. done. }
  assert (forall j y, kprocs s !! j = Some y -> alive y -> kprocs s' !! j = Some y) as HA.
  { intros j y Hy [Ay _]. cbn. rewrite list_lookup_alter_ne; [done|]. intros ->. congruence. }
  split.
  - intros i y q Hi Hq. assert (exists y0, kprocs s !! i = Some y0 /\ p_parent y0 = Some q) as (y0 & Hy0 & Hq0).
    { destruct (HL _ _ Hi) as [[-> ->]|[? ?]]; eauto. }
    destruct (P1 _ _ _ Hy0 Hq0) as (z & Hz & Az). eauto.
  - intros i y [[-> ->]|[Hi Hy]]%HL; [done|]. exact (P2 _ _ Hy).
  - destruct P3 as (i & y & E & Hy & Ay). exists i, y. auto.
  - intros i j y z [[-> ->]|[Hi Hy]]%HL [[-> ->]|[Hj Hz]]%HL; cbn; [done| | |by eauto].
    + specialize (P5 _ _ Hz). lia.
    + specialize (P5 _ _ Hy). lia.
  - intros i y [[-> ->]|[Hi Hy]]%HL; cbn; [specialize (P5 _ _ Hx)|specialize (P5 _ _ Hy)]; lia.
  - intros i y [[-> ->]|[Hi Hy]]%HL; [done|]. exact (P6 _ _ Hy).
Qed.

Lemma next_pos s : pinv s -> 0 < knextpid s.
Proof. intros [_ _ (i & y & _ & Hy & Ay & _) _ P5 P6]. specialize (P5 _ _ Hy). specialize (P6 _ _ Hy Ay). lia. Qed.

(** A process entry for a new process. *)
Definition newproc (p : nat) (r : option nat) (s : kst) : Prop :=
  kinv W s /\ kcur s = p /\ match r with None => True | Some np => exists par pid, pid <> 0 /\ slot p np UNUSED par pid s end.

Lemma allocproc_ok p fr : triple (fun s => kinv W s /\ kcur s = p) (allocproc fr) (newproc p) (kout W).
Proof.
  unfold allocproc. apply triple_get. intros s0 [[Hp Hr] Hc].
  destruct (find_unused (kprocs s0) 0) as [np|] eqn:E; [|apply triple_ret; intros s <-; split; [by split|by split]].
  apply find_unused_spec in E as (x & Hx & Hu & _). rewrite Nat.sub_0_r in Hx.
  set (P := fun s => kinv W s /\ slot p np UNUSED (p_parent x) (knextpid s0) s).
  assert (good P (kout W)) as HG by (apply good_slot; discriminate).
  apply triple_bind with (fun a s => a = knextpid s0 /\ s = set_nextpid (knextpid s0 + 1) s0).
  { intros s <-. unfold allocpid, bind, get. by case_bool. }
  intros pid. apply triple_bind with (fun _ => P).
  { apply triple_modify. intros s [-> ->]. assert (np <> kcur s0) as Hne.
    { intros ->. destruct Hr as [(y & Hy & Hs) _]. congruence. }
    split; [split; [by apply (pinv_newpid np x)|by apply runs_upd_ne]|]. split; [done|].
    eexists. cbn. rewrite list_lookup_alter_eq, Hx. split; [reflexivity|done]. }
  assert (forall s, P s -> kcur s = p) as HPc by (intros s [_ [? _]]; done).
  intros []. do 2 kept P. case_bool; [apply triple_ret; intros s Hs; split; [apply Hs|]; auto|].
  do 2 kept P. case_bool.
  - eapply triple_bind; [apply freeproc_ok; by left|intros []]. apply triple_ret. intros s [Hk Hs]. split; [done|].
    split; [apply Hs|done].
  - kept P. apply triple_ret. intros s Hs.
    split; [apply Hs|]. split; [auto|]. exists (p_parent x), (knextpid s0). split; [|apply Hs]. pose proof (next_pos _ Hp). lia.
Qed.
End Alloc.

Section Family.
Context {L : Linker} (W : list nat).

Lemma alive_upd np g s j y : kprocs s !! j = Some y -> alive y ->
  (forall x, kprocs s !! np = Some x -> alive x -> alive (g x)) -> exists y', kprocs (upd_proc np g s) !! j = Some y' /\ alive y'.
Proof.
  intros Hy Ay Hg. cbn. rewrite list_lookup_alter. case_decide as E; [|eauto]. subst. rewrite Hy. cbn. eauto.
Qed.

(** The child gets its parent. *)
Lemma pinv_set_parent np p z s : pinv s -> kprocs s !! p = Some z -> alive z -> pinv (upd_proc np (set_parent (Some p)) s).
Proof.
  intros [P1 P2 P3 P4 P5 P6] Hz Az.
  assert (forall j y, kprocs (upd_proc np (set_parent (Some p)) s) !! j = Some y ->
    exists x, kprocs s !! j = Some x /\ p_state y = p_state x /\ p_pid y = p_pid x /\ (p_parent y = p_parent x \/ p_parent y = Some p)) as HL.
  { intros j y [(-> & x & Hx & ->)|[Hj Hy]]%alter_inv; eauto 10. }
  split.
  - intros i y q (x & Hx & _ & _ & [E|E])%HL Hq; rewrite E in Hq.
    + destruct (P1 _ _ _ Hx Hq) as (w & Hw & Aw). by apply (alive_upd _ _ _ _ w).
    + injection Hq as <-. by apply (alive_upd _ _ _ _ z).
  - intros i y (x & Hx & E & _ & [E'|E'])%HL; rewrite E, E'; [by eauto|done].
  - destruct P3 as (i & y & E & Hy & Ay). destruct (alive_upd np (set_parent (Some p)) s i y Hy Ay ltac:(done)) as (y' & ? & ?). eauto.
  - intros i j y y' (x & Hx & _ & E & _)%HL (x' & Hx' & _ & E' & _)%HL. rewrite E, E'. eauto.
  - intros i y (x & Hx & _ & E & _)%HL. rewrite E. eauto.
  - intros i y (x & Hx & E & E' & _)%HL. rewrite E, E'. eauto.
Qed.

(** The child becomes runnable. *)
Lemma pinv_start np x s : pinv s -> kprocs s !! np = Some x -> p_parent x <> None -> p_pid x <> 0 ->
  pinv (upd_proc np (set_state RUNNABLE) s).
Proof.
  intros [P1 P2 P3 P4 P5 P6] Hx Hpa Hpid.
  assert (forall j y, kprocs (upd_proc np (set_state RUNNABLE) s) !! j = Some y ->
    exists w, kprocs s !! j = Some w /\ p_parent y = p_parent w /\ p_pid y = p_pid w /\ (j = np \/ y = w)) as HL.
  { intros j y [(-> & w & Hw & ->)|[Hj Hy]]%alter_inv; eauto 10. }
  assert (forall w, kprocs s !! np = Some w -> alive w -> alive (set_state RUNNABLE w)) as Hal by done.
  split.
  - intros i y q (w & Hw & E & _)%HL Hq. rewrite E in Hq. destruct (P1 _ _ _ Hw Hq) as (v & Hv & Av). by apply (alive_upd _ _ _ _ v).
  - intros i y (w & Hw & E & _ & [->| ->])%HL; [|by eauto]. rewrite E. intros. congruence.
  - destruct P3 as (i & y & E & Hy & Ay). destruct (alive_upd np (set_state RUNNABLE) s i y Hy Ay Hal) as (y' & ? & ?). eauto.
  - intros i j y y' (w & Hw & _ & E & _)%HL (w' & Hw' & _ & E' & _)%HL. rewrite E, E'. eauto.
  - intros i y (w & Hw & _ & E & _)%HL. rewrite E. eauto.
  - intros i y (w & Hw & _ & E & [->| ->])%HL; [rewrite E; intros; congruence|by eauto].
Qed.

Lemma fork_ok fr : keeps (kinv W) (kout W) (fork fr).
Proof.
  unfold fork. apply triple_get. intros s0 Hk. set (p := kcur s0).
  apply triple_bind with (newproc W p).
  { eapply triple_pre; [apply (allocproc_ok W p)|]. by intros s <-. }
  intros [np|]; [|apply triple_ret; by intros s [? _]].
  apply triple_get. intros s1 (Hk1 & _ & par & pid & Hpid & Hs1).
  set (P := fun s => kinv W s /\ slot p np UNUSED par pid s). set (P' := fun s => kinv W s /\ slot p np UNUSED (Some p) pid s).
  assert (good P (kout W)) as HG by (apply good_slot; discriminate). assert (good P' (kout W)) as HG' by (apply good_slot; discriminate).
  apply (triple_pre _ P); [|by intros s <-].
  kept P. case_bool.
  { eapply triple_bind; [apply freeproc_ok; by left|intros []]. apply triple_ret. by intros s [? _]. }
  kept P. apply triple_bind with (fun _ => P').
  { apply triple_modify. intros s [[Hp Hr] Hs]. pose proof (slot_ne _ _ _ _ _ _ _ (conj Hp Hr) Hs ltac:(done)) as Hne.
    destruct Hs as (Ec & x & Hx & E1 & E2 & E3). split; [split|split; [done|]].
    - destruct Hr as [(z & Hz & Ez) _]. rewrite Ec in Hz. apply (pinv_set_parent np p z); [done..|]. unfold alive. by rewrite Ez.
    - by apply runs_upd_ne; [|congruence|].
    - eexists. cbn. rewrite list_lookup_alter_eq, Hx. split; [reflexivity|done]. }
  intros []. do 6 kept P'.
  apply triple_bind with (fun _ => kinv W); [|intros []; by apply triple_ret].
  apply triple_modify. intros s [[Hp Hr] Hs]. pose proof (slot_ne _ _ _ _ _ _ _ (conj Hp Hr) Hs ltac:(done)) as Hne.
  destruct Hs as (Ec & x & Hx & E1 & E2 & E3). split; [|by apply runs_upd_ne; [|congruence|]].
  apply (pinv_start np x); [done..|congruence|congruence].
Qed.

(** The children of an exiting process go to init. *)
Lemma reparent_ok p i : p <> i ->
  triple (fun s => kinv W s /\ kcur s = p /\ kinit s = Some i) (reparent p) (fun _ s => kinv W s /\ childless p i s) (kout W).
Proof.
  intros Hpi. apply triple_modify. intros s [[[P1 P2 P3 P4 P5 P6] Hr] [Hc Hi]].
  set (f := fun x => if decide (p_parent x = Some p) then set_parent (kinit s) x else x).
  assert (forall x, p_state (f x) = p_state x /\ p_pid (f x) = p_pid x) as Hf by (intros x; unfold f; by case_decide).
  assert (forall j y, (f <$> kprocs s) !! j = Some y -> exists x, kprocs s !! j = Some x /\ y = f x) as HL.
  { intros j y. rewrite list_lookup_fmap. intros (x & Hx & ->)%fmap_Some. eauto. }
  assert (forall j x, kprocs s !! j = Some x -> alive x -> exists y, (f <$> kprocs s) !! j = Some y /\ alive y) as HA.
  { intros j x Hx Ax. exists (f x). rewrite list_lookup_fmap, Hx. split; [done|]. unfold alive. by rewrite !(proj1 (Hf x)). }
  split; [split; [split|]|split; [done|split; [done|]]]; cbn -[f].
  - intros j y q (x & Hx & ->)%HL Hq. unfold f in Hq. case_decide as E.
    + cbn in Hq. destruct P3 as (k & z & Ek & Hz & Az). assert (q = k) as -> by congruence. eauto.
    + destruct (P1 _ _ _ Hx Hq) as (z & Hz & Az). eauto.
  - intros j y (x & Hx & ->)%HL. rewrite (proj1 (Hf x)). intros Hu Hj. unfold f. case_decide; [cbn; congruence|]. eauto.
  - destruct P3 as (k & z & Ek & Hz & Az). destruct (HA _ _ Hz Az) as (y & Hy & Ay). eauto.
  - intros j k y z (x & Hx & ->)%HL (w & Hw & ->)%HL. rewrite (proj2 (Hf x)), (proj2 (Hf w)). eauto.
  - intros j y (x & Hx & ->)%HL. rewrite (proj2 (Hf x)). eauto.
  - intros j y (x & Hx & ->)%HL. rewrite (proj1 (Hf x)), (proj2 (Hf x)). eauto.
  - assert (forall j x st, kprocs s !! j = Some x -> p_state x = st -> exists y, (f <$> kprocs s) !! j = Some y /\ p_state y = st) as HS.
    { intros j x st Hx Es. exists (f x). rewrite list_lookup_fmap, Hx. split; [done|]. by rewrite (proj1 (Hf x)). }
    destruct Hr as [(x & Hx & Es) Hw]. split; [by apply (HS _ x)|]. intros j (Hj & y & Hy & Ey)%Hw. split; [done|]. by apply (HS _ y).
  - intros j y (x & Hx & ->)%HL. unfold f. case_decide as E; [cbn; congruence|done].
Qed.

(** A childless process may exit. *)
Lemma kout_zombie p i s : kinv W s -> childless p i s -> p <> i -> kout W (upd_proc p (set_state ZOMBIE) s).
Proof.
  intros [[P1 P2 P3 P4 P5 P6] [(r & Hr & Er) Hrw]] (Ec & Ei & Hn) Hpi. rewrite Ec in Hr.
  split; [|rewrite <- Ec; by apply ready_upd_cur].
  assert (forall j y, kprocs (upd_proc p (set_state ZOMBIE) s) !! j = Some y ->
    exists w, kprocs s !! j = Some w /\ p_parent y = p_parent w /\ p_pid y = p_pid w /\ (p_state y <> UNUSED -> p_state w <> UNUSED)) as HL.
  { intros j y [(-> & w & Hw & ->)|[Hj Hy]]%alter_inv; [|eauto 10]. exists w. repeat split; try done. intros _. congruence. }
  assert (forall j x, j <> p -> kprocs s !! j = Some x -> kprocs (upd_proc p (set_state ZOMBIE) s) !! j = Some x) as HA.
  { intros j x Hj Hx. cbn. by rewrite list_lookup_alter_ne. }
  split.
  - intros j y q (w & Hw & E & _)%HL Hq. rewrite E in Hq. destruct (P1 _ _ _ Hw Hq) as (z & Hz & Az).
    exists z. split; [|done]. apply HA; [|done]. intros ->. by apply (Hn j w).
  - intros j y (w & Hw & E & _ & F)%HL Hu Hj. rewrite E. exact (P2 j w Hw (F Hu) Hj).
  - destruct P3 as (k & z & Ek & Hz & Az). exists k, z. split; [done|]. split; [|done]. apply HA; [congruence|done].
  - intros j k y z (x & Hx & _ & E & _)%HL (w & Hw & _ & E' & _)%HL. rewrite E, E'. eauto.
  - intros j y (x & Hx & _ & E & _)%HL. rewrite E. eauto.
  - intros j y (x & Hx & _ & E & F)%HL. rewrite E. eauto.
Qed.

Lemma exit_ok status : keeps (kinv W) (kout W) (exit status).
Proof.
  unfold exit. apply triple_get. intros s0 Hk. set (p := kcur s0). destruct (decide (Some p = kinit s0)) as [|Hpi]; [apply triple_panic|].
  destruct Hk as [Hp Hr]. destruct (pi_init _ Hp) as (i & y & Hi & _). assert (p <> i) as Hne by congruence.
  set (P := fun s => kinv W s /\ kcur s = p /\ kinit s = Some i).
  assert (good P (kout W)) as HG.
  { apply good_stable; [|by intros s [? _]]. intros s s' (Hk & Ec & Ei) Hq. split; [by apply (kinv_stable W) with s|].
    by rewrite (kq_cur _ _ Hq), (kq_init _ _ Hq). }
  apply (triple_pre _ P); [|by intros s <-].
  do 5 kept P. rewrite Hi. kept P.
  apply triple_get. intros s1 Hs1. apply (triple_pre _ P); [|by intros s <-].
  apply triple_bind with (fun _ s => kinv W s /\ childless p i s); [by apply reparent_ok|intros []].
  apply triple_bind with (fun _ s => kinv W s /\ childless p i s).
  { destruct (p_parent _); [apply keeps_wakeup1, good_childless|apply triple_undefined]. }
  intros []. kept (fun s => kinv W s /\ childless p i s).
  apply triple_bind with (fun _ => kout W); [|intros []; by apply triple_block].
  apply triple_modify. intros s [Hk Hc]. by apply (kout_zombie p i).
Qed.

Lemma wait_scan_spec p l i hk r : wait_scan p l i hk = r ->
  match fst r with
  | Some n => exists x, (i <= n)%nat /\ l !! (n - i)%nat = Some x /\ p_parent x = Some p /\ p_state x = ZOMBIE
  | None => (forall j x, l !! j = Some x -> p_parent x = Some p -> p_state x <> ZOMBIE) /\
            (snd r = false <-> hk = false /\ forall j x, l !! j = Some x -> p_parent x <> Some p)
  end.
Proof.
  intros <-. revert i hk. induction l as [|x l IH]; intros i hk; cbn [wait_scan].
  - cbn. split; [done|]. split; [|by intros [? _]]. by intros ->.
  - assert (forall hk', match fst (wait_scan p l (S i) hk') with
        | Some n => exists y, (i <= n)%nat /\ (x :: l) !! (n - i)%nat = Some y /\ p_parent y = Some p /\ p_state y = ZOMBIE
        | None => True end) as Hs.
    { intros hk'. specialize (IH (S i) hk'). destruct (fst _) as [n|]; [|done]. destruct IH as (y & Hn & Hy & E).
      exists y. split; [lia|]. replace (n - i)%nat with (S (n - S i)) by lia. done. }
    repeat case_decide; cbn [fst snd].
    + exists x. rewrite Nat.sub_diag. by repeat split.
    + specialize (Hs true). specialize (IH (S i) true). destruct (fst _); [done|]. destruct IH as [I1 I2]. split.
      * intros [|j] y; [by intros [= <-]|apply I1].
      * split; [by intros [? _]%I2|]. intros [_ Hno]. by destruct (Hno 0%nat x).
    + specialize (Hs hk). specialize (IH (S i) hk). destruct (fst _); [done|]. destruct IH as [I1 I2]. split.
      * intros [|j] y; [by intros [= <-]|apply I1].
      * rewrite I2. split; intros [? Hno]; (split; [done|]).
        -- intros [|j] y; [by intros [= <-]|apply Hno].
        -- intros j y Hy. by apply (Hno (S j)).
Qed.

Lemma wait_scan_kids p l i hk n : fst (wait_scan p l i hk) = Some n -> snd (wait_scan p l i hk) = true.
Proof. revert i hk. induction l as [|x l IH]; intros i hk; cbn [wait_scan]; [done|]. repeat case_decide; auto. Qed.

Lemma sleep_ok {A} c : triple (kinv W) (sleep c : K A) (fun _ => kinv W) (kout W).
Proof. intros s Hs. by apply (kout_sleep W c s). Qed.

Lemma wait_ok addr : keeps (kinv W) (kout W) (wait addr).
Proof.
  unfold wait. apply triple_get. intros s Hk. pose proof (wait_scan_spec (kcur s) (kprocs s) 0 false _ eq_refl) as Hs.
  destruct (wait_scan _ _ _ _) as [[np|] hk]; cbn [fst snd] in Hs.
  - destruct Hs as (x & _ & Hx & E1 & E2). rewrite Nat.sub_0_r in Hx.
    set (P := fun s' => kinv W s' /\ slot (kcur s) np ZOMBIE (Some (kcur s)) (p_pid x) s').
    assert (good P (kout W)) as HG by (apply good_slot; discriminate).
    apply (triple_pre _ P); [|intros ? <-; split; [done|]; split; [done|]; by exists x].
    apply triple_bind with (fun _ => P).
    { case_bool; [by apply keeps_on_kmem|by apply keeps_ret]. }
    intros r. case_bool; [apply triple_ret; by intros ? [? _]|].
    eapply triple_bind; [apply freeproc_ok; by right|intros []]. apply triple_ret. by intros ? [? _].
  - apply (triple_pre _ (kinv W)); [|by intros ? <-]. case_bool; [by apply triple_ret|apply sleep_ok].
Qed.

Lemma kill_scan_quiet pid l l' : kill_scan pid l = Some l' -> Forall2 quiet l l'.
Proof.
  revert l'. induction l as [|x l IH]; intros l'; cbn [kill_scan]; [done|]. case_bool.
  - intros [= <-]. constructor; [|reflexivity]. case_decide as E; (split; [done|]; split; [done|]); [right|left]; done.
  - destruct (kill_scan pid l) as [r|]; [|done]. intros [= <-]. constructor; [reflexivity|auto].
Qed.

Lemma kill_ok pid : keeps (kinv W) (kout W) (kill pid).
Proof.
  unfold kill. apply triple_get. intros s Hk. destruct (kill_scan _ _) as [l|] eqn:E; [|apply triple_ret; by intros ? <-].
  apply triple_bind with (fun _ => kinv W); [|intros []; by apply triple_ret].
  apply triple_put. intros ? <-. apply (kinv_stable W) with s; [done|]. split; try done. by apply (kill_scan_quiet pid).
Qed.

Lemma growproc_ok n : keeps (kinv W) (kout W) (growproc n).
Proof. pose proof (good_kinv W). unfold growproc. repeat keeps_step. Qed.

Lemma wakeup_quiet c s : kquiet s (set_procs (wake c <$> kprocs s) s).
Proof. split; try done. apply (kquiet_wakes [c]). Qed.

Lemma yield_ok : triple (kinv W) yield (fun _ => kout W) (kout W).
Proof.
  apply triple_modify. intros s [Hp [(x & Hx & Hs) Hw]]. split; [|by apply ready_upd_cur]. apply pinv_upd; [done|].
  intros y Hy. assert (y = x) as -> by congruence. unfold mild, alive. cbn. by rewrite Hs.
Qed.
End Family.

(** ** The system *)
(** The state a call leaves, whether it returned or gave up the CPU. *)
Definition leaves {A} (o : outcome kst A) (s' : kst) : Prop :=
  match o with Ok _ t | Block _ t => s' = t | _ => False end.

(** What can happen while the current process has the CPU: its system calls, calls into
    the lower layers, and interrupts that wake sleepers. *)
Inductive kcall {L : Linker} (fr : Z) : kst -> kst -> Prop :=
| kc_fork s s' : runs [] s -> leaves (fork fr s) s' -> kcall fr s s'
| kc_exit status s s' : runs [] s -> leaves (exit status s) s' -> kcall fr s s'
| kc_wait addr s s' : runs [] s -> leaves (wait addr s) s' -> kcall fr s s'
| kc_kill pid s s' : runs [] s -> leaves (kill pid s) s' -> kcall fr s s'
| kc_growproc n s s' : runs [] s -> leaves (growproc n s) s' -> kcall fr s s'
| kc_yield s s' : runs [] s -> leaves (yield s) s' -> kcall fr s s'
| kc_files {A} (m : M files A) s s' : runs [] s -> leaves (on_files m s) s' -> kcall fr s s'
| kc_resume s s' : runs [] s -> leaves (sleep_resume s) s' -> kcall fr s s'
| kc_wakeup c s s' : leaves (wakeup c s) s' -> kcall fr s s'.

(** A step of the system: a call, or [scheduler] starts a process. *)
Inductive kstep {L : Linker} (fr : Z) : kst -> kst -> Prop :=
| ks_call s s' : kcall fr s s' -> kstep fr s s'
| ks_schedule p s : p_state (the_proc p s) = RUNNABLE -> kstep fr s (set_cur p (upd_proc p (set_state RUNNING) s)).

Section System.
Context {L : Linker} (fr : Z).

Lemma leaves_triple {A} P (m : M kst A) (Q : A -> kst -> Prop) R s s' : triple P m Q R -> P s -> leaves (m s) s' ->
  (forall a t, Q a t -> R t) -> R s'.
Proof. intros Hm Hs. specialize (Hm s Hs). destruct (m s); try done; cbn; intros -> HQ; eauto. Qed.

Lemma kinv_kout W s : kinv W s -> kout W s.
Proof. intros [? [_ ?]]. done. Qed.

Lemma kcall_kout W s s' : kcall fr s s' -> kout W s -> kout W s'.
Proof.
  intros Hc [Hp Hw]. assert (runs [] s -> kinv W s) as Hk by (by intros [? _]). pose proof (kinv_kout W) as HI.
  assert (forall A (m : M kst A), keeps (kinv W) (kout W) m -> runs [] s -> leaves (m s) s' -> kout W s') as Hkeep.
  { intros A m Hm Hr Hl. eapply leaves_triple; [exact Hm|auto|exact Hl|auto]. }
  destruct Hc as [? ? Hr Hl|? ? ? Hr Hl|? ? ? Hr Hl|? ? ? Hr Hl|? ? ? Hr Hl|? ? Hr Hl|? ? ? ? Hr Hl|? ? Hr Hl|? ? ? Hl].
  - exact (Hkeep _ _ (fork_ok W fr) Hr Hl).
  - exact (Hkeep _ _ (exit_ok W _) Hr Hl).
  - exact (Hkeep _ _ (wait_ok W _) Hr Hl).
  - exact (Hkeep _ _ (kill_ok W _) Hr Hl).
  - exact (Hkeep _ _ (growproc_ok W _) Hr Hl).
  - eapply leaves_triple; [exact (yield_ok W)|auto|exact Hl|auto].
  - exact (Hkeep _ _ (keeps_on_files _ m _ (good_kinv W)) Hr Hl).
  - cbn in Hl. subst. apply HI, (kinv_stable W) with s; [auto|]. apply kquiet_upd. quiet_tac.
  - cbn in Hl. subst. pose proof (wakeup_quiet c s) as Hq. split; [by apply (pinv_quiet s)|].
    intros j (Hj & x & Hx & Es)%Hw. split; [done|]. by apply (quiet_state s _ _ x).
Qed.
End System.
