(* ===== verification/ProcProps.v ===== *)
(** * Processes: booting, exiting, waiting, scheduling *)
From stdpp Require Import base gmap list numbers strings relations sorting.
From Stdlib Require Import ZArith Lia Sorted.
From S2P Require Import Prelude Riscv Mem Bytes Kalloc Vm Access Uart.
From S2P Require Console.
From S2P Require Import Sleeplock Bio BlockCache Log TxDisk Fs File Triple Proc ProcSpec.
Open Scope Z_scope.

(** ** The first process *)
(** The table in zeroed storage. *)
Record boot_table (s : kst) : Prop := {
  bt_procs i x : kprocs s !! i = Some x -> p_state x = UNUSED /\ p_parent x = None /\ p_pid x = 0;
  bt_next : knextpid s = 1
}.

(** Entry [np] is being set up and the others are free. *)
Definition booting (np : nat) (st : procstate) (i : option nat) (s : kst) : Prop :=
  knextpid s = 2 /\ kinit s = i /\
  (exists x, kprocs s !! np = Some x /\ p_state x = st /\ p_parent x = None /\ p_pid x = 1) /\
  forall j y, kprocs s !! j = Some y -> j <> np -> p_state y = UNUSED /\ p_parent y = None /\ p_pid y = 0.

Lemma booting_quiet np st i : st <> SLEEPING -> good (booting np st i) (fun _ => True).
Proof.
  intros Hst. split; [|done]. intros s s' (Hn & Hi & (x & Hx & E1 & E2 & E3) & Ho) Hq.
  assert (forall j y, kprocs s' !! j = Some y -> exists z, kprocs s !! j = Some z /\ quiet z y) as HL by (intros; by eapply kquiet_lookup).
  split; [by rewrite (kq_next _ _ Hq)|]. split; [by rewrite (kq_init _ _ Hq)|]. split.
  - destruct (kquiet_lookup_l _ _ _ _ Hq Hx) as (x' & Hx' & Q1 & Q2 & Q3). exists x'. split; [done|].
    destruct Q3 as [Q3|[Q3 _]]; [|congruence]. repeat split; congruence.
  - intros j y (z & Hz & Q1 & Q2 & Q3)%HL Hj. destruct (Ho j z Hz Hj) as (F1 & F2 & F3).
    destruct Q3 as [Q3|[Q3 _]]; [|congruence]. repeat split; congruence.
Qed.

Section Boot.
Context {L : Linker} (fr : Z).

Lemma userinit_alloc : triple boot_table (allocproc fr) (fun r s => match r with Some np => booting np UNUSED (kinit s) s | None => True end) (fun _ => True).
Proof.
  unfold allocproc. apply triple_get. intros s0 [Hp Hn].
  destruct (find_unused (kprocs s0) 0) as [np|] eqn:E; [|by apply triple_ret].
  apply find_unused_spec in E as (x & Hx & Hu & _). rewrite Nat.sub_0_r in Hx.
  set (P := booting np UNUSED (kinit s0)). assert (good P (fun _ => True)) as HG by (by apply booting_quiet).
  apply triple_bind with (fun a s => a = 1 /\ s = set_nextpid 2 s0).
  { intros s <-. unfold allocpid, bind, get. rewrite Hn. done. }
  intros pid. apply triple_bind with (fun _ => P).
  { apply triple_modify. intros s [-> ->]. split; [done|]. split; [done|]. split.
    - eexists. cbn. rewrite list_lookup_alter_eq, Hx. split; [reflexivity|]. cbn. by destruct (Hp _ _ Hx) as (? & ? & _).
    - intros j y Hy Hj. cbn in Hy. rewrite list_lookup_alter_ne in Hy by done. eauto. }
  assert (forall s, P s -> booting np UNUSED (kinit s) s) as Hfin by (intros s (A & _ & C); split; [done|]; split; [done|exact C]).
  intros []. do 2 kept P. case_bool; [by apply triple_ret|]. do 2 kept P. case_bool.
  - apply triple_bind with (fun _ _ => True); [|intros []; by apply triple_ret]. intros s _. by destruct (freeproc np s).
  - kept P. apply triple_ret. auto.
Qed.

Lemma booted_pinv np s : booting np RUNNABLE (Some np) s -> pinv s.
Proof.
  intros (Hn & Hi & (x & Hx & E1 & E2 & E3) & Ho).
  assert (forall j y, kprocs s !! j = Some y -> (j = np /\ y = x) \/
    (j <> np /\ p_state y = UNUSED /\ p_parent y = None /\ p_pid y = 0)) as HL.
  { intros j y Hy. destruct (decide (j = np)) as [->|Hj]; [left; split; congruence|right; split; [done|by apply (Ho j)]]. }
  split.
  - intros i y q [[-> ->]|(_ & _ & ? & _)]%HL; congruence.
  - intros i y [[-> ->]|(_ & ? & _ & _)]%HL; congruence.
  - exists np, x. split; [done|]. split; [done|]. unfold alive. by rewrite E1.
  - intros i j y z [[-> ->]|(? & _ & _ & ?)]%HL [[-> ->]|(? & _ & _ & ?)]%HL; congruence.
  - intros i y [[-> ->]|(_ & _ & _ & ->)]%HL; rewrite ?E3, Hn; lia.
  - intros i y [[-> ->]|(_ & ? & _ & _)]%HL; [|congruence]. by rewrite E3.
Qed.

Lemma userinit_ok : triple boot_table (userinit fr) (fun _ => pinv) (fun _ => True).
Proof.
  unfold userinit. eapply triple_bind; [apply userinit_alloc|]. intros [np|]; [|apply triple_undefined].
  set (P := booting np UNUSED (Some np)). assert (good P (fun _ => True)) as HG by (by apply booting_quiet).
  apply triple_bind with (fun _ => P).
  { apply triple_modify. intros s (A & _ & C). split; [done|]. split; [done|exact C]. }
  intros []. apply triple_get. intros s1 Hs1. apply (triple_pre _ P); [|by intros ? <-]. do 7 kept P.
  apply triple_modify. intros s (Hn & Hi & (x & Hx & E1 & E2 & E3) & Ho). apply (booted_pinv np).
  split; [done|]. split; [done|]. split.
  - eexists. cbn. rewrite list_lookup_alter_eq, Hx. split; [reflexivity|]. done.
  - intros j y Hy Hj. cbn in Hy. rewrite list_lookup_alter_ne in Hy by done. by apply (Ho j).
Qed.

Lemma kstep_pinv s s' : kstep fr s s' -> pinv s -> pinv s'.
Proof.
  intros [? ? Hc|p t Hr] Hp.
  - apply (kcall_kout fr [] _ _ Hc). split; [done|]. by intros j ?%not_elem_of_nil.
  - apply (pinv_mild (upd_proc p (set_state RUNNING) t)); [|reflexivity|done..]. apply pinv_upd; [done|]. intros x Hx.
    unfold the_proc in Hr. rewrite (list_lookup_total_correct _ _ _ Hx) in Hr. unfold mild, alive. cbn. by rewrite Hr.
Qed.

Lemma rtc_pinv s s' : rtc (kstep fr) s s' -> pinv s -> pinv s'.
Proof. induction 1 as [|x y z Hxy _ IH]; [done|]. intros Hx. apply IH. by apply (kstep_pinv x). Qed.

End Boot.

(** ** Exit and wait *)
(** If [p] is a zombie, its status is there for a parent that is not asleep in [wait]. *)
Definition asleep_in_wait (q : nat) (y : proc) : Prop := p_state y = SLEEPING /\ p_chan y = Some (CProc q).
Definition collectable (p : nat) (status : Z) (s : kst) : Prop :=
  forall x, kprocs s !! p = Some x -> p_state x = ZOMBIE -> p_xstate x = status /\
    exists q y, p_parent x = Some q /\ kprocs s !! q = Some y /\ ~ asleep_in_wait q y.

Lemma wake_awake q y : ~ asleep_in_wait q (wake (CProc q) y).
Proof. unfold asleep_in_wait, wake. case_decide as E; cbn; [by intros [? _]|tauto]. Qed.

Section Exit.
Context {L : Linker}.

(** The steps of [exit] after it has read its parent. *)
Lemma exit_tail_collectable p i q status x s :
  kprocs s !! p = Some x -> p_parent x = Some q -> kinit s = Some i -> p <> i -> (exists yq, kprocs s !! q = Some yq) ->
  (exists yi, kprocs s !! i = Some yi /\ ~ asleep_in_wait i yi) ->
  let rp x := if decide (p_parent x = Some p) then set_parent (kinit s) x else x in
  collectable p status (upd_proc p (set_state ZOMBIE) (upd_proc p (set_xstate status)
    (upd_proc q (wake (CProc q)) (set_procs (rp <$> kprocs s) s)))).
Proof.
  intros Hx Hq Hi Hpi (yq & Hyq) (yi & Hyi & Ai) rp. set (s2 := upd_proc q _ _).
  assert (kprocs s2 !! p = Some (if decide (q = p) then wake (CProc q) (rp x) else rp x)) as H2.
  { cbn -[rp]. rewrite list_lookup_alter. case_decide; subst; by rewrite list_lookup_fmap, Hx. }
  intros z Hz _. cbn -[rp] in Hz. change (kprocs s2) with (alter (wake (CProc q)) q (rp <$> kprocs s)) in H2.
  rewrite !list_lookup_alter_eq, H2 in Hz. cbn -[rp] in Hz. injection Hz as <-. split; [done|]. cbn [p_parent set_state set_xstate].
  assert (forall j y, j <> p -> kprocs s !! j = Some y -> exists y', alter (set_state ZOMBIE) p (alter (set_xstate status) p
    (alter (wake (CProc q)) q (rp <$> kprocs s))) !! j = Some y' /\ (y' = rp y \/ y' = wake (CProc q) (rp y)) /\ (j = q -> y' = wake (CProc q) (rp y))) as HL.
  { intros j y Hj Hy. rewrite !list_lookup_alter_ne by done. rewrite list_lookup_alter.
    destruct (decide (q = j)); subst; rewrite list_lookup_fmap, Hy; eexists; (split; [reflexivity|]); naive_solver. }
  assert (forall y, asleep_in_wait i (rp y) -> asleep_in_wait i y) as Hrp by (intros y; unfold rp; by destruct (decide (p_parent y = _))).
  destruct (decide (q = p)) as [->|Hne].
  - destruct (HL i yi) as (y' & Hy' & E & _); [done..|]. exists i, y'. split; [|split; [exact Hy'|]].
    + unfold rp. rewrite decide_True by done. unfold wake. by case_decide.
    + destruct E as [->| ->]; [auto|]. unfold wake. case_decide; [by intros [? _]|auto].
  - destruct (HL q yq) as (y' & Hy' & _ & E); [done..|]. exists q, y'. split; [|split; [exact Hy'|]].
    + unfold rp. rewrite decide_False; [done|congruence].
    + rewrite E by done. apply wake_awake.
Qed.

Lemma exit_collectable status s c s' : kinv [] s -> exit status s = Block c s' -> pinv s' /\ collectable (kcur s) status s'.
Proof.
  intros Hk E. split; [pose proof (exit_ok [] status s Hk) as He; rewrite E in He; apply He|].
  cut (triple (eq s) (exit status) (fun _ _ => True) (collectable (kcur s) status)).
  { intros Ht. specialize (Ht s eq_refl). by rewrite E in Ht. }
  clear E s' c. unfold exit. apply triple_get. intros ? <-. set (p := kcur s).
  destruct (decide (Some p = kinit s)) as [|Hpi]; [apply triple_panic|].
  destruct Hk as [Hp Hr]. destruct (pi_init _ Hp) as (i & y & Hi & _). assert (p <> i) as Hne by congruence.
  set (P := fun s => kinv [] s /\ kcur s = p /\ kinit s = Some i).
  assert (good P (collectable p status)) as HG.
  { split.
    - intros t t' (Hk & Ec & Ei) Hq. split; [by apply (kinv_stable []) with t|]. by rewrite (kq_cur _ _ Hq), (kq_init _ _ Hq).
    - intros c t (Hk & Ec & Ei) x Hx. unfold slept in Hx. cbn in Hx. rewrite Ec, !list_lookup_alter_eq in Hx.
      apply fmap_Some in Hx as (x' & _ & ->). done. }
  apply (triple_pre _ P); [|by intros ? <-]. do 5 kept P. rewrite Hi.
  apply triple_bind with (fun _ t => P t /\ forall yi, kprocs t !! i = Some yi -> ~ asleep_in_wait i yi).
  { intros t Ht. pose proof (keeps_wakeup1 P i _ HG t Ht) as Hw. split; [exact Hw|]. cbn. intros yi.
    rewrite list_lookup_alter_eq. intros (z & _ & ->)%fmap_Some. apply wake_awake. }
  intros []. intros t [[[Hpt [(x & Hx & _) _]] [Ec Ei]] Ha]. rewrite Ec in Hx.
  assert (the_proc p t = x) as Ex by (apply list_lookup_total_correct, Hx). unfold bind, get, modify, reparent. rewrite Ex.
  destruct (p_parent x) as [q|] eqn:Eq; [|done]. destruct (pi_init _ Hpt) as (i' & yi & Ei' & Hyi & _). assert (i' = i) as -> by congruence.
  destruct (pi_parent _ Hpt _ _ _ Hx Eq) as (yq & Hyq & _). eapply (exit_tail_collectable p i q status x t); eauto.
Qed.

End Exit.

(** ** Scheduling *)
Section Sched.
Context {L : Linker} (fr : Z) (run : nat -> kst -> kst).
(** Between [swtch] to a process and back, that process makes calls and interrupts
    arrive. *)
Hypothesis run_calls : forall s, kinv [] s -> rtc (kcall fr) s (run (kcur s) s).

Lemma calls_kout W s s' : rtc (kcall fr) s s' -> kout W s -> kout W s'.
Proof. induction 1 as [|x y z Hxy _ IH]; [done|]. intros Hx. apply IH. by apply (kcall_kout fr W x). Qed.

Definition is_runnable (s : kst) (j : nat) : Prop := exists x, kprocs s !! j = Some x /\ p_state x = RUNNABLE.

(** A scheduled process leaves the table well formed and the other runnable processes
    runnable. *)
Lemma scheduled i s : pinv s -> p_state (the_proc i s) = RUNNABLE ->
  let s' := run i (set_cur i (upd_proc i (set_state RUNNING) s)) in
  pinv s' /\ forall j, j <> i -> is_runnable s j -> is_runnable s' j.
Proof.
  intros Hp Hr. set (t := set_cur i _).
  assert (exists x, kprocs s !! i = Some x /\ p_state x = RUNNABLE) as (x & Hx & Es).
  { unfold the_proc in Hr. rewrite list_lookup_total_alt in Hr. destruct (kprocs s !! i) as [x|]; [by exists x|done]. }
  assert (forall W, (forall j, j ∈ W -> j <> i /\ is_runnable s j) -> kinv W t) as Hk.
  { intros W HW. split; [by apply (kstep_pinv fr s), Hp; apply ks_schedule|]. split.
    - exists (set_state RUNNING x). cbn. by rewrite list_lookup_alter_eq, Hx.
    - intros j [Hj Hy]%HW. split; [done|]. cbn. by rewrite list_lookup_alter_ne. }
  assert (rtc (kcall fr) t (run i t)) as Hc by (apply (run_calls t), Hk; by intros j ?%not_elem_of_nil).
  assert (forall W, (forall j, j ∈ W -> j <> i /\ is_runnable s j) -> kout W (run i t)) as Ho.
  { intros W HW. apply (calls_kout W t); [done|]. by apply kinv_kout, Hk. }
  split; [apply (Ho []); by intros j ?%not_elem_of_nil|]. intros j Hj Hy.
  destruct (Ho [j]) as [_ Hw]; [by intros k ->%list_elem_of_singleton|]. apply Hw. by apply list_elem_of_singleton.
Qed.

Lemma pass_ok k i s : pinv s -> let (s', l) := scheduler_pass run i k s in
  pinv s' /\ (forall j, (i <= j < i + k)%nat -> is_runnable s j -> j ∈ l) /\ StronglySorted lt l /\ Forall (fun j => i <= j)%nat l.
Proof.
  revert i s. induction k as [|k IH]; intros i s Hp; cbn [scheduler_pass].
  - split; [done|]. split; [lia|]. split; constructor.
  - case_decide as E.
    + destruct (scheduled i s Hp E) as [Hp' Hw]. specialize (IH (S i) _ Hp').
      destruct (scheduler_pass run (S i) k _) as [s' l]. destruct IH as (I1 & I2 & I3 & I4). split; [done|]. split; [|split].
      * intros j Hj Hr. apply elem_of_cons. destruct (decide (j = i)) as [|Hne]; [by left|right]. apply I2; [lia|auto].
      * constructor; [done|]. eapply Forall_impl; [exact I4|]. cbn. lia.
      * constructor; [lia|]. eapply Forall_impl; [exact I4|]. cbn. lia.
    + specialize (IH (S i) s Hp). destruct (scheduler_pass run (S i) k s) as [s' l]. destruct IH as (I1 & I2 & I3 & I4).
      split; [done|]. split; [|split; [done|]].
      * intros j Hj (x & Hx & Hr). apply I2; [|by exists x]. assert (j <> i); [|lia]. intros ->.
        apply E. unfold the_proc. by rewrite (list_lookup_total_correct _ _ _ Hx).
      * eapply Forall_impl; [exact I4|]. cbn. lia.
Qed.

End Sched.

(** ** A machine that boots *)
#[local] Existing Instance demo_linker.

(** Physical memory with sixteen free pages. *)
Definition demo_kmem : kmem_st :=
  let p i := PHYSTOP - (16 - Z.of_nat i) * PGSIZE in
  mk_kmem (foldr (fun i m => store64 m (p i) (if (i =? 15)%nat then 0 else p (S i))) ∅ (seq 0 16)) (p 0%nat).

Definition demo_files : files :=
  mk_fst
    (mk_fs (mk_log 0 0 0 0 0 0 [] (mk_bio [] 0 (fun _ => []) [] []) []) (mk_sb 0 0 0 0 0 0 0 0)
       (replicate NINODE (mk_inode 0 0 0 (initsleeplock "inode") 0 0 0 0 0 0 [])) demo_kmem 0 0 0 [] [])
    [] ∅ (Console.mk_cons [] 0 0 0 (mk_uart [] 0 0 [] [] [] [] [] false 0) demo_kmem []) [] false.

Definition demo_kst : kst := mk_kst (replicate NPROC proc0) 1 None 0 0 true 0 demo_files.

Definition state_of {A} (o : outcome kst A) : kst := match o with Ok _ s | Block _ s => s | _ => demo_kst end.
Definition ok_with {A} (b : A -> kst -> bool) (o : outcome kst A) : bool := match o with Ok a s => b a s | _ => false end.

Lemma ok_with_spec {A} (b : A -> kst -> bool) (o : outcome kst A) : ok_with b o = true -> exists a, o = Ok a (state_of o) /\ b a (state_of o) = true.
Proof. destruct o; try discriminate. intros. by exists a. Qed.

Definition blocks_with {A} (b : kst -> bool) (o : outcome kst A) : bool := match o with Block _ s => b s | _ => false end.

Lemma blocks_with_spec {A} (b : kst -> bool) (o : outcome kst A) : blocks_with b o = true -> exists c, o = Block c (state_of o) /\ b (state_of o) = true.
Proof. destruct o; try discriminate. intros. by exists c. Qed.

Definition on_cpu (p : nat) (s : kst) : kst := set_cur p (upd_proc p (set_state RUNNING) s).

(** The booted machine with init on the CPU; init calls [kill(0)] and forks a child,
    which gets the CPU. *)
Definition demo_init : kst := on_cpu 0 (state_of (userinit 0 demo_kst)).
Definition demo_killed : kst := state_of (kill 0 demo_init).
Definition demo_child : kst := on_cpu 1 (state_of (fork 0 demo_killed)).

Definition has_state (p : nat) (st : procstate) (s : kst) : bool :=
  bool_decide (p_state <$> kprocs s !! p = Some st).

Lemma has_state_spec p st s : has_state p st s = true -> exists x, kprocs s !! p = Some x /\ p_state x = st.
Proof. intros (x & Hx & Hs)%bool_decide_eq_true%fmap_Some. by exists x. Qed.

(** The run, evaluated. *)
Definition demo_trace : list bool :=
  [ok_with (fun _ s => has_state 0 RUNNABLE s) (userinit 0 demo_kst);
   has_state (kcur demo_init) RUNNING demo_init;
   ok_with (fun r s => (r =? 0) && has_state (kcur s) RUNNING s) (kill 0 demo_init);
   ok_with (fun r s => (r =? 2) && has_state 1 RUNNABLE s && (p_killed (the_proc 1 s) =? 1)) (fork 0 demo_killed);
   has_state (kcur demo_child) RUNNING demo_child;
   blocks_with (has_state 1 ZOMBIE) (exit 7 demo_child)].

Lemma demo_trace_ok : demo_trace = replicate 6 true.
Proof. vm_compute. reflexivity. Qed.

Lemma demo_trace_nth i b : demo_trace !! i = Some b -> b = true.
Proof. rewrite demo_trace_ok. by intros [-> _]%lookup_replicate. Qed.

Lemma running_cpu s : has_state (kcur s) RUNNING s = true -> runs [] s.
Proof. intros (x & Hx & Hs)%has_state_spec. split; [by exists x|]. by intros j ?%not_elem_of_nil. Qed.

Lemma the_proc_state p s x : kprocs s !! p = Some x -> the_proc p s = x.
Proof. apply list_lookup_total_correct. Qed.

Lemma leaves_ok {A} (o : outcome kst A) a s : o = Ok a s -> leaves o s.
Proof. intros ->. reflexivity. Qed.

Lemma demo_steps : boot_table demo_kst /\ exists s0 s1 s2, userinit 0 demo_kst = Ok tt s0 /\ rtc (kstep 0) s0 s2 /\
  kill 0 demo_init = Ok 0 s1 /\ fork 0 s1 = Ok 2 s2 /\ demo_child = on_cpu 1 s2 /\
  p_state (the_proc 1 s2) = RUNNABLE /\ p_killed (the_proc 1 s2) = 1.
Proof.
  split; [split; [|reflexivity]; intros i x [-> _]%lookup_replicate; done|].
  destruct (ok_with_spec _ _ (demo_trace_nth 0 _ eq_refl)) as ([] & E0 & (x & Hx & Es)%has_state_spec).
  pose proof (demo_trace_nth 1 _ eq_refl) as R0.
  destruct (ok_with_spec _ _ (demo_trace_nth 2 _ eq_refl)) as (r & E1 & [H1 R1]%andb_prop). apply Z.eqb_eq in H1 as ->.
  destruct (ok_with_spec _ _ (demo_trace_nth 3 _ eq_refl)) as (r & E2 & [[H1 H2]%andb_prop H3]%andb_prop). apply Z.eqb_eq in H1 as ->.
  apply has_state_spec in H2 as (y & Hy & Ey). apply Z.eqb_eq in H3.
  eexists _, _, _. split; [exact E0|]. split; [|split; [exact E1|split; [exact E2|split; [reflexivity|]]]].
  - apply rtc_l with demo_init; [|apply rtc_l with demo_killed; [|apply rtc_once]].
    + apply ks_schedule. exact (eq_trans (f_equal p_state (the_proc_state _ _ _ Hx)) Es).
    + apply ks_call, (kc_kill 0 0); [exact (running_cpu _ R0)|]. exact (leaves_ok _ _ _ E1).
    + apply ks_call, kc_fork; [exact (running_cpu _ R1)|]. exact (leaves_ok _ _ _ E2).
  - split; [exact (eq_trans (f_equal p_state (the_proc_state _ _ _ Hy)) Ey)|exact H3].
Qed.


Lemma demo_kinv : kinv [] demo_child.
Proof.
  destruct demo_steps as (Hb & s0 & s1 & s2 & E & Hs & _ & _ & Ec & Hr & _). pose proof (userinit_ok 0 demo_kst Hb) as Hu. rewrite E in Hu.
  pose proof (running_cpu _ (demo_trace_nth 4 _ eq_refl)) as Hrun. rewrite Ec in *. split; [|exact Hrun].
  apply (kstep_pinv 0 s2); [|exact (rtc_pinv 0 s0 s2 Hs Hu)]. exact (ks_schedule 0 1 s2 Hr).
Qed.


(** Processes that yield at once. *)
Definition yields (p : nat) (s : kst) : kst := upd_proc p (set_state RUNNABLE) s.

Lemma yields_calls {L : Linker} s : kinv [] s -> rtc (kcall 0) s (yields (kcur s) s).
Proof. intros [_ Hr]. apply rtc_once. by apply kc_yield. Qed.


