(* ===== verification/Virtio.v ===== *)
(** * kernel/virtio_disk.c: the disk driver

    The driver and the device share descriptors and two rings.  A request is submitted
    by [virtio_disk_rw], completed by the device at any later time and in any order, and
    noticed by [virtio_disk_intr]; the process then takes its descriptors back. *)
From stdpp Require Import base functions list numbers strings.
From Stdlib Require Import ZArith Lia.
From S2P Require Import Prelude Bytes Bio.
Open Scope Z_scope.

Definition NUM : Z := 8.
Definition VRING_DESC_F_NEXT : Z := 1.
Definition VRING_DESC_F_WRITE : Z := 2.
Definition VIRTIO_BLK_T_IN : Z := 0.
Definition VIRTIO_BLK_T_OUT : Z := 1.

(** What a descriptor points to: nothing, [buf0] of a sleeping process with its content,
    the data of a buffer, or the status byte of [info]. *)
Inductive paddr := PNull | PHdr (type sector : Z) | PData (b : nat) | PStatus (i : nat).

Record vdesc := mk_desc { vd_addr : paddr; vd_len : Z; vd_flags : Z; vd_next : Z }.
#[export] Instance vdesc_inhabited : Inhabited vdesc := populate (mk_desc PNull 0 0 0).
Record vinfo := mk_info { in_b : option nat; in_status : Z }.
#[export] Instance vinfo_inhabited : Inhabited vinfo := populate (mk_info None 0).

(** [struct disk], the used ring the device writes, [b->disk] and [b->data] of the
    buffers. *)
Record vdisk := mk_vd {
  desc : list vdesc;
  avail : list Z;
  avail_idx : Z;
  used : list Z;
  used_id : Z;
  free : list bool;
  used_idx : Z;
  info : list vinfo;
  b_disk : nat -> Z;
  b_bytes : nat -> list Z;
  vwoken : list chan
}.

Implicit Types (s : vdisk).
Definition set_desc (i : nat) (d : vdesc) s : vdisk :=
  mk_vd (<[i := d]> (desc s)) (avail s) (avail_idx s) (used s) (used_id s) (free s) (used_idx s) (info s) (b_disk s) (b_bytes s) (vwoken s).
Definition set_avail (a : list Z) (n : Z) s : vdisk :=
  mk_vd (desc s) a n (used s) (used_id s) (free s) (used_idx s) (info s) (b_disk s) (b_bytes s) (vwoken s).
Definition set_used (u : list Z) (n : Z) s : vdisk :=
  mk_vd (desc s) (avail s) (avail_idx s) u n (free s) (used_idx s) (info s) (b_disk s) (b_bytes s) (vwoken s).
Definition set_free (i : nat) (f : bool) s : vdisk :=
  mk_vd (desc s) (avail s) (avail_idx s) (used s) (used_id s) (<[i := f]> (free s)) (used_idx s) (info s) (b_disk s) (b_bytes s) (vwoken s).
Definition set_used_idx (n : Z) s : vdisk :=
  mk_vd (desc s) (avail s) (avail_idx s) (used s) (used_id s) (free s) n (info s) (b_disk s) (b_bytes s) (vwoken s).
Definition set_info (i : nat) (x : vinfo) s : vdisk :=
  mk_vd (desc s) (avail s) (avail_idx s) (used s) (used_id s) (free s) (used_idx s) (<[i := x]> (info s)) (b_disk s) (b_bytes s) (vwoken s).
Definition set_bdisk (b : nat) (v : Z) s : vdisk :=
  mk_vd (desc s) (avail s) (avail_idx s) (used s) (used_id s) (free s) (used_idx s) (info s) (<[b := v]> (b_disk s)) (b_bytes s) (vwoken s).
Definition set_bytes (b : nat) (d : list Z) s : vdisk :=
  mk_vd (desc s) (avail s) (avail_idx s) (used s) (used_id s) (free s) (used_idx s) (info s) (b_disk s) (<[b := d]> (b_bytes s)) (vwoken s).
Definition vwakeup (c : chan) s : vdisk :=
  mk_vd (desc s) (avail s) (avail_idx s) (used s) (used_id s) (free s) (used_idx s) (info s) (b_disk s) (b_bytes s) (c :: vwoken s).

Fixpoint alloc_scan (l : list bool) (i : nat) : option nat :=
  match l with [] => None | f :: l' => if f then Some i else alloc_scan l' (S i) end.

Definition alloc_desc : M vdisk (option nat) :=
  let! s := get in
  match alloc_scan (free s) 0 with
  | Some i => modify (set_free i false) ;; ret (Some i)
  | None => ret None
  end.

Definition free_desc (i : nat) : M vdisk unit :=
  let! s := get in
  if NUM <=? Z.of_nat i then panic "virtio_disk_intr 1"
  else if (free s !!! i : bool) then panic "virtio_disk_intr 2"
  else
    let d : vdesc := desc s !!! i in
    modify (set_desc i (mk_desc PNull (vd_len d) (vd_flags d) (vd_next d))) ;;
    modify (set_free i true) ;;
    modify (vwakeup CDiskFree).

Fixpoint free_chain (i : nat) (fuel : nat) : M vdisk unit :=
  match fuel with
  | O => diverge
  | S f =>
      free_desc i ;;
      let! s := get in
      let d : vdesc := desc s !!! i in
      if negb (Z.land (vd_flags d) VRING_DESC_F_NEXT =? 0) then free_chain (Z.to_nat (vd_next d)) f else ret tt
  end.

Definition alloc3_desc : M vdisk (option (nat * nat * nat)) :=
  let! i0 := alloc_desc in
  match i0 with
  | None => ret None
  | Some i0 =>
      let! i1 := alloc_desc in
      match i1 with
      | None => free_desc i0 ;; ret None
      | Some i1 =>
          let! i2 := alloc_desc in
          match i2 with
          | None => free_desc i0 ;; free_desc i1 ;; ret None
          | Some i2 => ret (Some (i0, i1, i2))
          end
      end
  end.

Definition ring (n : Z) : nat := Z.to_nat (n mod NUM).

(** The descriptors of a request, and the notification of the device. *)
Definition submit (b : nat) (blockno : Z) (write : bool) (i0 i1 i2 : nat) : M vdisk unit :=
  let sector := u32 (blockno * (BSIZE / 512)) in
  modify (set_desc i0 (mk_desc (PHdr (if write then VIRTIO_BLK_T_OUT else VIRTIO_BLK_T_IN) sector) 16 VRING_DESC_F_NEXT (Z.of_nat i1))) ;;
  modify (set_desc i1 (mk_desc (PData b) BSIZE (Z.lor (if write then 0 else VRING_DESC_F_WRITE) VRING_DESC_F_NEXT) (Z.of_nat i2))) ;;
  modify (fun s => set_info i0 (mk_info (in_b (info s !!! i0)) 0) s) ;;
  modify (set_desc i2 (mk_desc (PStatus i0) 1 VRING_DESC_F_WRITE 0)) ;;
  modify (set_bdisk b 1) ;;
  modify (fun s => set_info i0 (mk_info (Some b) (in_status (info s !!! i0))) s) ;;
  modify (fun s => set_avail (<[ring (avail_idx s) := Z.of_nat i0]> (avail s)) (avail_idx s) s) ;;
  modify (fun s => set_avail (avail s) (u16 (avail_idx s + 1)) s).

(** [virtio_disk_rw] up to its wait: the head of the chain, or the sleep for
    descriptors. *)
Definition rw_start (b : nat) (blockno : Z) (write : bool) : M vdisk nat :=
  let! r := alloc3_desc in
  match r with
  | None => block CDiskFree
  | Some (i0, i1, i2) => submit b blockno write i0 i1 i2 ;; ret i0
  end.

(** [virtio_disk_rw] from the end of its wait. *)
Definition rw_end (i0 : nat) : M vdisk unit :=
  modify (fun s => set_info i0 (mk_info None (in_status (info s !!! i0))) s) ;;
  free_chain i0 (Z.to_nat NUM).

Definition virtio_disk_rw (b : nat) (blockno : Z) (write : bool) : M vdisk unit :=
  let! i0 := rw_start b blockno write in
  let! s := get in
  if b_disk s b =? 1 then block (CBuf b) else rw_end i0.

Fixpoint intr_loop (fuel : nat) : M vdisk unit :=
  match fuel with
  | O => diverge
  | S f =>
      let! s := get in
      if negb (used_idx s mod NUM =? used_id s mod NUM) then
        let id := Z.to_nat (used s !!! Z.to_nat (used_idx s) : Z) in
        let x : vinfo := info s !!! id in
        if negb (in_status x =? 0) then panic "virtio_disk_intr status"
        else
          match in_b x with
          | None => undefined
          | Some b =>
              modify (set_bdisk b 0) ;;
              modify (vwakeup (CBuf b)) ;;
              modify (fun s => set_used_idx ((used_idx s + 1) mod NUM) s) ;;
              intr_loop f
          end
      else ret tt
  end.

Definition virtio_disk_intr : M vdisk unit := intr_loop (Z.to_nat NUM).

(** ** The device *)
(** Requests are taken from the avail ring in order, and done in any order. *)
Record vdev := mk_dev { d_last : Z; d_taken : list nat; d_sectors : Z -> list Z }.

(** A block is two sectors. *)
Definition block_at (d : Z -> list Z) (sector : Z) : list Z := d sector ++ d (sector + 1).
Definition write_at (d : Z -> list Z) (sector : Z) (bs : list Z) : Z -> list Z :=
  <[sector := take 512 bs]> (<[sector + 1 := drop 512 bs]> d).

(** The effect of the request at descriptor [i0] (virtio 1.1, 5.2.6), if the chain has
    the form of a block request: the transfer, the status, the used ring. *)
Definition device_do (i0 : nat) (s : vdisk) (d : Z -> list Z) : option (vdisk * (Z -> list Z)) :=
  let d0 : vdesc := desc s !!! i0 in
  let i1 := Z.to_nat (vd_next d0) in
  let d1 : vdesc := desc s !!! i1 in
  let i2 := Z.to_nat (vd_next d1) in
  let d2 : vdesc := desc s !!! i2 in
  if negb (vd_flags d0 =? VRING_DESC_F_NEXT) || negb (vd_flags d2 =? VRING_DESC_F_WRITE) then None
  else
    match vd_addr d0, vd_addr d1, vd_addr d2 with
    | PHdr type sector, PData b, PStatus i =>
        let finish s := set_used (<[ring (used_id s) := Z.of_nat i0]> (used s)) (u16 (used_id s + 1)) (set_info i (mk_info (in_b (info s !!! i)) 0) s) in
        if (type =? VIRTIO_BLK_T_IN) && (vd_flags d1 =? Z.lor VRING_DESC_F_WRITE VRING_DESC_F_NEXT)
        then Some (finish (set_bytes b (block_at d sector) s), d)
        else if (type =? VIRTIO_BLK_T_OUT) && (vd_flags d1 =? VRING_DESC_F_NEXT)
        then Some (finish s, write_at d sector (b_bytes s b))
        else None
    | _, _, _ => None
    end.

(** ** Initialisation *)
Definition VIRTIO_MMIO_MAGIC_VALUE : Z := 0x000.
Definition VIRTIO_MMIO_VERSION : Z := 0x004.
Definition VIRTIO_MMIO_DEVICE_ID : Z := 0x008.
Definition VIRTIO_MMIO_VENDOR_ID : Z := 0x00c.
Definition VIRTIO_MMIO_DEVICE_FEATURES : Z := 0x010.
Definition VIRTIO_MMIO_DRIVER_FEATURES : Z := 0x020.
Definition VIRTIO_MMIO_GUEST_PAGE_SIZE : Z := 0x028.
Definition VIRTIO_MMIO_QUEUE_SEL : Z := 0x030.
Definition VIRTIO_MMIO_QUEUE_NUM_MAX : Z := 0x034.
Definition VIRTIO_MMIO_QUEUE_NUM : Z := 0x038.
Definition VIRTIO_MMIO_QUEUE_PFN : Z := 0x040.
Definition VIRTIO_MMIO_STATUS : Z := 0x070.
Definition VIRTIO_CONFIG_S_ACKNOWLEDGE : Z := 1.
Definition VIRTIO_CONFIG_S_DRIVER : Z := 2.
Definition VIRTIO_CONFIG_S_DRIVER_OK : Z := 4.
Definition VIRTIO_CONFIG_S_FEATURES_OK : Z := 8.

(** The features the driver turns off, by bit. *)
Definition refused_features : list Z := [5; 7; 11; 12; 27; 29; 28].

(** What [virtio_disk_init] writes to the registers whose values are [rd], or its panic;
    [pages] is the address of [disk.pages]. *)
Definition virtio_disk_init (rd : Z -> Z) (pages : Z) : string + list (Z * Z) :=
  if negb (rd VIRTIO_MMIO_MAGIC_VALUE =? 0x74726976) || negb (rd VIRTIO_MMIO_VERSION =? 1) ||
     negb (rd VIRTIO_MMIO_DEVICE_ID =? 2) || negb (rd VIRTIO_MMIO_VENDOR_ID =? 0x554d4551)
  then inl "could not find virtio disk"%string
  else
    let status1 := VIRTIO_CONFIG_S_ACKNOWLEDGE in
    let status2 := Z.lor status1 VIRTIO_CONFIG_S_DRIVER in
    let features := foldl (fun f b => Z.land f (u64 (Z.lnot (Z.shiftl 1 b)))) (rd VIRTIO_MMIO_DEVICE_FEATURES) refused_features in
    let status3 := Z.lor status2 VIRTIO_CONFIG_S_FEATURES_OK in
    let status4 := Z.lor status3 VIRTIO_CONFIG_S_DRIVER_OK in
    let max := rd VIRTIO_MMIO_QUEUE_NUM_MAX in
    if max =? 0 then inl "virtio disk has no queue 0"%string
    else if max <? NUM then inl "virtio disk max queue too short"%string
    else inr [(VIRTIO_MMIO_STATUS, status1); (VIRTIO_MMIO_STATUS, status2); (VIRTIO_MMIO_DRIVER_FEATURES, u32 features);
              (VIRTIO_MMIO_STATUS, status3); (VIRTIO_MMIO_STATUS, status4); (VIRTIO_MMIO_GUEST_PAGE_SIZE, 4096);
              (VIRTIO_MMIO_QUEUE_SEL, 0); (VIRTIO_MMIO_QUEUE_NUM, NUM); (VIRTIO_MMIO_QUEUE_PFN, u32 (Z.shiftr pages 12))].

(** [struct disk] after [virtio_disk_init]. *)
Definition vdisk_init (bytes : nat -> list Z) : vdisk :=
  mk_vd (replicate (Z.to_nat NUM) (mk_desc PNull 0 0 0)) (replicate (Z.to_nat NUM) 0) 0 (replicate (Z.to_nat NUM) 0) 0
    (replicate (Z.to_nat NUM) true) 0 (replicate (Z.to_nat NUM) (mk_info None 0)) (fun _ => 0) bytes [].
