(* ===== verification/VirtioSpec.v ===== *)
(** * Disk requests are carried out

    The driver, its interrupt handler and the device as one transition system, with the
    requests in flight.  [vinv] relates the descriptors and rings to the requests, by the
    phase each is in. *)
From stdpp Require Import base functions list numbers strings relations.
From Stdlib Require Import ZArith Lia.
From S2P Require Import Prelude Bytes Bio Virtio.
Open Scope Z_scope.

(** A request: the buffer, the block, the direction, the chain, the data of the buffer
    when it was submitted. *)
Record req := mk_req { r_b : nat; r_n : Z; r_w : bool; r_i0 : nat; r_i1 : nat; r_i2 : nat; r_data : list Z }.
Definition ids (r : req) : list nat := [r_i0 r; r_i1 r; r_i2 r].

Record vsys := mk_vsys { sd : vdisk; sv : vdev; active : list req }.

(** Processes use a buffer and a block in one request at a time: they hold the lock of
    the buffer, and a block has one buffer. *)
Definition unused (b : nat) (n : Z) (l : list req) : Prop := forall r, r ∈ l -> r_b r <> b /\ r_n r <> n.

Inductive vstep : vsys -> vsys -> Prop :=
| vs_start b n w i0 s' x : unused b n (active x) -> 0 <= n < 2 ^ 31 -> rw_start b n w (sd x) = Ok i0 s' ->
    let i1 := Z.to_nat (vd_next (desc s' !!! i0)) in
    let i2 := Z.to_nat (vd_next (desc s' !!! i1)) in
    vstep x (mk_vsys s' (sv x) (mk_req b n w i0 i1 i2 (b_bytes (sd x) b) :: active x))
| vs_sleep b n w c s' x : rw_start b n w (sd x) = Block c s' -> vstep x (mk_vsys s' (sv x) (active x))
| vs_take x : d_last (sv x) <> avail_idx (sd x) ->
    let i := Z.to_nat (avail (sd x) !!! ring (d_last (sv x))) in
    vstep x (mk_vsys (sd x) (mk_dev (u16 (d_last (sv x) + 1)) (i :: d_taken (sv x)) (d_sectors (sv x))) (active x))
| vs_do i t1 t2 s' d' x : d_taken (sv x) = t1 ++ i :: t2 -> device_do i (sd x) (d_sectors (sv x)) = Some (s', d') ->
    vstep x (mk_vsys s' (mk_dev (d_last (sv x)) (t1 ++ t2) d') (active x))
| vs_intr s' x : virtio_disk_intr (sd x) = Ok tt s' -> vstep x (mk_vsys s' (sv x) (active x))
| vs_end r l1 l2 s' x : active x = l1 ++ r :: l2 -> b_disk (sd x) (r_b r) = 0 -> rw_end (r_i0 r) (sd x) = Ok tt s' ->
    vstep x (mk_vsys s' (sv x) (l1 ++ l2))
| vs_fill b d x : (forall r, r ∈ active x -> r_b r <> b) -> vstep x (mk_vsys (set_bytes b d (sd x)) (sv x) (active x)).

(** The descriptors of a request in flight. *)
Definition sector (r : req) : Z := 2 * r_n r.
Record formatted (s : vdisk) (r : req) : Prop := {
  fm_0 : desc s !! r_i0 r = Some (mk_desc (PHdr (if r_w r then VIRTIO_BLK_T_OUT else VIRTIO_BLK_T_IN) (sector r)) 16 VRING_DESC_F_NEXT (Z.of_nat (r_i1 r)));
  fm_1 : desc s !! r_i1 r = Some (mk_desc (PData (r_b r)) BSIZE (Z.lor (if r_w r then 0 else VRING_DESC_F_WRITE) VRING_DESC_F_NEXT) (Z.of_nat (r_i2 r)));
  fm_2 : desc s !! r_i2 r = Some (mk_desc (PStatus (r_i0 r)) 1 VRING_DESC_F_WRITE 0);
  fm_info : info s !! r_i0 r = Some (mk_info (Some (r_b r)) 0);
  fm_data : r_w r = true -> b_bytes s (r_b r) = r_data r
}.

(** The block and the buffer agree. *)
Definition transferred (s : vdisk) (d : Z -> list Z) (r : req) : Prop :=
  if r_w r then block_at d (sector r) = r_data r else b_bytes s (r_b r) = block_at d (sector r).

(** Requests that wait in the avail ring, that the device works on, that wait in the used
    ring, and that the interrupt handler has seen. *)
Record vinv (x : vsys) (A T U D : list req) : Prop := {
  vi_active : active x ≡ₚ A ++ T ++ U ++ D;
  vi_len : length (desc (sd x)) = 8%nat /\ length (avail (sd x)) = 8%nat /\ length (used (sd x)) = 8%nat /\
           length (free (sd x)) = 8%nat /\ length (info (sd x)) = 8%nat;
  vi_ids : NoDup (active x ≫= ids);
  vi_free i : (i < 8)%nat -> free (sd x) !! i = Some true <-> i ∉ (active x ≫= ids);
  vi_lt i : i ∈ (active x ≫= ids) -> (i < 8)%nat;
  vi_fmt r : r ∈ active x -> formatted (sd x) r;
  vi_b : NoDup (r_b <$> active x);
  vi_n : NoDup (r_n <$> active x);
  vi_flight r : r ∈ A ++ T ++ U -> b_disk (sd x) (r_b r) = 1;
  vi_seen r : r ∈ D -> b_disk (sd x) (r_b r) = 0;
  vi_avail k r : A !! k = Some r -> avail (sd x) !! ring (d_last (sv x) + Z.of_nat k) = Some (Z.of_nat (r_i0 r));
  vi_last : 0 <= d_last (sv x) < 2 ^ 16 /\ avail_idx (sd x) = u16 (d_last (sv x) + Z.of_nat (length A));
  vi_taken : d_taken (sv x) = r_i0 <$> T;
  vi_used k r : U !! k = Some r -> used (sd x) !! ring (used_idx (sd x) + Z.of_nat k) = Some (Z.of_nat (r_i0 r));
  vi_uidx : 0 <= used_idx (sd x) < 8 /\ used_id (sd x) mod 8 = (used_idx (sd x) + Z.of_nat (length U)) mod 8;
  vi_done r : r ∈ U ++ D -> transferred (sd x) (d_sectors (sv x)) r
}.

(** At most two requests fit. *)
Lemma vinv_two x A T U D : vinv x A T U D -> (length (A ++ T ++ U ++ D) <= 2)%nat.
Proof.
  intros Hv. rewrite <- (Permutation_length (vi_active _ _ _ _ _ Hv)).
  assert (length (active x ≫= ids) <= length (seq 0 8))%nat as Hl.
  { apply submseteq_length, NoDup_submseteq; [apply Hv|]. intros i Hi. apply elem_of_seq. pose proof (vi_lt _ _ _ _ _ Hv i Hi). lia. }
  rewrite length_seq in Hl. assert (length (active x ≫= ids) = 3 * length (active x))%nat as E; [|lia].
  clear. induction (active x) as [|r l IH]; [done|]. cbn. cbn in IH. lia.
Qed.

Lemma elem_ids r l i : r ∈ l -> i ∈ ids r -> i ∈ (l ≫= ids).
Proof. intros. apply list_elem_of_bind. eauto. Qed.

Lemma vdisk_eq s s' : desc s = desc s' -> avail s = avail s' -> avail_idx s = avail_idx s' -> used s = used s' ->
  used_id s = used_id s' -> free s = free s' -> used_idx s = used_idx s' -> info s = info s' -> b_disk s = b_disk s' ->
  b_bytes s = b_bytes s' -> vwoken s = vwoken s' -> s = s'.
Proof. destruct s, s'. cbn. intros. by subst. Qed.

(** ** Allocation *)
Lemma alloc_scan_spec l k i : alloc_scan l k = Some i -> (k <= i)%nat /\ l !! (i - k)%nat = Some true.
Proof.
  revert k. induction l as [|f l IH]; intros k; cbn; [done|]. destruct f.
  - intros [= <-]. by rewrite Nat.sub_diag.
  - intros [Hk Hi]%IH. split; [lia|]. by replace (i - k)%nat with (S (i - S k)) by lia.
Qed.

Lemma alloc_desc_ok s : (exists i, free s !! i = Some true /\ alloc_desc s = Ok (Some i) (set_free i false s)) \/ alloc_desc s = Ok None s.
Proof.
  unfold alloc_desc, bind, get. destruct (alloc_scan (free s) 0) as [i|] eqn:E; [|by right]. left. exists i. split; [|done].
  apply alloc_scan_spec in E as [_ E]. by rewrite Nat.sub_0_r in E.
Qed.

(** [free_desc i] on an allocated descriptor. *)
Definition freed (i : nat) s : vdisk :=
  let d : vdesc := desc s !!! i in
  vwakeup CDiskFree (set_free i true (set_desc i (mk_desc PNull (vd_len d) (vd_flags d) (vd_next d)) s)).

Lemma free_desc_ok i s : (i < 8)%nat -> free s !! i = Some false -> free_desc i s = Ok tt (freed i s).
Proof.
  intros Hi Hf. unfold free_desc, bind, get. change NUM with 8. destruct (Z.leb_spec 8 (Z.of_nat i)); [lia|].
  rewrite (list_lookup_total_correct _ _ _ Hf). reflexivity.
Qed.

(** Descriptors in use are as before, and the same ones are free. *)
Record same_used (s s' : vdisk) : Prop := {
  su_desc i : free s !! i <> Some true -> desc s' !! i = desc s !! i;
  su_len : length (desc s') = length (desc s);
  su_free : free s' = free s;
  su_avail : avail s' = avail s /\ avail_idx s' = avail_idx s;
  su_used : used s' = used s /\ used_id s' = used_id s /\ used_idx s' = used_idx s;
  su_info : info s' = info s;
  su_bufs : b_disk s' = b_disk s /\ b_bytes s' = b_bytes s
}.

Lemma free_twice i s : free s !! i = Some true -> <[i := true]> (<[i := false]> (free s)) = free s.
Proof. intros Hi. rewrite list_insert_insert_eq. by apply list_insert_id. Qed.

Lemma same_used_1 i s : free s !! i = Some true -> same_used s (freed i (set_free i false s)).
Proof.
  intros Hi. split; try done; cbn; [|by rewrite length_insert|by apply free_twice].
  intros j Hj. rewrite list_lookup_insert_ne; [done|congruence].
Qed.

Lemma same_used_trans s1 s2 s3 : same_used s1 s2 -> same_used s2 s3 -> same_used s1 s3.
Proof.
  intros [A1 A2 A3 [A4 A5] (A6 & A7 & A8) A9 [A10 A11]] [B1 B2 B3 [B4 B5] (B6 & B7 & B8) B9 [B10 B11]].
  split; [|congruence|congruence|split; congruence|repeat split; congruence|congruence|split; congruence].
  intros i Hi. rewrite B1 by congruence. auto.
Qed.

Lemma alloc3_ok s : length (free s) = 8%nat ->
  (exists i0 i1 i2, NoDup [i0; i1; i2] /\ (forall i, i ∈ [i0; i1; i2] -> free s !! i = Some true) /\
     alloc3_desc s = Ok (Some (i0, i1, i2)) (set_free i2 false (set_free i1 false (set_free i0 false s)))) \/
  (exists s', alloc3_desc s = Ok None s' /\ same_used s s').
Proof.
  intros Hlen. unfold alloc3_desc.
  assert (forall s i, length (free s) = 8%nat -> free s !! i = Some true -> (i < 8)%nat) as Hlt.
  { intros t i Ht Hi%lookup_lt_Some. lia. }
  destruct (alloc_desc_ok s) as [(i0 & H0 & E0)|E0]; rewrite (bind_Ok _ _ _ _ _ E0); [|right; eexists; split; [reflexivity|]; by split].
  destruct (alloc_desc_ok (set_free i0 false s)) as [(i1 & H1 & E1)|E1]; rewrite (bind_Ok _ _ _ _ _ E1).
  2: { right. eexists. assert (free (set_free i0 false s) !! i0 = Some false) as G by (apply list_lookup_insert_eq; by apply lookup_lt_Some in H0).
       rewrite (bind_Ok _ _ _ _ _ (free_desc_ok i0 _ (Hlt _ _ Hlen H0) G)).
       split; [reflexivity|by apply same_used_1]. }
  assert (i1 <> i0 /\ free s !! i1 = Some true) as [N1 F1].
  { cbn in H1. destruct (decide (i1 = i0)) as [->|]; [|by rewrite list_lookup_insert_ne in H1 by done].
    rewrite list_lookup_insert_eq in H1; [done|by apply lookup_lt_Some in H0]. }
  destruct (alloc_desc_ok (set_free i1 false (set_free i0 false s))) as [(i2 & H2 & E2)|E2]; rewrite (bind_Ok _ _ _ _ _ E2).
  - left. exists i0, i1, i2.
    assert (i2 <> i0 /\ i2 <> i1 /\ free s !! i2 = Some true) as (N2 & N3 & F2).
    { cbn in H2. apply list_lookup_insert_Some in H2 as [(_ & ? & _)|[? [(_ & ? & _)|[? ?]]%list_lookup_insert_Some]]; by repeat split. }
    split; [|split; [|reflexivity]].
    + repeat constructor; set_solver.
    + intros i. rewrite !elem_of_cons, elem_of_nil. naive_solver.
  - right.
    set (s1 := set_free i1 false (set_free i0 false s)).
    assert (free s1 !! i0 = Some false) as G0 by (cbn; rewrite list_lookup_insert_ne by done; apply list_lookup_insert_eq; by apply lookup_lt_Some in H0).
    rewrite (bind_Ok _ _ _ _ _ (free_desc_ok i0 s1 (Hlt _ _ Hlen H0) G0)).
    assert (free (freed i0 s1) !! i1 = Some false) as G1.
    { cbn. rewrite list_lookup_insert_ne by done. apply list_lookup_insert_eq. rewrite length_insert. by apply lookup_lt_Some in F1. }
    rewrite (bind_Ok _ _ _ _ _ (free_desc_ok i1 _ (Hlt _ _ Hlen F1) G1)). eexists. split; [reflexivity|].
    split; try done; cbn.
    + intros i Hi. rewrite !list_lookup_insert_ne; [done|congruence|congruence].
    + by rewrite !length_insert.
    + rewrite (list_insert_insert_ne _ i1 i0) by done. rewrite list_insert_insert_eq, list_insert_insert_ne by done.
      rewrite list_insert_insert_eq. rewrite (list_insert_id (free s) i0) by done. by apply list_insert_id.
Qed.

(** ** The steps keep the invariant *)
Lemma formatted_frame s s' r : formatted s r ->
  (forall i, i ∈ ids r -> desc s' !! i = desc s !! i) -> info s' !! r_i0 r = info s !! r_i0 r ->
  b_bytes s' (r_b r) = b_bytes s (r_b r) -> formatted s' r.
Proof.
  intros [F0 F1 F2 F3 F4] Hd Hi Hb. split; [rewrite Hd|rewrite Hd|rewrite Hd|by rewrite Hi|by rewrite Hb]; try done;
    unfold ids; set_solver.
Qed.

Lemma ring_u16 a b : ring (u16 a + b) = ring (a + b).
Proof.
  unfold ring, u16, wrap, NUM. f_equal. rewrite (Zplus_mod _ b), <- (Znumtheory.Zmod_div_mod 8 (2 ^ 16)) by (lia || by exists (2 ^ 13)).
  by rewrite <- Zplus_mod.
Qed.

Lemma ring_lt a : (ring a < 8)%nat.
Proof. unfold ring, NUM. pose proof (Z.mod_pos_bound a 8). lia. Qed.

Lemma ring_inj a (k k' : nat) : (k < 8)%nat -> (k' < 8)%nat -> ring (a + Z.of_nat k) = ring (a + Z.of_nat k') -> k = k'.
Proof. unfold ring, NUM. intros Hk Hk' E. apply (f_equal Z.of_nat) in E. rewrite !Z2Nat.id in E by (apply Z.mod_pos_bound; lia). Z.div_mod_to_equations. lia. Qed.

Section Inv.
Context (x : vsys) (A T U D : list req) (V : vinv x A T U D).

Lemma in_active r : r ∈ A \/ r ∈ T \/ r ∈ U \/ r ∈ D <-> r ∈ active x.
Proof. rewrite (vi_active _ _ _ _ _ V). rewrite !elem_of_app. tauto. Qed.

Lemma not_free r i : r ∈ active x -> i ∈ ids r -> free (sd x) !! i <> Some true.
Proof.
  intros Hr Hi Hf. pose proof (elem_ids _ _ _ Hr Hi) as He. apply (vi_free _ _ _ _ _ V) in Hf; [done|]. by apply V.
Qed.

Lemma is_used r i : r ∈ active x -> i ∈ ids r -> free (sd x) !! i = Some false /\ (i < 8)%nat.
Proof.
  intros Hr Hi. pose proof (vi_lt _ _ _ _ _ V i (elem_ids _ _ _ Hr Hi)) as Hlt. split; [|done].
  destruct (lookup_lt_is_Some_2 (free (sd x)) i) as [[] Hf]; [|by destruct (not_free r i Hr Hi)|done].
  destruct (vi_len _ _ _ _ _ V) as (_ & _ & _ & -> & _). lia.
Qed.

Lemma same_b r r' : r ∈ active x -> r' ∈ active x -> r_b r = r_b r' -> r = r'.
Proof.
  intros (i & Hi)%list_elem_of_lookup (j & Hj)%list_elem_of_lookup E.
  assert (i = j) as ->; [|congruence]. eapply (NoDup_lookup (r_b <$> active x)); [apply V|..]; rewrite list_lookup_fmap, ?Hi, ?Hj; cbn; [done|congruence].
Qed.

Lemma same_n r r' : r ∈ active x -> r' ∈ active x -> r_n r = r_n r' -> r = r'.
Proof.
  intros (i & Hi)%list_elem_of_lookup (j & Hj)%list_elem_of_lookup E.
  assert (i = j) as ->; [|congruence]. eapply (NoDup_lookup (r_n <$> active x)); [apply V|..]; rewrite list_lookup_fmap, ?Hi, ?Hj; cbn; [done|congruence].
Qed.

Lemma disjoint_ids r r' i : r ∈ active x -> r' ∈ active x -> i ∈ ids r -> i ∈ ids r' -> r = r'.
Proof.
  intros (l1 & l2 & E)%list_elem_of_split Hr' Hi Hi'. pose proof (vi_ids _ _ _ _ _ V) as Hn. rewrite E in Hr', Hn.
  rewrite bind_app, bind_cons in Hn. apply NoDup_app in Hn as (_ & H1 & (_ & H2 & _)%NoDup_app).
  apply elem_of_app in Hr' as [Hr'|[->|Hr']%elem_of_cons]; [|done|].
  - destruct (H1 i (elem_ids _ _ _ Hr' Hi')). apply elem_of_app. by left.
  - destruct (H2 i Hi). by apply (elem_ids r').
Qed.

Lemma inv_same s' : same_used (sd x) s' -> vinv (mk_vsys s' (sv x) (active x)) A T U D.
Proof.
  intros [S1 S2 S3 [S4 S5] (S6 & S7 & S8) S9 [S10 S11]]. destruct V as [V1 V2 V3 V4 V5 V6 V7 V8 V9 V10 V11 V12 V13 V14 V15 V16].
  split; cbn; rewrite ?S2, ?S3, ?S4, ?S5, ?S6, ?S7, ?S8, ?S9, ?S10; try done.
  - intros r Hr. apply (formatted_frame (sd x)); [auto| |by rewrite S9|by rewrite S11].
    intros i Hi. apply S1. by apply (not_free r).
  - intros r Hr. unfold transferred. rewrite S11. by apply V16.
Qed.

Lemma inv_fill b d : (forall r, r ∈ active x -> r_b r <> b) -> vinv (mk_vsys (set_bytes b d (sd x)) (sv x) (active x)) A T U D.
Proof.
  intros Hb. assert (forall r, r ∈ active x -> (<[b := d]> (b_bytes (sd x)) : nat -> list Z) (r_b r) = b_bytes (sd x) (r_b r)) as E.
  { intros r Hr. apply fn_lookup_insert_ne. by apply not_eq_sym, Hb. }
  pose proof in_active as Hin. destruct V as [V1 V2 V3 V4 V5 V6 V7 V8 V9 V10 V11 V12 V13 V14 V15 V16].
  split; try done; cbn.
  - intros r Hr. apply (formatted_frame (sd x)); [auto|done|done|exact (E r Hr)].
  - intros r Hr. unfold transferred. cbn. rewrite E; [by apply V16|]. apply Hin. apply elem_of_app in Hr. tauto.
Qed.

Lemma inv_take : d_last (sv x) <> avail_idx (sd x) -> exists r A', A = r :: A' /\
  vinv (mk_vsys (sd x) (mk_dev (u16 (d_last (sv x) + 1)) (Z.to_nat (avail (sd x) !!! ring (d_last (sv x))) :: d_taken (sv x)) (d_sectors (sv x))) (active x))
    A' (r :: T) U D.
Proof.
  intros Hne. destruct V as [V1 V2 V3 V4 V5 V6 V7 V8 V9 V10 V11 [V12 V12'] V13 V14 V15 V16].
  destruct A as [|r A']; [rewrite V12' in Hne; cbn in Hne; unfold u16, wrap in Hne; rewrite Z.mod_small in Hne; lia|].
  exists r, A'. split; [done|]. pose proof (V11 0%nat r eq_refl) as H0. rewrite Z.add_0_r in H0. rewrite (list_lookup_total_correct _ _ _ H0).
  split; cbn; try done.
  - rewrite V1. cbn. rewrite (Permutation_middle A' (T ++ U ++ D) r). done.
  - intros q Hq. apply V9. set_solver.
  - intros k q Hk. specialize (V11 (S k) q Hk). rewrite ring_u16.
    by replace (d_last (sv x) + 1 + Z.of_nat k) with (d_last (sv x) + Z.of_nat (S k)) by lia.
  - split; [apply wrap_range; lia|]. rewrite V12'. unfold u16, wrap. rewrite Zplus_mod_idemp_l. f_equal. cbn. lia.
  - by rewrite V13, Nat2Z.id.
Qed.

(** The state [rw_start] leaves. *)
Definition started (b : nat) (n : Z) (w : bool) (i0 i1 i2 : nat) (s : vdisk) : vdisk :=
  mk_vd
    (<[i2 := mk_desc (PStatus i0) 1 VRING_DESC_F_WRITE 0]>
      (<[i1 := mk_desc (PData b) BSIZE (Z.lor (if w then 0 else VRING_DESC_F_WRITE) VRING_DESC_F_NEXT) (Z.of_nat i2)]>
        (<[i0 := mk_desc (PHdr (if w then VIRTIO_BLK_T_OUT else VIRTIO_BLK_T_IN) (u32 (n * 2))) 16 VRING_DESC_F_NEXT (Z.of_nat i1)]> (desc s))))
    (<[ring (avail_idx s) := Z.of_nat i0]> (avail s)) (u16 (avail_idx s + 1)) (used s) (used_id s)
    (<[i2 := false]> (<[i1 := false]> (<[i0 := false]> (free s)))) (used_idx s)
    (<[i0 := mk_info (Some b) 0]> (info s)) (<[b := 1]> (b_disk s)) (b_bytes s) (vwoken s).

Lemma rw_start_ok b n w :
  (exists i0 i1 i2, NoDup [i0; i1; i2] /\ (forall i, i ∈ [i0; i1; i2] -> free (sd x) !! i = Some true) /\
     rw_start b n w (sd x) = Ok i0 (started b n w i0 i1 i2 (sd x))) \/
  exists s', rw_start b n w (sd x) = Block CDiskFree s' /\ same_used (sd x) s'.
Proof.
  destruct (vi_len _ _ _ _ _ V) as (_ & _ & _ & Hf & Hi).
  destruct (alloc3_ok (sd x) Hf) as [(i0 & i1 & i2 & Hn & Hfr & E)|(s' & E & Hs)]; unfold rw_start; rewrite (bind_Ok _ _ _ _ _ E).
  - left. exists i0, i1, i2. split; [done|]. split; [done|]. unfold submit, bind, modify, ret, started. cbn.
    assert (i0 < length (info (sd x)))%nat as Hl.
    { assert (free (sd x) !! i0 = Some true) as H0%lookup_lt_Some by (apply Hfr; set_solver). lia. }
    rewrite list_lookup_total_insert_eq by done. f_equal. apply vdisk_eq; try reflexivity. cbn. by rewrite list_insert_insert_eq.
  - right. by exists s'.
Qed.

Lemma inv_start b n w i0 i1 i2 : unused b n (active x) -> 0 <= n < 2 ^ 31 -> NoDup [i0; i1; i2] ->
  (forall i, i ∈ [i0; i1; i2] -> free (sd x) !! i = Some true) ->
  let r := mk_req b n w i0 i1 i2 (b_bytes (sd x) b) in
  vinv (mk_vsys (started b n w i0 i1 i2 (sd x)) (sv x) (r :: active x)) (A ++ [r]) T U D.
Proof.
  intros Hu Hn Hnd Hfr r. pose proof (vinv_two _ _ _ _ _ V) as H2. rewrite length_app in H2.
  pose proof in_active as Hin. pose proof not_free as Hnf.
  destruct V as [V1 (L1 & L2 & L3 & L4 & L5) V3 V4 V5 V6 V7 V8 V9 V10 V11 [V12 V12'] V13 V14 V15 V16].
  assert (forall i, i ∈ [i0; i1; i2] -> (i < 8)%nat) as Hlt by (intros i Hi; apply Hfr, lookup_lt_Some in Hi; lia).
  assert (forall q i, q ∈ active x -> i ∈ ids q -> i ∉ [i0; i1; i2]) as Hids by (intros q i Hq Hi Hi'; exact (Hnf q i Hq Hi (Hfr i Hi'))).
  assert (i0 <> i1 /\ i0 <> i2 /\ i1 <> i2) as (N1 & N2 & N3).
  { apply NoDup_cons in Hnd as [Ha Hnd]. apply NoDup_cons in Hnd as [Hb _]. set_solver. }
  assert (u32 (n * 2) = sector r) as Es by (unfold sector, u32, wrap; cbn; rewrite Z.mod_small; lia).
  split; cbn -[ids]; rewrite ?length_insert; try done.
  - rewrite V1, <- app_assoc. cbn. by rewrite Permutation_middle.
  - apply NoDup_app. split; [done|]. split; [|done]. intros i Hi (q & Hq & Hi')%list_elem_of_bind. by destruct (Hids q i).
  - intros i Hi. rewrite not_elem_of_app, <- V4 by done. rewrite !list_lookup_insert_Some.
    split; [|].
    + intros [(_ & ? & _)|[? [(_ & ? & _)|[? [(_ & ? & _)|[? ?]]]]]]; try done. split; [|done]. set_solver.
    + intros [Hni ?]. right. split; [set_solver|]. right. split; [set_solver|]. right. split; [set_solver|done].
  - intros i [Hi|Hi]%elem_of_app; auto.
  - intros q [->|Hq]%elem_of_cons.
    + split; cbn -[sector]; try done.
      * rewrite !list_lookup_insert_ne by done. rewrite list_lookup_insert_eq; [by rewrite Es|]. rewrite L1. apply Hlt. set_solver.
      * rewrite list_lookup_insert_ne by done. rewrite list_lookup_insert_eq; [done|]. rewrite length_insert, L1. apply Hlt. set_solver.
      * rewrite list_lookup_insert_eq; [done|]. rewrite !length_insert, L1. apply Hlt. set_solver.
      * rewrite list_lookup_insert_eq; [done|]. rewrite L5. apply Hlt. set_solver.
    + apply (formatted_frame (sd x)); [auto| | |done]; cbn.
      * intros i Hi. pose proof (Hids q i Hq Hi). rewrite !list_lookup_insert_ne by set_solver. done.
      * rewrite list_lookup_insert_ne; [done|]. intros ->. apply (Hids q (r_i0 q)); [done|..]; unfold ids; set_solver.
  - constructor; [|done]. intros (q & E & Hq)%list_elem_of_fmap. destruct (Hu q Hq). congruence.
  - constructor; [|done]. intros (q & E & Hq)%list_elem_of_fmap. destruct (Hu q Hq). congruence.
  - intros q Hq. rewrite !elem_of_app, list_elem_of_singleton in Hq. assert (q = r \/ q ∈ A ++ T ++ U) as [->|Hq'] by (rewrite !elem_of_app; tauto); [apply fn_lookup_insert|].
    rewrite fn_lookup_insert_ne; [auto|]. apply not_eq_sym, (Hu q). apply Hin. set_solver.
  - intros q Hq. rewrite fn_lookup_insert_ne; [auto|]. apply not_eq_sym, (Hu q). apply Hin. auto.
  - rewrite V12'. rewrite <- (Z.add_0_r (u16 _)), ring_u16, Z.add_0_r. intros k q [Hk|[Hk Hq]]%lookup_app_Some.
    + rewrite list_lookup_insert_ne; [auto|]. apply lookup_lt_Some in Hk. intros E%ring_inj; lia.
    + apply list_lookup_singleton_Some in Hq as [E <-]. replace k with (length A) by lia.
      rewrite list_lookup_insert_eq; [done|]. rewrite L2. apply ring_lt.
  - split; [done|]. rewrite V12', length_app. unfold u16, wrap. rewrite Zplus_mod_idemp_l. f_equal. cbn. lia.
Qed.

(** The state the device leaves when it has done [r]. *)
Definition completed (r : req) (d : Z -> list Z) (s : vdisk) : vdisk :=
  mk_vd (desc s) (avail s) (avail_idx s) (<[ring (used_id s) := Z.of_nat (r_i0 r)]> (used s)) (u16 (used_id s + 1)) (free s)
    (used_idx s) (info s) (b_disk s) (if r_w r then b_bytes s else <[r_b r := block_at d (sector r)]> (b_bytes s)) (vwoken s).
Definition stored (r : req) (d : Z -> list Z) (s : vdisk) : Z -> list Z :=
  if r_w r then write_at d (sector r) (b_bytes s (r_b r)) else d.

Lemma device_do_ok r d : formatted (sd x) r -> device_do (r_i0 r) (sd x) d = Some (completed r d (sd x), stored r d (sd x)).
Proof.
  intros [F0 F1 F2 F3 F4]. unfold device_do. rewrite (list_lookup_total_correct _ _ _ F0). cbn -[Z.lor]. rewrite Nat2Z.id.
  rewrite (list_lookup_total_correct _ _ _ F1). cbn -[Z.lor]. rewrite Nat2Z.id. rewrite (list_lookup_total_correct _ _ _ F2).
  cbn -[Z.lor]. assert (info (sd x) !!! r_i0 r = mk_info (Some (r_b r)) 0) as Ei by (by apply list_lookup_total_correct).
  unfold completed, stored. destruct (r_w r); cbn -[write_at block_at]; rewrite Ei; cbn -[write_at block_at]; f_equal; f_equal;
    apply vdisk_eq; try reflexivity; cbn; by rewrite list_insert_id.
Qed.

Lemma block_at_write d n bs m : block_at (write_at d (2 * n) bs) (2 * m) = if decide (m = n) then bs else block_at d (2 * m).
Proof.
  unfold block_at, write_at. case_decide as E.
  - subst. rewrite fn_lookup_insert, fn_lookup_insert_ne, fn_lookup_insert by lia. apply take_drop.
  - by rewrite !fn_lookup_insert_ne by lia.
Qed.

Lemma inv_do r T1 T2 : T = T1 ++ r :: T2 ->
  vinv (mk_vsys (completed r (d_sectors (sv x)) (sd x)) (mk_dev (d_last (sv x)) (r_i0 <$> (T1 ++ T2)) (stored r (d_sectors (sv x)) (sd x))) (active x))
    A (T1 ++ T2) (U ++ [r]) D.
Proof.
  intros ET. assert (r ∈ active x) as Hr by (apply in_active; rewrite ET; set_solver).
  pose proof (vinv_two _ _ _ _ _ V) as H2. rewrite !length_app in H2. pose proof in_active as Hin. pose proof same_b as Hsb. pose proof same_n as Hsn.
  destruct V as [V1 (L1 & L2 & L3 & L4 & L5) V3 V4 V5 V6 V7 V8 V9 V10 V11 V12 V13 V14 [V15 V15'] V16].
  assert (forall q, q ∈ active x -> q <> r -> b_bytes (completed r (d_sectors (sv x)) (sd x)) (r_b q) = b_bytes (sd x) (r_b q)) as Hb.
  { intros q Hq Hne. cbn. destruct (r_w r); [done|]. apply fn_lookup_insert_ne. intros E. apply Hne. symmetry. by apply Hsb. }
  assert (ring (used_id (sd x)) = ring (used_idx (sd x) + Z.of_nat (length U))) as Er by (unfold ring, NUM; by rewrite V15').
  split; cbn -[ids completed stored]; try done.
  - rewrite V1, ET. rewrite <- !app_assoc. cbn. apply Permutation_app_head, Permutation_app_head.
    rewrite <- (Permutation_middle U D r), <- (Permutation_middle T2 (U ++ D) r). done.
  - cbn. rewrite ?length_insert. done.
  - intros q Hq. specialize (V6 q Hq) as [F0 F1 F2 F3 F4]. split; cbn; try done. intros Ew. destruct (r_w r) eqn:Er'; [auto|].
    rewrite fn_lookup_insert_ne; [auto|]. intros E. assert (r = q) by (by apply Hsb). congruence.
  - intros q Hq. apply V9. rewrite ET. set_solver.
  - intros k q [Hk|[Hk Hq]]%lookup_app_Some; cbn; rewrite Er.
    + rewrite list_lookup_insert_ne; [auto|]. apply lookup_lt_Some in Hk. intros E%ring_inj; lia.
    + apply list_lookup_singleton_Some in Hq as [E <-]. replace k with (length U) by lia.
      rewrite list_lookup_insert_eq; [done|]. rewrite L3. apply ring_lt.
  - split; [done|]. cbn. rewrite length_app. cbn. unfold u16, wrap. rewrite <- Znumtheory.Zmod_div_mod by (lia || by exists (2 ^ 13)).
    rewrite <- Zplus_mod_idemp_l, V15', Zplus_mod_idemp_l. f_equal. lia.
  - intros q Hq. assert (q ∈ active x) as Hqa.
    { apply Hin. rewrite !elem_of_app, list_elem_of_singleton in Hq. destruct Hq as [[?| ->]|?]; [tauto|by apply Hin|tauto]. }
    unfold transferred. destruct (decide (r_n q = r_n r)) as [E|E].
    + apply Hsn in E; [|done..]. subst q. unfold stored. destruct (r_w r) eqn:Ew.
      * unfold sector. rewrite block_at_write, decide_True by done. by apply (fm_data _ _ (V6 r Hr)).
      * cbn. rewrite Ew. apply fn_lookup_insert.
    + assert (q ∈ U ++ D) as Hud by (rewrite !elem_of_app, list_elem_of_singleton in Hq; rewrite elem_of_app; naive_solver).
      specialize (V16 q Hud). unfold transferred in V16. rewrite Hb by (congruence || done).
      replace (block_at (stored r (d_sectors (sv x)) (sd x)) (sector q)) with (block_at (d_sectors (sv x)) (sector q)); [done|].
      unfold stored. destruct (r_w r); [|done]. unfold sector. by rewrite block_at_write, decide_False.
Qed.

Lemma inv_seen r U' : U = r :: U' ->
  vinv (mk_vsys (set_used_idx ((used_idx (sd x) + 1) mod NUM) (vwakeup (CBuf (r_b r)) (set_bdisk (r_b r) 0 (sd x)))) (sv x) (active x)) A T U' (D ++ [r]).
Proof.
  intros EU. assert (r ∈ active x) as Hr by (apply in_active; rewrite EU; set_solver). pose proof in_active as Hin. pose proof same_b as Hsb.
  assert (NoDup (A ++ T ++ U ++ D)) as Hnd.
  { apply (NoDup_fmap_1 r_b). rewrite <- (vi_active _ _ _ _ _ V). apply V. }
  destruct V as [V1 (L1 & L2 & L3 & L4 & L5) V3 V4 V5 V6 V7 V8 V9 V10 V11 V12 V13 V14 [V15 V15'] V16]. subst U.
  split; cbn -[ids]; try done.
  - rewrite V1. cbn. rewrite (Permutation_app_comm D [r]). cbn. by rewrite (Permutation_middle U' D r).
  - intros q Hq. by apply (formatted_frame (sd x)); auto.
  - intros q Hq. rewrite fn_lookup_insert_ne; [apply V9; rewrite !elem_of_app, elem_of_cons in *; tauto|].
    intros E%Hsb; [|done|apply Hin; rewrite !elem_of_app, ?elem_of_cons in *; tauto]. subst q.
    rewrite !app_assoc in Hnd. apply NoDup_app in Hnd as (Hnd & _ & _). rewrite <- app_assoc in Hnd.
    assert (r ∉ A ++ T ++ U') as Hno; [|done].
    assert (A ++ T ++ r :: U' ≡ₚ r :: (A ++ T ++ U')) as Ep by (rewrite !app_assoc; by rewrite <- Permutation_middle).
    rewrite Ep in Hnd. by apply NoDup_cons in Hnd as [? _].
  - intros q [Hq|Hq]%elem_of_app.
    + destruct (decide (r_b q = r_b r)) as [->|E]; [apply fn_lookup_insert|]. rewrite fn_lookup_insert_ne by done. auto.
    + apply list_elem_of_singleton in Hq as ->. apply fn_lookup_insert.
  - intros k q Hk. specialize (V14 (S k) q Hk). change NUM with 8.
    assert (ring ((used_idx (sd x) + 1) mod 8 + Z.of_nat k) = ring (used_idx (sd x) + Z.of_nat (S k))) as ->; [|done].
    unfold ring, NUM. rewrite Zplus_mod_idemp_l. do 2 f_equal. lia.
  - change NUM with 8. split; [apply Z.mod_pos_bound; lia|]. rewrite V15', Zplus_mod_idemp_l. f_equal. cbn. lia.
  - intros q Hq. apply V16. set_solver.
Qed.

(** The state [rw_end] leaves. *)
Definition ended (r : req) (s : vdisk) : vdisk :=
  freed (r_i2 r) (freed (r_i1 r) (freed (r_i0 r) (set_info (r_i0 r) (mk_info None 0) s))).

Lemma ids_distinct r : r ∈ active x -> r_i0 r <> r_i1 r /\ r_i0 r <> r_i2 r /\ r_i1 r <> r_i2 r.
Proof.
  intros (l1 & l2 & E)%list_elem_of_split. pose proof (vi_ids _ _ _ _ _ V) as Hn. rewrite E, bind_app, bind_cons in Hn.
  apply NoDup_app in Hn as (_ & _ & (Hn & _ & _)%NoDup_app). apply NoDup_cons in Hn as [H1 Hn]. apply NoDup_cons in Hn as [H2 _]. set_solver.
Qed.

Lemma freed_desc_ne i j s : i <> j -> desc (freed i s) !! j = desc s !! j.
Proof. intros. cbn. by rewrite list_lookup_insert_ne. Qed.
Lemma freed_free_ne i j s : i <> j -> free (freed i s) !! j = free s !! j.
Proof. intros. cbn. by rewrite list_lookup_insert_ne. Qed.
Lemma freed_desc_eq i s d : desc s !! i = Some d -> desc (freed i s) !! i = Some (mk_desc PNull (vd_len d) (vd_flags d) (vd_next d)).
Proof. intros Hd. cbn. rewrite (list_lookup_total_correct _ _ _ Hd). apply list_lookup_insert_eq. by apply lookup_lt_Some in Hd. Qed.

Lemma free_chain_step i f s d : (i < 8)%nat -> free s !! i = Some false -> desc s !! i = Some d ->
  free_chain i (S f) s = if negb (Z.land (vd_flags d) VRING_DESC_F_NEXT =? 0) then free_chain (Z.to_nat (vd_next d)) f (freed i s) else Ok tt (freed i s).
Proof.
  intros Hi Hf Hd. cbn [free_chain]. rewrite (bind_Ok _ _ _ _ _ (free_desc_ok i s Hi Hf)).
  unfold bind at 1, get. rewrite (list_lookup_total_correct _ _ _ (freed_desc_eq i s d Hd)). cbn [vd_flags vd_next]. by case_bool.
Qed.

Lemma rw_end_ok r : r ∈ active x -> rw_end (r_i0 r) (sd x) = Ok tt (ended r (sd x)).
Proof.
  intros Hr. destruct (ids_distinct r Hr) as (N1 & N2 & N3). destruct (vi_fmt _ _ _ _ _ V r Hr) as [F0 F1 F2 F3 F4].
  assert (forall i, i ∈ ids r -> free (sd x) !! i = Some false /\ (i < 8)%nat) as Hu by (intros; by apply (is_used r)).
  destruct (Hu (r_i0 r)) as [U0 L0]; [unfold ids; set_solver|]. destruct (Hu (r_i1 r)) as [U1 L1]; [unfold ids; set_solver|].
  destruct (Hu (r_i2 r)) as [U2 L2]; [unfold ids; set_solver|].
  unfold rw_end. erewrite bind_Ok by reflexivity. rewrite (list_lookup_total_correct _ _ _ F3). change (Z.to_nat NUM) with 8%nat.
  erewrite free_chain_step; [|exact L0|exact U0|exact F0]. cbn [vd_flags vd_next].
  change (negb (Z.land VRING_DESC_F_NEXT VRING_DESC_F_NEXT =? 0)) with true. cbn [in_status]. rewrite Nat2Z.id.
  erewrite free_chain_step; [|exact L1|by rewrite freed_free_ne|rewrite freed_desc_ne by done; exact F1].
  cbn [vd_flags vd_next]. assert (negb (Z.land (Z.lor (if r_w r then 0 else VRING_DESC_F_WRITE) VRING_DESC_F_NEXT) VRING_DESC_F_NEXT =? 0) = true) as -> by (by destruct (r_w r)).
  rewrite Nat2Z.id. erewrite free_chain_step; [|exact L2|by rewrite !freed_free_ne by done|rewrite !freed_desc_ne by done; exact F2]. reflexivity.
Qed.

Lemma inv_end r l1 l2 D1 D2 : active x = l1 ++ r :: l2 -> D = D1 ++ r :: D2 ->
  vinv (mk_vsys (ended r (sd x)) (sv x) (l1 ++ l2)) A T U (D1 ++ D2).
Proof.
  intros El ED. assert (r ∈ active x) as Hr by (rewrite El; set_solver).
  assert (active x ≡ₚ r :: (l1 ++ l2)) as Ep by (rewrite El; by rewrite Permutation_middle).
  assert (forall q, q ∈ l1 ++ l2 -> q ∈ active x) as Hsub by (intros q Hq; rewrite Ep; by apply elem_of_cons; right).
  assert (forall q i, q ∈ l1 ++ l2 -> i ∈ ids q -> i ∉ ids r) as Hdj.
  { intros q i Hq Hi Hi'. pose proof (vi_ids _ _ _ _ _ V) as Hn. rewrite Ep, bind_cons in Hn. apply NoDup_app in Hn as (_ & Hn & _).
    exact (Hn i Hi' (elem_ids _ _ _ Hq Hi)). }
  pose proof is_used as Hu. pose proof in_active as Hin.
  destruct V as [V1 (L1 & L2 & L3 & L4 & L5) V3 V4 V5 V6 V7 V8 V9 V10 V11 V12 V13 V14 V15 V16]. clear V.
  rewrite Ep, bind_cons in V3. rewrite Ep in V7, V8. cbn in V7, V8. apply NoDup_cons in V7 as [_ V7]. apply NoDup_cons in V8 as [_ V8].
  apply NoDup_app in V3 as (_ & _ & V3).
  split; cbn -[ids]; rewrite ?length_insert; try done.
  - apply (Permutation_cons_inv (a := r)). rewrite <- Ep, V1, ED. rewrite !app_assoc. by rewrite Permutation_middle.
  - intros i Hi. rewrite !list_lookup_insert_Some, ?length_insert. specialize (V4 i Hi). rewrite Ep, bind_cons, not_elem_of_app in V4.
    unfold ids in V4, Hdj. split.
    + intros [(E & _ & _)|[? [(E & _ & _)|[? [(E & _ & _)|[? Hf]]]]]]; [intros (q & Hiq & Hq)%list_elem_of_bind; apply (Hdj q i Hq Hiq); set_solver..|].
      by apply V4.
    + intros Hni. destruct (decide (r_i2 r = i)) as [->|]; [left; split; [done|]; split; [done|lia]|right; split; [done|]].
      destruct (decide (r_i1 r = i)) as [->|]; [left; split; [done|]; split; [done|lia]|right; split; [done|]].
      destruct (decide (r_i0 r = i)) as [->|]; [left; split; [done|]; split; [done|lia]|right; split; [done|]].
      apply V4. set_solver.
  - intros i Hi. apply V5. rewrite Ep, bind_cons. apply elem_of_app. by right.
  - intros q Hq. apply (formatted_frame (sd x)); [auto| | |done]; cbn.
    + intros i Hi. pose proof (Hdj q i Hq Hi) as Hno. unfold ids in Hno. by rewrite !list_lookup_insert_ne by set_solver.
    + rewrite list_lookup_insert_ne; [done|]. intros E. apply (Hdj q (r_i0 q) Hq); unfold ids; rewrite <- ?E; set_solver.
  - intros q Hq. apply V10. set_solver.
  - intros q Hq. apply V16. set_solver.
Qed.
End Inv.

Lemma intr_ok U f x A T D : vinv x A T U D -> (length U < f)%nat ->
  exists s', intr_loop f (sd x) = Ok tt s' /\ vinv (mk_vsys s' (sv x) (active x)) A T [] (D ++ U).
Proof.
  revert f x D. induction U as [|r U IH]; intros f x D V Hf; (destruct f as [|f]; [cbn in Hf; lia|]); cbn [intr_loop];
    unfold bind at 1, get; destruct (vi_uidx _ _ _ _ _ V) as [Hr Hu]; change NUM with 8.
  - exists (sd x). cbn in Hu. rewrite Z.add_0_r in Hu. rewrite <- Hu, Z.eqb_refl. cbn. split; [done|]. rewrite app_nil_r. by destruct x.
  - pose proof (vinv_two _ _ _ _ _ V) as H2. rewrite !length_app in H2. cbn in H2.
    destruct (Z.eqb_spec (used_idx (sd x) mod 8) (used_id (sd x) mod 8)) as [E|_]; [rewrite Hu in E; cbn [length] in E; Z.div_mod_to_equations; lia|].
    cbn [negb]. assert (r ∈ active x) as Hact by (apply (in_active x A T (r :: U) D V); set_solver).
    pose proof (vi_used _ _ _ _ _ V 0%nat r eq_refl) as H0. rewrite Z.add_0_r in H0. unfold ring, NUM in H0. rewrite Z.mod_small in H0 by done.
    rewrite (list_lookup_total_correct _ _ _ H0), Nat2Z.id. rewrite (list_lookup_total_correct _ _ _ (fm_info _ _ (vi_fmt _ _ _ _ _ V r Hact))).
    cbn [in_status in_b negb Z.eqb]. do 3 (erewrite bind_Ok by reflexivity).
    destruct (IH f _ _ (inv_seen x A T (r :: U) D V r U eq_refl) ltac:(cbn in Hf; lia)) as (s' & E & V'). exists s'. split; [exact E|].
    by rewrite <- app_assoc in V'.
Qed.

(** ** All runs *)
Definition vboot (bytes : nat -> list Z) (sectors : Z -> list Z) : vsys := mk_vsys (vdisk_init bytes) (mk_dev 0 [] sectors) [].

Lemma vboot_inv bytes sectors : vinv (vboot bytes sectors) [] [] [] [].
Proof.
  split; cbn; try done; try (constructor; fail); try (intros; set_solver); try lia.
  intros i Hi. split; [set_solver|]. intros _. by do 8 (destruct i as [|i]; [done|]); lia.
Qed.

Lemma vstep_inv x y A T U D : vstep x y -> vinv x A T U D -> exists A' T' U' D', vinv y A' T' U' D'.
Proof.
  intros Hs V. destruct Hs as [b n w i0 s' x Hu Hn E i1 i2|b n w c s' x E|x Hl i|i t1 t2 s' d' x Et E|s' x E|r l1 l2 s' x El Hb E|b d x Hb].
  - destruct (rw_start_ok x A T U D V b n w) as [(j0 & j1 & j2 & Hnd & Hfr & E')|(s1 & E' & _)]; [|congruence].
    rewrite E' in E. injection E as <- <-. exists (A ++ [mk_req b n w j0 j1 j2 (b_bytes (sd x) b)]), T, U, D.
    destruct (inv_start x A T U D V b n w j0 j1 j2 Hu Hn Hnd Hfr) as [W1 W2 W3 W4 W5 W6 W7 W8 W9 W10 W11 W12 W13 W14 W15 W16].
    pose proof (W6 _ ltac:(apply elem_of_cons; by left)) as [F0 F1 _ _ _]. cbn -[started] in F0, F1.
    assert (i1 = j1) as -> by (unfold i1; rewrite (list_lookup_total_correct _ _ _ F0); apply Nat2Z.id).
    assert (i2 = j2) as -> by (unfold i2; rewrite (list_lookup_total_correct _ _ _ F1); apply Nat2Z.id). by split.
  - destruct (rw_start_ok x A T U D V b n w) as [(j0 & j1 & j2 & Hnd & Hfr & E')|(s1 & E' & Hsame)]; [congruence|].
    rewrite E' in E. injection E as _ <-. exists A, T, U, D. by apply inv_same.
  - destruct (inv_take x A T U D V Hl) as (r & A' & -> & V'). eauto.
  - rewrite (vi_taken _ _ _ _ _ V) in Et. apply fmap_app_inv in Et as (T1 & T2' & E1 & E2 & ET).
    symmetry in E2. apply fmap_cons_inv in E2 as (r & T2 & -> & -> & ->).
    assert (r ∈ active x) as Hr by (apply (in_active x A T U D V); rewrite ET; set_solver).
    rewrite device_do_ok in E by (by apply V). injection E as <- <-. rewrite E1, <- fmap_app.
    pose proof (inv_do x A T U D V r T1 T2 ET). eauto.
  - pose proof (vinv_two _ _ _ _ _ V) as H2. rewrite !length_app in H2.
    destruct (intr_ok U 8 x A T D V ltac:(lia)) as (s1 & E1 & V'). unfold virtio_disk_intr in E. change (Z.to_nat NUM) with 8%nat in E.
    rewrite E1 in E. injection E as <-. eauto.
  - assert (r ∈ active x) as Hr by (rewrite El; set_solver). assert (r ∈ D) as (D1 & D2 & ED)%list_elem_of_split.
    { apply (in_active x A T U D V) in Hr. pose proof (vi_flight _ _ _ _ _ V r) as Hf. rewrite !elem_of_app in Hf.
      destruct Hr as [?|[?|[?|?]]]; [..|done]; rewrite Hf in Hb by tauto; done. }
    rewrite (rw_end_ok x A T U D V r Hr) in E. injection E as <-. pose proof (inv_end x A T U D V r l1 l2 D1 D2 El ED). eauto.
  - exists A, T, U, D. by apply inv_fill.
Qed.

Lemma vreach_inv bytes sectors x : rtc vstep (vboot bytes sectors) x -> exists A T U D, vinv x A T U D.
Proof.
  intros Hs. assert (exists A T U D, vinv (vboot bytes sectors) A T U D) as H0 by (do 4 eexists; apply vboot_inv).
  induction Hs as [|x y z Hxy _ IH]; [done|]. apply IH. destruct H0 as (A & T & U & D & V). by apply (vstep_inv x y A T U D).
Qed.

(** C5: Whatever the interleaving of requests, device and interrupts, when a process that
    waits in [virtio_disk_rw] sees [b->disk == 0], its request has been carried out: the
    block on disk holds the data submitted, or the buffer holds the block.  This is the
    atomic transfer that the block cache relies on. *)
Theorem virtio_disk_rw_transfers bytes sectors x r :
  rtc vstep (vboot bytes sectors) x -> r ∈ active x -> b_disk (sd x) (r_b r) = 0 ->
  let block := d_sectors (sv x) (2 * r_n r) ++ d_sectors (sv x) (2 * r_n r + 1) in
  if r_w r then block = r_data r else b_bytes (sd x) (r_b r) = block.
Proof.
  intros (A & T & U & D & V)%vreach_inv Hr Hb. assert (r ∈ U ++ D) as Hd.
  { apply (in_active x A T U D V) in Hr. pose proof (vi_flight _ _ _ _ _ V r) as Hf. rewrite !elem_of_app in *.
    destruct Hr as [?|[?|?]]; [..|done]; rewrite Hf in Hb by tauto; done. }
  exact (vi_done _ _ _ _ _ V r Hd).
Qed.


(** ** A write *)
Definition demo_bytes : nat -> list Z := fun b => replicate 1024 (Z.of_nat b).
Definition demo_sectors : Z -> list Z := fun n => replicate 512 n.

Lemma demo_vrun : exists x r, rtc vstep (vboot demo_bytes demo_sectors) x /\ r ∈ active x /\ b_disk (sd x) (r_b r) = 0.
Proof.
  set (s0 := vdisk_init demo_bytes).
  assert (rw_start 3 7 true s0 = Ok 0%nat (started 3 7 true 0 1 2 s0)) as E by reflexivity.
  pose (s1 := started 3 7 true 0 1 2 s0). pose (r := mk_req 3 7 true 0 1 2 (demo_bytes 3)).
  pose (x1 := mk_vsys s1 (mk_dev 0 [] demo_sectors) [r]). pose (x2 := mk_vsys s1 (mk_dev 1 [0%nat] demo_sectors) [r]).
  pose (x3 := mk_vsys (completed r demo_sectors s1) (mk_dev 1 [] (stored r demo_sectors s1)) [r]).
  pose (x4 := mk_vsys (set_used_idx 1 (vwakeup (CBuf 3) (set_bdisk 3 0 (sd x3)))) (sv x3) [r]).
  exists x4, r. split; [|split; [by apply elem_of_cons; left|reflexivity]].
  apply rtc_l with x1; [|apply rtc_l with x2; [|apply rtc_l with x3; [|apply rtc_once]]].
  - apply (vs_start 3 7 true 0 s1 (vboot demo_bytes demo_sectors)); [by intros q Hq%elem_of_nil|lia|exact E].
  - apply (vs_take x1). discriminate.
  - apply (vs_do 0 [] [] _ _ x2); [reflexivity|]. apply (device_do_ok x2 r). by split.
  - apply (vs_intr _ x3). reflexivity.
Qed.

Lemma virtio_disk_rw_transfers_witness : exists x r, r ∈ active x /\ let block := d_sectors (sv x) (2 * r_n r) ++ d_sectors (sv x) (2 * r_n r + 1) in
  if r_w r then block = r_data r else b_bytes (sd x) (r_b r) = block.
Proof.
  destruct demo_vrun as (x & r & Hs & Hr & Hb). exists x, r. split; [exact Hr|].
  exact (virtio_disk_rw_transfers demo_bytes demo_sectors x r Hs Hr Hb).
Defined.

