(* ===== verification/Exec.v ===== *)
(** * kernel/exec.c: replacing the image of a process *)
From stdpp Require Import base gmap list numbers strings.
From Stdlib Require Import ZArith Lia.
From S2P Require Import Prelude Riscv Mem Bytes Kalloc Vm Access Uart.
From S2P Require Import Bio BlockCache Log TxDisk Fs File Kprintf Proc.
Open Scope Z_scope.

Definition MAXARG : nat := 32.
Definition ELF_MAGIC : Z := 0x464C457F.
Definition ELF_PROG_LOAD : Z := 1.
Definition ELFHDR : Z := 64.
Definition PROGHDR : Z := 56.

Definition get64 (o : nat) (d : list Z) : Z := little_endian_to_Z 8 (getn o 8 d).

(** The fields [exec] reads of the headers. *)
Record elfhdr := mk_elf { e_magic : Z; e_entry : Z; e_phoff : Z; e_phnum : Z }.
Definition get_elfhdr (d : list Z) : elfhdr := mk_elf (get32 0 d) (get64 24 d) (get64 32 d) (get16 56 d).
Record proghdr := mk_ph { ph_type : Z; ph_off : Z; ph_vaddr : Z; ph_filesz : Z; ph_memsz : Z }.
Definition get_proghdr (d : list Z) : proghdr := mk_ph (get32 0 d) (get64 8 d) (get64 16 d) (get64 32 d) (get64 40 d).

Section Exec.
Context {L : Linker}.

Definition kfs {A} (m : M (fs_st (log_st bio_st) kmem_st) A) : K A := on_files (on_fs m).
Definition klog {A} (m : M (log_st bio_st) A) : K A := on_files (on_log m).

(** [readi] of [n] bytes into a variable of the caller: the result and the variable. *)
Definition read_local (ip : nat) (off n : Z) : K (Z * list Z) :=
  kfs (modify (set_local (replicate (Z.to_nat n) 0)) ;;
       let! r := readi ip DLocal off n in
       let! d := gets flocal in
       ret (r, d)).

Fixpoint loadseg_loop (pagetable va : Z) (ip : nat) (offset sz i : Z) (fuel : nat) : K Z :=
  match fuel with
  | O => diverge
  | S f =>
      if i <? sz then
        let! pa := on_kmem (walkaddr pagetable (u64 (va + i))) in
        if pa =? 0 then panic "loadseg: address should exist"
        else
          let n := if sz - i <? PGSIZE then sz - i else PGSIZE in
          let! r := kfs (readi ip (DKern pa) (u32 (offset + i)) n) in
          if negb (u32 r =? n) then ret (-1)
          else loadseg_loop pagetable va ip offset sz (u32 (i + PGSIZE)) f
      else ret 0
  end.

Definition loadseg (pagetable va : Z) (ip : nat) (offset sz : Z) : K Z :=
  if negb (va mod PGSIZE =? 0) then panic "loadseg: va must be page aligned"
  else loadseg_loop pagetable va ip offset sz 0 (Z.to_nat (sz / PGSIZE + 2)).

(** The loop over the program headers: whether it ended, and [sz]. *)
Fixpoint exec_segments (pagetable : Z) (ip : nat) (off sz : Z) (k : nat) : K (bool * Z) :=
  match k with
  | O => ret (true, sz)
  | S k' =>
      let! (r, d) := read_local ip (u32 off) PROGHDR in
      let ph := get_proghdr d in
      let off := i32 (off + PROGHDR) in
      if negb (r =? PROGHDR) then ret (false, sz)
      else if negb (ph_type ph =? ELF_PROG_LOAD) then exec_segments pagetable ip off sz k'
      else if ph_memsz ph <? ph_filesz ph then ret (false, sz)
      else if u64 (ph_vaddr ph + ph_memsz ph) <? ph_vaddr ph then ret (false, sz)
      else
        let! sz1 := on_kmem (uvmalloc pagetable sz (u64 (ph_vaddr ph + ph_memsz ph))) in
        if sz1 =? 0 then ret (false, sz)
        else if negb (ph_vaddr ph mod PGSIZE =? 0) then ret (false, sz1)
        else
          let! r := loadseg pagetable (ph_vaddr ph) ip (u32 (ph_off ph)) (u32 (ph_filesz ph)) in
          if r <? 0 then ret (false, sz1) else exec_segments pagetable ip off sz1 k'
  end.

(** The argument strings go on the stack: [sp] and [ustack] after them. *)
Fixpoint exec_args (pagetable stackbase : Z) (argv : list (list Z)) (sp : Z) (ustack : list Z) : K (option (Z * list Z)) :=
  match argv with
  | [] => ret (Some (sp, ustack))
  | a :: argv' =>
      if (MAXARG <=? length ustack)%nat then ret None
      else
        let sp := u64 (sp - (Z.of_nat (length a) + 1)) in
        let sp := sp - sp mod 16 in
        if sp <? stackbase then ret None
        else
          let! r := on_kmem (copyout pagetable sp (a ++ [0])) in
          if r <? 0 then ret None else exec_args pagetable stackbase argv' sp (ustack ++ [sp])
  end.

(** The part of the path after its last slash. *)
Fixpoint last_elem (path last : list Z) : list Z :=
  match path with
  | [] => last
  | c :: path' => last_elem path' (if c =? SLASH then path' else last)
  end.

(** [bad:] *)
Definition exec_bad (pagetable sz : Z) (ip : option nat) : K Z :=
  (if negb (pagetable =? 0) then proc_freepagetable pagetable sz else ret tt) ;;
  match ip with
  | Some ip => kfs (iunlockput ip) ;; klog end_op
  | None => ret tt
  end ;;
  ret (-1).

(** After the segments are loaded: the stack, and the commit to the new image. *)
Definition exec_image (path : list Z) (argv : list (list Z)) (pagetable sz entry : Z) : K Z :=
  let! s := get in
  let p := kcur s in
  let oldsz := p_sz (myproc s) in
  let sz := PGROUNDUP sz in
  let! sz1 := on_kmem (uvmalloc pagetable sz (u64 (sz + 2 * PGSIZE))) in
  if sz1 =? 0 then exec_bad pagetable sz None
  else
    on_kmem (uvmclear pagetable (u64 (sz1 - 2 * PGSIZE))) ;;
    let stackbase := u64 (sz1 - PGSIZE) in
    let! r := exec_args pagetable stackbase argv sz1 [] in
    match r with
    | None => exec_bad pagetable sz1 None
    | Some (sp, ustack) =>
        let argc := Z.of_nat (length ustack) in
        let sp := u64 (sp - (argc + 1) * 8) in
        let sp := sp - sp mod 16 in
        if sp <? stackbase then exec_bad pagetable sz1 None
        else
          let! r := on_kmem (copyout pagetable sp (flat_map (Z_to_little_endian 8 8) (ustack ++ [0]))) in
          if r <? 0 then exec_bad pagetable sz1 None
          else
            let tf := p_trapframe (myproc s) in
            tf_set tf (TF_a0 + 8) sp ;;
            modify (upd_proc p (fun x => set_name (safestrcpy_arr (p_name x) (last_elem path path ++ [0]) 16) x)) ;;
            let oldpagetable := p_pagetable (myproc s) in
            modify (upd_proc p (set_pagetable pagetable)) ;;
            modify (upd_proc p (set_sz sz1)) ;;
            tf_set tf TF_epc entry ;;
            tf_set tf TF_sp sp ;;
            proc_freepagetable oldpagetable oldsz ;;
            ret argc
    end.

Definition exec (path : list Z) (argv : list (list Z)) : K Z :=
  klog begin_op ;;
  let! r := kfs (namei path) in
  match r with
  | None => klog end_op ;; ret (-1)
  | Some ip =>
      kfs (ilock (Some ip)) ;;
      let! (r, d) := read_local ip 0 ELFHDR in
      let elf := get_elfhdr d in
      if negb (r =? ELFHDR) then exec_bad 0 0 (Some ip)
      else if negb (e_magic elf =? ELF_MAGIC) then exec_bad 0 0 (Some ip)
      else
        let! s := get in
        let! pagetable := proc_pagetable (kcur s) in
        if pagetable =? 0 then exec_bad 0 0 (Some ip)
        else
          let! (ok, sz) := exec_segments pagetable ip (i32 (e_phoff elf)) 0 (Z.to_nat (e_phnum elf)) in
          if negb ok then exec_bad pagetable sz (Some ip)
          else
            kfs (iunlockput ip) ;;
            klog end_op ;;
            exec_image path argv pagetable sz (e_entry elf)
  end.
End Exec.
