(* ===== verification/Syscall.v ===== *)
(** * kernel/syscall.c, sysproc.c and sysfile.c: system calls

    Arguments come from the trapframe of the current process and from user memory; the
    result goes to its saved [a0].  A call that sleeps is [Block] at that point. *)
From stdpp Require Import base gmap list numbers strings.
From Stdlib Require Import ZArith Lia.
From S2P Require Import Prelude Riscv Mem Bytes Kalloc Vm Access Uart.
From S2P Require Console.
From S2P Require Import Bio BlockCache Log TxDisk Fs File Kprintf Proc Exec.
Open Scope Z_scope.

Definition MAXPATH : Z := 128.
Definition O_RDONLY : Z := 0x000.
Definition O_WRONLY : Z := 0x001.
Definition O_RDWR : Z := 0x002.
Definition O_CREATE : Z := 0x200.
Definition O_TRUNC : Z := 0x400.

Section Syscall.
Context {L : Linker}.

(** ** Arguments *)
Definition fetchaddr (addr : Z) : K (option Z) :=
  let! s := get in
  let p := myproc s in
  if (p_sz p <=? addr) || (p_sz p <? u64 (addr + 8)) then ret None
  else
    let! (r, bs) := on_kmem (copyin (p_pagetable p) addr 8) in
    if negb (r =? 0) then ret None else ret (Some (little_endian_to_Z 8 bs)).

(** The bytes put in the buffer, without the NUL; its length is the C result. *)
Definition fetchstr (addr max : Z) : K (option (list Z)) :=
  let! s := get in
  let! (err, bs) := on_kmem (copyinstr (p_pagetable (myproc s)) addr max) in
  if err <? 0 then ret None else ret (Some (cstr_arr bs)).

Definition argraw (n : Z) : K Z :=
  let! s := get in
  if (0 <=? n) && (n <=? 5) then tf_get (p_trapframe (myproc s)) (TF_a0 + 8 * n) else panic "argraw".

Definition argint (n : Z) : K Z := let! v := argraw n in ret (i32 v).
Definition argaddr (n : Z) : K Z := argraw n.
Definition argstr (n max : Z) : K (option (list Z)) := let! addr := argaddr n in fetchstr addr max.

(** ** sysfile.c: descriptors *)
Definition argfd (n : Z) : K (option (nat * nat)) :=
  let! fd := argint n in
  let! s := get in
  if (fd <? 0) || (Z.of_nat NOFILE <=? fd) then ret None
  else
    match p_ofile (myproc s) !!! Z.to_nat fd with
    | None => ret None
    | Some f => ret (Some (Z.to_nat fd, f))
    end.

(** The first free descriptor. *)
Fixpoint fdalloc_scan {A} (l : list (option A)) (fd : nat) : option nat :=
  match l with
  | [] => None
  | None :: _ => Some fd
  | Some _ :: l' => fdalloc_scan l' (S fd)
  end.

Definition fdalloc (f : nat) : K Z :=
  let! s := get in
  match fdalloc_scan (p_ofile (myproc s)) 0 with
  | Some fd => modify (upd_proc (kcur s) (set_ofile fd (Some f))) ;; ret (Z.of_nat fd)
  | None => ret (-1)
  end.

Definition sys_dup : K Z :=
  let! r := argfd 0 in
  match r with
  | None => ret (-1)
  | Some (_, f) =>
      let! fd := fdalloc f in
      if fd <? 0 then ret (-1) else on_files (filedup f) ;; ret fd
  end.

Definition sys_read : K Z :=
  let! r := argfd 0 in
  match r with
  | None => ret (-1)
  | Some (_, f) =>
      let! n := argint 2 in
      let! p := argaddr 1 in
      on_files (fileread f p n)
  end.

Definition sys_write : K Z :=
  let! r := argfd 0 in
  match r with
  | None => ret (-1)
  | Some (_, f) =>
      let! n := argint 2 in
      let! p := argaddr 1 in
      on_files (filewrite f p n)
  end.

Definition sys_close : K Z :=
  let! r := argfd 0 in
  match r with
  | None => ret (-1)
  | Some (fd, f) =>
      let! s := get in
      modify (upd_proc (kcur s) (set_ofile fd None)) ;;
      on_files (fileclose f) ;;
      ret 0
  end.

(** [pad]: the bytes of padding in the stack variable. *)
Definition sys_fstat (pad : list Z) : K Z :=
  let! r := argfd 0 in
  match r with
  | None => ret (-1)
  | Some (_, f) => let! st := argaddr 1 in on_files (filestat pad f st)
  end.

(** ** sysfile.c: names *)
Definition get_inode (ip : nat) : K inode := let! s := get in ret (the_inode ip (ffs (kfiles s))).
Definition set_inode (ip : nat) (f : inode -> inode) : K unit := kfs (modify (upd_inode ip f)).

(** [char name[DIRSIZ]] of the caller. *)
Definition name0 : list Z := replicate DIRSIZ 0.

(** [bad:] of [sys_link]. *)
Definition link_bad (ip : nat) : K Z :=
  kfs (ilock (Some ip)) ;;
  set_inode ip (fun i => set_nlink (i16 (i_nlink i - 1)) i) ;;
  kfs (iupdate ip) ;;
  kfs (iunlockput ip) ;;
  klog end_op ;;
  ret (-1).

Definition sys_link : K Z :=
  let! old := argstr 0 MAXPATH in
  match old with
  | None => ret (-1)
  | Some old =>
  let! new := argstr 1 MAXPATH in
  match new with
  | None => ret (-1)
  | Some new =>
      klog begin_op ;;
      let! ip := kfs (namei old) in
      match ip with
      | None => klog end_op ;; ret (-1)
      | Some ip =>
          kfs (ilock (Some ip)) ;;
          let! i := get_inode ip in
          if i_type i =? T_DIR then kfs (iunlockput ip) ;; klog end_op ;; ret (-1)
          else
            set_inode ip (fun i => set_nlink (i16 (i_nlink i + 1)) i) ;;
            kfs (iupdate ip) ;;
            kfs (iunlock (Some ip)) ;;
            let! (dp, name) := kfs (nameiparent new name0) in
            match dp with
            | None => link_bad ip
            | Some dp =>
                kfs (ilock (Some dp)) ;;
                let! d := get_inode dp in
                let! i := get_inode ip in
                let! r := (if negb (i_dev d =? i_dev i) then ret (-1) else kfs (dirlink dp name (i_inum i))) in
                if r <? 0 then kfs (iunlockput dp) ;; link_bad ip
                else
                  kfs (iunlockput dp) ;;
                  kfs (iput ip) ;;
                  klog end_op ;;
                  ret 0
            end
      end
  end
  end.

Fixpoint isdirempty_loop (dp : nat) (off : Z) (fuel : nat) : K bool :=
  match fuel with
  | O => diverge
  | S f =>
      let! d := get_inode dp in
      if u32 off <? i_size d then
        let! (r, de) := read_local dp (u32 off) DIRENT in
        if negb (r =? DIRENT) then panic "isdirempty: readi"
        else if negb (de_inum de =? 0) then ret false
        else isdirempty_loop dp (i32 (off + DIRENT)) f
      else ret true
  end.

Definition isdirempty (dp : nat) : K bool :=
  let! d := get_inode dp in
  isdirempty_loop dp (2 * DIRENT) (Z.to_nat (i_size d / DIRENT + 2)).

(** ["."] and [".."] *)
Definition DOT : list Z := [46; 0].
Definition DOTDOT : list Z := [46; 46; 0].

(** [bad:] of [sys_unlink]. *)
Definition unlink_bad (dp : nat) : K Z := kfs (iunlockput dp) ;; klog end_op ;; ret (-1).

Definition sys_unlink : K Z :=
  let! path := argstr 0 MAXPATH in
  match path with
  | None => ret (-1)
  | Some path =>
      klog begin_op ;;
      let! (dp, name) := kfs (nameiparent path name0) in
      match dp with
      | None => klog end_op ;; ret (-1)
      | Some dp =>
          kfs (ilock (Some dp)) ;;
          if (namecmp name DOT =? 0) || (namecmp name DOTDOT =? 0) then unlink_bad dp
          else
            let! r := kfs (dirlookup dp name) in
            match r with
            | None => unlink_bad dp
            | Some (ip, off) =>
                kfs (ilock (Some ip)) ;;
                let! i := get_inode ip in
                if i_nlink i <? 1 then panic "unlink: nlink < 1"
                else
                  let! full := (if i_type i =? T_DIR then let! e := isdirempty ip in ret (negb e) else ret false) in
                  if full then kfs (iunlockput ip) ;; unlink_bad dp
                  else
                    let! w := kfs (writei dp (SLocal (replicate 16 0)) off DIRENT) in
                    if negb (w =? DIRENT) then panic "unlink: writei"
                    else
                      (if i_type i =? T_DIR
                       then set_inode dp (fun d => set_nlink (i16 (i_nlink d - 1)) d) ;; kfs (iupdate dp) else ret tt) ;;
                      kfs (iunlockput dp) ;;
                      set_inode ip (fun i => set_nlink (i16 (i_nlink i - 1)) i) ;;
                      kfs (iupdate ip) ;;
                      kfs (iunlockput ip) ;;
                      klog end_op ;;
                      ret 0
            end
      end
  end.

Definition create (path : list Z) (type major minor : Z) : K (option nat) :=
  let! (dp, name) := kfs (nameiparent path name0) in
  match dp with
  | None => ret None
  | Some dp =>
      kfs (ilock (Some dp)) ;;
      let! r := kfs (dirlookup dp name) in
      match r with
      | Some (ip, _) =>
          kfs (iunlockput dp) ;;
          kfs (ilock (Some ip)) ;;
          let! i := get_inode ip in
          if (type =? T_FILE) && ((i_type i =? T_FILE) || (i_type i =? T_DEVICE)) then ret (Some ip)
          else kfs (iunlockput ip) ;; ret None
      | None =>
          let! d := get_inode dp in
          let! ip := kfs (ialloc (i_dev d) type) in
          kfs (ilock (Some ip)) ;;
          set_inode ip (set_major_minor major minor) ;;
          set_inode ip (set_nlink 1) ;;
          kfs (iupdate ip) ;;
          let! i := get_inode ip in
          (if type =? T_DIR then
             set_inode dp (fun d => set_nlink (i16 (i_nlink d + 1)) d) ;;
             kfs (iupdate dp) ;;
             let! r := kfs (dirlink ip DOT (i_inum i)) in
             if r <? 0 then panic "create dots"
             else
               let! r := kfs (dirlink ip DOTDOT (i_inum d)) in
               if r <? 0 then panic "create dots" else ret tt
           else ret tt) ;;
          let! r := kfs (dirlink dp name (i_inum i)) in
          if r <? 0 then panic "create: dirlink"
          else kfs (iunlockput dp) ;; ret (Some ip)
      end
  end.

(** The inode of [sys_open], locked. *)
Definition open_inode (path : list Z) (omode : Z) : K (option nat) :=
  if negb (Z.land omode O_CREATE =? 0) then
    let! ip := create path T_FILE 0 0 in
    match ip with
    | None => klog end_op ;; ret None
    | Some ip => ret (Some ip)
    end
  else
    let! ip := kfs (namei path) in
    match ip with
    | None => klog end_op ;; ret None
    | Some ip =>
        kfs (ilock (Some ip)) ;;
        let! i := get_inode ip in
        if (i_type i =? T_DIR) && negb (omode =? O_RDONLY)
        then kfs (iunlockput ip) ;; klog end_op ;; ret None
        else ret (Some ip)
    end.

(** [f->type = ...; f->off = 0; f->ip = ip; f->readable = ...; f->writable = ...;] *)
Definition open_file (ip : nat) (i : inode) (omode : Z) (x : file) : file :=
  mk_file (if i_type i =? T_DEVICE then FD_DEVICE else FD_INODE) (f_ref x)
    (if Z.land omode O_WRONLY =? 0 then 1 else 0)
    (if negb (Z.land omode O_WRONLY =? 0) || negb (Z.land omode O_RDWR =? 0) then 1 else 0)
    (f_pipe x) ip
    (if i_type i =? T_DEVICE then f_off x else 0)
    (if i_type i =? T_DEVICE then i_major i else f_major x).

Definition sys_open : K Z :=
  let! path := argstr 0 MAXPATH in
  match path with
  | None => ret (-1)
  | Some path =>
      let! omode := argint 1 in
      klog begin_op ;;
      let! ip := open_inode path omode in
      match ip with
      | None => ret (-1)
      | Some ip =>
          let! i := get_inode ip in
          if (i_type i =? T_DEVICE) && ((i_major i <? 0) || (NDEV <=? i_major i))
          then kfs (iunlockput ip) ;; klog end_op ;; ret (-1)
          else
            let! f := on_files filealloc in
            match f with
            | None => kfs (iunlockput ip) ;; klog end_op ;; ret (-1)
            | Some f =>
                let! fd := fdalloc f in
                if fd <? 0 then
                  on_files (fileclose f) ;; kfs (iunlockput ip) ;; klog end_op ;; ret (-1)
                else
                  on_files (modify (upd_file f (open_file ip i omode))) ;;
                  (if negb (Z.land omode O_TRUNC =? 0) && (i_type i =? T_FILE) then kfs (itrunc ip) else ret tt) ;;
                  kfs (iunlock (Some ip)) ;;
                  klog end_op ;;
                  ret fd
            end
      end
  end.

Definition sys_mkdir : K Z :=
  klog begin_op ;;
  let! path := argstr 0 MAXPATH in
  let! ip := match path with Some path => create path T_DIR 0 0 | None => ret None end in
  match ip with
  | None => klog end_op ;; ret (-1)
  | Some ip => kfs (iunlockput ip) ;; klog end_op ;; ret 0
  end.

Definition sys_mknod : K Z :=
  klog begin_op ;;
  let! path := argstr 0 MAXPATH in
  let! ip := match path with
             | Some path =>
                 let! major := argint 1 in
                 let! minor := argint 2 in
                 create path T_DEVICE (i16 major) (i16 minor)
             | None => ret None
             end in
  match ip with
  | None => klog end_op ;; ret (-1)
  | Some ip => kfs (iunlockput ip) ;; klog end_op ;; ret 0
  end.

Definition sys_chdir : K Z :=
  let! s := get in
  let p := kcur s in
  klog begin_op ;;
  let! path := argstr 0 MAXPATH in
  let! ip := match path with Some path => kfs (namei path) | None => ret None end in
  match ip with
  | None => klog end_op ;; ret (-1)
  | Some ip =>
      kfs (ilock (Some ip)) ;;
      let! i := get_inode ip in
      if negb (i_type i =? T_DIR) then kfs (iunlockput ip) ;; klog end_op ;; ret (-1)
      else
        kfs (iunlock (Some ip)) ;;
        kfs (iput (default 0%nat (p_cwd (the_proc p s)))) ;;
        klog end_op ;;
        modify (upd_proc p (set_cwd (Some ip))) ;;
        ret 0
  end.

(** The loop of [sys_exec]: whether it ended, the pages of [argv] and their strings. *)
Fixpoint exec_fetch (uargv : Z) (i : nat) (pages : list Z) (strs : list (list Z)) (fuel : nat) : K (bool * list Z * list (list Z)) :=
  match fuel with
  | O => ret (false, pages, strs)
  | S fuel' =>
      let! uarg := fetchaddr (u64 (uargv + 8 * Z.of_nat i)) in
      match uarg with
      | None => ret (false, pages, strs)
      | Some uarg =>
          if uarg =? 0 then ret (true, pages, strs)
          else
            let! pa := on_kmem kalloc in
            if pa =? 0 then ret (false, pages, strs)
            else
              let pages := pages ++ [pa] in
              let! str := fetchstr uarg PGSIZE in
              match str with
              | None => ret (false, pages, strs)
              | Some str =>
                  on_kmem (kcopy_to pa (str ++ [0])) ;;
                  exec_fetch uargv (S i) pages (strs ++ [str]) fuel'
              end
      end
  end.

Fixpoint free_pages (l : list Z) : K unit :=
  match l with [] => ret tt | pa :: l' => on_kmem (kfree pa) ;; free_pages l' end.

Definition sys_exec : K Z :=
  let! path := argstr 0 MAXPATH in
  match path with
  | None => ret (-1)
  | Some path =>
      let! uargv := argaddr 1 in
      let! (ok, pages, strs) := exec_fetch uargv 0 [] [] MAXARG in
      if negb ok then free_pages pages ;; ret (-1)
      else
        let! r := exec path strs in
        free_pages pages ;;
        ret r
  end.

Definition set_fd (fd : Z) (x : option nat) : K unit :=
  modify (fun s => upd_proc (kcur s) (set_ofile (Z.to_nat fd) x) s).

Definition sys_pipe : K Z :=
  let! fdarray := argaddr 0 in
  let! r := on_files pipealloc in
  match r with
  | None => ret (-1)
  | Some (rf, wf) =>
      let! fd0 := fdalloc rf in
      let! fd1 := (if fd0 <? 0 then ret (-1) else fdalloc wf) in
      if (fd0 <? 0) || (fd1 <? 0) then
        (if 0 <=? fd0 then set_fd fd0 None else ret tt) ;;
        on_files (fileclose rf) ;;
        on_files (fileclose wf) ;;
        ret (-1)
      else
        let! s := get in
        let pt := p_pagetable (myproc s) in
        let! r := on_kmem (copyout pt fdarray (Z_to_little_endian 4 8 fd0)) in
        let! r := (if r <? 0 then ret r else on_kmem (copyout pt (u64 (fdarray + 4)) (Z_to_little_endian 4 8 fd1))) in
        if r <? 0 then
          set_fd fd0 None ;;
          set_fd fd1 None ;;
          on_files (fileclose rf) ;;
          on_files (fileclose wf) ;;
          ret (-1)
        else ret 0
  end.

(** ** sysproc.c *)
Definition sys_exit : K Z := let! n := argint 0 in exit n ;; ret 0.
Definition sys_getpid : K Z := let! s := get in ret (p_pid (myproc s)).
Definition sys_fork (forkret : Z) : K Z := fork forkret.
Definition sys_wait : K Z := let! p := argaddr 0 in wait p.

Definition sys_sbrk : K Z :=
  let! n := argint 0 in
  let! s := get in
  let addr := i32 (p_sz (myproc s)) in
  let! r := growproc n in
  if r <? 0 then ret (-1) else ret addr.

(** The test of the loop for the time [ticks0] at which the call began; [n] is
    compared as unsigned. *)
Definition sleep_check (ticks0 n : Z) : K Z :=
  let! s := get in
  if u32 (kticks s - ticks0) <? u32 n then
    if negb (p_killed (myproc s) =? 0) then ret (-1) else sleep CTicks
  else ret 0.

Definition sys_sleep : K Z :=
  let! n := argint 0 in
  let! s := get in
  sleep_check (kticks s) n.

Definition sys_kill : K Z := let! pid := argint 0 in kill pid.
Definition sys_uptime : K Z := let! s := get in ret (kticks s).

(** ** syscall.c *)
Definition syscalls (forkret : Z) (pad : list Z) (num : Z) : option (K Z) :=
  match num with
  | 1 => Some (sys_fork forkret)
  | 2 => Some sys_exit
  | 3 => Some sys_wait
  | 4 => Some sys_pipe
  | 5 => Some sys_read
  | 6 => Some sys_kill
  | 7 => Some sys_exec
  | 8 => Some (sys_fstat pad)
  | 9 => Some sys_chdir
  | 10 => Some sys_dup
  | 11 => Some sys_getpid
  | 12 => Some sys_sbrk
  | 13 => Some sys_sleep
  | 14 => Some sys_uptime
  | 15 => Some sys_open
  | 16 => Some sys_write
  | 17 => Some sys_mknod
  | 18 => Some sys_unlink
  | 19 => Some sys_link
  | 20 => Some sys_mkdir
  | 21 => Some sys_close
  | _ => None
  end.

Definition kprintf (fmt : string) (ap : list va_arg) : K unit := on_files (on_cons (Console.on_uart (printf fmt ap))).

Definition TF_a7 : Z := 168.
(** [\n] at the end of the message is the last character here. *)
Definition unknown_call : string := ("%d %s: unknown sys call %d" ++ String (Ascii.ascii_of_nat 10) "")%string.

Definition syscall (forkret : Z) (pad : list Z) : K unit :=
  let! s := get in
  let p := myproc s in
  let! a7 := tf_get (p_trapframe p) TF_a7 in
  let num := i32 a7 in
  match syscalls forkret pad num with
  | Some f =>
      let! r := f in
      tf_set (p_trapframe p) TF_a0 (u64 r)
  | None =>
      kprintf unknown_call [AInt (p_pid p); AStr (Some (cstr_arr (p_name p))); AInt num] ;;
      tf_set (p_trapframe p) TF_a0 (u64 (-1))
  end.
End Syscall.
