(* ===== verification/Trap.v ===== *)
(** * kernel/trap.c: traps and interrupts

    The registers of the hart, the kernel state, the disk driver and the PLIC.  Addresses
    of assembly code (trampoline.S, kernelvec.S) and of [usertrap] are parameters. *)
From stdpp Require Import base functions list numbers strings.
From Stdlib Require Import ZArith Lia.
From S2P Require Import Prelude Riscv Mem Bytes Kalloc Vm Access Uart.
From S2P Require Console.
From S2P Require Import Bio BlockCache Log TxDisk Fs File Kprintf Proc Exec Syscall.
From S2P Require Virtio.
Open Scope Z_scope.

Definition SSTATUS_SPP : Z := Z.shiftl 1 8.
Definition SSTATUS_SPIE : Z := Z.shiftl 1 5.
Definition SSTATUS_SIE : Z := Z.shiftl 1 1.

Record hart := mk_hart {
  h_sstatus : Z;
  h_scause : Z;
  h_sepc : Z;
  h_stval : Z;
  h_stvec : Z;
  h_satp : Z;
  h_sip : Z;
  h_tp : Z
}.

(** [t_claims]: what the PLIC answers next; [t_served]: the interrupts completed;
    [t_noproc]: [c->proc == 0]. *)
Record trap_st := mk_trap {
  t_hart : hart;
  t_k : kst;
  t_disk : Virtio.vdisk;
  t_claims : list Z;
  t_served : list Z;
  t_noproc : bool
}.

(** Where the symbols of the kernel are. *)
Class Symbols := { kernelvec : Z; uservec : Z; userret : Z; usertrap_addr : Z; forkret_addr : Z }.

Notation TM := (M trap_st).
Implicit Types (s : trap_st).

Definition set_hart (h : hart) s : trap_st := mk_trap h (t_k s) (t_disk s) (t_claims s) (t_served s) (t_noproc s).
Definition set_k (k : kst) s : trap_st := mk_trap (t_hart s) k (t_disk s) (t_claims s) (t_served s) (t_noproc s).
Definition w_sstatus (v : Z) : TM unit :=
  modify (fun s => let h := t_hart s in set_hart (mk_hart v (h_scause h) (h_sepc h) (h_stval h) (h_stvec h) (h_satp h) (h_sip h) (h_tp h)) s).
Definition w_sepc (v : Z) : TM unit :=
  modify (fun s => let h := t_hart s in set_hart (mk_hart (h_sstatus h) (h_scause h) v (h_stval h) (h_stvec h) (h_satp h) (h_sip h) (h_tp h)) s).
Definition w_stvec (v : Z) : TM unit :=
  modify (fun s => let h := t_hart s in set_hart (mk_hart (h_sstatus h) (h_scause h) (h_sepc h) (h_stval h) v (h_satp h) (h_sip h) (h_tp h)) s).
Definition w_sip (v : Z) : TM unit :=
  modify (fun s => let h := t_hart s in set_hart (mk_hart (h_sstatus h) (h_scause h) (h_sepc h) (h_stval h) (h_stvec h) (h_satp h) v (h_tp h)) s).
Definition intr_on : TM unit := let! s := get in w_sstatus (Z.lor (h_sstatus (t_hart s)) SSTATUS_SIE).
Definition intr_off : TM unit := let! s := get in w_sstatus (Z.land (h_sstatus (t_hart s)) (u64 (Z.lnot SSTATUS_SIE))).
Definition intr_get s : bool := negb (Z.land (h_sstatus (t_hart s)) SSTATUS_SIE =? 0).

(** ** plic.c *)
Definition plic_claim : TM Z := fun s =>
  match t_claims s with
  | [] => Ok 0 s
  | irq :: l => Ok irq (mk_trap (t_hart s) (t_k s) (t_disk s) l (t_served s) (t_noproc s))
  end.
Definition plic_complete (irq : Z) : TM unit :=
  modify (fun s => mk_trap (t_hart s) (t_k s) (t_disk s) (t_claims s) (t_served s ++ [irq]) (t_noproc s)).

(** What [plicinit] and [plicinithart] write. *)
Definition plicinit : list (Z * Z) := [(PLIC + UART0_IRQ * 4, 1); (PLIC + VIRTIO0_IRQ * 4, 1)].
Definition plicinithart (hart : Z) : list (Z * Z) :=
  [(PLIC_SENABLE hart, Z.lor (Z.shiftl 1 UART0_IRQ) (Z.shiftl 1 VIRTIO0_IRQ)); (PLIC_SPRIORITY hart, 0)].

Section Trap.
Context {L : Linker} {Sy : Symbols}.

Definition on_k {A} (m : K A) : TM A := zoom t_k set_k m.

(** The handler of the disk, and the processes it wakes. *)
Definition disk_intr : TM unit := fun s =>
  let d := t_disk s in
  match Virtio.virtio_disk_intr (Virtio.mk_vd (Virtio.desc d) (Virtio.avail d) (Virtio.avail_idx d) (Virtio.used d) (Virtio.used_id d)
          (Virtio.free d) (Virtio.used_idx d) (Virtio.info d) (Virtio.b_disk d) (Virtio.b_bytes d) []) with
  | Ok _ d' =>
      Ok tt (mk_trap (t_hart s) (set_procs (foldl (fun l c => wake c <$> l) (kprocs (t_k s)) (rev (Virtio.vwoken d'))) (t_k s)) d'
               (t_claims s) (t_served s) (t_noproc s))
  | Panic msg => Panic msg
  | Block c d' => Diverge
  | Diverge => Diverge
  end.

Definition clockintr : TM unit :=
  on_k (modify (fun k => set_ticks (u32 (kticks k + 1)) k) ;; wakeup CTicks).

Definition nl (fmt : string) : string := (fmt ++ String (Ascii.ascii_of_nat 10) "")%string.

Definition devintr : TM Z :=
  let! s := get in
  let scause := h_scause (t_hart s) in
  if negb (Z.land scause 0x8000000000000000 =? 0) && (Z.land scause 0xff =? 9) then
    let! irq := plic_claim in
    (if irq =? UART0_IRQ then on_k (let! k := get in on_files (on_cons (Console.uartintr (procdump k))))
     else if irq =? VIRTIO0_IRQ then disk_intr
     else if negb (irq =? 0) then on_k (kprintf (nl "unexpected interrupt irq=%d") [AInt irq])
     else ret tt) ;;
    (if negb (irq =? 0) then plic_complete irq else ret tt) ;;
    ret 1
  else if scause =? 0x8000000000000001 then
    (if h_tp (t_hart s) =? 0 then clockintr else ret tt) ;;
    let! s := get in
    w_sip (Z.land (h_sip (t_hart s)) (u64 (Z.lnot 2))) ;;
    ret 2
  else ret 0.

Definition TF_kernel_satp : Z := 0.
Definition TF_kernel_sp : Z := 8.
Definition TF_kernel_trap : Z := 16.
Definition TF_kernel_hartid : Z := 32.

(** [usertrapret] up to the jump to [fn(a0, a1)], which it returns. *)
Definition usertrapret : TM (Z * Z * Z) :=
  let! s := get in
  let p := myproc (t_k s) in
  let tf := p_trapframe p in
  intr_off ;;
  w_stvec (TRAMPOLINE + (uservec - trampoline)) ;;
  on_k (tf_set tf TF_kernel_satp (h_satp (t_hart s))) ;;
  on_k (tf_set tf TF_kernel_sp (u64 (p_kstack p + PGSIZE))) ;;
  on_k (tf_set tf TF_kernel_trap usertrap_addr) ;;
  on_k (tf_set tf TF_kernel_hartid (h_tp (t_hart s))) ;;
  let! s := get in
  let x := h_sstatus (t_hart s) in
  let x := Z.land x (u64 (Z.lnot SSTATUS_SPP)) in
  let x := Z.lor x SSTATUS_SPIE in
  w_sstatus x ;;
  let! epc := on_k (tf_get tf TF_epc) in
  w_sepc epc ;;
  ret (TRAMPOLINE + (userret - trampoline), TRAPFRAME, MAKE_SATP (p_pagetable p)).

Definition killed : TM bool := let! s := get in ret (negb (p_killed (myproc (t_k s)) =? 0)).

(** [yield], and what the other processes do before the scheduler resumes this one. *)
Definition yield_to (others : kst -> kst) : TM unit := on_k (yield ;; modify others).

(** A process that is killed exits: [exit] does not return. *)
Definition exit_if_killed : TM unit := let! k := killed in if k then on_k (exit (-1)) else ret tt.

Definition usertrap (others : kst -> kst) (pad : list Z) : TM (Z * Z * Z) :=
  let! s := get in
  if negb (Z.land (h_sstatus (t_hart s)) SSTATUS_SPP =? 0) then panic "usertrap: not from user mode"
  else
    w_stvec kernelvec ;;
    let p := myproc (t_k s) in
    on_k (tf_set (p_trapframe p) TF_epc (h_sepc (t_hart s))) ;;
    let! which_dev :=
      (if h_scause (t_hart s) =? 8 then
         exit_if_killed ;;
         let! epc := on_k (tf_get (p_trapframe p) TF_epc) in
         on_k (tf_set (p_trapframe p) TF_epc (u64 (epc + 4))) ;;
         intr_on ;;
         on_k (syscall forkret_addr pad) ;;
         ret 0
       else
         let! d := devintr in
         if negb (d =? 0) then ret d
         else
           on_k (kprintf (nl "usertrap(): unexpected scause %p pid=%d") [APtr (h_scause (t_hart s)); AInt (p_pid p)]) ;;
           on_k (kprintf (nl "            sepc=%p stval=%p") [APtr (h_sepc (t_hart s)); APtr (h_stval (t_hart s))]) ;;
           on_k (modify (fun k => upd_proc (kcur k) (set_killed 1) k)) ;;
           ret 0) in
    exit_if_killed ;;
    (if which_dev =? 2 then yield_to others else ret tt) ;;
    usertrapret.

Definition kerneltrap (others : kst -> kst) : TM unit :=
  let! s := get in
  let sepc := h_sepc (t_hart s) in
  let sstatus := h_sstatus (t_hart s) in
  let scause := h_scause (t_hart s) in
  if Z.land sstatus SSTATUS_SPP =? 0 then panic "kerneltrap: not from supervisor mode"
  else if intr_get s then panic "kerneltrap: interrupts enabled"
  else
    let! which_dev := devintr in
    if which_dev =? 0 then
      on_k (kprintf (nl "scause %p") [APtr scause]) ;;
      on_k (kprintf (nl "sepc=%p stval=%p") [APtr sepc; APtr (h_stval (t_hart s))]) ;;
      panic "kerneltrap"
    else
      let! s := get in
      (if (which_dev =? 2) && negb (t_noproc s) && bool_decide (p_state (myproc (t_k s)) = RUNNING) then yield_to others else ret tt) ;;
      w_sepc sepc ;;
      w_sstatus sstatus.
End Trap.

(** ** Returning to user space *)
Section ToUser.
Context {L : Linker} {Sy : Symbols}.

(** A word of the kernel's memory. *)
Definition kword (k : kst) (a : Z) : Z := load64 (kmem (fmem (ffs (kfiles k)))) a.

(** Operations on memory change nothing else of the processes. *)
Lemma on_kmem_Ok {A} (m : M kmem_st A) a u k : m (fmem (ffs (kfiles k))) = Ok a u ->
  exists k', on_kmem m k = Ok a k' /\ kprocs k' = kprocs k /\ kcur k' = kcur k /\ fmem (ffs (kfiles k')) = u.
Proof.
  intros E. unfold on_kmem, on_files, on_umem, on_fs, Fs.on_mem, zoom. cbn. rewrite E. eexists. split; [reflexivity|]. done.
Qed.

Lemma tf_get_ok tf off k : exists k', tf_get tf off k = Ok (kword k (tf + off)) k' /\
  kprocs k' = kprocs k /\ kcur k' = kcur k /\ fmem (ffs (kfiles k')) = fmem (ffs (kfiles k)).
Proof. apply (on_kmem_Ok (rd64 (tf + off)) _ _ k). reflexivity. Qed.

Lemma tf_set_ok tf off v k : exists k', tf_set tf off v k = Ok tt k' /\ kprocs k' = kprocs k /\ kcur k' = kcur k.
Proof. destruct (on_kmem_Ok (wr64 (tf + off) v) tt _ k eq_refl) as (k' & E & ? & ? & _). by exists k'. Qed.

Lemma on_k_Ok {A} (m : K A) a k' s : m (t_k s) = Ok a k' -> on_k m s = Ok a (set_k k' s).
Proof. unfold on_k, zoom. by intros ->. Qed.

(** [sret] goes to user mode, at the saved program counter, with interrupts on and traps
    sent to [uservec]. *)
Definition user_bound (s : trap_st) (r : Z * Z * Z) : Prop :=
  let h := t_hart s in
  let p := myproc (t_k s) in
  Z.testbit (h_sstatus h) 8 = false /\ Z.testbit (h_sstatus h) 5 = true /\ Z.testbit (h_sstatus h) 1 = false /\
  h_sepc h = kword (t_k s) (p_trapframe p + TF_epc) /\ h_stvec h = TRAMPOLINE + (uservec - trampoline) /\
  r = (TRAMPOLINE + (userret - trampoline), TRAPFRAME, MAKE_SATP (p_pagetable p)).

Lemma usertrapret_ok s : exists r s', usertrapret s = Ok r s' /\ user_bound s' r /\ kprocs (t_k s') = kprocs (t_k s) /\ kcur (t_k s') = kcur (t_k s).
Proof.
  unfold usertrapret. erewrite bind_Ok by reflexivity. set (p := myproc (t_k s)). unfold intr_off. erewrite bind_Ok by (erewrite bind_Ok by reflexivity; reflexivity).
  erewrite bind_Ok by reflexivity.
  set (s1 := set_hart _ _). change (t_k s) with (t_k s1).
  assert (p = myproc (t_k s1)) as Ep by reflexivity. clearbody p.
  destruct (tf_set_ok (p_trapframe p) TF_kernel_satp (h_satp (t_hart s)) (t_k s1)) as (k2 & E2 & P2 & C2).
  erewrite bind_Ok by exact (on_k_Ok _ _ _ s1 E2). set (s2 := set_k k2 s1).
  destruct (tf_set_ok (p_trapframe p) TF_kernel_sp (u64 (p_kstack p + PGSIZE)) (t_k s2)) as (k3 & E3 & P3 & C3).
  erewrite bind_Ok by exact (on_k_Ok _ _ _ s2 E3). set (s3 := set_k k3 s2).
  destruct (tf_set_ok (p_trapframe p) TF_kernel_trap usertrap_addr (t_k s3)) as (k4 & E4 & P4 & C4).
  erewrite bind_Ok by exact (on_k_Ok _ _ _ s3 E4). set (s4 := set_k k4 s3).
  destruct (tf_set_ok (p_trapframe p) TF_kernel_hartid (h_tp (t_hart s)) (t_k s4)) as (k5 & E5 & P5 & C5).
  erewrite bind_Ok by exact (on_k_Ok _ _ _ s4 E5). set (s5 := set_k k5 s4).
  erewrite bind_Ok by reflexivity. erewrite bind_Ok by reflexivity. set (s6 := set_hart _ s5).
  destruct (tf_get_ok (p_trapframe p) TF_epc (t_k s6)) as (k7 & E7 & P7 & C7 & M7).
  erewrite bind_Ok by exact (on_k_Ok _ _ _ s6 E7). erewrite bind_Ok by reflexivity.
  pose proof (eq_trans P7 (eq_trans P5 (eq_trans P4 (eq_trans P3 P2)))) as Pk.
  pose proof (eq_trans C7 (eq_trans C5 (eq_trans C4 (eq_trans C3 C2)))) as Ck.
  assert (myproc k7 = p) as Ep7 by (rewrite Ep; unfold myproc, the_proc; by rewrite Pk, Ck).
  eexists _, _. split; [reflexivity|]. split; [|split].
  - unfold user_bound. cbn -[Z.testbit Z.land Z.lor SSTATUS_SPP SSTATUS_SPIE SSTATUS_SIE u64 Z.lnot]. rewrite Ep7. split; [|split; [|split; [|split; [|done]]]].
    + rewrite Z.lor_spec, Z.land_spec. change (Z.testbit (u64 (Z.lnot SSTATUS_SPP)) 8) with false. change (Z.testbit SSTATUS_SPIE 8) with false. by rewrite andb_false_r.
    + rewrite Z.lor_spec. change (Z.testbit SSTATUS_SPIE 5) with true. apply orb_true_r.
    + rewrite Z.lor_spec, !Z.land_spec. change (Z.testbit (u64 (Z.lnot SSTATUS_SIE)) 1) with false. change (Z.testbit SSTATUS_SPIE 1) with false.
      by rewrite andb_false_r.
    + unfold kword. by rewrite M7.
  - exact Pk.
  - exact Ck.
Qed.

(** [exit] does not return. *)
Lemma exit_no_return status k u k' : exit status k <> Ok u k'.
Proof.
  unfold exit. intros E. inv_ok. case_decide; inv_ok.
Qed.

Lemma exit_if_killed_Ok u s s' : exit_if_killed s = Ok u s' -> s' = s /\ p_killed (myproc (t_k s)) = 0.
Proof.
  unfold exit_if_killed, killed. intros E. inv_ok. unfold on_k, zoom in *. case_bool.
  - match goal with H : context [exit (-1) ?k] |- _ => destruct (exit (-1) k) eqn:Ee; try discriminate end. by destruct (exit_no_return _ _ _ _ Ee).
  - inv_ok. split; [done|]. zb. done.
Qed.

Lemma devintr_timer s s' d : devintr s = Ok d s' -> h_scause (t_hart s) <> 0x8000000000000001 -> d <> 2.
Proof.
  unfold devintr. intros E Hc. apply bind_Ok_inv in E as (s0 & s1 & [= <- <-] & E). case_bool.
  - apply bind_Ok_inv in E as (irq & s1 & _ & E). apply bind_Ok_inv in E as ([] & s2 & _ & E). apply bind_Ok_inv in E as ([] & s3 & _ & E).
    by injection E as <- <-.
  - case_bool; [zb; done|]. by injection E as <- <-.
Qed.

End ToUser.

(** A timer interrupt on a hart other than 0. *)
#[local] Existing Instance demo_linker.
Definition demo_symbols : Symbols := {| kernelvec := KERNBASE; uservec := trampoline; userret := trampoline + 144; usertrap_addr := KERNBASE + 64; forkret_addr := KERNBASE + 128 |}.
#[local] Existing Instance demo_symbols.

Definition demo_trap : trap_st :=
  mk_trap (mk_hart 0 0x8000000000000001 4096 0 0 0 2 1)
    (mk_kst [set_state RUNNING (set_trapframe (PHYSTOP - 4096) proc0)] 2 (Some 0%nat) 0 0 false 0
       (mk_fst (mk_fs (mk_log 0 0 0 0 0 0 [] (mk_bio [] 0 (fun _ => []) [] []) []) (mk_sb 0 0 0 0 0 0 0 0) [] (mk_kmem ∅ 0) 0 0 0 [] [])
          [] ∅ (Console.mk_cons [] 0 0 0 (mk_uart [] 0 0 [] [] [] [] [] false 0) (mk_kmem ∅ 0) []) [] false))
    (Virtio.vdisk_init (fun _ => [])) [] [] false.

