(* ===== verification/Boot.v ===== *)
(** * kernel/start.c and main.c: from reset to the scheduler *)
From stdpp Require Import base gmap list numbers strings.
From Stdlib Require Import ZArith Lia.
From S2P Require Import Prelude Riscv Mem Bytes Kalloc Vm Access Uart.
From S2P Require Console.
From S2P Require Import Bio BlockCache Log TxDisk Fs File Kprintf Proc Exec Syscall Trap.
From S2P Require Virtio.
Open Scope Z_scope.

Definition MSTATUS_MPP_MASK : Z := Z.shiftl 3 11.
Definition MSTATUS_MPP_S : Z := Z.shiftl 1 11.
Definition MSTATUS_MIE : Z := Z.shiftl 1 3.
Definition SIE_SEIE : Z := Z.shiftl 1 9.
Definition SIE_STIE : Z := Z.shiftl 1 5.
Definition SIE_SSIE : Z := Z.shiftl 1 1.
Definition MIE_MTIE : Z := Z.shiftl 1 7.

(** The machine-mode registers [start] uses; [mmio] is what it stores at the CLINT and
    in [mscratch0]. *)
Record mregs := mk_mregs {
  m_mstatus : Z; m_mepc : Z; m_satp : Z; m_medeleg : Z; m_mideleg : Z; m_sie : Z;
  m_mscratch : Z; m_mtvec : Z; m_mie : Z; m_tp : Z; m_mmio : list (Z * Z)
}.

(** [id]: the hart; [mtime]: the value of CLINT_MTIME; [scratch0]: address of
    [mscratch0]. *)
Definition timerinit (id mtime scratch0 timervec : Z) (r : mregs) : mregs :=
  let interval := 1000000 in
  let scratch := scratch0 + 8 * (32 * id) in
  mk_mregs (Z.lor (m_mstatus r) MSTATUS_MIE) (m_mepc r) (m_satp r) (m_medeleg r) (m_mideleg r) (m_sie r)
    scratch timervec (Z.lor (m_mie r) MIE_MTIE) (m_tp r)
    (m_mmio r ++ [(CLINT_MTIMECMP id, u64 (mtime + interval)); (scratch + 8 * 4, CLINT_MTIMECMP id); (scratch + 8 * 5, interval)]).

(** [start] up to its [mret]. *)
Definition start (id mtime scratch0 timervec main : Z) (r : mregs) : mregs :=
  let x := Z.land (m_mstatus r) (u64 (Z.lnot MSTATUS_MPP_MASK)) in
  let x := Z.lor x MSTATUS_MPP_S in
  let r := mk_mregs x main 0 0xffff 0xffff (Z.lor (m_sie r) (Z.lor SIE_SEIE (Z.lor SIE_STIE SIE_SSIE)))
             (m_mscratch r) (m_mtvec r) (m_mie r) (m_tp r) (m_mmio r) in
  let r := timerinit id mtime scratch0 timervec r in
  mk_mregs (m_mstatus r) (m_mepc r) (m_satp r) (m_medeleg r) (m_mideleg r) (m_sie r) (m_mscratch r) (m_mtvec r) (m_mie r)
    id (m_mmio r).

(** [mret] enters [main] in supervisor mode with paging off, and a timer interrupt is
    due one interval later. *)
Lemma start_supervisor id mtime scratch0 timervec main r : let r' := start id mtime scratch0 timervec main r in
  Z.shiftr (Z.land (m_mstatus r') MSTATUS_MPP_MASK) 11 = 1 /\ m_mepc r' = main /\ m_satp r' = 0 /\ m_tp r' = id /\
  Z.testbit (m_mie r') 7 = true /\ (CLINT_MTIMECMP id, u64 (mtime + 1000000)) ∈ m_mmio r'.
Proof.
  cbn -[Z.land Z.lor u64 Z.lnot MSTATUS_MPP_MASK MSTATUS_MPP_S MSTATUS_MIE MIE_MTIE Z.testbit Z.shiftr].
  repeat split.
  - apply Z.bits_inj'. intros n Hn. rewrite Z.shiftr_spec, !Z.land_spec, !Z.lor_spec, Z.land_spec by done.
    destruct (decide (n = 0)) as [->|]; [by rewrite !andb_false_r|]. destruct (decide (n = 1)) as [->|]; [by rewrite !andb_false_r|].
    assert (Z.testbit MSTATUS_MPP_MASK (n + 11) = false) as ->.
    { unfold MSTATUS_MPP_MASK. rewrite Z.shiftl_spec by lia. apply (testbit_out 2); lia. }
    rewrite andb_false_r. symmetry. apply (testbit_out 1); lia.
  - rewrite Z.lor_spec. change (Z.testbit MIE_MTIE 7) with true. apply orb_true_r.
  - apply elem_of_app. right. apply elem_of_cons. by left.
Qed.

Section Main.
Context {L : Linker} {Sy : Symbols}.

(** [consoleinit], with the entry it makes in [devsw]. *)
Definition consoleinit : M files unit :=
  on_cons Console.consoleinit ;;
  modify (fun f => mk_fst (ffs f) (ftable f) (fpipes f) (fcons f) (<[Z.to_nat CONSOLE := mk_devsw true true]> (fdevsw f)) (fkilled f)).

(** The part of [main] that hart 0 runs before [scheduler], without the registers of the
    hart and of the PLIC; [virtio_disk_init] finds the registers [rd]. *)
Definition main (rd : Z -> Z) (pages : Z) : K unit :=
  on_files consoleinit ;;
  kprintf (nl "") [] ;;
  kprintf (nl "xv6 kernel is booting") [] ;;
  kprintf (nl "") [] ;;
  on_kmem Kalloc.kinit ;;
  let! pt := on_kmem kvminit in
  modify (fun s => mk_kst (kprocs s) (knextpid s) (Proc.kinit s) (kcur s) pt (kfirst s) (kticks s) (kfiles s)) ;;
  procinit ;;
  on_files (on_log (modify (fun l => set_lbc (binit (lbc l)) l))) ;;
  on_files (on_fs iinit) ;;
  match Virtio.virtio_disk_init rd pages with
  | inl msg => panic msg
  | inr _ => userinit forkret_addr
  end.
End Main.
