(* ===== verification/Ulib.v ===== *)
(** * user/ulib.c and user/printf.c: the C library of user programs

    Memory of a user program is a byte map, as in the kernel's string.c; formatted output
    is the list of characters written. *)
From stdpp Require Import base gmap list numbers strings.
From Stdlib Require Import ZArith Lia.
From S2P Require Import Prelude Mem Kprintf.
Open Scope Z_scope.

(** [while(( *s++ = *t++) != 0) ;], with a bound on the string. *)
Fixpoint strcpy (m : mem) (s t : Z) (fuel : nat) : option mem :=
  match fuel with
  | O => None
  | S f =>
      let m' := store8 m s (load8 m t) in
      if load8 m t =? 0 then Some m' else strcpy m' (s + 1) (t + 1) f
  end.

Fixpoint strcmp (m : mem) (p q : Z) (fuel : nat) : option Z :=
  match fuel with
  | O => None
  | S f =>
      if negb (load8 m p =? 0) && (load8 m p =? load8 m q) then strcmp m (p + 1) (q + 1) f
      else Some (load8 m p - load8 m q)
  end.

Fixpoint strlen_loop (m : mem) (s n : Z) (fuel : nat) : option Z :=
  match fuel with
  | O => None
  | S f => if load8 m (s + n) =? 0 then Some n else strlen_loop m s (n + 1) f
  end.
Definition strlen (m : mem) (s : Z) (fuel : nat) : option Z := strlen_loop m s 0 fuel.

Fixpoint memset_loop (m : mem) (dst c i : Z) (k : nat) : mem :=
  match k with O => m | S k' => memset_loop (store8 m (dst + i) c) dst c (i + 1) k' end.
Definition memset (m : mem) (dst c n : Z) : mem := memset_loop m dst c 0 (Z.to_nat n).

(** The address of the first [c], or [Some 0] for NULL. *)
Fixpoint strchr (m : mem) (s c : Z) (fuel : nat) : option Z :=
  match fuel with
  | O => None
  | S f =>
      if load8 m s =? 0 then Some 0
      else if load8 m s =? u8 c then Some s
      else strchr m (s + 1) c f
  end.

(** [cc] of each [read(0, &c, 1)], with the character. *)
Fixpoint gets_loop (max i : nat) (reads : list (option Z)) : list Z :=
  match reads with
  | Some c :: reads' =>
      if (S i <? max)%nat then c :: (if (c =? 10) || (c =? 13) then [] else gets_loop max (S i) reads') else []
  | _ => []
  end.
(** What [gets] leaves in the buffer. *)
Definition gets (max : nat) (reads : list (option Z)) : list Z := gets_loop max 0 reads ++ [0].

(** [while('0' <= *s && *s <= '9') n = n*10 + *s++ - '0';] on a string. *)
Fixpoint atoi_loop (s : list Z) (n : Z) : Z :=
  match s with
  | c :: s' => if (48 <=? c) && (c <=? 57) then atoi_loop s' (i32 (n * 10 + c - 48)) else n
  | [] => n
  end.
Definition atoi (s : list Z) : Z := atoi_loop s 0.

(** Forward, when the source is above the destination. *)
Fixpoint move_up (m : mem) (dst src : Z) (n : nat) : mem :=
  match n with O => m | S n' => move_up (store8 m dst (load8 m src)) (dst + 1) (src + 1) n' end.
Fixpoint move_down (m : mem) (dst src : Z) (n : nat) : mem :=
  match n with O => m | S n' => move_down (store8 m (dst - 1) (load8 m (src - 1))) (dst - 1) (src - 1) n' end.
Definition memmove (m : mem) (dst src n : Z) : mem :=
  if dst <? src then move_up m dst src (Z.to_nat n) else move_down m (dst + n) (src + n) (Z.to_nat n).

(** [*p1 - *p2] on [char], which is unsigned here. *)
Fixpoint memcmp (m : mem) (p1 p2 : Z) (n : nat) : Z :=
  match n with
  | O => 0
  | S n' => if negb (load8 m p1 =? load8 m p2) then load8 m p1 - load8 m p2 else memcmp m (p1 + 1) (p2 + 1) n'
  end.
Definition memcpy (m : mem) (dst src n : Z) : mem := memmove m dst src n.

(** ** user/printf.c *)
Definition udigits : list Z := lit "0123456789ABCDEF".

(** What [printint] writes: [buf] backwards. *)
Definition uprintint (xx base : Z) (sgn : bool) : list Z :=
  let neg := sgn && (xx <? 0) in
  let x := if neg then u32 (- xx) else u32 xx in
  let buf := digits_loop udigits x base 32 in
  rev (if neg then buf ++ [45] else buf).

Definition uprintptr (x : Z) : list Z := 48 :: 120 :: printptr_loop udigits x 16.

(** The loop of [vprintf], with its [state]. *)
Fixpoint vprintf (percent : bool) (fmt : list Z) (ap : list va_arg) : option (list Z) :=
  match fmt with
  | [] => Some []
  | c :: fmt =>
      if negb percent then
        if c =? 37 then vprintf true fmt ap else cons c <$> vprintf false fmt ap
      else if c =? 100 then
        match ap with AInt x :: ap => app (uprintint (i32 x) 10 true) <$> vprintf false fmt ap | _ => None end
      else if c =? 108 then
        match ap with APtr x :: ap => app (uprintint (i32 x) 10 false) <$> vprintf false fmt ap | _ => None end
      else if c =? 120 then
        match ap with AInt x :: ap => app (uprintint (i32 x) 16 false) <$> vprintf false fmt ap | _ => None end
      else if c =? 112 then
        match ap with APtr x :: ap => app (uprintptr (u64 x)) <$> vprintf false fmt ap | _ => None end
      else if c =? 115 then
        match ap with AStr s :: ap => app (default (lit "(null)") s) <$> vprintf false fmt ap | _ => None end
      else if c =? 99 then
        match ap with AInt x :: ap => cons (u8 x) <$> vprintf false fmt ap | _ => None end
      else if c =? 37 then cons c <$> vprintf false fmt ap
      else app [37; c] <$> vprintf false fmt ap
  end.

(** ** [memmove] of the library and of the kernel *)
Lemma move_up_kernel m dst src n : move_up m dst src n = CString.copy_forward m dst src n.
Proof. revert m dst src. induction n as [|n IH]; intros; cbn; auto. Qed.

Lemma move_down_kernel m dst src n : move_down m dst src n = CString.copy_backward m dst src n.
Proof. revert m dst src. induction n as [|n IH]; intros; cbn; auto. Qed.

Lemma move_down_same m d n x : byte_mem m -> load8 (move_down m d d n) x = load8 m x.
Proof.
  revert m d. induction n as [|n IH]; intros m d Hm; cbn; [done|]. rewrite IH by auto with xv6. rewrite load8_store8.
  rewrite u8_small by (by apply load8_byte). by destruct (Z.eqb_spec (d - 1) x) as [->|].
Qed.

Lemma load8_umove m dst src n x : byte_mem m -> 0 <= n ->
  load8 (memmove m dst src n) x = if (dst <=? x) && (x <? dst + n) then load8 m (src + (x - dst)) else load8 m x.
Proof.
  intros Hm Hn. unfold memmove. destruct (Z.ltb_spec dst src).
  - rewrite move_up_kernel, CStringFacts.load8_copy_forward by (done || lia). by rewrite Z2Nat.id.
  - destruct (decide (src = dst)) as [->|].
    + rewrite move_down_same by done. destruct (_ && _); [|done]. f_equal. lia.
    + rewrite move_down_kernel, CStringFacts.load8_copy_backward by (done || lia). rewrite Z2Nat.id by done.
      destruct (Z.leb_spec dst x), (Z.ltb_spec x (dst + n)), (Z.leb_spec (dst + n - n) x); cbn; try lia; try done. f_equal. lia.
Qed.

Lemma byte_mem_move m dst src n : byte_mem m -> byte_mem (memmove m dst src n).
Proof.
  intros Hm. unfold memmove. rewrite move_up_kernel, move_down_kernel.
  destruct (_ <? _); auto using CStringFacts.byte_mem_copy_forward, CStringFacts.byte_mem_copy_backward.
Qed.

(** The [memmove] of user programs, which decides by the order of the addresses alone,
    has the effect of the kernel's, which also tests for overlap, on every memory. *)
Theorem memmove_same_as_kernel m dst src n x : byte_mem m -> 0 <= n ->
  load8 (memmove m dst src n) x = load8 (CString.memmove m dst src n) x.
Proof. intros Hm Hn. by rewrite CStringFacts.load8_memmove, load8_umove. Qed.

Lemma memmove_same_as_kernel_witness : load8 (memmove demo_mem 102 100 5) 104 = load8 (CString.memmove demo_mem 102 100 5) 104.
Proof. exact (memmove_same_as_kernel demo_mem 102 100 5 104 demo_mem_bytes ltac:(lia)). Defined.

(** ** Numbers printed are read back *)
Definition is_digit (c : Z) : Prop := 48 <= c <= 57.
Definition value (s : list Z) (n : Z) : Z := foldl (fun n c => n * 10 + c - 48) n s.

Lemma value_mono s n : Forall is_digit s -> 0 <= n -> n <= value s n.
Proof.
  revert n. induction s as [|c s IH]; intros n Hs Hn; cbn; [lia|]. apply Forall_cons in Hs as [Hc Hs]. unfold is_digit in Hc.
  specialize (IH (n * 10 + c - 48) Hs). unfold value in IH. lia.
Qed.

Lemma atoi_value s n rest : Forall is_digit s -> 0 <= n -> value s n < 2 ^ 31 -> (forall c, head rest = Some c -> ~ is_digit c) ->
  atoi_loop (s ++ rest) n = value s n.
Proof.
  intros Hs Hn Hv Hr. revert n Hn Hv. induction Hs as [|c s Hc Hs IH]; intros n Hn Hv; cbn.
  - destruct rest as [|c rest]; [done|]. specialize (Hr c eq_refl). unfold is_digit in Hr. cbn.
    destruct (Z.leb_spec 48 c), (Z.leb_spec c 57); cbn; try done. lia.
  - unfold is_digit in Hc. destruct (Z.leb_spec 48 c), (Z.leb_spec c 57); try lia. cbn in *.
    pose proof (value_mono s (n * 10 + c - 48) Hs ltac:(lia)) as Hm. unfold value in *. rewrite i32_small by lia. apply IH; lia.
Qed.

Lemma decimal_digit x : 0 <= x -> udigits !!! Z.to_nat (x mod 10) = 48 + x mod 10.
Proof.
  intros Hx. pose proof (Z.mod_pos_bound x 10). set (d := x mod 10) in *. clearbody d.
  assert (d = 0 \/ d = 1 \/ d = 2 \/ d = 3 \/ d = 4 \/ d = 5 \/ d = 6 \/ d = 7 \/ d = 8 \/ d = 9) as Hd by lia.
  by destruct Hd as [->|[->|[->|[->|[->|[->|[->|[->|[->| ->]]]]]]]]].
Qed.

Lemma digits_value x fuel : 0 <= x < 10 ^ Z.of_nat fuel -> (0 < fuel)%nat ->
  let s := rev (digits_loop udigits x 10 fuel) in Forall is_digit s /\ value s 0 = x.
Proof.
  revert x. induction fuel as [|f IH]; intros x Hx Hf; [lia|]. cbn [digits_loop rev]. rewrite decimal_digit by lia.
  pose proof (Z.mod_pos_bound x 10). pose proof (Z.div_mod x 10).
  assert (is_digit (48 + x mod 10)) as Hd by (unfold is_digit; lia).
  destruct (Z.eqb_spec (x / 10) 0) as [E|E].
  - cbn. split; [by constructor|]. lia.
  - rewrite Nat2Z.inj_succ, Z.pow_succ_r in Hx by lia.
    assert (0 <= x / 10 < 10 ^ Z.of_nat f) as Hq by (split; [apply Z.div_pos; lia|apply Z.div_lt_upper_bound; lia]).
    destruct f as [|f]; [cbn in Hq; lia|]. destruct (IH (x / 10) Hq ltac:(lia)) as [I1 I2]. split.
    + apply Forall_app. split; [done|by constructor].
    + unfold value in *. rewrite foldl_app, I2. cbn. lia.
Qed.

(** What [printf("%d")] writes for an [int] is a minus sign exactly when it is negative,
    and digits that [atoi] turns back into its magnitude, whatever follows them. *)
Theorem printint_atoi xx rest : - 2 ^ 31 < xx < 2 ^ 31 -> (forall c, head rest = Some c -> ~ is_digit c) ->
  exists ds, uprintint xx 10 true = (if xx <? 0 then [45] else []) ++ ds /\ atoi (ds ++ rest) = Z.abs xx.
Proof.
  intros Hx Hr. exists (rev (digits_loop udigits (Z.abs xx) 10 32)).
  assert (0 <= Z.abs xx < 10 ^ Z.of_nat 32) as Ha by (change (10 ^ Z.of_nat 32) with 100000000000000000000000000000000; lia).
  destruct (digits_value (Z.abs xx) 32 Ha ltac:(lia)) as [Hd Hv]. split.
  - unfold uprintint, u32, wrap. cbn [andb]. destruct (Z.ltb_spec xx 0).
    + rewrite Z.mod_small, <- Z.abs_neq by lia. by rewrite rev_app_distr.
    + by rewrite Z.mod_small, Z.abs_eq by lia.
  - unfold atoi. rewrite atoi_value by (done || lia). done.
Qed.

Lemma printint_atoi_witness : exists ds, uprintint (-2020) 10 true = (if -2020 <? 0 then [45] else []) ++ ds /\ atoi (ds ++ [10]) = Z.abs (-2020).
Proof. apply (printint_atoi (-2020) [10]); [lia|]. intros c [= <-]. unfold is_digit. lia. Defined.
