(* ===== verification/Grep.v ===== *)
(** * user/grep.c: the regular-expression matcher and the line filter

    A pattern or a line is the characters of a C string, without its terminating NUL.
    The matcher is compared with the language its pattern denotes; the filter works on its
    1024-byte buffer in memory, and is compared with the lines of its whole input. *)
From stdpp Require Import base gmap list numbers strings.
From Stdlib Require Import ZArith Lia.
From S2P Require Import Prelude Mem Kprintf Ulib.
Open Scope Z_scope.

(** ** The matcher *)

(** [matchstar(c, re, text)], given [matchhere(re, _)]. *)
Fixpoint matchstar (here : list Z -> bool) (c : Z) (text : list Z) : bool :=
  if here text then true
  else match text with
       | t :: text' => if (t =? c) || (c =? 46) then matchstar here c text' else false
       | [] => false
       end.

Fixpoint matchhere (re : list Z) (text : list Z) : bool :=
  match re with
  | [] => true
  | c :: re1 =>
      match re1 with
      | c1 :: re2 =>
          if c1 =? 42 then matchstar (matchhere re2) c text
          else match text with
               | t :: text' => if (c =? 46) || (c =? t) then matchhere re1 text' else false
               | [] => false
               end
      | [] =>
          if c =? 36 then match text with [] => true | _ => false end
          else match text with
               | t :: text' => if (c =? 46) || (c =? t) then matchhere re1 text' else false
               | [] => false
               end
      end
  end.

(** The [do … while( *text++ != '\0')] loop of [match]. *)
Fixpoint match_loop (re : list Z) (text : list Z) : bool :=
  if matchhere re text then true
  else match text with _ :: text' => match_loop re text' | [] => false end.

Definition match_ (re text : list Z) : bool :=
  match re with
  | c :: re' => if c =? 94 then matchhere re' text else match_loop re text
  | [] => match_loop re text
  end.

(** ** The filter *)

(** One line at [p], its newline at [q]: what is written, and the memory after it. *)
Definition line_out (re : list Z) (m : mem) (p q : Z) : list Z * mem :=
  let m1 := store8 m q 0 in
  if match_ re (CStringFacts.cstr (loadn m1 p 1024))
  then let m2 := store8 m1 q 10 in (loadn m2 p (Z.to_nat (q + 1 - p)), m2)
  else ([], m1).

(** The inner loop over the lines in the buffer: what is written, the memory and [p]. *)
Fixpoint grep_lines (re : list Z) (m : mem) (p : Z) (fuel : nat) : option (list Z * mem * Z) :=
  match fuel with
  | O => None
  | S f =>
      q ← strchr m p 10 1024;
      if q =? 0 then Some ([], m, p)
      else
        let '(out, m2) := line_out re m p q in
        '(out', m3, p') ← grep_lines re m2 (q + 1) f;
        Some (out ++ out', m3, p')
  end.

(** The outer loop: [ks] bounds what each [read] delivers of the [data] still to come; a
    [read] that delivers nothing, or fails, ends the loop. *)
Fixpoint grep_loop (re : list Z) (buf : Z) (m : mem) (n : Z) (ks : list nat) (data : list Z) : option (list Z) :=
  match ks with
  | [] => Some []
  | k :: ks =>
      let chunk := take (k `min` Z.to_nat (1024 - n - 1)) data in
      match chunk with
      | [] => Some []
      | _ =>
          let n1 := n + Z.of_nat (length chunk) in
          let m1 := store8 (storen m (buf + n) chunk) (buf + n1) 0 in
          '(out, m2, p) ← grep_lines re m1 buf 1024;
          let n2 := if 0 <? n1 then n1 - (p - buf) else n1 in
          let m3 := if 0 <? n1 then Ulib.memmove m2 buf p n2 else m2 in
          out' ← grep_loop re buf m3 n2 ks (drop (length chunk) data);
          Some (out ++ out')
      end
  end.
Definition grep (re : list Z) (buf : Z) (m : mem) (ks : list nat) (data : list Z) : option (list Z) :=
  grep_loop re buf m 0 ks data.

(** ** What a pattern denotes *)
Inductive item := One (c : Z) | Star (c : Z).

Definition accepts (c t : Z) : Prop := c = 46 \/ c = t.

Inductive lang : list item -> list Z -> Prop :=
| lang_nil : lang [] []
| lang_one c t its w : accepts c t -> lang its w -> lang (One c :: its) (t :: w)
| lang_star_0 c its w : lang its w -> lang (Star c :: its) w
| lang_star_S c t its w : accepts c t -> lang (Star c :: its) w -> lang (Star c :: its) (t :: w).

(** The items of a pattern, and whether it ends in the anchor [$]. *)
Fixpoint items (re : list Z) : list item * bool :=
  match re with
  | [] => ([], false)
  | c :: re1 =>
      match re1 with
      | c1 :: re2 =>
          if c1 =? 42 then let '(its, e) := items re2 in (Star c :: its, e)
          else let '(its, e) := items re1 in (One c :: its, e)
      | [] => if c =? 36 then ([], true) else ([One c], false)
      end
  end.

(** [w], followed by [post], is a match. *)
Definition denotes (re w post : list Z) : Prop := lang (items re).1 w /\ ((items re).2 = true -> post = []).

Definition matches (re text : list Z) : Prop :=
  match re with
  | 94 :: re' => exists w post, text = w ++ post /\ denotes re' w post
  | _ => exists pre w post, text = pre ++ w ++ post /\ denotes re w post
  end.

Definition here_spec (re text : list Z) : Prop := exists w post, text = w ++ post /\ denotes re w post.

(** ** The matcher decides the language *)
Lemma matchstar_spec here c text :
  matchstar here c text = true <-> exists w post, text = w ++ post /\ Forall (accepts c) w /\ here post = true.
Proof.
  induction text as [|t text IH]; cbn; destruct (here _) eqn:E.
  - split; [intros _; by exists [], []|done].
  - split; [done|]. intros (w & post & Ht & _ & Hh). symmetry in Ht. apply app_eq_nil in Ht as [-> ->]. congruence.
  - split; [intros _; by exists [], (t :: text)|done].
  - assert ((t =? c) || (c =? 46) = true <-> accepts c t) as Ha by (unfold accepts; rewrite orb_true_iff, !Z.eqb_eq; naive_solver).
    split.
    + destruct (_ || _); [|done]. rewrite IH. intros (w & post & -> & Hw & Hh). exists (t :: w), post.
      split; [done|]. split; [|done]. constructor; [by apply Ha|done].
    + intros ([|t' w] & post & Ht & Hw & Hh); cbn in Ht; [congruence|]. injection Ht as <- ->.
      apply Forall_cons in Hw as [Ht Hw]. apply Ha in Ht as ->. apply IH. by exists w, post.
Qed.

Lemma lang_star c its w : lang (Star c :: its) w <-> exists w1 w2, w = w1 ++ w2 /\ Forall (accepts c) w1 /\ lang its w2.
Proof.
  split.
  - remember (Star c :: its) as l eqn:El. induction 1; simplify_eq.
    + by exists [], w.
    + destruct IHlang as (w1 & w2 & -> & H1 & H2); [done|]. exists (t :: w1), w2. split; [done|]. split; [by constructor|done].
  - intros (w1 & w2 & -> & H1 & H2). induction H1; cbn; [by apply lang_star_0|by apply lang_star_S].
Qed.

Lemma here_one c re its e t text :
  items re = (its, e) ->
  (exists w post, t :: text = w ++ post /\ lang (One c :: its) w /\ (e = true -> post = [])) <-> accepts c t /\ here_spec re text.
Proof.
  intros E. unfold here_spec, denotes. rewrite E. cbn. split.
  - intros (w & post & Ht & Hl & He). inversion Hl; simplify_eq. simplify_list_eq. eauto 6.
  - intros (Ha & w & post & -> & Hl & He). exists (t :: w), post. split; [done|]. split; [by constructor|done].
Qed.

Lemma here_one_nil c its e :
  ~ exists w post, [] = w ++ post /\ lang (One c :: its) w /\ (e = true -> post = []).
Proof. intros (w & post & Ht & Hl & _). symmetry in Ht. apply app_eq_nil in Ht as [-> ->]. inversion Hl. Qed.

(** The last test of [matchhere], one literal character. *)
Lemma matchhere_one c re text : (forall text, matchhere re text = true <-> here_spec re text) ->
  match text with t :: text' => if (c =? 46) || (c =? t) then matchhere re text' else false | [] => false end = true <->
  exists w post, text = w ++ post /\ lang (One c :: (items re).1) w /\ ((items re).2 = true -> post = []).
Proof.
  intros IH. destruct (items re) as [its e] eqn:E. cbn. destruct text as [|t text].
  - split; [done|]. intros H. by destruct (here_one_nil c its e).
  - rewrite (here_one c re its e) by done. rewrite <- IH. unfold accepts.
    destruct (Z.eqb_spec c 46), (Z.eqb_spec c t); cbn; naive_solver.
Qed.

Lemma items_star c re : items (c :: 42 :: re) = (Star c :: (items re).1, (items re).2).
Proof. cbn. by destruct (items re). Qed.

Lemma items_one c c1 re : c1 <> 42 -> items (c :: c1 :: re) = (One c :: (items (c1 :: re)).1, (items (c1 :: re)).2).
Proof. intros Hc. apply Z.eqb_neq in Hc. cbn [items]. rewrite Hc. by destruct (match re with [] => _ | _ => _ end). Qed.

Lemma matchhere_spec_len n re text : (length re <= n)%nat -> matchhere re text = true <-> here_spec re text.
Proof.
  revert re text. induction n as [|n IH]; intros [|c [|c1 re]] text Hn; cbn in Hn; try lia.
  1,2: by split; [intros _; exists [], text; repeat constructor|].
  - cbn. destruct (Z.eqb_spec c 36) as [->|Hc].
    + destruct text as [|t text]; split; try done.
      * intros _. exists [], []. repeat constructor.
      * intros (w & post & Ht & Hl & He). cbn in Hl, He. inversion Hl; subst. by rewrite He in Ht.
    + unfold here_spec, denotes. cbn. rewrite (proj2 (Z.eqb_neq c 36)) by done.
      apply (matchhere_one c [] text). intros text'. apply IH. cbn. lia.
  - cbn [matchhere]. unfold here_spec, denotes. destruct (Z.eqb_spec c1 42) as [->|Hc].
    + rewrite items_star. destruct (items re) as [its e] eqn:E. cbn. rewrite matchstar_spec. setoid_rewrite (lang_star c its). setoid_rewrite (IH re); [|lia].
      unfold here_spec, denotes. rewrite E. cbn. split.
      * intros (w & post & -> & Hw & w2 & post2 & -> & Hl & He). exists (w ++ w2), post2. rewrite (assoc_L (++)). eauto 10.
      * intros (w & post & -> & (w1 & w2 & -> & H1 & H2) & He). exists w1, (w2 ++ post). rewrite (assoc_L (++)). eauto 10.
    + rewrite items_one by done. apply (matchhere_one c (c1 :: re) text). intros. apply IH. cbn. lia.
Qed.

Lemma matchhere_spec re text : matchhere re text = true <-> here_spec re text.
Proof. by apply (matchhere_spec_len (length re)). Qed.

Lemma match_loop_spec re text : match_loop re text = true <-> exists pre post, text = pre ++ post /\ matchhere re post = true.
Proof.
  induction text as [|t text IH]; cbn; destruct (matchhere re _) eqn:E.
  - split; [intros _; by exists [], []|done].
  - split; [done|]. intros (pre & post & Ht & H). symmetry in Ht. apply app_eq_nil in Ht as [-> ->]. congruence.
  - split; [intros _; by exists [], (t :: text)|done].
  - rewrite IH. split.
    + intros (pre & post & -> & H). by exists (t :: pre), post.
    + intros ([|t' pre] & post & Ht & H); simplify_eq/=; [congruence|]. by exists pre, post.
Qed.

(** C25: The matcher of grep returns 1 exactly on the lines that contain a string of the
    language of the pattern: anywhere, or at the start after [^], and up to the end of the
    line before a final [$]. *)
Theorem match_decides re text : match_ re text = true <-> matches re text.
Proof.
  assert (match_loop re text = true <-> exists pre w post, text = pre ++ w ++ post /\ denotes re w post) as Hl.
  { rewrite match_loop_spec. setoid_rewrite matchhere_spec. unfold here_spec. split.
    - intros (pre & post & -> & w & post' & -> & H). by exists pre, w, post'.
    - intros (pre & w & post & -> & H). exists pre, (w ++ post). eauto. }
  unfold match_, matches. destruct re as [|c re]; [done|]. destruct (Z.eqb_spec c 94) as [->|Hc].
  - apply matchhere_spec.
  - rewrite Hl. clear Hl. destruct c as [|c|c]; try done. repeat (destruct c as [c|c|]; try done).
Qed.

(** ** The filter prints the matching lines *)

(** The complete lines of a text; what follows the last newline is not one. *)
Fixpoint lines_from (cur s : list Z) : list (list Z) :=
  match s with
  | [] => []
  | c :: s' => if c =? 10 then cur :: lines_from [] s' else lines_from (cur ++ [c]) s'
  end.
Definition lines (s : list Z) : list (list Z) := lines_from [] s.

Definition selected (re s : list Z) : list Z :=
  concat ((fun l => l ++ [10]) <$> filter (fun l => match_ re l = true) (lines s)).

Lemma lines_from_app cur l s : 10 ∉ l -> lines_from cur (l ++ s) = lines_from (cur ++ l) s.
Proof.
  revert cur. induction l as [|c l IH]; intros cur Hl; cbn; [by rewrite app_nil_r|].
  apply not_elem_of_cons in Hl as [Hc Hl]. rewrite (proj2 (Z.eqb_neq c 10)) by done. by rewrite IH, <- (assoc_L (++)).
Qed.

Lemma lines_none l : 10 ∉ l -> lines l = [].
Proof. intros Hl. unfold lines. rewrite <- (app_nil_r l). by rewrite lines_from_app. Qed.

Lemma lines_cons l s : 10 ∉ l -> lines (l ++ 10 :: s) = l :: lines s.
Proof. intros Hl. unfold lines. by rewrite lines_from_app. Qed.

Lemma selected_none re l : 10 ∉ l -> selected re l = [].
Proof. intros Hl. unfold selected. by rewrite lines_none. Qed.

Lemma selected_cons re l s : 10 ∉ l ->
  selected re (l ++ 10 :: s) = (if match_ re l then l ++ [10] else []) ++ selected re s.
Proof.
  intros Hl. unfold selected. rewrite lines_cons, filter_cons by done.
  destruct (match_ re l) eqn:E; [rewrite decide_True by done|rewrite decide_False by done]; done.
Qed.

Lemma first_newline (s : list Z) : 10 ∉ s \/ exists l s2, s = l ++ 10 :: s2 /\ 10 ∉ l.
Proof.
  induction s as [|c s IH]; [left; set_solver|]. destruct (decide (c = 10)) as [->|Hc].
  - right. exists [], s. set_solver.
  - destruct IH as [H|(l & s2 & -> & H)]; [left; set_solver|right]. exists (c :: l), s2. set_solver.
Qed.

(** [strchr] over a string that does not contain [c], up to the byte after it. *)
Lemma strchr_run m p c l x fuel : loadn m p (length l) = l -> load8 m (p + Z.of_nat (length l)) = x ->
  0 ∉ l -> u8 c ∉ l -> x = 0 \/ x = u8 c -> (length l < fuel)%nat ->
  strchr m p c fuel = Some (if x =? 0 then 0 else p + Z.of_nat (length l)).
Proof.
  revert p fuel. induction l as [|b l IH]; intros p [|f] Hl Hx H0 Hc Hx' Hf; cbn -[Z.of_nat] in *; try lia.
  - rewrite Z.add_0_r in *. rewrite Hx. destruct (Z.eqb_spec x 0); [done|]. destruct Hx' as [?|Hx']; [done|].
    by rewrite (proj2 (Z.eqb_eq _ _) Hx').
  - injection Hl as Hb Hl. rewrite Hb. apply not_elem_of_cons in H0 as [H0 H0'], Hc as [Hc Hc'].
    rewrite (proj2 (Z.eqb_neq b 0)), (proj2 (Z.eqb_neq b _)) by done.
    replace (p + Z.of_nat (S (length l))) with (p + 1 + Z.of_nat (length l)) in * by lia. apply IH; (done || lia).
Qed.

Lemma cstr_prefix l rest : 0 ∉ l -> CStringFacts.cstr (l ++ 0 :: rest) = l.
Proof.
  induction l as [|b l IH]; intros Hl; [done|]. apply not_elem_of_cons in Hl as [Hb Hl]. cbn [app].
  rewrite CStringFacts.cstr_cons_nz by done. by rewrite IH.
Qed.

Lemma loadn_store8_out m a v p n : (a < p \/ p + Z.of_nat n <= a) -> loadn (store8 m a v) p n = loadn m p n.
Proof. intros H. apply loadn_ext. intros x Hx. apply load8_store8_ne. lia. Qed.

Lemma loadn_split m p l s : loadn m p (length (l ++ s)) = l ++ s ->
  loadn m p (length l) = l /\ loadn m (p + Z.of_nat (length l)) (length s) = s.
Proof. rewrite length_app, loadn_app. intros H. apply app_inj_1 in H; [done|]. apply length_loadn. Qed.

Lemma line_out_spec re m p l : let q := p + Z.of_nat (length l) in
  byte_mem m -> 0 ∉ l -> (length l < 1024)%nat -> loadn m p (length l) = l ->
  exists m2, line_out re m p q = (if match_ re l then l ++ [10] else [], m2) /\ byte_mem m2 /\
    forall a n, q < a -> loadn m2 a n = loadn m a n.
Proof.
  intros q Hm H0 Hlen Hl. unfold line_out.
  assert (CStringFacts.cstr (loadn (store8 m q 0) p 1024) = l) as ->.
  { replace 1024%nat with (length l + S (1023 - length l))%nat by lia. rewrite loadn_app. cbn [loadn].
    rewrite loadn_store8_out, Hl by lia. fold q. rewrite load8_store8_eq. by apply cstr_prefix. }
  assert (forall v a n, q < a -> loadn (store8 m q v) a n = loadn m a n) as Hk by (intros; apply loadn_store8_out; lia).
  destruct (match_ re l).
  - exists (store8 (store8 m q 0) q 10). split; [f_equal|split; [auto with xv6|]].
    + replace (Z.to_nat (q + 1 - p)) with (length l + 1)%nat by lia. rewrite loadn_app. cbn [loadn]. fold q.
      rewrite load8_store8_eq, !loadn_store8_out, Hl by lia. done.
    + intros. rewrite loadn_store8_out by lia. by apply Hk.
  - exists (store8 m q 0). auto with xv6.
Qed.

(** The inner loop consumes the complete lines [s1] of the buffer and leaves [tl]. *)
Lemma grep_lines_spec re fuel : forall m p s, byte_mem m -> 0 < p -> 0 ∉ s ->
  loadn m p (length s) = s -> load8 m (p + Z.of_nat (length s)) = 0 -> (length s < fuel <= 1024)%nat ->
  exists m' s1 tl, s = s1 ++ tl /\ 10 ∉ tl /\ byte_mem m' /\
    grep_lines re m p fuel = Some (selected re s1, m', p + Z.of_nat (length s1)) /\
    loadn m' (p + Z.of_nat (length s1)) (length tl) = tl /\
    (forall t, lines (s ++ t) = lines s1 ++ lines (tl ++ t)).
Proof.
  induction fuel as [|f IH]; intros m p s Hm Hp H0 Hs Hz Hf; [lia|]. cbn [grep_lines].
  destruct (first_newline s) as [Hn|(l & s2 & -> & Hn)].
  - rewrite (strchr_run m p 10 s 0) by (done || lia || by left). cbn.
    exists m, [], s. cbn. rewrite Z.add_0_r. done.
  - rewrite length_app in Hz, Hf. cbn -[Z.of_nat] in Hz, Hf. apply loadn_split in Hs as [Hl Hs]. cbn in Hs. injection Hs as Hq Hs.
    apply not_elem_of_app in H0 as [H0 H0']. apply not_elem_of_cons in H0' as [_ H0'].
    rewrite (strchr_run m p 10 l 10) by (done || lia || by right). cbn [mbind option_bind]. change (10 =? 0) with false. cbv iota.
    set (q := p + Z.of_nat (length l)) in *. rewrite (proj2 (Z.eqb_neq q 0)) by lia.
    destruct (line_out_spec re m p l) as (m2 & E & Hm2 & Hk); [done..|lia|done|]. fold q in E, Hk. rewrite E.
    destruct (IH m2 (q + 1) s2) as (m' & s1 & tl & -> & Ht & Hm' & Hg & Hl' & Hsel); [done|lia|done| | |lia|].
    + rewrite Hk by lia. done.
    + pose proof (Hk (q + 1 + Z.of_nat (length s2)) 1%nat ltac:(lia)) as Hk1. cbn in Hk1. injection Hk1 as ->.
      rewrite <- Hz. f_equal. lia.
    + rewrite Hg. cbn. exists m', (l ++ 10 :: s1), tl.
      rewrite length_app, selected_cons by done. cbn -[Z.of_nat].
      replace (p + Z.of_nat (length l + S (length s1))) with (q + 1 + Z.of_nat (length s1)) by lia.
      split; [by rewrite <- (assoc_L (++))|]. do 4 (split; [done|]). intros t. rewrite <- (assoc_L (++)). cbn [app].
      by rewrite !lines_cons, Hsel by done.
Qed.

Lemma selected_lines re a b c : lines a = lines b ++ lines c -> selected re a = selected re b ++ selected re c.
Proof. intros H. unfold selected. by rewrite H, filter_app, fmap_app, concat_app. Qed.

Lemma long_line pend data l s2 : 10 ∉ pend -> pend ++ data = l ++ 10 :: s2 -> (length pend <= length l)%nat.
Proof.
  intros Hp He. destruct (decide (length pend <= length l)%nat) as [|Hlt]; [done|]. destruct Hp.
  apply list_elem_of_lookup. exists (length l). rewrite <- (lookup_app_l pend data) by lia.
  by rewrite He, lookup_app_r, Nat.sub_diag by lia.
Qed.

(** Nothing is left to print when a read delivers nothing. *)
Lemma stop_selected re pend data : 10 ∉ pend -> data = [] \/ length pend = 1023%nat ->
  Forall (fun l => length l < 1023)%nat (lines (pend ++ data)) -> selected re (pend ++ data) = [].
Proof.
  intros Hp Hd Hl. destruct (first_newline (pend ++ data)) as [Hn|(l & s2 & E & Hn)]; [by apply selected_none|].
  pose proof (long_line _ _ _ _ Hp E). rewrite E, lines_cons in Hl by done. apply Forall_cons in Hl as [Hl _].
  destruct Hd as [-> |]; [|lia]. rewrite app_nil_r in E. set_solver.
Qed.

Definition text (s : list Z) : Prop := Forall (fun c => 0 < c < 256) s.

Lemma text_no_nul s : text s -> 0 ∉ s.
Proof. intros Hs H. pose proof (proj1 (Forall_forall _ _) Hs 0 H). cbn in *. lia. Qed.

(** The buffer after a read that delivered [chunk] behind [pend]. *)
Lemma buffer_filled m buf pend chunk : byte_mem m -> text chunk -> loadn m buf (length pend) = pend ->
  let n1 := Z.of_nat (length pend) + Z.of_nat (length chunk) in
  let m1 := store8 (storen m (buf + Z.of_nat (length pend)) chunk) (buf + n1) 0 in
  byte_mem m1 /\ loadn m1 buf (length (pend ++ chunk)) = pend ++ chunk /\ load8 m1 (buf + Z.of_nat (length (pend ++ chunk))) = 0.
Proof.
  intros Hm Hc Hp n1 m1. rewrite length_app. split; [unfold m1; auto with xv6|]. unfold m1. split.
  - rewrite loadn_store8_out by lia. rewrite loadn_app, loadn_storen_ne, Hp by lia. f_equal. apply loadn_storen_eq.
    eapply Forall_impl; [exact Hc|]. cbn. lia.
  - rewrite Nat2Z.inj_add. fold n1. apply load8_store8_eq.
Qed.

Lemma loadn_moved m buf p n : byte_mem m -> loadn (Ulib.memmove m buf p (Z.of_nat n)) buf n = loadn m p n.
Proof.
  intros Hm. apply list_eq. intros i. destruct (decide (i < n)%nat) as [Hi|Hi].
  - rewrite !loadn_lookup by done. rewrite load8_umove by (done || lia).
    rewrite (proj2 (Z.leb_le _ _)), (proj2 (Z.ltb_lt _ _)) by lia. cbn. do 2 f_equal. lia.
  - by rewrite !lookup_ge_None_2 by (rewrite length_loadn; lia).
Qed.

Lemma grep_loop_spec re buf ks : forall m pend data, byte_mem m -> 0 < buf -> text pend -> text data -> 10 ∉ pend ->
  loadn m buf (length pend) = pend -> (length pend <= 1023)%nat -> Forall (fun k => 0 < k)%nat ks -> (length data < length ks)%nat ->
  Forall (fun l => length l < 1023)%nat (lines (pend ++ data)) ->
  grep_loop re buf m (Z.of_nat (length pend)) ks data = Some (selected re (pend ++ data)).
Proof.
  induction ks as [|k ks IH]; intros m pend data Hm Hb Htp Htd Hp Hl Hlen Hk Hd Hll; [cbn in Hd; lia|].
  apply Forall_cons in Hk as [Hk Hks]. cbn [grep_loop].
  set (n := (k `min` Z.to_nat (1024 - Z.of_nat (length pend) - 1))%nat).
  assert (n <= 1023 - length pend)%nat as Hn by lia.
  assert (take n data = [] -> data = [] \/ length pend = 1023%nat) as Hstop.
  { intros E. destruct data as [|x data]; [by left|right]. destruct n eqn:En; [lia|done]. }
  destruct (take n data) as [|x chunk'] eqn:E; [by rewrite stop_selected by auto|]. set (chunk := x :: chunk') in *.
  assert (data = chunk ++ drop n data) as Hdat by (by rewrite <- E, take_drop).
  replace (selected re (pend ++ data)) with (selected re (pend ++ chunk ++ drop n data)) by (by rewrite <- Hdat).
  rewrite Hdat in Hll, Htd. apply Forall_app in Htd as [Htc Htd].
  assert (length chunk <= n)%nat as Hcn by (rewrite <- E, length_take; lia).
  assert (drop (length chunk) data = drop n data) as Hdrop.
  { rewrite <- E, length_take. destruct (decide (n <= length data)%nat); [f_equal; lia|]. rewrite !drop_ge by lia. done. }
  destruct (buffer_filled m buf pend chunk) as (Hm1 & Hl1 & Hz1); [done..|].
  destruct (grep_lines_spec re 1024 _ buf (pend ++ chunk) Hm1 Hb) as (m2 & s1 & tl & Es & Ht & Hm2 & Hg & Hl2 & Hlines); [|done..| |].
  { apply text_no_nul. by apply Forall_app. }
  { rewrite length_app. lia. }
  rewrite Hg. cbn [mbind option_bind].
  pose proof (f_equal length Es) as Hlen2. rewrite !length_app in Hlen2.
  assert (0 < length chunk)%nat by (cbn; lia).
  rewrite (proj2 (Z.ltb_lt _ _)) by lia.
  replace (_ + _ - _) with (Z.of_nat (length tl)) by lia.
  rewrite (assoc_L (++)) in Hll |- *. rewrite Hlines in Hll. rewrite (selected_lines re _ _ _ (Hlines _)).
  pose proof (f_equal length Hdat) as Hld. rewrite length_app in Hld.
  assert (text (s1 ++ tl)) as Hts by (rewrite <- Es; by apply Forall_app).
  apply Forall_app in Hts as [_ Htl]. apply Forall_app in Hll as [_ Hll]. cbn in Hd.
  rewrite Hdrop, IH; [done|by apply byte_mem_move|done..| |lia|done|lia|done]. by rewrite loadn_moved.
Qed.

(** C24: On an input without NULs whose complete lines have fewer than 1023 characters, grep
    writes exactly the complete lines its pattern matches, in order, however [read] cuts
    the input into pieces. *)
Theorem grep_selects re buf m ks data : byte_mem m -> 0 < buf -> text data ->
  Forall (fun l => length l < 1023)%nat (lines data) -> Forall (fun k => 0 < k)%nat ks -> (length data < length ks)%nat ->
  grep re buf m ks data = Some (selected re data).
Proof. intros. unfold grep. apply (grep_loop_spec re buf ks m [] data); auto; [by constructor|set_solver|cbn; lia]. Qed.

Lemma grep_selects_witness :
  grep (lit "^a.*c$") 4096 ∅ (replicate 20 3%nat) (lit "abbc" ++ [10] ++ lit "bac" ++ [10] ++ lit "ac" ++ [10] ++ lit "ac") =
  Some (lit "abbc" ++ [10] ++ lit "ac" ++ [10]).
Proof.
  rewrite grep_selects; [reflexivity|auto with xv6|lia|..].
  - vm_compute. repeat constructor.
  - cbn. repeat constructor; cbn; lia.
  - repeat constructor.
  - cbn. lia.
Defined.
