(* ===== verification/Sh.v ===== *)
(** * user/sh.c: the shell

    The parser works on the bytes of a command line; a [char *] into it is an index, and
    [*ps] is the state of the parser.  A word of a parsed command is the pair of indices
    the source keeps in [argv] and [eargv].  [malloc] is taken to succeed. *)
From stdpp Require Import base list numbers strings.
From Stdlib Require Import ZArith Lia.
From S2P Require Import Prelude Mem Kprintf Syscall.
From S2P Require Ulib.
Open Scope Z_scope.

(** ** Commands *)
Definition MAXARGS : nat := 10.

Inductive cmd (W : Type) :=
| EXEC (argv : list W)
| REDIR (c : cmd W) (file : W) (mode fd : Z)
| PIPE (left right : cmd W)
| LIST (left right : cmd W)
| BACK (c : cmd W).
Arguments EXEC {W} argv.
Arguments REDIR {W} c file mode fd.
Arguments PIPE {W} left right.
Arguments LIST {W} left right.
Arguments BACK {W} c.

Fixpoint cmd_map {V W} (f : V -> W) (c : cmd V) : cmd W :=
  match c with
  | EXEC argv => EXEC (f <$> argv)
  | REDIR c file mode fd => REDIR (cmd_map f c) (f file) mode fd
  | PIPE a b => PIPE (cmd_map f a) (cmd_map f b)
  | LIST a b => LIST (cmd_map f a) (cmd_map f b)
  | BACK c => BACK (cmd_map f c)
  end.

(** A counted string: [q] and [eq] of the source. *)
Abbreviation span := (nat * nat)%type.

(** The constructors: zeroed memory, with the fields filled in. *)
Definition execcmd : cmd span := EXEC [].
Definition redircmd (subcmd : cmd span) (file : span) (mode fd : Z) : cmd span := REDIR subcmd file mode fd.
Definition pipecmd (left right : cmd span) : cmd span := PIPE left right.
Definition listcmd (left right : cmd span) : cmd span := LIST left right.
Definition backcmd (subcmd : cmd span) : cmd span := BACK subcmd.

Definition whitespace : list Z := [32; 9; 13; 10; 11].
Definition symbols : list Z := lit "<|>&;()".

(** [strchr(l, c) != 0] for a literal: a NUL is in no literal. *)
Definition strchr (l : list Z) (c : Z) : bool := existsb (Z.eqb c) l.
Definition is_ws (c : Z) : bool := strchr whitespace c.
Definition is_word (c : Z) : bool := negb (is_ws c) && negb (strchr symbols c).

Section Parser.
Variable buf : list Z.

(** [*s]: the line is followed by its NUL. *)
Definition at_ (s : nat) : Z := nth s buf 0.
Definition es : nat := length buf.

(** [while(s < es && p( *s)) s++;] with [k = es - s]. *)
Fixpoint skip (p : Z -> bool) (s : nat) (k : nat) : nat :=
  match k with O => s | S k' => if p (at_ s) then skip p (S s) k' else s end.

(** The [switch] of [gettoken] at [s]: [ret], and [s] after it. *)
Definition token_at (s : nat) : Z * nat :=
  let c := at_ s in
  if c =? 0 then (0, s)
  else if strchr (lit "|();&<") c then (c, S s)
  else if c =? 62 then
    if at_ (S s) =? 62 then (43, S (S s)) else (c, S s)
  else (97, skip is_word s (es - s)).

(** The token, with [q] and [eq]; the state is moved past it. *)
Definition gettoken : M nat (Z * span) :=
  let! s := get in
  let q := skip is_ws s (es - s) in
  let '(tok, s) := token_at q in
  put (skip is_ws s (es - s)) ;;
  ret (tok, (q, s)).

Definition peek (toks : string) : M nat bool :=
  let! s := get in
  let s := skip is_ws s (es - s) in
  put s ;;
  ret (negb (at_ s =? 0) && strchr (lit toks) (at_ s)).

Definition redir_mode (tok : Z) : Z * Z :=
  if tok =? 60 then (O_RDONLY, 0)
  else if tok =? 62 then (Z.lor (Z.lor O_WRONLY O_CREATE) O_TRUNC, 1)
  else (Z.lor O_WRONLY O_CREATE, 1).

Fixpoint parseredirs (c : cmd span) (fuel : nat) : M nat (cmd span) :=
  match fuel with
  | O => diverge
  | S f =>
      let! more := peek "<>" in
      if more then
        let! (tok, _) := gettoken in
        let! (t, w) := gettoken in
        if negb (t =? 97) then panic "missing file for redirection"
        else parseredirs (redircmd c w (redir_mode tok).1 (redir_mode tok).2) f
      else ret c
  end.

(** [cmd->argv[argc] = q; cmd->eargv[argc] = eq;]: [cmd] is the innermost command of the
    redirections around it. *)
Fixpoint add_arg (c : cmd span) (w : span) : cmd span :=
  match c with
  | EXEC argv => EXEC (argv ++ [w])
  | REDIR c file mode fd => REDIR (add_arg c w) file mode fd
  | c => c
  end.

Fixpoint exec_loop (c : cmd span) (argc : nat) (fuel : nat) : M nat (cmd span) :=
  match fuel with
  | O => diverge
  | S f =>
      let! stop := peek "|)&;" in
      if stop then ret c
      else
        let! (tok, w) := gettoken in
        if tok =? 0 then ret c
        else if negb (tok =? 97) then panic "syntax"
        else if (MAXARGS <=? S argc)%nat then panic "too many args"
        else
          let! c := parseredirs (add_arg c w) (S es) in
          exec_loop c (S argc) f
  end.

(** [while(peek(ps, es, "&")) ...] of [parseline]. *)
Fixpoint back_loop (c : cmd span) (fuel : nat) : M nat (cmd span) :=
  match fuel with
  | O => diverge
  | S f =>
      let! more := peek "&" in
      if more then gettoken ;; back_loop (backcmd c) f else ret c
  end.

Fixpoint parseline (fuel : nat) : M nat (cmd span) :=
  match fuel with
  | O => diverge
  | S f =>
      let! c := parsepipe f in
      let! c := back_loop c (S es) in
      let! more := peek ";" in
      if more then
        gettoken ;;
        let! r := parseline f in
        ret (listcmd c r)
      else ret c
  end
with parsepipe (fuel : nat) : M nat (cmd span) :=
  match fuel with
  | O => diverge
  | S f =>
      let! c := parseexec f in
      let! more := peek "|" in
      if more then
        gettoken ;;
        let! r := parsepipe f in
        ret (pipecmd c r)
      else ret c
  end
with parseexec (fuel : nat) : M nat (cmd span) :=
  match fuel with
  | O => diverge
  | S f =>
      let! block := peek "(" in
      if block then parseblock f
      else
        let! c := parseredirs execcmd (S es) in
        exec_loop c 0 (S es)
  end
with parseblock (fuel : nat) : M nat (cmd span) :=
  match fuel with
  | O => diverge
  | S f =>
      let! open := peek "(" in
      if negb open then panic "parseblock"
      else
        gettoken ;;
        let! c := parseline f in
        let! close := peek ")" in
        if negb close then panic "syntax - missing )"
        else
          gettoken ;;
          parseredirs c (S es)
  end.

Definition parse : M nat (cmd span) :=
  let! c := parseline (4 * es + 4) in
  peek "" ;;
  let! s := get in
  if negb (s =? es)%nat then panic "syntax" else ret c.
End Parser.

(** The line after [nulterminate]. *)
Fixpoint nulterminate (c : cmd span) (buf : list Z) : list Z :=
  match c with
  | EXEC argv => foldl (fun buf w => <[snd w := 0]> buf) buf argv
  | REDIR c file _ _ => <[snd file := 0]> (nulterminate c buf)
  | PIPE l r => nulterminate r (nulterminate l buf)
  | LIST l r => nulterminate r (nulterminate l buf)
  | BACK c => nulterminate c buf
  end.

(** [parsecmd] of a line: the command and the buffer with its NULs, the one that ends the
    line included. *)
Definition parsecmd (s : list Z) : outcome nat (cmd span * list Z) :=
  match parse s 0%nat with
  | Ok c n => Ok (c, nulterminate c (s ++ [0])) n
  | Panic msg => Panic msg
  | Block c n => Block c n
  | Diverge => Diverge
  end.

(** ** Running a command *)

(** What a descriptor refers to.  A pipe is named by the place of its command in the
    line. *)
Inductive fobj :=
| FConsole
| FFile (name : list Z) (mode : Z)
| FPipeR (at_node : list bool)
| FPipeW (at_node : list bool).

Abbreviation fdtab := (list (option fobj)).

Definition close_fd (fd : nat) (t : fdtab) : fdtab := <[fd := None]> t.

(** The lowest free descriptor, as the kernel allocates it. *)
Definition alloc_fd (f : fobj) (t : fdtab) : option (nat * fdtab) :=
  fd ← fdalloc_scan t 0;
  Some (fd, <[fd := Some f]> t).

Definition dup_fd (fd : nat) (t : fdtab) : fdtab :=
  match t !! fd with
  | Some (Some f) => match alloc_fd f t with Some (_, t') => t' | None => t end
  | _ => t
  end.

(** [pipe(p)]: [p[0]] and [p[1]]. *)
Definition pipe_fds (node : list bool) (t : fdtab) : option (nat * nat * fdtab) :=
  '(p0, t) ← alloc_fd (FPipeR node) t;
  '(p1, t) ← alloc_fd (FPipeW node) t;
  Some (p0, p1, t).

(** Which files can be opened, and whether the forks of a command and of [main] succeed. *)
Record world := mk_world { can_open : list Z -> Z -> bool; can_fork : list bool -> bool -> bool; main_fork : bool }.

(** A program started by [exec]: its arguments and its descriptors. *)
Record job := mk_job { j_argv : list (list Z); j_fds : fdtab }.

(** The programs that the process running [runcmd(cmd)] and its children start; a process
    that panics or exits starts none. *)
Fixpoint runcmd (w : world) (c : cmd (list Z)) (t : fdtab) (node : list bool) : list job :=
  match c with
  | EXEC argv => match argv with [] => [] | _ => [mk_job argv t] end
  | REDIR c file mode fd =>
      let t := close_fd (Z.to_nat fd) t in
      if can_open w file mode then
        match alloc_fd (FFile file mode) t with
        | Some (_, t) => runcmd w c t (false :: node)
        | None => []
        end
      else []
  | LIST l r =>
      if can_fork w node false
      then runcmd w l t (false :: node) ++ runcmd w r t (true :: node)
      else []
  | PIPE l r =>
      match pipe_fds node t with
      | None => []
      | Some (p0, p1, t) =>
          if can_fork w node false then
            runcmd w l (close_fd p1 (close_fd p0 (dup_fd p1 (close_fd 1 t)))) (false :: node) ++
            (if can_fork w node true
             then runcmd w r (close_fd p1 (close_fd p0 (dup_fd p0 (close_fd 0 t)))) (true :: node)
             else [])
          else []
      end
  | BACK c => if can_fork w node false then runcmd w c t (false :: node) else []
  end.

(** [while((fd = open("console", O_RDWR)) >= 0) ...] of [main]. *)
Fixpoint open_console (t : fdtab) (fuel : nat) : option fdtab :=
  match fuel with
  | O => None
  | S f =>
      match alloc_fd FConsole t with
      | None => Some t
      | Some (fd, t') => if (3 <=? fd)%nat then Some (close_fd fd t') else open_console t' f
      end
  end.

(** [getcmd]: the line, or the end of the input. *)
Definition getcmd (reads : list (option Z)) : option (list Z) :=
  let buf := CStringFacts.cstr (Ulib.gets 100 reads) in
  match buf with [] => None | _ => Some buf end.

(** One line of the loop of [main]: a change of directory, the programs the child starts,
    or the message with which it fails. *)
Inductive line_result := Chdir (path : list Z) | Jobs (js : list job) | Failed (msg : string) | NoFork | Hang.

(** The command with the C strings its words point to. *)
Definition with_strings (b : list Z) : cmd span -> cmd (list Z) := cmd_map (fun w => CStringFacts.cstr (drop (fst w) b)).

Definition run_line (w : world) (t : fdtab) (buf : list Z) : line_result :=
  if (nth 0 buf 0 =? 99) && (nth 1 buf 0 =? 100) && (nth 2 buf 0 =? 32)
  then Chdir (drop 3 (take (length buf - 1) buf))
  else if main_fork w then
    match parsecmd buf with
    | Ok (p, b) _ => Jobs (runcmd w (with_strings b p) t [])
    | Panic msg => Failed msg
    | _ => Hang
    end
  else NoFork.
