(* ===== verification/ShSpec.v ===== *)
(** * The shell parses what it is given

    Parsing ends on every line, and a line that spells a command is parsed as that
    command, whatever white space is in it. *)
From stdpp Require Import base sets list numbers strings.
From Stdlib Require Import ZArith Lia.
From S2P Require Import Prelude Mem Kprintf Syscall Sh.
Open Scope Z_scope.

#[local] Arguments is_ws : simpl never.
#[local] Arguments is_word : simpl never.
#[local] Arguments strchr : simpl never.
#[local] Arguments lit : simpl never.
#[local] Arguments Z.eqb : simpl never.

Lemma strchr_in l c : strchr l c = true <-> c ∈ l.
Proof.
  unfold strchr. rewrite existsb_exists. setoid_rewrite Z.eqb_eq. setoid_rewrite <- list_elem_of_In. naive_solver.
Qed.

Lemma strchr_out l c : strchr l c = false <-> c ∉ l.
Proof. rewrite <- not_true_iff_false, strchr_in. done. Qed.

Section Total.
Variable buf : list Z.
Notation es := (es buf).
Notation at_ := (at_ buf).
Notation skip := (skip buf).

(** [m] from [s] returns at [lo] or further, or panics. *)
Definition tot {A} (m : M nat A) (s lo : nat) : Prop :=
  match m s with Ok _ s' => (lo <= s' <= es)%nat | Panic _ => True | _ => False end.

Lemma tot_bind {A B} (m : M nat A) (k : A -> M nat B) s lo lo1 : tot m s lo1 ->
  (forall a s', m s = Ok a s' -> (lo1 <= s' <= es)%nat -> tot (k a) s' lo) -> tot (bind m k) s lo.
Proof. unfold tot, bind. intros Hm Hk. destruct (m s) eqn:E; auto. by apply Hk. Qed.

Lemma tot_ret {A} (a : A) s lo : (lo <= s <= es)%nat -> tot (ret a) s lo.
Proof. done. Qed.

Lemma tot_weaken {A} (m : M nat A) s lo lo' : (lo' <= lo)%nat -> tot m s lo -> tot m s lo'.
Proof. unfold tot. destruct (m s); auto. lia. Qed.

Lemma skip_bounds p s k : (s <= skip p s k <= s + k)%nat.
Proof. revert s. induction k as [|k IH]; intros s; cbn; [lia|]. case_bool; [|lia]. specialize (IH (S s)). lia. Qed.

Lemma skip_idem p s k : (s + k = es)%nat -> skip p (skip p s k) (es - skip p s k) = skip p s k.
Proof.
  revert s. induction k as [|k IH]; intros s Hk; cbn.
  - replace (es - s)%nat with 0%nat by lia. done.
  - destruct (p (at_ s)) eqn:E; [apply IH; lia|]. replace (es - s)%nat with (S k) by lia. cbn. by rewrite E.
Qed.

Lemma skip_stop p s k : (s + k = es)%nat -> (skip p s k < es)%nat -> p (at_ (skip p s k)) = false.
Proof. revert s. induction k as [|k IH]; intros s Hk Hlt; cbn in *; [lia|]. destruct (p (at_ s)) eqn:E; [apply IH; lia|done]. Qed.

Lemma at_end s : (es <= s)%nat -> at_ s = 0.
Proof. intros H. by apply nth_overflow. Qed.

Lemma at_nz s : at_ s <> 0 -> (s < es)%nat.
Proof. intros H. destruct (decide (s < es)%nat) as [|Hn]; [done|]. by rewrite at_end in H by lia. Qed.

Lemma gettoken_eq s : let q := skip is_ws s (es - s) in
  gettoken buf s = Ok ((token_at buf q).1, (q, (token_at buf q).2)) (skip is_ws (token_at buf q).2 (es - (token_at buf q).2)).
Proof. cbn. unfold gettoken. cbn. by destruct (token_at buf (skip is_ws s (es - s))). Qed.

Lemma not_symbol c : strchr (lit "|();&<") c = false -> c <> 62 -> strchr symbols c = false.
Proof. rewrite !strchr_out. change symbols with [60; 124; 62; 38; 59; 40; 41]. change (lit _) with [124; 40; 41; 59; 38; 60]. set_solver. Qed.

Lemma token_at_bounds q : (q <= es)%nat -> (q < es -> is_ws (at_ q) = false)%nat ->
  ((if (at_ q =? 0)%Z then q else S q) <= (token_at buf q).2 <= es)%nat.
Proof.
  intros Hq Hw. unfold token_at. destruct (Z.eqb_spec (at_ q) 0) as [E|E]; [cbn; lia|]. pose proof (at_nz _ E) as Hq'.
  destruct (strchr (lit _) (at_ q)) eqn:E1; [cbn; lia|]. destruct (Z.eqb_spec (at_ q) 62) as [E2|E2].
  - destruct (Z.eqb_spec (at_ (S q)) 62) as [E3|E3]; cbn; [|lia]. assert (S q < es)%nat by (apply at_nz; by rewrite E3). lia.
  - cbn [snd]. replace (es - q)%nat with (S (es - q - 1)) by lia. cbn.
    assert (is_word (at_ q) = true) as -> by (unfold is_word; by rewrite Hw, not_symbol by done).
    pose proof (skip_bounds is_word (S q) (es - q - 1)). lia.
Qed.

(** A token that is not the end of the line takes at least one character. *)
Lemma gettoken_tot s : (s <= es)%nat ->
  tot (gettoken buf) s (if at_ (skip is_ws s (es - s)) =? 0 then s else S s).
Proof.
  intros Hs. unfold tot. rewrite gettoken_eq. pose proof (skip_bounds is_ws s (es - s)) as Hb.
  set (q := skip is_ws s (es - s)) in *. pose proof (token_at_bounds q ltac:(lia) ltac:(intros; apply skip_stop; lia)) as Ht. set (e := (token_at buf q).2) in *.
  pose proof (skip_bounds is_ws e (es - e)). destruct (at_ q =? 0); lia.
Qed.

Lemma peek_eq toks s : let q := skip is_ws s (es - s) in
  peek buf toks s = Ok (negb (at_ q =? 0) && strchr (lit toks) (at_ q)) q.
Proof. done. Qed.

(** After a [peek] that found something, [gettoken] moves on. *)
Lemma peek_tot toks s : (s <= es)%nat -> tot (peek buf toks) s s.
Proof. intros Hs. unfold tot. rewrite peek_eq. pose proof (skip_bounds is_ws s (es - s)). lia. Qed.

Lemma peek_true toks s s' : (s <= es)%nat -> peek buf toks s = Ok true s' -> (s' < es)%nat /\ tot (gettoken buf) s' (S s').
Proof.
  intros Hs E. rewrite peek_eq in E. injection E as E Eq. apply andb_true_iff in E as [E _]. apply negb_true_iff in E.
  rewrite Eq in E. pose proof E as E0. apply Z.eqb_neq, at_nz in E. split; [done|].
  pose proof (skip_idem is_ws s (es - s) ltac:(lia)) as Hi. rewrite Eq in Hi.
  pose proof (gettoken_tot s' ltac:(lia)) as Ht. by rewrite Hi, E0 in Ht.
Qed.

Lemma parseredirs_tot fuel : forall c s, (s <= es)%nat -> (es - s < fuel)%nat -> tot (parseredirs buf c fuel) s s.
Proof.
  induction fuel as [|f IH]; intros c s Hs Hf; [lia|]. cbn [parseredirs].
  apply (tot_bind _ _ _ _ s); [by apply peek_tot|]. intros [] s1 E1 H1; [|apply tot_ret; lia].
  destruct (peek_true _ _ _ Hs E1) as [H1' Hg]. apply (tot_bind _ _ _ _ (S s1)); [done|]. intros [tok w] s2 _ H2.
  apply (tot_bind _ _ _ _ s2).
  { eapply tot_weaken; [|apply gettoken_tot; lia]. case_bool; lia. }
  intros [t w'] s3 _ H3. destruct (negb _); [done|]. eapply tot_weaken; [|apply IH]; lia.
Qed.

Lemma exec_loop_tot fuel : forall c argc s, (s <= es)%nat -> (es - s < fuel)%nat -> tot (exec_loop buf c argc fuel) s s.
Proof.
  induction fuel as [|f IH]; intros c argc s Hs Hf; [lia|]. cbn [exec_loop].
  apply (tot_bind _ _ _ _ s); [by apply peek_tot|]. intros [] s1 E1 H1; [apply tot_ret; lia|].
  apply (tot_bind _ _ _ _ (if (at_ (skip is_ws s1 (es - s1)) =? 0)%Z then s1 else S s1)); [apply gettoken_tot; lia|].
  intros [tok w] s2 E2 H2. rewrite gettoken_eq in E2. injection E2 as Et _ _. unfold token_at in Et.
  destruct (Z.eqb_spec (at_ (skip is_ws s1 (es - s1))) 0) as [E0|E0]; [cbn in Et; subst tok; apply tot_ret; lia|].
  destruct (tok =? 0) eqn:E3; [apply tot_ret; lia|]. destruct (negb _); [done|]. destruct (_ <=? _)%nat; [done|].
  apply (tot_bind _ _ _ _ s2); [apply parseredirs_tot; lia|]. intros c' s3 _ H3. eapply tot_weaken; [|apply IH]; lia.
Qed.

Lemma back_loop_tot fuel : forall c s, (s <= es)%nat -> (es - s < fuel)%nat -> tot (back_loop buf c fuel) s s.
Proof.
  induction fuel as [|f IH]; intros c s Hs Hf; [lia|]. cbn [back_loop].
  apply (tot_bind _ _ _ _ s); [by apply peek_tot|]. intros [] s1 E1 H1; [|apply tot_ret; lia].
  destruct (peek_true _ _ _ Hs E1) as [H1' Hg]. apply (tot_bind _ _ _ _ (S s1)); [done|]. intros x s2 _ H2.
  eapply tot_weaken; [|apply IH]; lia.
Qed.

Lemma parse_tot f : forall s, (s <= es)%nat ->
  ((4 * (es - s) + 4 <= f -> tot (parseline buf f) s s) /\ (4 * (es - s) + 3 <= f -> tot (parsepipe buf f) s s) /\
   (4 * (es - s) + 2 <= f -> tot (parseexec buf f) s s) /\ (4 * (es - s) + 1 <= f -> tot (parseblock buf f) s s))%nat.
Proof.
  induction f as [|f IH]; intros s Hs; [lia|]. split; [|split; [|split]]; intros Hf.
  - cbn [parseline]. apply (tot_bind _ _ _ _ s); [apply IH; lia|]. intros c s1 _ H1.
    apply (tot_bind _ _ _ _ s1); [apply back_loop_tot; lia|]. intros c2 s2 _ H2.
    apply (tot_bind _ _ _ _ s2); [apply peek_tot; lia|]. intros [] s3 E3 H3; [|apply tot_ret; lia].
    apply peek_true in E3 as [E3 Hg]; [|lia]. apply (tot_bind _ _ _ _ (S s3)); [done|]. intros x s4 _ H4.
    apply (tot_bind _ _ _ _ s4); [apply IH; lia|]. intros r s5 _ H5. apply tot_ret; lia.
  - cbn [parsepipe]. apply (tot_bind _ _ _ _ s); [apply IH; lia|]. intros c s2 _ H2.
    apply (tot_bind _ _ _ _ s2); [apply peek_tot; lia|]. intros [] s3 E3 H3; [|apply tot_ret; lia].
    apply peek_true in E3 as [E3 Hg]; [|lia]. apply (tot_bind _ _ _ _ (S s3)); [done|]. intros x s4 _ H4.
    apply (tot_bind _ _ _ _ s4); [apply IH; lia|]. intros r s5 _ H5. apply tot_ret; lia.
  - cbn [parseexec]. apply (tot_bind _ _ _ _ s); [apply peek_tot; lia|]. intros [] s1 E1 H1.
    + eapply tot_weaken; [|apply IH]; lia.
    + apply (tot_bind _ _ _ _ s1); [apply parseredirs_tot; lia|]. intros c s2 _ H2. eapply tot_weaken; [|apply exec_loop_tot]; lia.
  - cbn [parseblock]. apply (tot_bind _ _ _ _ s); [apply peek_tot; lia|]. intros [] s1 E1 H1; [|done]. cbn [negb].
    apply peek_true in E1 as [E1 Hg]; [|lia]. apply (tot_bind _ _ _ _ (S s1)); [done|]. intros x s2 _ H2.
    apply (tot_bind _ _ _ _ s2); [apply IH; lia|]. intros c s3 _ H3.
    apply (tot_bind _ _ _ _ s3); [apply peek_tot; lia|]. intros [] s4 E4 H4; [|done]. cbn [negb].
    apply peek_true in E4 as [E4 Hg']; [|lia]. apply (tot_bind _ _ _ _ (S s4)); [done|]. intros y s5 _ H5.
    eapply tot_weaken; [|apply parseredirs_tot]; lia.
Qed.
End Total.


(** ** Lines that spell a command *)
Inductive token := Word (w : list Z) | Sym (c : Z) | App.

Definition text (t : token) : list Z := match t with Word w => w | Sym c => [c] | App => [62; 62] end.

(** What [t], with [s] after it, must satisfy to be read as one token. *)
Definition apart (t : token) (s : list Z) : Prop :=
  match t with
  | Word w => w <> [] /\ Forall (fun c => is_word c = true /\ c <> 0) w /\ (forall c, head s = Some c -> is_word c = false)
  | Sym c => c ∈ symbols /\ (c = 62 -> head s <> Some 62)
  | App => True
  end.

Inductive spells : list token -> list Z -> Prop :=
| spells_nil : spells [] []
| spells_ws c ts s : is_ws c = true -> spells ts s -> spells ts (c :: s)
| spells_tok t ts s : apart t s -> spells ts s -> spells (t :: ts) (text t ++ s).

(** The levels of the grammar. *)
Inductive level := LLine | LBack | LPipe | LExec.

Definition redir_tok (mode : Z) : token :=
  if mode =? O_RDONLY then Sym 60 else if Z.land mode O_TRUNC =? 0 then App else Sym 62.
Definition paren (b : bool) (ts : list token) : list token := if b then Sym 40 :: ts ++ [Sym 41] else ts.

Fixpoint show (l : level) (c : cmd (list Z)) : list token :=
  match c with
  | EXEC argv => Word <$> argv
  | REDIR c file mode _ => show LExec c ++ [redir_tok mode; Word file]
  | PIPE a b => paren (match l with LExec => true | _ => false end) (show LExec a ++ Sym 124 :: show LPipe b)
  | BACK c => paren (match l with LExec | LPipe => true | _ => false end) (show LBack c ++ [Sym 38])
  | LIST a b => paren (match l with LLine => false | _ => true end) (show LBack a ++ Sym 59 :: show LLine b)
  end.

(** Commands the shell can represent. *)
Fixpoint shell_cmd (c : cmd (list Z)) : Prop :=
  match c with
  | EXEC argv => (length argv < MAXARGS)%nat
  | REDIR c _ mode fd => shell_cmd c /\ exists tok, (tok = 60 \/ tok = 62 \/ tok = 43) /\ (mode, fd) = redir_mode tok
  | PIPE a b => shell_cmd a /\ shell_cmd b
  | LIST a b => shell_cmd a /\ shell_cmd b
  | BACK c => shell_cmd c
  end.

Section Reads.
Variable buf : list Z.
Notation es := (es buf).
Notation at_ := (at_ buf).
Notation skip := (skip buf).

Definition reads (s : nat) (ts : list token) : Prop := (s <= es)%nat /\ spells ts (drop s buf).

(** The characters of a span, and that it is a whole word of the line. *)
Definition chars (w : span) : list Z := take (snd w - fst w) (drop (fst w) buf).
#[local] Arguments chars : simpl never.
Definition is_span (w : span) : Prop :=
  (fst w < snd w <= es)%nat /\ Forall (fun c => is_word c = true /\ c <> 0) (chars w) /\ ((snd w < es)%nat -> is_word (at_ (snd w)) = false).

Fixpoint spans (P : span -> Prop) (c : cmd span) : Prop :=
  match c with
  | EXEC argv => Forall P argv
  | REDIR c file _ _ => spans P c /\ P file
  | PIPE a b => spans P a /\ spans P b
  | LIST a b => spans P a /\ spans P b
  | BACK c => spans P c
  end.

Fixpoint run (p : Z -> bool) (l : list Z) : nat := match l with c :: l' => if p c then S (run p l') else O | [] => O end.

Lemma drop_at s : (s < es)%nat -> drop s buf = at_ s :: drop (S s) buf.
Proof. intros H. apply drop_S. unfold Sh.at_. rewrite nth_lookup. destruct (lookup_lt_is_Some_2 buf s H) as [x ->]. done. Qed.

Lemma drop_cons s c l : drop s buf = c :: l -> (s < es)%nat /\ at_ s = c /\ drop (S s) buf = l.
Proof.
  intros E. assert (s < es)%nat as Hs by (pose proof (f_equal length E) as El; rewrite length_drop in El; cbn in El; unfold Sh.es; lia).
  rewrite drop_at in E by done. by injection E.
Qed.

Lemma skip_run p s k : (s + k = es)%nat -> skip p s k = (s + run p (drop s buf))%nat.
Proof.
  revert s. induction k as [|k IH]; intros s Hk; cbn.
  - rewrite drop_ge by (unfold Sh.es in Hk; lia). cbn. lia.
  - rewrite drop_at by lia. cbn [run]. case_bool; [rewrite IH by lia|]; lia.
Qed.

Lemma run_app p l s : Forall (fun c => p c = true) l -> (forall c, head s = Some c -> p c = false) -> run p (l ++ s) = length l.
Proof.
  induction 1 as [|c l Hc Hl IH]; intros Hs; cbn; [|rewrite Hc; by rewrite IH].
  destruct s as [|c s]; [done|]. cbn. by rewrite (Hs c).
Qed.

Lemma is_word_ws c : is_word c = true -> is_ws c = false /\ c ∉ symbols.
Proof. unfold is_word. intros [H1 H2]%andb_true_iff. apply negb_true_iff in H1, H2. by rewrite strchr_out in H2. Qed.

Lemma symbol_ws c : c ∈ symbols -> is_ws c = false /\ is_word c = false /\ c <> 0.
Proof.
  intros H. assert (is_ws c = false /\ c <> 0) as [H1 H2].
  { change symbols with [60; 124; 62; 38; 59; 40; 41] in H. set_unfold in H. by decompose [or] H; subst. }
  split; [done|]. split; [|done]. unfold is_word. apply strchr_in in H. by rewrite H, andb_false_r.
Qed.

Lemma apart_head t s c : apart t s -> head (text t ++ s) = Some c -> is_ws c = false /\ c <> 0.
Proof.
  destruct t as [[|x w]|x|]; cbn.
  - by intros [? _].
  - intros (_ & Hw & _) [= <-]. apply Forall_cons in Hw as [[Hw H0] _]. by apply is_word_ws in Hw as [? _].
  - intros [Hx _] [= <-]. apply symbol_ws in Hx. naive_solver.
  - intros _ [= <-]. done.
Qed.

Lemma spells_strip ts l : spells ts l -> spells ts (drop (run is_ws l) l).
Proof.
  induction 1 as [|c ts s Hc Hs IH|t ts s Ht Hs IH]; cbn; [apply spells_nil|by rewrite Hc|].
  assert (run is_ws (text t ++ s) = 0%nat) as ->; [|by apply spells_tok].
  destruct (text t ++ s) as [|c l] eqn:E; [done|]. cbn. destruct (apart_head t s c Ht) as [-> _]; [by rewrite E|done].
Qed.

Lemma reads_skip s ts : reads s ts -> reads (skip is_ws s (es - s)) ts.
Proof.
  intros [Hs H]. pose proof (skip_bounds buf is_ws s (es - s)). split; [lia|].
  rewrite skip_run by lia. rewrite <- drop_drop. by apply spells_strip.
Qed.

(** At the first character of the next token. *)
Definition ahead (q : nat) (ts : list token) : Prop := reads q ts /\ ((q < es)%nat -> is_ws (at_ q) = false).

Lemma reads_ahead s ts : reads s ts -> ahead (skip is_ws s (es - s)) ts.
Proof. intros H. split; [by apply reads_skip|]. apply skip_stop. destruct H. lia. Qed.

Lemma ahead_head q ts : ahead q ts -> forall c, head (drop q buf) = Some c -> is_ws c = false.
Proof.
  intros [_ Hw] c Hc. destruct (drop q buf) as [|x l] eqn:E; [done|]. injection Hc as ->.
  apply drop_cons in E as (Hlt & <- & _). auto.
Qed.

Lemma ahead_nil q : ahead q [] -> q = es /\ at_ q = 0.
Proof.
  intros H. pose proof (ahead_head _ _ H) as Hh. destruct H as [[Hq H] _]. destruct (drop q buf) as [|c l] eqn:E.
  - assert (q = es) as -> by (pose proof (f_equal length E) as El; rewrite length_drop in El; cbn in El; unfold Sh.es in *; lia).
    split; [done|]. by apply at_end.
  - specialize (Hh c eq_refl). inversion H. congruence.
Qed.

Lemma spells_cons t ts l : spells (t :: ts) l -> (forall c, head l = Some c -> is_ws c = false) ->
  exists s, l = text t ++ s /\ apart t s /\ spells ts s.
Proof.
  intros H Hh. inversion H; subst; [|by eexists]. specialize (Hh _ eq_refl). congruence.
Qed.

Lemma ahead_cons q t ts : ahead q (t :: ts) -> let e := (q + length (text t))%nat in
  drop q buf = text t ++ drop e buf /\ apart t (drop e buf) /\ (e <= es)%nat /\ spells ts (drop e buf).
Proof.
  intros H e. pose proof (ahead_head _ _ H) as Hh. destruct H as [[Hq H] _].
  destruct (spells_cons _ _ _ H Hh) as (s & E & Ht & Hs).
  assert (drop e buf = s) as -> by (unfold e; by rewrite <- drop_drop, E, drop_app_length).
  split; [done|]. split; [done|]. split; [|done]. pose proof (f_equal length E) as El. rewrite length_drop, length_app in El. unfold e, Sh.es in *. lia.
Qed.

(** ** Reading tokens *)
Definition code (t : token) : Z := match t with Word _ => 97 | Sym c => c | App => 43 end.

Lemma token_at_ahead q t ts : ahead q (t :: ts) -> token_at buf q = (code t, (q + length (text t))%nat).
Proof.
  intros H. pose proof (ahead_cons _ _ _ H) as (E & Ha & He & _). set (e := (q + length (text t))%nat) in *. unfold token_at.
  destruct t as [[|c w]|c|]; cbn in E; [by destruct Ha| | |].
  - destruct (drop_cons _ _ _ E) as (Hlt & -> & _). destruct Ha as (_ & Hw & Hf). pose proof Hw as Hw'. apply Forall_cons in Hw as [[Hc H0] _].
    destruct (is_word_ws _ Hc) as [_ Hs]. rewrite (proj2 (Z.eqb_neq c 0)) by done.
    rewrite (proj2 (strchr_out _ c)) by (change symbols with [60; 124; 62; 38; 59; 40; 41] in Hs; change (lit _) with [124; 40; 41; 59; 38; 60]; set_solver).
    rewrite (proj2 (Z.eqb_neq c 62)) by (intros ->; apply Hs; by vm_compute; set_solver).
    rewrite skip_run by lia. rewrite E. change (c :: w ++ drop e buf) with ((c :: w) ++ drop e buf).
    rewrite run_app; [done| |done]. eapply Forall_impl; [exact Hw'|]. by intros ? [].
  - destruct (drop_cons _ _ _ E) as (Hlt & -> & Ed). destruct Ha as [Hc Hf]. destruct (symbol_ws _ Hc) as (_ & _ & H0).
    rewrite (proj2 (Z.eqb_neq c 0)) by done. cbn. replace e with (S q) in * by (unfold e; cbn; lia).
    destruct (Z.eqb_spec c 62) as [->|H62].
    + change (strchr (lit "|();&<") 62) with false. cbv iota.
      destruct (Z.eqb_spec (at_ (S q)) 62) as [E2|E2]; [|done]. exfalso. apply Hf; [done|].
      rewrite drop_at, E2 by (apply at_nz; by rewrite E2). done.
    + assert (strchr (lit "|();&<") c = true) as ->; [|done]. apply strchr_in.
      change symbols with [60; 124; 62; 38; 59; 40; 41] in Hc. change (lit _) with [124; 40; 41; 59; 38; 60]. set_solver.
  - destruct (drop_cons _ _ _ E) as (Hlt & -> & Ed). destruct (drop_cons _ _ _ Ed) as (_ & -> & _).
    change (62 =? 0) with false. change (strchr (lit "|();&<") 62) with false. change (62 =? 62) with true. cbv iota.
    unfold e. cbn. do 2 f_equal. lia.
Qed.

Lemma gettoken_reads s t ts : reads s (t :: ts) -> exists w s', gettoken buf s = Ok (code t, w) s' /\ reads s' ts /\
  (forall x, t = Word x -> is_span w /\ chars w = x).
Proof.
  intros H. pose proof (reads_ahead _ _ H) as Ha. set (q := skip is_ws s (es - s)) in Ha.
  pose proof (ahead_cons _ _ _ Ha) as (E & Hap & He & Hs). rewrite gettoken_eq. fold q.
  rewrite (token_at_ahead _ _ _ Ha). cbn [fst snd]. set (e := (q + length (text t))%nat) in *. exists (q, e), (skip is_ws e (es - e)).
  split; [done|]. split; [apply reads_skip; by split|]. intros x ->. cbn in *. destruct Hap as (Hx & Hw & Hf).
  assert (chars (q, e) = x) as Hc.
  { unfold chars. cbn. rewrite E. replace (e - q)%nat with (length x) by lia. by rewrite take_app_length. }
  split; [|done]. split; [|split].
  - cbn. destruct x; [done|]. cbn in *. lia.
  - by rewrite Hc.
  - cbn. intros Hlt. apply Hf. by rewrite drop_at.
Qed.

Lemma gettoken_end s : reads s [] -> exists w, gettoken buf s = Ok (0, w) es.
Proof.
  intros H. pose proof (ahead_nil _ (reads_ahead _ _ H)) as [Eq E0]. rewrite gettoken_eq. rewrite Eq in *. unfold token_at. rewrite E0.
  change (0 =? 0) with true. cbn. rewrite Nat.sub_diag. cbn. eauto.
Qed.

(** What [peek] answers in front of [ts]. *)
Definition starts (toks : string) (ts : list token) : bool :=
  match ts with
  | Word _ :: _ => false
  | Sym c :: _ => strchr (lit toks) c
  | App :: _ => strchr (lit toks) 62
  | [] => false
  end.

Lemma peek_reads toks s ts : (forall c, c ∈ lit toks -> c ∈ symbols) -> reads s ts ->
  exists s', peek buf toks s = Ok (starts toks ts) s' /\ reads s' ts.
Proof.
  intros Ht H. pose proof (reads_ahead _ _ H) as Ha. rewrite peek_eq. eexists. split; [|by apply reads_skip].
  f_equal. set (q := skip is_ws s (es - s)) in *. destruct ts as [|t ts].
  { apply ahead_nil in Ha as [_ ->]. done. }
  pose proof (ahead_cons _ _ _ Ha) as (E & Hap & He & Hs).
  assert (exists l, drop q buf = (match t with Word (c :: _) => c | Sym c => c | App => 62 | _ => 0 end) :: l) as [l El].
  { destruct t as [[|c w]|c|]; [by destruct Hap| | |]; eexists; exact E. }
  apply drop_cons in El as (_ & El & _). rewrite El. destruct t as [[|c w]|c|]; cbn -[lit].
  - by destruct Hap.
  - destruct Hap as (_ & Hw & _). apply Forall_cons in Hw as [[Hc _] _]. apply is_word_ws in Hc as [_ Hc].
    rewrite andb_false_iff. right. apply strchr_out. auto.
  - destruct Hap as [Hc _]. apply symbol_ws in Hc as (_ & _ & Hc). by rewrite (proj2 (Z.eqb_neq c 0)).
  - done.
Qed.

(** ** Parsing tokens *)
Definition parses (m : M nat (cmd span)) (s : nat) (c : cmd (list Z)) (ts : list token) : Prop :=
  exists p s', m s = Ok p s' /\ cmd_map chars p = c /\ spans is_span p /\ reads s' ts.

Definition stop (toks : string) (ts : list token) : Prop := ts = [] \/ starts toks ts = true.

Lemma stop_not toks toks' ts : stop toks ts -> (forall c, c ∈ lit toks -> c ∉ lit toks') -> starts toks' ts = false.
Proof.
  intros [->|H] Hd; [done|]. destruct ts as [|[w|c|] ts]; cbn in *; [done..| |]; apply strchr_out, Hd; by apply strchr_in.
Qed.

Lemma stop_more toks toks' ts : stop toks ts -> (forall c, c ∈ lit toks -> c ∈ lit toks') -> stop toks' ts.
Proof.
  intros [->|H] Hd; [by left|right]. destruct ts as [|[w|c|] ts]; cbn in *; [done..| |]; apply strchr_in, Hd; by apply strchr_in.
Qed.

Lemma spells_length ts l : spells ts l -> (length ts <= length l)%nat.
Proof.
  induction 1 as [|c ts s Hc Hs IH|t ts s Ht Hs IH]; cbn; [lia..|]. rewrite length_app.
  destruct t as [[|c w]|c|]; cbn; [by destruct Ht|lia..].
Qed.

Lemma reads_length s ts : reads s ts -> (length ts <= es - s)%nat.
Proof. intros [Hs H]. apply spells_length in H. by rewrite length_drop in H. Qed.

(** Redirections: the token and the file. *)
Definition rtok (tok : Z) : token := if tok =? 43 then App else Sym tok.
Definition rtoks (rs : list (Z * list Z)) : list token := flat_map (fun r => [rtok r.1; Word r.2]) rs.
Definition wrap_redirs {W} (c : cmd W) (rs : list (Z * W)) : cmd W :=
  foldl (fun c r => REDIR c r.2 (redir_mode r.1).1 (redir_mode r.1).2) c rs.
Definition redir_ok (r : Z * list Z) : Prop := r.1 = 60 \/ r.1 = 62 \/ r.1 = 43.

Ltac symbols_in := let c := fresh in let H := fresh in intros c H; vm_compute in H |- *; set_solver.

Lemma peek_step {A} toks s ts (k : bool -> M nat A) : (forall c, c ∈ lit toks -> c ∈ symbols) -> reads s ts ->
  exists s', reads s' ts /\ bind (peek buf toks) k s = k (starts toks ts) s'.
Proof. intros Ht H. destruct (peek_reads toks s ts Ht H) as (s' & E & H'). exists s'. split; [done|]. by apply bind_Ok. Qed.

Lemma redirs_in c : c ∈ lit "<>" -> c ∈ symbols. Proof. revert c. symbols_in. Qed.
Lemma execs_in c : c ∈ lit "|)&;" -> c ∈ symbols. Proof. revert c. symbols_in. Qed.
Lemma back_in c : c ∈ lit "&" -> c ∈ symbols. Proof. revert c. symbols_in. Qed.
Lemma list_in c : c ∈ lit ";" -> c ∈ symbols. Proof. revert c. symbols_in. Qed.
Lemma pipe_in c : c ∈ lit "|" -> c ∈ symbols. Proof. revert c. symbols_in. Qed.
Lemma open_in c : c ∈ lit "(" -> c ∈ symbols. Proof. revert c. symbols_in. Qed.
Lemma close_in c : c ∈ lit ")" -> c ∈ symbols. Proof. revert c. symbols_in. Qed.

(** Run a [peek] or a [gettoken] in front of the tokens [H] gives. *)
Ltac step_peek lem H s' H' :=
  lazymatch type of H with reads ?s ?ts =>
    lazymatch goal with |- context [bind (peek buf ?toks) ?k s] =>
      let E := fresh in destruct (peek_step toks s ts k lem H) as (s' & H' & E); rewrite E; clear E
    end
  end.
Ltac step_token H w s' H' Hw :=
  let E := fresh in destruct (gettoken_reads _ _ _ H) as (w & s' & E & H' & Hw); erewrite bind_Ok by exact E; clear E.

Lemma parseredirs_reads rs : forall p fuel s ts, Forall redir_ok rs -> reads s (rtoks rs ++ ts) -> starts "<>" ts = false ->
  (length rs < fuel)%nat -> spans is_span p ->
  exists p' s', parseredirs buf p fuel s = Ok p' s' /\ reads s' ts /\ spans is_span p' /\
    cmd_map chars p' = wrap_redirs (cmd_map chars p) rs /\ (rs = [] -> p' = p).
Proof.
  induction rs as [|[tok file] rs IH]; intros p [|f] s ts Hr H Hs Hf Hp; cbn [length] in Hf; try lia; cbn [parseredirs].
  - cbn in H. step_peek redirs_in H s' H'. rewrite Hs. by exists p, s'.
  - apply Forall_cons in Hr as [Hr Hrs].
    step_peek redirs_in H s1 H1.
    assert (starts "<>" (rtoks ((tok, file) :: rs) ++ ts) = true /\ code (rtok tok) = tok) as [-> Hc].
    { unfold redir_ok in Hr. cbn in Hr. by destruct Hr as [->|[->| ->]]. }
    cbn in H1. step_token H1 w s2 H2 Hw0. rewrite Hc. step_token H2 w' s3 H3 Hw. cbn [code]. change (negb (97 =? 97)) with false. cbv iota.
    destruct (Hw file eq_refl) as [Hw1 Hw2].
    destruct (IH (REDIR p w' (redir_mode tok).1 (redir_mode tok).2) f s3 ts Hrs H3 Hs ltac:(lia) (conj Hp Hw1)) as (p' & s' & E & H' & Hp' & Hm & _).
    exists p', s'. split; [done|]. split; [done|]. split; [done|]. split; [|done]. rewrite Hm. cbn. by rewrite Hw2.
Qed.

Lemma exec_stop p argc fuel s ts : stop "|)&;" ts -> reads s ts ->
  exists s', exec_loop buf p argc (S fuel) s = Ok p s' /\ reads s' ts.
Proof.
  intros Hs H. cbn [exec_loop]. step_peek execs_in H s1 H1. destruct Hs as [->|Hs]; [|rewrite Hs; by exists s1].
  cbn [starts]. destruct (gettoken_end _ H1) as (w & E). erewrite bind_Ok by exact E. change (0 =? 0) with true. cbv iota.
  exists es. split; [done|]. split; [done|]. rewrite drop_ge by (unfold Sh.es; lia). apply spells_nil.
Qed.

(** The words of a command, and the redirections after the last of them. *)
Lemma exec_words ws : forall args argc fuel s ts rs, ws <> [] -> Forall redir_ok rs -> stop "|)&;" ts ->
  reads s ((Word <$> ws) ++ rtoks rs ++ ts) -> Forall is_span args -> (argc + length ws < MAXARGS)%nat -> (length ws < fuel)%nat ->
  parses (exec_loop buf (EXEC args) argc fuel) s (wrap_redirs (EXEC ((chars <$> args) ++ ws)) rs) ts.
Proof.
  induction ws as [|w ws IH]; intros args argc [|f] s ts rs Hne Hr Hs H Ha Hn Hf; [done|done|cbn in Hf; lia|]. cbn in Hn, Hf.
  unfold parses. cbn [exec_loop]. step_peek execs_in H s1 H1. cbn [fmap list_fmap app starts] in *. step_token H1 sp s2 H2 Hw. cbn [code].
  change (97 =? 0) with false. change (negb (97 =? 97)) with false. cbv iota. rewrite (proj2 (Nat.leb_gt _ _)) by lia.
  destruct (Hw w eq_refl) as [Hw1 Hw2].
  assert (starts "<>" ts = false) as Hst by (eapply stop_not; [done|]; intros c Hc; vm_compute in Hc |- *; set_solver).
  pose proof (reads_length _ _ H2) as Hl. rewrite !length_app in Hl.
  assert (Forall is_span (args ++ [sp])) as Ha' by (by apply Forall_app; split; [|constructor]).
  destruct ws as [|w' ws].
  - assert (length rs <= length (rtoks rs))%nat as Hrl.
    { clear. induction rs as [|r rs IH]; cbn; [done|]. unfold rtoks in IH. lia. }
    destruct (parseredirs_reads rs (EXEC (args ++ [sp])) (S es) s2 ts Hr H2 Hst ltac:(lia) Ha') as (p & s3 & E3 & H3 & Hp & Hm & _).
    erewrite bind_Ok by exact E3. destruct f as [|f]; [cbn in Hf; lia|].
    destruct (exec_stop p (S argc) f s3 ts Hs H3) as (s4 & E4 & H4). exists p, s4. split; [done|]. split; [|done].
    rewrite Hm. cbn. rewrite fmap_app. cbn. by rewrite Hw2.
  - destruct (parseredirs_reads [] (EXEC (args ++ [sp])) (S es) s2 ((Word <$> (w' :: ws)) ++ rtoks rs ++ ts)) as (p & s3 & E3 & H3 & _ & _ & Hp); [done..|cbn; lia|done|].
    erewrite bind_Ok by exact E3. rewrite (Hp eq_refl).
    destruct (IH (args ++ [sp]) (S argc) f s3 ts rs) as (p' & s' & E & Hm & Hp' & H'); [done..|cbn in *; lia|cbn in *; lia|].
    exists p', s'. split; [done|]. split; [|done]. rewrite Hm, fmap_app. cbn. by rewrite Hw2, <- (assoc_L (++)).
Qed.

Lemma length_rtoks rs : length (rtoks rs) = (2 * length rs)%nat.
Proof. induction rs as [|r rs IH]; cbn; [done|]. unfold rtoks in IH. lia. Qed.

Lemma stop_redirs ts : stop "|)&;" ts -> starts "<>" ts = false /\ starts "(" ts = false.
Proof. intros Hs. split; (eapply stop_not; [done|]); intros c Hc; vm_compute in Hc |- *; set_solver. Qed.

(** A simple command with its redirections. *)
Lemma parseexec_simple ws rs f s ts : (length ws < MAXARGS)%nat -> Forall redir_ok rs -> stop "|)&;" ts ->
  reads s ((Word <$> ws) ++ rtoks rs ++ ts) -> parses (parseexec buf (S f)) s (wrap_redirs (EXEC ws) rs) ts.
Proof.
  intros Hn Hr Hs H. destruct (stop_redirs _ Hs) as [Hst Hop]. unfold parses. cbn [parseexec]. step_peek open_in H s1 H1.
  pose proof (reads_length _ _ H1) as Hl. rewrite !length_app, length_rtoks, length_fmap in Hl.
  assert (starts "(" ((Word <$> ws) ++ rtoks rs ++ ts) = false) as ->.
  { destruct ws; [|done]. destruct rs as [|[tok file] rs]; [done|]. apply Forall_cons in Hr as [Hr _]. unfold redir_ok in Hr. cbn in Hr.
    by destruct Hr as [->|[->| ->]]. }
  destruct ws as [|w ws].
  - destruct (parseredirs_reads rs (EXEC []) (S es) s1 ts Hr H1 Hst ltac:(lia)) as (p & s2 & E2 & H2 & Hp & Hm & _); [by constructor|].
    erewrite bind_Ok by exact E2. destruct (exec_stop p 0 es s2 ts Hs H2) as (s3 & E3 & H3). by exists p, s3.
  - destruct (parseredirs_reads [] (EXEC []) (S es) s1 ((Word <$> (w :: ws)) ++ rtoks rs ++ ts)) as (p & s2 & E2 & H2 & _ & _ & Hp); [by constructor|done|done|cbn; lia|by constructor|].
    erewrite bind_Ok by exact E2. rewrite (Hp eq_refl). apply (exec_words (w :: ws) []); auto. cbn in *; lia.
Qed.

(** A line in parentheses with its redirections. *)
Lemma parseexec_block c rs f s ts l : Forall redir_ok rs -> stop "|)&;" ts ->
  (forall s, reads s (l ++ Sym 41 :: rtoks rs ++ ts) -> parses (parseline buf f) s c (Sym 41 :: rtoks rs ++ ts)) ->
  reads s (Sym 40 :: l ++ Sym 41 :: rtoks rs ++ ts) -> parses (parseexec buf (S (S f))) s (wrap_redirs c rs) ts.
Proof.
  intros Hr Hs IH H. destruct (stop_redirs _ Hs) as [Hst _]. unfold parses. cbn [parseexec]. step_peek open_in H s1 H1.
  change (starts "(" (Sym 40 :: l ++ Sym 41 :: rtoks rs ++ ts)) with true. cbv iota. cbn [parseblock]. step_peek open_in H1 s2 H2.
  change (starts "(" (Sym 40 :: l ++ Sym 41 :: rtoks rs ++ ts)) with true. cbn [negb]. step_token H2 w s3 H3 Hw.
  destruct (IH s3 H3) as (p & s4 & E4 & Hm & Hp & H4). erewrite bind_Ok by exact E4. step_peek close_in H4 s5 H5.
  change (starts ")" (Sym 41 :: rtoks rs ++ ts)) with true. cbn [negb]. step_token H5 w' s6 H6 Hw'.
  pose proof (reads_length _ _ H6) as Hlen. rewrite length_app, length_rtoks in Hlen.
  destruct (parseredirs_reads rs p (S es) s6 ts Hr H6 Hst ltac:(lia) Hp) as (p' & s7 & E7 & H7 & Hp' & Hm' & _).
  exists p', s7. split; [done|]. split; [|done]. by rewrite Hm', Hm.
Qed.

(** ** The levels of the grammar *)
Fixpoint csize {W} (c : cmd W) : nat :=
  match c with
  | EXEC _ => 1
  | REDIR c _ _ _ | BACK c => S (csize c)
  | PIPE a b | LIST a b => S (csize a + csize b)
  end.

Definition simple {W} (c : cmd W) : bool := match c with EXEC _ | REDIR _ _ _ _ => true | _ => false end.

Lemma unredir c : shell_cmd c -> exists b rs, c = wrap_redirs b rs /\ Forall redir_ok rs /\ shell_cmd b /\
  show LExec c = show LExec b ++ rtoks rs /\ (csize b + length rs = csize c)%nat /\ match b with REDIR _ _ _ _ => False | _ => True end.
Proof.
  induction c as [argv|c IH file mode fd|a IHa b IHb|a IHa b IHb|c IH]; intros Hc; try (eexists _, []; rewrite app_nil_r; cbn; by auto 10).
  destruct Hc as [Hc (tok & Ht & Em)]. destruct (IH Hc) as (b & rs & -> & Hr & Hb & Hs & Hl & Hn). exists b, (rs ++ [(tok, file)]).
  split; [|split; [|split; [done|split; [|split; [|done]]]]].
  - unfold wrap_redirs. rewrite foldl_app. cbn. by rewrite <- Em.
  - apply Forall_app. split; [done|]. by apply Forall_singleton.
  - cbn [show]. rewrite Hs, <- (assoc_L (++)). f_equal. unfold rtoks. rewrite flat_map_app. f_equal. cbn.
    assert (redir_tok mode = rtok tok) as ->; [|done]. by destruct Ht as [->|[->| ->]]; injection Em as -> _.
  - rewrite length_app. cbn. lia.
Qed.

Lemma unback {W} (c : cmd W) : exists k b, c = Nat.iter k BACK b /\ (csize b + k = csize c)%nat /\ match b with BACK _ => False | _ => True end.
Proof.
  induction c as [argv|c IH file mode fd|a IHa b IHb|a IHa b IHb|c IH]; try (by eexists 0%nat, _).
  destruct IH as (k & b & -> & Hs & Hb). exists (S k), b. split; [done|]. split; [cbn; lia|done].
Qed.

Lemma show_back k b : match b with BACK _ => False | _ => True end ->
  show LBack (Nat.iter k BACK b) = show LPipe b ++ replicate k (Sym 38) /\ show LLine (Nat.iter k BACK b) = match k, b with O, LIST _ _ => show LLine b | _, _ => show LPipe b ++ replicate k (Sym 38) end.
Proof.
  intros Hb. assert (show LBack (Nat.iter k BACK b) = show LPipe b ++ replicate k (Sym 38)) as H.
  { induction k as [|k IH]; [rewrite app_nil_r; by destruct b|]. change (Nat.iter (S k) BACK b) with (BACK (Nat.iter k BACK b)). cbn [show paren]. rewrite IH, <- (assoc_L (++)). f_equal.
    symmetry. apply (replicate_S_end k). }
  split; [done|]. destruct k as [|k]; [cbn; rewrite app_nil_r; by destruct b|]. rewrite <- H. done.
Qed.

Lemma show_paren b : simple b = false -> show LExec b = Sym 40 :: show LLine b ++ [Sym 41].
Proof. by destruct b. Qed.

Definition PL (c : cmd (list Z)) : Prop := forall f s ts, stop ")" ts -> (4 * length (show LLine c ++ ts) + 4 <= f)%nat ->
  reads s (show LLine c ++ ts) -> parses (parseline buf f) s c ts.
Definition PP (c : cmd (list Z)) : Prop := forall f s ts, stop ")&;" ts -> (4 * length (show LPipe c ++ ts) + 3 <= f)%nat ->
  reads s (show LPipe c ++ ts) -> parses (parsepipe buf f) s c ts.
Definition PE (c : cmd (list Z)) : Prop := forall f s ts, stop "|)&;" ts -> (4 * length (show LExec c ++ ts) + 2 <= f)%nat ->
  reads s (show LExec c ++ ts) -> parses (parseexec buf f) s c ts.

Lemma pe_block b rs : simple b = false -> Forall redir_ok rs -> PL b ->
  forall f s ts, stop "|)&;" ts -> (4 * length (show LExec b ++ rtoks rs ++ ts) + 2 <= f)%nat ->
  reads s (show LExec b ++ rtoks rs ++ ts) -> parses (parseexec buf f) s (wrap_redirs b rs) ts.
Proof.
  intros Hb Hr IH f s ts Hs Hf H. rewrite show_paren in * by done. cbn [app] in *. rewrite <- (assoc_L (++)) in *. cbn [app] in *.
  rewrite length_cons in Hf. destruct f as [|[|f]]; [lia..|].
  eapply parseexec_block; [done..| |exact H]. intros s' H'. apply IH; [by right|lia|done].
Qed.

Lemma pe_simple c : simple c = true -> shell_cmd c -> (forall c', (csize c' < csize c)%nat -> shell_cmd c' -> PL c') -> PE c.
Proof.
  intros Hc Hok IH. destruct (unredir c Hok) as (b & rs & -> & Hr & Hb & Hs & Hl & Hn). intros f s ts Hst Hf H.
  rewrite Hs, <- (assoc_L (++)) in *. destruct (simple b) eqn:Eb.
  - destruct b as [ws| | | |]; try done. destruct f as [|f]; [lia|]. by apply parseexec_simple.
  - apply pe_block; [done..| |done|done|done]. apply IH; [|done]. rewrite <- Hl. destruct rs; [cbn in Hc; congruence|cbn; lia].
Qed.

Lemma pe_paren c : simple c = false -> PL c -> PE c.
Proof. intros Hc HL f s ts. apply (pe_block c [] Hc); [by constructor|done]. Qed.

Lemma pp_exec c : show LPipe c = show LExec c -> PE c -> PP c.
Proof.
  intros Es HE [|f] s ts Hs Hf H; [lia|]. rewrite Es in *. unfold parses. cbn [parsepipe].
  destruct (HE f s ts) as (p & s1 & E1 & Hm & Hp & H1); [|lia|done|].
  { eapply stop_more; [done|]. intros c' Hc'. vm_compute in Hc' |- *. set_solver. }
  erewrite bind_Ok by exact E1. step_peek pipe_in H1 s2 H2.
  rewrite (stop_not ")&;") by (done || (intros c' Hc'; vm_compute in Hc' |- *; set_solver)). by exists p, s2.
Qed.

Lemma pp_pipe a b : PE a -> PP b -> PP (PIPE a b).
Proof.
  intros HE HP [|f] s ts Hs Hf H; [lia|]. cbn [show paren] in *. rewrite <- (assoc_L (++)) in *. cbn [app] in *.
  rewrite length_app, length_cons in Hf. unfold parses. cbn [parsepipe].
  destruct (HE f s (Sym 124 :: show LPipe b ++ ts)) as (p & s1 & E1 & Hm & Hp & H1); [by right|rewrite length_app, length_cons; lia|done|].
  erewrite bind_Ok by exact E1. step_peek pipe_in H1 s2 H2. change (starts "|" (Sym 124 :: show LPipe b ++ ts)) with true. cbv iota.
  step_token H2 w s3 H3 Hw. destruct (HP f s3 ts) as (p' & s4 & E4 & Hm' & Hp' & H4); [done|lia|done|].
  erewrite bind_Ok by exact E4. exists (PIPE p p'), s4. split; [done|]. split; [cbn; by rewrite Hm, Hm'|done].
Qed.

Lemma back_reads k : forall p fuel s ts, starts "&" ts = false -> (k < fuel)%nat -> reads s (replicate k (Sym 38) ++ ts) ->
  exists s', back_loop buf p fuel s = Ok (Nat.iter k BACK p) s' /\ reads s' ts.
Proof.
  induction k as [|k IH]; intros p [|f] s ts Hs Hf H; try lia; cbn [back_loop]; step_peek back_in H s1 H1.
  - cbn [replicate app] in *. rewrite Hs. by exists s1.
  - cbn [replicate app] in *. change (starts "&" (Sym 38 :: replicate k (Sym 38) ++ ts)) with true. cbv iota. step_token H1 w s2 H2 Hw.
    destruct (IH (BACK p) f s2 ts Hs ltac:(lia) H2) as (s' & E & H'). exists s'. unfold backcmd. rewrite E. split; [|done].
    by rewrite <- Nat.iter_succ_r.
Qed.

Lemma iter_back_map k p c : cmd_map chars p = c -> spans is_span p ->
  cmd_map chars (Nat.iter k BACK p) = Nat.iter k BACK c /\ spans is_span (Nat.iter k BACK p).
Proof. intros <- Hp. induction k as [|k [IH IH']]; [done|]. split; [exact (f_equal BACK IH)|exact IH']. Qed.

(** The start of [parseline]: a pipeline and its ampersands. *)
Lemma line_head k b f s ts (K : cmd span -> M nat (cmd span)) : PP b -> stop ");" ts ->
  (4 * length (show LPipe b ++ replicate k (Sym 38) ++ ts) + 3 <= f)%nat -> reads s (show LPipe b ++ replicate k (Sym 38) ++ ts) ->
  exists p s', bind (parsepipe buf f) (fun c => bind (back_loop buf c (S es)) K) s = K p s' /\
    cmd_map chars p = Nat.iter k BACK b /\ spans is_span p /\ reads s' ts.
Proof.
  intros HP Hs Hf H. destruct (HP f s (replicate k (Sym 38) ++ ts)) as (p & s1 & E1 & Hm & Hp & H1); [|done|done|].
  { destruct k; [|by right]. eapply stop_more; [exact Hs|]. intros c Hc. vm_compute in Hc |- *. set_solver. }
  erewrite bind_Ok by exact E1. pose proof (reads_length _ _ H1) as Hl. rewrite length_app, length_replicate in Hl.
  destruct (back_reads k p (S es) s1 ts) as (s2 & E2 & H2); [|lia|done|].
  { eapply stop_not; [exact Hs|]. intros c Hc. vm_compute in Hc |- *. set_solver. }
  erewrite bind_Ok by exact E2. destruct (iter_back_map k p b Hm Hp) as [Hm' Hp']. by exists (Nat.iter k BACK p), s2.
Qed.

Lemma pl_head k b : PP b -> match b with BACK _ => False | _ => True end -> (forall x y, b = LIST x y -> (0 < k)%nat) -> PL (Nat.iter k BACK b).
Proof.
  intros HP Hb Hk [|f] s ts Hs Hf H; [lia|].
  assert (show LLine (Nat.iter k BACK b) = show LPipe b ++ replicate k (Sym 38)) as Es.
  { rewrite (proj2 (show_back k b Hb)). destruct k; [|done]. destruct b; try done. specialize (Hk _ _ eq_refl). lia. }
  rewrite Es, <- (assoc_L (++)) in *. unfold parses. cbn [parseline].
  edestruct (line_head k b f s ts) as (p & s1 & E1 & Hm & Hp & H1); [done| |lia|done|].
  { eapply stop_more; [exact Hs|]. intros c Hc. vm_compute in Hc |- *. set_solver. }
  rewrite E1. step_peek list_in H1 s2 H2. rewrite (stop_not ")") by (done || (intros c' Hc'; vm_compute in Hc' |- *; set_solver)).
  by exists p, s2.
Qed.

Lemma pl_list k b r : PP b -> match b with BACK _ => False | _ => True end -> PL r -> PL (LIST (Nat.iter k BACK b) r).
Proof.
  intros HP Hb HL [|f] s ts Hs Hf H; [lia|]. cbn [show paren] in *. rewrite (proj1 (show_back k b Hb)) in *.
  rewrite <- !(assoc_L (++)) in *. cbn [app] in *. rewrite !length_app, length_cons, length_app in Hf. unfold parses. cbn [parseline].
  edestruct (line_head k b f s (Sym 59 :: show LLine r ++ ts)) as (p & s1 & E1 & Hm & Hp & H1); [done|by right|rewrite !length_app, length_cons, length_app; lia|done|].
  rewrite E1. step_peek list_in H1 s2 H2. change (starts ";" (Sym 59 :: show LLine r ++ ts)) with true. cbv iota.
  step_token H2 w s3 H3 Hw. destruct (HL f s3 ts) as (p' & s4 & E4 & Hm' & Hp' & H4); [done|rewrite length_app; lia|done|].
  erewrite bind_Ok by exact E4. exists (LIST p p'), s4. split; [done|]. split; [cbn; by rewrite Hm, Hm'|done].
Qed.

Lemma shell_back k b : shell_cmd (Nat.iter k BACK b) -> shell_cmd b.
Proof. induction k as [|k IH]; [done|]. apply IH. Qed.

Lemma levels n : forall c, (csize c <= n)%nat -> shell_cmd c -> PL c /\ PP c /\ PE c.
Proof.
  induction n as [|n IH]; intros c Hn Hc; [destruct c; cbn in Hn; lia|].
  assert (forall c', (csize c' < csize c)%nat -> shell_cmd c' -> PL c' /\ PP c' /\ PE c') as IHc by (intros; apply IH; [lia|done]).
  assert (forall b, (csize b <= csize c)%nat -> shell_cmd b -> match b with BACK _ => False | LIST _ _ => (csize b < csize c)%nat | _ => True end -> PP b) as Hpp.
  { intros b Hl Hb Hs. destruct (simple b) eqn:Eb.
    - apply pp_exec; [by destruct b|]. apply pe_simple; [done..|]. intros. apply IHc; [lia|done].
    - destruct b as [| |x y|x y|]; try done; [|by apply IHc]. destruct Hb. cbn in Hl. apply pp_pipe; apply IHc; (lia || done). }
  assert (PL c) as HL.
  { destruct c as [argv|c0 file mode fd|x y|x y|c0] eqn:Ec; rewrite <- Ec in *.
    4: { destruct (unback x) as (k & b & Ex & Hl & Hb). rewrite Ec in *. cbn in Hc, Hn, Hpp, IHc. destruct Hc as [Hx Hy]. rewrite Ex in Hx |- *. apply shell_back in Hx.
         apply pl_list; [|done|apply IHc; (lia || done)]. apply Hpp; [lia|done|]. destruct b; (done || lia). }
    all: destruct (unback c) as (k & b & Ex & Hl & Hb); rewrite Ex in Hc; apply shell_back in Hc; rewrite Ex; apply pl_head; [|done|].
    all: try (intros ? ? ->; destruct k; [rewrite Ec in Ex; discriminate Ex|lia]).
    all: apply Hpp; [lia|done|]; destruct b; try done; destruct k; [rewrite Ec in Ex; discriminate Ex|lia]. }
  assert (PE c) as HE.
  { destruct (simple c) eqn:Es; [|by apply pe_paren]. apply pe_simple; [done..|]. intros. by apply IHc. }
  split; [done|]. split; [|done]. destruct c as [| |x y|x y|c0]; try (by apply pp_exec). apply Hpp; (done || lia).
Qed.

(** A line that spells a command. *)
Lemma parse_reads c : shell_cmd c -> spells (show LLine c) buf ->
  exists p, parse buf 0%nat = Ok p es /\ cmd_map chars p = c /\ spans is_span p.
Proof.
  intros Hc Hs. destruct (levels (csize c) c (Nat.le_refl _) Hc) as [HL _].
  assert (reads 0 (show LLine c ++ [])) as H by (rewrite app_nil_r; split; [lia|done]).
  pose proof (reads_length _ _ H). destruct (HL (4 * es + 4)%nat 0%nat []) as (p & s1 & E1 & Hm & Hp & H1); [by left|lia|done|].
  unfold parse. erewrite bind_Ok by exact E1. destruct (peek_reads "" s1 [] ltac:(intros ? Hx; vm_compute in Hx; set_solver) H1) as (s2 & E2 & H2).
  erewrite bind_Ok by exact E2. rewrite peek_eq in E2. injection E2 as _ E2. erewrite bind_Ok by reflexivity. pose proof (ahead_nil _ (reads_ahead _ _ H1)) as [Ee _].
  subst s2. rewrite Ee, Nat.eqb_refl. by exists p.
Qed.
End Reads.

(** ** The strings of the parsed command *)
Fixpoint ends (c : cmd span) : list nat :=
  match c with
  | EXEC argv => snd <$> argv
  | REDIR c file _ _ => ends c ++ [snd file]
  | PIPE a b | LIST a b => ends a ++ ends b
  | BACK c => ends c
  end.

Definition put_nuls (l : list nat) (b : list Z) : list Z := foldl (fun b i => <[i := 0]> b) b l.

Lemma nulterminate_ends c b : nulterminate c b = put_nuls (ends c) b.
Proof.
  unfold put_nuls. revert b. induction c as [argv|c IH file mode fd|x IHx y IHy|x IHx y IHy|c IH]; intros b; cbn; rewrite ?foldl_app; cbn; auto.
  - revert b. induction argv as [|w argv IH]; intros b; cbn; auto.
  - by rewrite IH.
  - by rewrite IHy, IHx.
  - by rewrite IHy, IHx.
Qed.

Lemma put_nuls_in l b i : i ∈ l -> (i < length b)%nat -> put_nuls l b !! i = Some 0.
Proof.
  unfold put_nuls. revert b. induction l as [|j l IH] using rev_ind; intros b Hi Hb; [set_solver|]. rewrite foldl_app. cbn.
  assert (length (foldl (fun b i => <[i:=0]> b) b l) = length b) as Hl.
  { clear. revert b. induction l as [|j l IH]; intros b; cbn; [done|]. by rewrite IH, length_insert. }
  destruct (decide (j = i)) as [->|Hne]; [apply list_lookup_insert_eq; lia|]. rewrite list_lookup_insert_ne by done. apply IH; [set_solver|done].
Qed.

Lemma put_nuls_out l b i : i ∉ l -> put_nuls l b !! i = b !! i.
Proof.
  unfold put_nuls. revert b. induction l as [|j l IH]; intros b Hi; cbn; [done|]. apply not_elem_of_cons in Hi as [Hj Hi].
  rewrite IH by done. by apply list_lookup_insert_ne.
Qed.

(** Property of the words of a command. *)
Lemma spans_ends P c : spans P c -> forall i, i ∈ ends c -> exists w, P w /\ snd w = i.
Proof.
  induction c as [argv|c IH file mode fd|x IHx y IHy|x IHx y IHy|c IH]; cbn; intros H i Hi.
  - apply list_elem_of_fmap in Hi as (w & -> & Hw). exists w. split; [|done]. by eapply Forall_forall in H.
  - destruct H as [H Hf]. apply elem_of_app in Hi as [Hi|Hi]; [auto|]. apply list_elem_of_singleton in Hi as ->. eauto.
  - destruct H. apply elem_of_app in Hi as [Hi|Hi]; auto.
  - destruct H. apply elem_of_app in Hi as [Hi|Hi]; auto.
  - auto.
Qed.

Lemma map_spans (P : span -> Prop) (f g : span -> list Z) c : spans P c -> (forall w, P w -> snd w ∈ ends c -> f w = g w) -> cmd_map f c = cmd_map g c.
Proof.
  induction c as [argv|c IH file mode fd|x IHx y IHy|x IHx y IHy|c IH]; cbn; intros Hs Hf.
  - f_equal. apply list_fmap_ext. intros i w Hw. apply Hf.
    + eapply Forall_lookup_1; eauto.
    + apply list_elem_of_fmap_2. by eapply list_elem_of_lookup_2.
  - destruct Hs. rewrite IH, (Hf file); set_solver.
  - destruct Hs. rewrite IHx, IHy; set_solver.
  - destruct Hs. rewrite IHx, IHy; set_solver.
  - rewrite IH; auto.
Qed.

(** After [nulterminate], the C string at the start of a word is the word. *)
Lemma nul_string buf p w : spans (is_span buf) p -> is_span buf w -> snd w ∈ ends p ->
  CStringFacts.cstr (drop (fst w) (nulterminate p (buf ++ [0]))) = chars buf w.
Proof.
  intros Hp (Hw & Hc & He) Hin. rewrite nulterminate_ends. destruct w as [q e]. cbn [fst snd] in *. unfold es in *.
  set (b := put_nuls (ends p) (buf ++ [0])).
  assert (forall i, (q <= i < e)%nat -> b !! i = buf !! i) as Hin'.
  { intros i Hi. unfold b. rewrite put_nuls_out; [by rewrite lookup_app_l by lia|]. intros Hx.
    destruct (spans_ends _ _ Hp i Hx) as ([q' e'] & (Hw' & _ & He') & Hs). cbn in Hs, Hw', He'. subst e'. unfold es in *.
    assert (chars buf (q, e) !! (i - q)%nat = Some (at_ buf i)) as Hl.
    { unfold chars. cbn. rewrite lookup_take_lt, lookup_drop by lia. replace (q + (i - q))%nat with i by lia. unfold at_. rewrite nth_lookup.
      by destruct (lookup_lt_is_Some_2 buf i ltac:(lia)) as [x ->]. }
    eapply Forall_lookup_1 in Hc as [Hc _]; [|exact Hl]. rewrite He' in Hc by lia. done. }
  assert (b !! e = Some 0) as He0 by (apply put_nuls_in; [done|]; rewrite length_app; cbn; lia).
  assert (drop q b = chars buf (q, e) ++ 0 :: drop (S e) b) as ->.
  { rewrite <- (drop_S b 0 e He0). replace (drop e b) with (drop (e - q) (drop q b)) by (rewrite drop_drop; f_equal; lia).
    rewrite <- (take_drop (e - q) (drop q b)) at 1. f_equal. unfold chars. cbn. apply list_eq. intros i.
    destruct (decide (i < e - q)%nat); [|by rewrite !lookup_take_ge by lia]. rewrite !lookup_take_lt, !lookup_drop by lia. apply Hin'. lia. }
  clear -Hc. induction (chars buf (q, e)) as [|c l IH]; [done|]. apply Forall_cons in Hc as [[_ H0] Hc]. cbn [app].
  rewrite CStringFacts.cstr_cons_nz by done. by rewrite IH.
Qed.

Lemma parsecmd_parses c s : shell_cmd c -> spells (show LLine c) s ->
  exists p b, parsecmd s = Ok (p, b) (length s) /\ with_strings b p = c.
Proof.
  intros Hc Hs. destruct (parse_reads s c Hc Hs) as (p & E & Hm & Hp). unfold parsecmd. rewrite E.
  eexists _, _. split; [reflexivity|]. rewrite <- Hm. unfold with_strings. apply (map_spans _ _ _ p Hp). intros w Hw Hin. by apply nul_string.
Qed.

(** C21: A line that spells a command, with any white space between its tokens, is parsed as
    that command: the shell's parser inverts the grammar, with pipes, lists, background
    commands, parentheses and redirections, and after [nulterminate] the C strings of the
    result are the words of the line. *)
Theorem parsecmd_roundtrip c s : shell_cmd c -> spells (show LLine c) s ->
  exists p b, parsecmd s = Ok (p, b) (length s) /\ with_strings b p = c.
Proof. apply parsecmd_parses. Qed.

Ltac spell :=
  lazymatch goal with
  | |- apart (Word _) _ => split; [discriminate|]; split; [repeat (constructor; [split; [reflexivity|discriminate]|]); constructor|intros ? [= <-]; reflexivity]
  | |- apart (Sym _) _ => split; [apply strchr_in; reflexivity|discriminate]
  | |- apart App _ => exact I
  end.

Ltac spell_next :=
  lazymatch goal with
  | |- spells [] [] => exact spells_nil
  | |- spells ?ts (?c :: ?l) =>
      first [ apply spells_ws; [reflexivity|]
            | lazymatch ts with ?t :: ?ts' =>
                let n := eval vm_compute in (drop (length (text t)) (c :: l)) in apply (spells_tok t ts' n); [spell|]
              end ]
  end.

(** [(ls -l|wc)>out;echo done&] with some blanks. *)
Definition demo_line : list Z := lit " (ls -l|wc )>out; echo  done&".
Definition demo_cmd : cmd (list Z) :=
  LIST (REDIR (PIPE (EXEC [lit "ls"; lit "-l"]) (EXEC [lit "wc"])) (lit "out") 1537 1) (BACK (EXEC [lit "echo"; lit "done"])).

Lemma demo_shell_cmd : shell_cmd demo_cmd.
Proof. cbn. repeat split; try (vm_compute; lia). exists 62. split; [tauto|done]. Qed.

Lemma demo_spelled : spells (show LLine demo_cmd) demo_line.
Proof.
  let l := eval vm_compute in (show LLine demo_cmd) in change (show LLine demo_cmd) with l.
  let l := eval vm_compute in demo_line in change demo_line with l.
  repeat spell_next.
Qed.

Lemma parsecmd_roundtrip_witness : exists p b,
  parsecmd demo_line = Ok (p, b) (length demo_line) /\ with_strings b p = demo_cmd.
Proof. exact (parsecmd_roundtrip demo_cmd demo_line demo_shell_cmd demo_spelled). Defined.
