(* ===== verification/ShRun.v ===== *)
(** * The shell runs what it parsed

    A command denotes programs with their standard input and output; [runcmd] starts
    exactly those, and leaves them no other descriptor than the ones the shell had. *)
From stdpp Require Import base sets list numbers strings.
From Stdlib Require Import ZArith Lia.
From S2P Require Import Prelude Mem Kprintf Syscall Sh ShSpec.
Open Scope Z_scope.

(** The programs of a command with input [i] and output [o]. *)
Fixpoint denote (w : world) (c : cmd (list Z)) (i o : fobj) (node : list bool) : list (list (list Z) * fobj * fobj) :=
  match c with
  | EXEC argv => match argv with [] => [] | _ => [(argv, i, o)] end
  | REDIR c file mode fd =>
      if can_open w file mode then
        if fd =? 0 then denote w c (FFile file mode) o (false :: node) else denote w c i (FFile file mode) (false :: node)
      else []
  | LIST l r => denote w l i o (false :: node) ++ denote w r i o (true :: node)
  | PIPE l r => denote w l i (FPipeW node) (false :: node) ++ denote w r (FPipeR node) o (true :: node)
  | BACK c => denote w c i o (false :: node)
  end.

Definition with_fds (rest : fdtab) (x : list (list Z) * fobj * fobj) : job :=
  mk_job x.1.1 (Some x.1.2 :: Some x.2 :: rest).

(** At least two free descriptors. *)
Definition two_free (rest : fdtab) : Prop := exists a b c, rest = a ++ None :: b ++ None :: c /\ None ∉ a /\ None ∉ b.

Lemma scan_open {A} (a : list (option A)) l k : None ∉ a -> fdalloc_scan (a ++ l) k = fdalloc_scan l (length a + k).
Proof.
  revert k. induction a as [|[x|] a IH]; intros k Ha; cbn; [done| |set_solver]. rewrite IH by set_solver. f_equal. lia.
Qed.

Lemma scan_none {A} (a l : list (option A)) k : None ∉ a -> fdalloc_scan (a ++ None :: l) k = Some (length a + k)%nat.
Proof. intros Ha. by rewrite scan_open. Qed.

Lemma alloc_first f (a l : fdtab) : None ∉ a -> alloc_fd f (a ++ None :: l) = Some (length a, a ++ Some f :: l).
Proof.
  intros Ha. unfold alloc_fd. rewrite scan_none, Nat.add_0_r by done. cbn. by rewrite insert_app_r_alt, Nat.sub_diag by lia.
Qed.

Lemma pipe_two node (t a b c : fdtab) : t = a ++ None :: b ++ None :: c -> None ∉ a -> None ∉ b ->
  pipe_fds node t = Some (length a, (length a + S (length b))%nat, a ++ Some (FPipeR node) :: b ++ Some (FPipeW node) :: c).
Proof.
  intros -> Ha Hb. unfold pipe_fds. rewrite alloc_first by done. cbn [mbind option_bind].
  replace (a ++ Some (FPipeR node) :: b ++ None :: c) with ((a ++ Some (FPipeR node) :: b) ++ None :: c) by (by rewrite <- (assoc_L (++))).
  rewrite alloc_first by set_solver. cbn. rewrite length_app, <- (assoc_L (++)). cbn. done.
Qed.

Lemma insert_at (a l : fdtab) x y : <[length a := x]> (a ++ y :: l) = a ++ x :: l.
Proof. by rewrite insert_app_r_alt, Nat.sub_diag by lia. Qed.

(** Closing both ends of the pipe gives back the table as it was. *)
Lemma close_pipe (a b c : fdtab) x y :
  close_fd (length a + S (length b)) (close_fd (length a) (a ++ x :: b ++ y :: c)) = a ++ None :: b ++ None :: c.
Proof.
  unfold close_fd. rewrite insert_at.
  replace (a ++ None :: b ++ y :: c) with ((a ++ None :: b) ++ y :: c) by (by rewrite <- (assoc_L (++))).
  replace (length a + S (length b))%nat with (length (a ++ None :: b)) by (rewrite length_app; cbn; lia).
  rewrite insert_at. by rewrite <- (assoc_L (++)).
Qed.

Lemma lookup_pipe (a b c : fdtab) x y : (a ++ x :: b ++ y :: c) !! length a = Some x /\
  (a ++ x :: b ++ y :: c) !! (length a + S (length b))%nat = Some y.
Proof.
  split; [by apply list_lookup_middle|].
  replace (a ++ x :: b ++ y :: c) with ((a ++ x :: b) ++ y :: c) by (by rewrite <- (assoc_L (++))).
  apply list_lookup_middle. rewrite length_app. done.
Qed.

Section Plumbing.
Variable w : world.
Hypothesis forks : forall node b, can_fork w node b = true.

(** The two children of a pipe: the end they use replaces descriptor 1 or 0, and both
    ends are closed. *)
Lemma pipe_children node i o (rest : fdtab) : two_free rest -> exists p0 p1 t,
  pipe_fds node (Some i :: Some o :: rest) = Some (p0, p1, t) /\
  close_fd p1 (close_fd p0 (dup_fd p1 (close_fd 1 t))) = Some i :: Some (FPipeW node) :: rest /\
  close_fd p1 (close_fd p0 (dup_fd p0 (close_fd 0 t))) = Some (FPipeR node) :: Some o :: rest.
Proof.
  intros (a & b & c & -> & Ha & Hb). eexists _, _, _.
  split; [apply (pipe_two node _ (Some i :: Some o :: a) b c); [done|set_solver|done]|].
  set (r := FPipeR node). set (v := FPipeW node).
  assert (forall x y : option fobj, let t := x :: y :: a ++ Some r :: b ++ Some v :: c in
            t !! length (Some i :: Some o :: a) = Some (Some r) /\ t !! (length (Some i :: Some o :: a) + S (length b))%nat = Some (Some v)) as Hl.
  { intros x y. exact (lookup_pipe (x :: y :: a) b c (Some r) (Some v)). }
  split.
  - assert (dup_fd (length (Some i :: Some o :: a) + S (length b)) (close_fd 1 ((Some i :: Some o :: a) ++ Some r :: b ++ Some v :: c)) =
            (Some i :: Some v :: a) ++ Some r :: b ++ Some v :: c) as ->.
    { unfold dup_fd, close_fd. cbn [insert list_insert app]. rewrite (proj2 (Hl (Some i) None)).
      pose proof (alloc_first v [Some i] (a ++ Some r :: b ++ Some v :: c) ltac:(set_solver)) as E. cbn [app] in E. by rewrite E. }
    exact (close_pipe (Some i :: Some v :: a) b c (Some r) (Some v)).
  - assert (dup_fd (length (Some i :: Some o :: a)) (close_fd 0 ((Some i :: Some o :: a) ++ Some r :: b ++ Some v :: c)) =
            (Some r :: Some o :: a) ++ Some r :: b ++ Some v :: c) as ->.
    { unfold dup_fd, close_fd. cbn [insert list_insert app]. rewrite (proj1 (Hl None (Some o))).
      pose proof (alloc_first r [] (Some o :: a ++ Some r :: b ++ Some v :: c) ltac:(set_solver)) as E. cbn [app] in E. by rewrite E. }
    exact (close_pipe (Some r :: Some o :: a) b c (Some r) (Some v)).
Qed.

Lemma runcmd_denotes c : forall i o rest node, shell_cmd c -> two_free rest ->
  runcmd w c (Some i :: Some o :: rest) node = with_fds rest <$> denote w c i o node.
Proof.
  induction c as [argv|c IH file mode fd|a IHa b IHb|a IHa b IHb|c IH]; intros i o rest node Hc Hr; cbn [runcmd denote].
  - by destruct argv.
  - destruct Hc as [Hc (tok & Ht & Em)]. destruct (can_open w file mode); [|done].
    assert (fd = 0 \/ fd = 1) as [-> | ->] by (destruct Ht as [->|[->| ->]]; injection Em as _ ->; auto).
    + change (close_fd (Z.to_nat 0) (Some i :: Some o :: rest)) with ([] ++ None :: Some o :: rest). rewrite alloc_first by set_solver. by apply IH.
    + change (close_fd (Z.to_nat 1) (Some i :: Some o :: rest)) with ([Some i] ++ None :: rest). rewrite alloc_first by set_solver. by apply IH.
  - destruct Hc as [Ha Hb]. destruct (pipe_children node i o rest Hr) as (p0 & p1 & t & -> & El & Er). rewrite !forks, El, Er.
    rewrite IHa, IHb by done. by rewrite fmap_app.
  - destruct Hc as [Ha Hb]. rewrite forks, IHa, IHb by done. by rewrite fmap_app.
  - rewrite forks. by apply IH.
Qed.
End Plumbing.

(** Descriptors 0, 1 and 2 are open after the first loop of [main], whichever of them were
    open before. *)
Lemma open_console_std (x y z : option fobj) : open_console (x :: y :: z :: replicate 13 None) 5 =
  Some (Some (default FConsole x) :: Some (default FConsole y) :: Some (default FConsole z) :: replicate 13 None).
Proof. by destruct x, y, z. Qed.

(** C20: The shell, from any descriptors 0, 1 and 2 and a line that spells a command, starts
    exactly the programs the command denotes: each with its words as arguments, the file,
    pipe end or console the line gives it as standard input and output, the other
    descriptors of the shell, and no stray end of a pipe. *)
Theorem shell_runs_line w x y z c s : (forall node b, can_fork w node b = true) -> main_fork w = true ->
  shell_cmd c -> spells (show LLine c) s -> take 3 s <> lit "cd " ->
  exists t, open_console (x :: y :: z :: replicate 13 None) 5 = Some t /\
    run_line w t s = Jobs (with_fds (drop 2 t) <$> denote w c (default FConsole x) (default FConsole y) []).
Proof.
  intros Hf Hm Hc Hs Hcd. eexists. split; [apply open_console_std|]. unfold run_line. destruct ((_ && _) && _) eqn:E.
  { exfalso. apply Hcd. destruct s as [|a [|b [|d s]]]; zb; cbn in *; try done. by subst. }
  rewrite Hm. destruct (parsecmd_parses c s Hc Hs) as (p & b & -> & ->). f_equal. apply runcmd_denotes; [done..|].
  exists [Some (default FConsole z)], [], (replicate 11 None). split; [done|]. set_solver.
Qed.

Definition demo_world : world := mk_world (fun _ _ => true) (fun _ _ => true) true.

(** [(ls -l|wc)>out;echo done&]: three programs. *)
Lemma shell_runs_line_witness : exists t, open_console (None :: Some FConsole :: None :: replicate 13 None) 5 = Some t /\
  run_line demo_world t demo_line = Jobs (with_fds (drop 2 t) <$>
    [([lit "ls"; lit "-l"], FConsole, FPipeW [false; false]); ([lit "wc"], FPipeR [false; false], FFile (lit "out") 1537);
     ([lit "echo"; lit "done"], FConsole, FConsole)]).
Proof.
  apply (shell_runs_line demo_world None (Some FConsole) None demo_cmd demo_line); [done..|exact demo_shell_cmd|exact demo_spelled|discriminate].
Defined.
