(* ===== verification/Umalloc.v ===== *)
(** * user/umalloc.c: the memory allocator of user programs

    The free list is circular, in the order of addresses, and threaded through the headers
    of the free blocks in memory; [base], of size 0, is its first element. *)
From stdpp Require Import base gmap list numbers strings.
From Stdlib Require Import ZArith Lia.
From S2P Require Import Prelude Mem.
Open Scope Z_scope.

(** [sizeof(Header)] *)
Definition HEADER : Z := 16.

(** The addresses of [base] and of the end of the program, and how far [sbrk] can grow. *)
Class Heap := { base : Z; heap0 : Z; limit : Z }.

Record ust := mk_ust { um : mem; freep : Z; brk : Z }.

(** [a->s.ptr] and [a->s.size] *)
Definition hptr (m : mem) (a : Z) : Z := load64 m a.
Definition hsize (m : mem) (a : Z) : Z := load32 m (a + 8).
Definition set_hptr (a v : Z) : M ust unit := modify (fun s => mk_ust (store64 (um s) a v) (freep s) (brk s)).
Definition set_hsize (a v : Z) : M ust unit := modify (fun s => mk_ust (store32 (um s) (a + 8) (u32 v)) (freep s) (brk s)).
Definition set_freep (a : Z) : M ust unit := modify (fun s => mk_ust (um s) a (brk s)).
Definition ptr (a : Z) : M ust Z := gets (fun s => hptr (um s) a).
Definition size (a : Z) : M ust Z := gets (fun s => hsize (um s) a).

Section Umalloc.
Context {H : Heap}.

(** A bound on the length of the free list: every block has a header in the heap. *)
Definition heap_units (s : ust) : nat := Z.to_nat ((brk s - heap0) / HEADER) + 2.

(** The loop of [free]: the block after which [bp] goes. *)
Fixpoint free_find (bp p : Z) (fuel : nat) : M ust Z :=
  match fuel with
  | O => diverge
  | S f =>
      let! n := ptr p in
      if (p <? bp) && (bp <? n) then ret p
      else if (n <=? p) && ((p <? bp) || (bp <? n)) then ret p
      else free_find bp n f
  end.

Definition free (ap : Z) : M ust unit :=
  let bp := ap - HEADER in
  let! s := get in
  let! p := free_find bp (freep s) (heap_units s) in
  let! bsize := size bp in
  let! n := ptr p in
  (if bp + HEADER * bsize =? n then
     let! nsize := size n in
     set_hsize bp (bsize + nsize) ;;
     let! nn := ptr n in
     set_hptr bp nn
   else set_hptr bp n) ;;
  let! psize := size p in
  (if p + HEADER * psize =? bp then
     let! bsize := size bp in
     set_hsize p (psize + bsize) ;;
     let! bn := ptr bp in
     set_hptr p bn
   else set_hptr p bp) ;;
  set_freep p.

(** [sbrk(n)]: the old break, or -1.  The kernel fails to grow a process when it runs out
    of memory, here beyond [limit]; it adds in 32 bits, and does not shrink a process below
    0.  The content of new memory is left open. *)
Definition sbrk (n : Z) : M ust Z :=
  let! s := get in
  if 0 <? n then
    if brk s + n <=? limit then modify (fun s => mk_ust (um s) (freep s) (brk s + n)) ;; ret (brk s) else ret (-1)
  else if n <? 0 then
    modify (fun s => mk_ust (um s) (freep s) (if brk s <=? u32 (brk s + n) then brk s else u32 (brk s + n))) ;; ret (brk s)
  else ret (brk s).

Definition morecore (nu : Z) : M ust Z :=
  let nu := if nu <? 4096 then 4096 else nu in
  let! p := sbrk (i32 (nu * HEADER)) in
  if p =? -1 then ret 0
  else
    set_hsize p nu ;;
    free (p + HEADER) ;;
    gets freep.

Fixpoint malloc_loop (nunits prevp p : Z) (fuel : nat) : M ust Z :=
  match fuel with
  | O => diverge
  | S f =>
      let! psize := size p in
      if nunits <=? psize then
        let! p :=
          (if psize =? nunits then
             let! n := ptr p in set_hptr prevp n ;; ret p
           else
             set_hsize p (psize - nunits) ;;
             let p := p + HEADER * (psize - nunits) in
             set_hsize p nunits ;;
             ret p) in
        set_freep prevp ;;
        ret (p + HEADER)
      else
        let next p := let! n := ptr p in malloc_loop nunits p n f in
        let! s := get in
        if p =? freep s then
          let! p := morecore nunits in
          if p =? 0 then ret 0 else next p
        else next p
  end.

Definition malloc (nbytes : Z) : M ust Z :=
  let nunits := u32 ((nbytes + HEADER - 1) / HEADER + 1) in
  let! s := get in
  (if freep s =? 0 then set_hptr base base ;; set_freep base ;; set_hsize base 0 else ret tt) ;;
  let! s := get in
  let prevp := freep s in
  let! p := ptr prevp in
  malloc_loop nunits prevp p (2 * heap_units s + 4).
End Umalloc.
