(* ===== verification/UmallocSpec.v ===== *)
(** * The user allocator hands out disjoint blocks

    The free list as a list of blocks, its invariant together with the blocks the program
    holds, and the effect of [free] and [malloc] on both. *)
From stdpp Require Import base gmap sets list numbers strings.
From Stdlib Require Import ZArith Lia.
From S2P Require Import Prelude Mem Umalloc.
Open Scope Z_scope.

#[local] Transparent load32 store32.

Lemma load32_store32_eq m a v : in_range 32 v -> load32 (store32 m a v) a = v.
Proof.
  intros Hv. unfold load32, store32.
  pose proof (loadn_storen_eq m a (Z_to_little_endian 4 8 v) (le_bytes 4 v ltac:(lia))) as E.
  rewrite length_le in E by lia. rewrite (E : loadn _ _ 4 = _).
  rewrite little_endian_to_Z_to_little_endian by lia. by apply Z.mod_small.
Qed.

Lemma load8_store32_out m a v x : ~ (a <= x < a + 4) -> load8 (store32 m a v) x = load8 m x.
Proof. intros H. apply load8_storen_out. rewrite length_le by lia. lia. Qed.

Lemma load32_ext m m' a : (forall x, a <= x < a + 4 -> load8 m x = load8 m' x) -> load32 m a = load32 m' a.
Proof. intros H. unfold load32. by rewrite (loadn_ext m m'). Qed.

Lemma byte_mem_store32 m a v : byte_mem m -> byte_mem (store32 m a v).
Proof. apply byte_mem_storen. Qed.
#[local] Opaque load32 store32.
#[local] Hint Resolve byte_mem_store32 : xv6.

(** ** Headers *)
Definition hdr (m : mem) (a p n : Z) : Prop := hptr m a = p /\ hsize m a = n.

(** [m'] differs from [m] in the given headers only. *)
Definition only_headers (hs : list Z) (m m' : mem) : Prop :=
  forall x, Forall (fun a => ~ (a <= x < a + 16)) hs -> load8 m' x = load8 m x.

Definition apart (a b : Z) : Prop := a + 16 <= b \/ b + 16 <= a.

Lemma only_hdr hs m m' a p n : only_headers hs m m' -> Forall (apart a) hs -> hdr m a p n -> hdr m' a p n.
Proof.
  intros Ho Ha [<- <-]. split; [apply load64_ext|apply load32_ext]; intros x Hx; apply Ho; (eapply Forall_impl; [exact Ha|]); unfold apart; intros b Hb; cbn in *; lia.
Qed.

Lemma only_refl hs m : only_headers hs m m.
Proof. done. Qed.

Lemma headers_trans hs m1 m2 m3 : only_headers hs m1 m2 -> only_headers hs m2 m3 -> only_headers hs m1 m3.
Proof. intros H1 H2 x Hx. rewrite H2 by done. by apply H1. Qed.

Lemma only_more hs hs' m m' : (forall a, a ∈ hs -> a ∈ hs') -> only_headers hs m m' -> only_headers hs' m m'.
Proof. intros Hs H x Hx. apply H. rewrite Forall_forall in Hx |- *. auto. Qed.

Lemma store_ptr m a v : only_headers [a] m (store64 m a v).
Proof. intros x Hx. apply Forall_cons in Hx as [Hx _]. apply load8_store64_out. lia. Qed.

Lemma store_size m a v : only_headers [a] m (store32 m (a + 8) v).
Proof. intros x Hx. apply Forall_cons in Hx as [Hx _]. apply load8_store32_out. lia. Qed.

Lemma hdr_ptr m a p n v : in_range 64 v -> hdr m a p n -> hdr (store64 m a v) a v n.
Proof.
  intros Hv [_ Hn]. split; [by apply load64_store64_eq|]. rewrite <- Hn. apply load32_ext. intros x Hx. apply load8_store64_out. lia.
Qed.

Lemma hdr_size m a p n v : in_range 32 v -> hdr m a p n -> hdr (store32 m (a + 8) v) a p v.
Proof.
  intros Hv [Hp _]. split; [|by apply load32_store32_eq]. rewrite <- Hp. apply load64_ext. intros x Hx. apply load8_store32_out. lia.
Qed.

(** ** The free list *)
Abbreviation blk := (Z * Z)%type.

(** The address the last block of [A] points to, when [B] follows. *)
Definition first (B : list blk) (e : Z) : Z := match B with (b, _) :: _ => b | [] => e end.

Fixpoint chain (m : mem) (l : list blk) (e : Z) : Prop :=
  match l with [] => True | (a, n) :: l' => hdr m a (first l' e) n /\ chain m l' e end.

Lemma first_app A B e : first (A ++ B) e = first A (first B e).
Proof. by destruct A as [|[]]. Qed.

Lemma chain_app m A B e : chain m (A ++ B) e <-> chain m A (first B e) /\ chain m B e.
Proof.
  induction A as [|[a n] A IH]; cbn; [tauto|]. rewrite IH, first_app. tauto.
Qed.

Lemma chain_frame hs m m' l e : only_headers hs m m' -> Forall (fun x => Forall (apart x.1) hs) l -> chain m l e -> chain m' l e.
Proof.
  intros Ho. induction l as [|[a n] l IH]; [done|]. intros [Ha Hl]%Forall_cons [Hh Hc]. split; [by eapply only_hdr|auto].
Qed.

(** [x] lies below [y]; a header is 16 bytes also for [base], of size 0. *)
Definition before (x y : blk) : Prop := x.1 + 16 * x.2 <= y.1 /\ x.1 + 16 <= y.1.
Definition disj (x y : blk) : Prop := before x y \/ before y x.

Fixpoint sorted (l : list blk) : Prop := match l with [] => True | x :: l' => Forall (before x) l' /\ sorted l' end.

Lemma sorted_app A B : sorted (A ++ B) <-> sorted A /\ sorted B /\ Forall (fun x => Forall (before x) B) A.
Proof.
  induction A as [|x A IH]; cbn; [split; [intros; split; [done|]; split; [done|constructor]|tauto]|].
  rewrite Forall_app, IH, Forall_cons. tauto.
Qed.

Lemma apart_disj x y : disj x y -> apart x.1 y.1.
Proof. unfold disj, before, apart. lia. Qed.

(** Where a block goes in the list. *)
Lemma split_at x l : sorted l -> Forall (disj x) l -> exists A B, l = A ++ B /\ Forall (fun y => before y x) A /\ Forall (before x) B.
Proof.
  induction l as [|y l IH]; intros Hs Hd; [exists [], []; by repeat constructor|]. destruct Hs as [Hy Hs]. apply Forall_cons in Hd as [Hxy Hd].
  destruct Hxy as [Hxy|Hyx].
  - exists [], (y :: l). split; [done|]. split; [constructor|]. constructor; [done|]. eapply Forall_impl; [exact Hy|].
    unfold before in *. cbn. intros z Hz. split; [|lia]. lia.
  - destruct (IH Hs Hd) as (A & B & -> & HA & HB). exists (y :: A), B. split; [done|]. by split; [constructor|].
Qed.

Class HeapOk `{Heap} := { base_pos : 0 < base; base_heap : base + 16 <= heap0; heap_limit : heap0 <= limit; limit_small : limit < 2 ^ 31 }.

Section Free.
Context {H : Heap} {HK : HeapOk}.

Definition in_heap (s : ust) (x : blk) : Prop := heap0 <= x.1 /\ 1 <= x.2 /\ x.1 + 16 * x.2 <= brk s.

(** The free list of [s] is [base] and then [L]. *)
Record flist (s : ust) (L : list blk) : Prop := {
  fl_chain : chain (um s) ((base, 0) :: L) base;
  fl_sorted : sorted L;
  fl_in : Forall (in_heap s) L;
  fl_freep : freep s ∈ base :: L.*1;
  fl_brk : heap0 <= brk s <= limit;
  fl_mem : byte_mem (um s)
}.

Lemma full_sorted s L : flist s L -> sorted ((base, 0) :: L).
Proof.
  intros F. split; [|apply F]. eapply Forall_impl; [apply (fl_in _ _ F)|]. intros [a n] [Ha _]. pose proof base_heap. unfold before. cbn in *. lia.
Qed.

Lemma chain_next m F e i a n : chain m F e -> F !! i = Some (a, n) -> hptr m a = first (drop (S i) F) e /\ hsize m a = n.
Proof.
  revert i. induction F as [|[b k] F IH]; intros i Hc Hi; [done|]. destruct Hc as [Hh Hc]. destruct i as [|i]; [by injection Hi as -> ->|].
  apply (IH i Hc Hi).
Qed.

Lemma sorted_lookup F i j x y : sorted F -> F !! i = Some x -> F !! j = Some y -> (i < j)%nat -> before x y.
Proof.
  revert i j. induction F as [|z F IH]; intros i j Hs Hi Hj Hlt; [done|]. destruct Hs as [Hz Hs]. destruct i as [|i], j as [|j]; try lia.
  - injection Hi as ->. cbn in Hj. by eapply Forall_lookup_1 in Hz.
  - apply (IH i j); (done || lia).
Qed.

(** How many blocks a walk that goes around passes before it is at [j]. *)
Definition dist (n i j : nat) : nat := if decide (i <= j)%nat then (j - i)%nat else (n - i + j)%nat.

Lemma first_drop (F : list blk) i e : first (drop i F) e = match F !! i with Some y => y.1 | None => e end.
Proof. revert i. induction F as [|[b k] F IH]; intros [|i]; cbn; done || apply IH. Qed.

Lemma hd_first F e : F <> [] -> exists x, F !! 0%nat = Some x /\ x.1 = first F e.
Proof. destruct F as [|[a n] F]; [done|]. eauto. Qed.

Section Find.
Variables (m : mem) (A B : list blk) (p ps : Z) (x : blk).
Notation F := (A ++ (p, ps) :: B).
Hypothesis Hc : chain m F base.
Hypothesis Hs : sorted F.
Hypothesis Hfirst : first F 0 = base.
Hypothesis HA : Forall (fun y => before y x) (A ++ [(p, ps)]).
Hypothesis HB : Forall (before x) B.

Lemma below i y : F !! i = Some y -> (i <= length A)%nat -> before y x.
Proof.
  intros Hi Hl. apply (Forall_lookup_1 (fun y => before y x) (A ++ [(p, ps)]) i y HA). replace F with ((A ++ [(p, ps)]) ++ B) in Hi by (by rewrite <- (assoc_L (++))).
  rewrite lookup_app_l in Hi by (rewrite length_app; cbn; lia). exact Hi.
Qed.

Lemma above i y : F !! i = Some y -> (length A < i)%nat -> before x y.
Proof.
  intros Hi Hl. apply (Forall_lookup_1 (before x) B (i - length (A ++ [(p, ps)])) y HB). replace F with ((A ++ [(p, ps)]) ++ B) in Hi by (by rewrite <- (assoc_L (++))).
  rewrite lookup_app_r in Hi by (rewrite length_app; cbn; lia). exact Hi.
Qed.

Lemma base_below i y : F !! i = Some y -> base <= y.1.
Proof.
  intros Hi. destruct i as [|i].
  - destruct F as [|[a n] F'] eqn:E; [done|]. injection Hi as <-. cbn in *. lia.
  - destruct (hd_first F 0) as (z & Hz & Ez); [by destruct A|]. rewrite Hfirst in Ez. pose proof (sorted_lookup F 0 (S i) z y Hs Hz Hi ltac:(lia)) as Hb.
    unfold before in Hb. lia.
Qed.

Lemma base_lt : base + 16 <= x.1.
Proof.
  destruct (hd_first F 0) as (z & Hz & Ez); [by destruct A|]. rewrite Hfirst in Ez. pose proof (below 0 z Hz ltac:(lia)) as Hb. unfold before in Hb. lia.
Qed.

(** The tests of the loop of [free] succeed at [p] only. *)
Lemma find_test i a n : F !! i = Some (a, n) -> let nx := hptr m a in
  ((a <? x.1) && (x.1 <? nx)) || ((nx <=? a) && ((a <? x.1) || (x.1 <? nx))) = bool_decide (i = length A).
Proof.
  intros Hi nx. destruct (chain_next _ _ _ _ _ _ Hc Hi) as [Hn _]. fold nx in Hn. rewrite first_drop in Hn. pose proof (base_below _ _ Hi) as Hba. cbn in Hba.
  pose proof base_lt as Hbx.
  destruct (lt_eq_lt_dec i (length A)) as [[Hlt|Heq]|Hgt].
  - rewrite bool_decide_false by lia. pose proof (below _ _ Hi ltac:(lia)) as Hb. unfold before in Hb. cbn in Hb.
    destruct (lookup_lt_is_Some_2 F (S i)) as [y Hy]; [rewrite length_app; cbn; lia|]. rewrite Hy in Hn.
    pose proof (below _ _ Hy ltac:(lia)) as Hy'. pose proof (sorted_lookup _ _ _ _ _ Hs Hi Hy ltac:(lia)) as Hay. unfold before in Hy', Hay. cbn in *. lia.
  - rewrite bool_decide_true by done. pose proof (below _ _ Hi ltac:(lia)) as Hb. unfold before in Hb. cbn in Hb.
    destruct (F !! S i) as [y|] eqn:Hy; [pose proof (above _ _ Hy ltac:(lia)) as Hy'; unfold before in Hy'; lia|lia].
  - rewrite bool_decide_false by lia. pose proof (above _ _ Hi ltac:(lia)) as Hb. unfold before in Hb. cbn in Hb.
    destruct (F !! S i) as [y|] eqn:Hy; [pose proof (sorted_lookup _ _ _ _ _ Hs Hi Hy ltac:(lia)) as Hay; unfold before in Hay; cbn in *; lia|lia].
Qed.

Lemma free_find_walk s fuel : um s = m -> forall i a n, F !! i = Some (a, n) -> (dist (length F) i (length A) < fuel)%nat ->
  free_find x.1 a fuel s = Ok p s.
Proof.
  intros Em. induction fuel as [|f IH]; intros i a n Hi Hf; [lia|]. cbn [free_find]. unfold ptr at 1. erewrite bind_Ok by reflexivity. rewrite Em.
  pose proof (find_test i a n Hi) as Ht. cbv zeta in Ht. pose proof (lookup_lt_Some _ _ _ Hi) as Hlen.
  destruct (decide (i = length A)) as [->|Hne].
  - rewrite bool_decide_true in Ht by done. rewrite list_lookup_middle in Hi by done. injection Hi as <- <-.
    destruct ((p <? x.1) && _) eqn:E1; [done|]. cbn [orb] in Ht. by rewrite Ht.
  - rewrite bool_decide_false in Ht by done. apply orb_false_iff in Ht as [-> ->].
    destruct (chain_next _ _ _ _ _ _ Hc Hi) as [Hn _]. rewrite Hn, first_drop. unfold dist in Hf. rewrite length_app in *. cbn in Hlen, Hf.
    destruct (F !! S i) as [[b k]|] eqn:Hy.
    + cbn. eapply IH; [exact Hy|]. apply lookup_lt_Some in Hy. rewrite length_app in Hy. cbn in Hy |- *. unfold dist. repeat case_decide; lia.
    + apply lookup_ge_None in Hy. rewrite length_app in Hy. cbn in Hy. destruct (hd_first F 0) as ([b k] & Hz & Ez); [by destruct A|]. rewrite Hfirst in Ez. cbn in Ez. subst b.
      eapply IH; [exact Hz|]. cbn. unfold dist. repeat case_decide; lia.
Qed.
End Find.

(** A block [x], with [B] after it, takes in the first block of [B] when it ends there. *)
Inductive join (x : blk) : list blk -> Z -> list blk -> Prop :=
| join_yes n ns B : x.1 + 16 * x.2 = n -> join x ((n, ns) :: B) (x.2 + ns) B
| join_no B : x.1 + 16 * x.2 <> first B base -> join x B x.2 B.

Definition addr_ok (y : blk) : Prop := base <= y.1 /\ 0 <= y.2 /\ y.1 + 16 * y.2 < 2 ^ 31.

Lemma first_range B : Forall addr_ok B -> in_range 64 (first B base).
Proof.
  pose proof base_pos. pose proof base_heap. pose proof heap_limit. pose proof limit_small. unfold in_range.
  destruct B as [|[b n] B]; [intros _; cbn; lia|intros [[Hb [Hn Hl]] _]%Forall_cons; cbn in *; lia].
Qed.

Lemma join_next m fp b x B : chain m B base -> hsize m x.1 = x.2 -> Forall (before x) B -> base < x.1 -> addr_ok x -> Forall addr_ok B -> byte_mem m ->
  exists m1 bs1 B1,
    (if x.1 + HEADER * x.2 =? first B base then
       let! nsize := size (first B base) in
       set_hsize x.1 (x.2 + nsize) ;;
       let! nn := ptr (first B base) in
       set_hptr x.1 nn
     else set_hptr x.1 (first B base)) (mk_ust m fp b) = Ok tt (mk_ust m1 fp b) /\
    only_headers [x.1] m m1 /\ byte_mem m1 /\ hdr m1 x.1 (first B1 base) bs1 /\ join x B bs1 B1.
Proof.
  intros Hc Hx HB Hb Hax HaB Hm. pose proof base_pos. unfold HEADER. destruct (Z.eqb_spec (x.1 + 16 * x.2) (first B base)) as [E|E].
  - destruct B as [|[n ns] B]; [unfold addr_ok in Hax; cbn in E; lia|]. cbn [first] in *. destruct Hc as [[Hn Hns] Hc].
    apply Forall_cons in HB as [Hxn HB]. apply Forall_cons in HaB as [Han HaB]. unfold before, addr_ok in *. cbn in Hxn, Han.
    unfold size. erewrite bind_Ok by reflexivity. cbn [um]. rewrite Hns. erewrite bind_Ok by reflexivity. cbn [um freep brk].
    assert (in_range 32 (x.2 + ns)) as Hr by (unfold in_range; lia).
    rewrite (u32_small _ Hr). unfold ptr. erewrite bind_Ok by reflexivity. cbn [um].
    assert (hdr (store32 m (x.1 + 8) (x.2 + ns)) n (first B base) ns) as [-> _].
    { eapply only_hdr; [apply store_size| |by split]. constructor; [|constructor]. right. lia. }
    eexists _, _, B. split; [reflexivity|]. cbn [um freep brk]. split; [|split; [auto with xv6|split; [|by apply join_yes]]].
    + eapply headers_trans; [apply store_size|apply store_ptr].
    + eapply hdr_ptr; [by apply first_range|]. by eapply hdr_size.
  - eexists _, _, B. split; [reflexivity|]. cbn [um freep brk]. split; [apply store_ptr|]. split; [auto with xv6|]. split; [|by apply join_no].
    eapply hdr_ptr; [by apply first_range|]. by split.
Qed.

(** The block [p] before [x], which [x] joins or is linked from. *)
Definition place (p x : blk) (B1 : list blk) : list blk :=
  if p.1 + 16 * p.2 =? x.1 then (p.1, p.2 + x.2) :: B1 else p :: x :: B1.

Lemma join_prev m fp b p x B1 n : hdr m x.1 (first B1 base) x.2 -> hdr m p.1 n p.2 -> before p x -> chain m B1 base ->
  Forall (before x) B1 -> addr_ok p -> addr_ok x -> Forall addr_ok B1 -> byte_mem m ->
  exists m1,
    (if p.1 + HEADER * p.2 =? x.1 then
       let! bsize := size x.1 in
       set_hsize p.1 (p.2 + bsize) ;;
       let! bn := ptr x.1 in
       set_hptr p.1 bn
     else set_hptr p.1 x.1) (mk_ust m fp b) = Ok tt (mk_ust m1 fp b) /\
    only_headers [p.1] m m1 /\ byte_mem m1 /\ chain m1 (place p x B1) base.
Proof.
  intros Hx Hp Hpx Hc HB Hap Hax HaB Hm. pose proof base_pos. unfold HEADER, place.
  assert (apart x.1 p.1) as Hapx by (unfold apart, before in *; lia).
  assert (Forall (fun y => Forall (apart y.1) [p.1]) B1) as HBp.
  { eapply Forall_impl; [exact HB|]. intros y Hy. constructor; [|constructor]. unfold apart, before in *. lia. }
  destruct (Z.eqb_spec (p.1 + 16 * p.2) x.1) as [E|E].
  - unfold size. erewrite bind_Ok by reflexivity. cbn [um]. rewrite (proj2 Hx). erewrite bind_Ok by reflexivity. cbn [um freep brk].
    assert (in_range 32 (p.2 + x.2)) as Hr by (unfold in_range, addr_ok in *; lia).
    rewrite (u32_small _ Hr). unfold ptr. erewrite bind_Ok by reflexivity. cbn [um].
    assert (hdr (store32 m (p.1 + 8) (p.2 + x.2)) x.1 (first B1 base) x.2) as [-> _].
    { eapply only_hdr; [apply store_size| |done]. by constructor. }
    eexists. split; [reflexivity|]. cbn [um freep brk]. assert (only_headers [p.1] m (store64 (store32 m (p.1 + 8) (p.2 + x.2)) p.1 (first B1 base))) as Ho
      by (eapply headers_trans; [apply store_size|apply store_ptr]).
    split; [done|]. split; [auto with xv6|]. split; [|by eapply chain_frame].
    eapply hdr_ptr; [by apply first_range|]. by eapply hdr_size.
  - eexists. split; [reflexivity|]. cbn [um freep brk]. split; [apply store_ptr|]. split; [auto with xv6|]. destruct p as [p ps], x as [bp bs]. cbn in *.
    split; [|split].
    + eapply hdr_ptr; [|done]. unfold in_range, addr_ok in *. cbn in *. lia.
    + eapply only_hdr; [apply store_ptr| |done]. by constructor.
    + eapply chain_frame; [apply store_ptr| |done]. done.
Qed.

(** ** Lists of blocks, up to joining neighbours *)
Inductive merge1 : list blk -> list blk -> Prop :=
| merge1_intro A a n k B : merge1 (A ++ (a, n) :: (a + 16 * n, k) :: B) (A ++ (a, n + k) :: B).

Lemma merge_sorted F F' : merge1 F F' -> sorted F -> sorted F'.
Proof.
  intros [A a n k B]. rewrite !sorted_app. intros (HA & Ht & HAB). cbn [sorted] in *. destruct Ht as (HaB & HkB & HB).
  apply Forall_cons in HaB as [_ HaB]. split; [done|]. split; [split; [|done]|].
  - rewrite !Forall_forall in *. intros y Hy. specialize (HaB y Hy). specialize (HkB y Hy). unfold before in *. cbn in *. lia.
  - eapply Forall_impl; [exact HAB|]. intros z [Hz [_ HzB]%Forall_cons]%Forall_cons. by constructor.
Qed.

Lemma merge_Forall (P : blk -> Prop) F F' : (forall a n k, P (a, n) -> P (a + 16 * n, k) -> P (a, n + k)) -> merge1 F F' -> Forall P F -> Forall P F'.
Proof.
  intros HP [A a n k B]. rewrite !Forall_app, !Forall_cons. intros (HA & Ha & Hk & HB). split; [done|]. split; [by apply HP|done].
Qed.

Lemma merge_addr F F' : merge1 F F' -> Forall addr_ok F -> Forall addr_ok F'.
Proof. apply merge_Forall. unfold addr_ok. cbn. intros. lia. Qed.

Lemma merge_disj y F F' : 1 <= y.2 -> merge1 F F' -> Forall (disj y) F -> Forall (disj y) F'.
Proof. intros Hy. apply merge_Forall. unfold disj, before. cbn. intros. lia. Qed.

Lemma merge_big c F F' : merge1 F F' -> Forall addr_ok F -> Exists (fun z => c <= z.2) F -> Exists (fun z => c <= z.2) F'.
Proof.
  intros [A a n k B]. rewrite Forall_app, !Forall_cons, !Exists_app, !Exists_cons. unfold addr_ok. cbn. intros (_ & Ha & Hk & _).
  intros [HA|[Hn|[Hk'|HB]]]; [by left| | |by right; right]; right; left; lia.
Qed.

Lemma merge_length F F' : merge1 F F' -> (length F' <= length F)%nat.
Proof. intros [A a n k B]. rewrite !length_app. cbn. lia. Qed.

Lemma merge_base s L F' : merge1 ((base, 0) :: L) F' -> Forall (in_heap s) L -> exists L', F' = (base, 0) :: L' /\ Forall (in_heap s) L'.
Proof.
  intros Hm. inversion Hm as [A a n k B E]. intros HL. pose proof base_heap. destruct A as [|z A]; cbn in E.
  - injection E as -> -> E. rewrite <- E in HL. apply Forall_cons in HL as [[Hl _] _]. cbn in Hl. lia.
  - injection E as -> E. exists (A ++ (a, n + k) :: B). split; [done|]. revert HL. rewrite <- E. rewrite !Forall_app, !Forall_cons. intros (HA & Ha & Hk & HB).
    split; [done|]. split; [|done]. unfold in_heap in *. cbn in *. lia.
Qed.

Definition merges : list blk -> list blk -> Prop := rtc merge1.

Lemma join_merges A x B bs1 B1 : join x B bs1 B1 -> merges (A ++ x :: B) (A ++ (x.1, bs1) :: B1).
Proof. destruct x as [a n]. intros [k ns B' <-|B' _]; cbn; [apply rtc_once, merge1_intro|reflexivity]. Qed.

Lemma place_merges A p x B1 : merges (A ++ p :: x :: B1) (A ++ place p x B1).
Proof.
  unfold place. destruct (Z.eqb_spec (p.1 + 16 * p.2) x.1) as [E|E]; [|reflexivity]. destruct p as [a n], x as [b k]. cbn in *. subst b.
  apply rtc_once, merge1_intro.
Qed.

Lemma merges_ok s F F' : merges F F' -> forall L, F = (base, 0) :: L -> sorted F -> Forall (in_heap s) L -> brk s <= limit -> exists L', F' = (base, 0) :: L' /\
  sorted F' /\ Forall (in_heap s) L' /\ (forall y, 1 <= y.2 -> Forall (disj y) F -> Forall (disj y) F') /\
  (forall c, Exists (fun z => c <= z.2) F -> Exists (fun z => c <= z.2) F') /\ (length F' <= length F)%nat.
Proof.
  induction 1 as [F|F F1 F2 H1 H2 IH]; intros L -> Hs HL Hb; [eauto 10|].
  assert (Forall addr_ok ((base, 0) :: L)) as Ha.
  { pose proof base_pos. pose proof base_heap. pose proof limit_small. pose proof heap_limit. constructor; [unfold addr_ok; cbn; lia|].
    eapply Forall_impl; [exact HL|]. unfold in_heap, addr_ok. intros [a n]. cbn. lia. }
  destruct (merge_base s L F1 H1 HL) as (L1 & -> & HL1). destruct (IH L1 eq_refl) as (L2 & -> & Hs2 & HL2 & Hd2 & Hb2 & Hlen); [by eapply merge_sorted|done..|].
  exists L2. split; [done|]. split; [done|]. split; [done|]. split; [|split]; intros.
  - apply Hd2; [done|]. by eapply merge_disj.
  - apply Hb2. by eapply merge_big.
  - etrans; [exact Hlen|]. by apply merge_length.
Qed.

(** ** [free] *)
Lemma sorted_count lo hi l : sorted l -> Forall (fun y => lo <= y.1 /\ 1 <= y.2 /\ y.1 + 16 * y.2 <= hi) l -> lo <= hi -> 16 * Z.of_nat (length l) <= hi - lo.
Proof.
  revert lo. induction l as [|[a n] l IH]; intros lo Hs Hl Hh; cbn [length]; [lia|]. destruct Hs as [Ha Hs]. apply Forall_cons in Hl as [Hx Hl]. cbn in Hx.
  specialize (IH (a + 16) Hs). rewrite Nat2Z.inj_succ. enough (16 * Z.of_nat (length l) <= hi - (a + 16)) by lia. apply IH; [|lia].
  rewrite Forall_forall in *. intros y Hy. specialize (Ha y Hy). specialize (Hl y Hy). unfold before in Ha. cbn in *. lia.
Qed.

Lemma list_units s L : flist s L -> (length L + 2 <= heap_units s)%nat.
Proof.
  intros F. pose proof (sorted_count heap0 (brk s) L (fl_sorted _ _ F) (fl_in _ _ F) (proj1 (fl_brk _ _ F))). unfold heap_units, HEADER.
  assert (Z.of_nat (length L) <= (brk s - heap0) / 16) by (apply Z.div_le_lower_bound; lia). lia.
Qed.

Lemma flist_addr s L : flist s L -> Forall addr_ok ((base, 0) :: L).
Proof.
  intros F. pose proof base_pos. pose proof base_heap. pose proof limit_small. pose proof heap_limit. pose proof (fl_brk _ _ F).
  constructor; [unfold addr_ok; cbn; lia|]. eapply Forall_impl; [apply (fl_in _ _ F)|]. unfold in_heap, addr_ok. intros [a n]. cbn. lia.
Qed.

Lemma flist_index s L : flist s L -> exists i n, ((base, 0) :: L) !! i = Some (freep s, n).
Proof.
  intros F. pose proof (fl_freep _ _ F) as Hf. apply elem_of_cons in Hf as [->|Hf]; [by exists 0%nat, 0|].
  apply list_elem_of_fmap in Hf as ([a n] & Ea & Hin). apply list_elem_of_lookup in Hin as [i Hi]. exists (S i), n. cbn in Ea. by rewrite Ea.
Qed.

Lemma flist_freep s L : flist s L -> freep s <> 0.
Proof.
  intros F. pose proof (flist_addr _ _ F) as Ha. destruct (flist_index _ _ F) as (i & m & Hi). apply (Forall_lookup_1 _ _ _ _ Ha) in Hi.
  pose proof base_pos. unfold addr_ok in Hi. cbn in Hi. lia.
Qed.

(** What [free] of the block [x] does to the list [L]. *)
Definition freed (s : ust) (L : list blk) (x : blk) (s' : ust) (L' : list blk) : Prop :=
  flist s' L' /\ brk s' = brk s /\ only_headers (base :: x.1 :: L.*1) (um s) (um s') /\
  (forall y, heap0 <= y.1 -> 1 <= y.2 -> disj y x -> Forall (disj y) L -> Forall (disj y) L') /\ Exists (fun z => x.2 <= z.2) L' /\ (length L' <= S (length L))%nat.

Lemma insert_split s L x : flist s L -> in_heap s x -> Forall (disj x) L -> exists A p B, (base, 0) :: L = A ++ p :: B /\
  Forall (fun y => before y x) (A ++ [p]) /\ Forall (before x) B /\ sorted (A ++ p :: x :: B).
Proof.
  intros F Hx Hd. destruct (split_at x L (fl_sorted _ _ F) Hd) as (LA & LB & -> & HA & HB).
  destruct (exists_last (l := (base, 0) :: LA)) as (A & p & E); [done|]. exists A, p, LB.
  assert (Forall (fun y => before y x) (A ++ [p])) as HA'.
  { rewrite <- E. constructor; [|done]. pose proof base_heap. unfold before, in_heap in *. cbn. lia. }
  assert ((base, 0) :: LA ++ LB = A ++ p :: LB) as EF by (change ((base, 0) :: LA ++ LB) with (((base, 0) :: LA) ++ LB); rewrite E, <- (assoc_L (++)); done).
  split; [done|]. split; [done|]. split; [done|].
  pose proof (full_sorted _ _ F) as Hs. rewrite EF in Hs.
  replace (A ++ p :: LB) with ((A ++ [p]) ++ LB) in Hs by (by rewrite <- (assoc_L (++))).
  replace (A ++ p :: x :: LB) with ((A ++ [p]) ++ x :: LB) by (by rewrite <- (assoc_L (++))).
  apply sorted_app in Hs as (H1 & H2 & H3). apply sorted_app. split; [done|]. split; [done|]. rewrite Forall_forall in *.
  intros y Hy. constructor; [by apply HA'|by apply H3].
Qed.

Lemma with_x L A (p x : blk) B (P : blk -> Prop) : (base, 0) :: L = A ++ p :: B -> Forall P L -> P x ->
  exists L0, A ++ p :: x :: B = (base, 0) :: L0 /\ Forall P L0 /\ forall Q : blk -> Prop, Q x -> Forall Q L -> Forall Q L0.
Proof.
  intros E HL Hx. destruct A as [|z A]; cbn in *; injection E as <- ->.
  - exists (x :: B). split; [done|]. split; [by constructor|]. intros. by constructor.
  - exists (A ++ p :: x :: B). split; [done|]. split; [|intros Q HQ HL'; apply Forall_app in HL' as [? [? ?]%Forall_cons]; apply Forall_app; split; [done|by repeat constructor]].
    apply Forall_app in HL as [? [? ?]%Forall_cons]. apply Forall_app. split; [done|]. by repeat constructor.
Qed.

(** The links that [free] writes. *)
Lemma free_links s A p ps B x : chain (um s) (A ++ (p, ps) :: B) base -> Forall addr_ok (A ++ (p, ps) :: B) -> addr_ok x -> base < x.1 -> byte_mem (um s) ->
  hsize (um s) x.1 = x.2 -> sorted (A ++ (p, ps) :: x :: B) -> free_find x.1 (freep s) (heap_units s) s = Ok p s ->
  exists m2 F', free (x.1 + HEADER) s = Ok tt (mk_ust m2 p (brk s)) /\ byte_mem m2 /\ only_headers [x.1; p] (um s) m2 /\
    chain m2 F' base /\ merges (A ++ (p, ps) :: x :: B) F' /\ p ∈ F'.*1.
Proof.
  destruct s as [m fp b]. cbn [um freep brk]. intros Hc Haddr Hax Hbx Hm Hsz Hsort Efind.
  unfold free. replace (x.1 + HEADER - HEADER) with x.1 by (unfold HEADER; lia). erewrite bind_Ok by reflexivity. erewrite bind_Ok by exact Efind.
  apply chain_app in Hc as [HcA [Hp HcB]]. cbn [first] in HcA. apply Forall_app in Haddr as [HaA [Hap HaB]%Forall_cons].
  apply sorted_app in Hsort as (HsA & [HpxB [HxB HsB]] & HAx). apply Forall_cons in HpxB as [Hpx HpB].
  unfold size at 1. erewrite bind_Ok by reflexivity. unfold ptr at 1. erewrite bind_Ok by reflexivity. cbn [um]. rewrite Hsz, (proj1 Hp).
  destruct (join_next m fp b x B HcB Hsz HxB Hbx Hax HaB Hm) as (m1 & bs1 & B1 & E1 & Ho1 & Hm1 & Hx1 & Hj). erewrite bind_Ok by exact E1. clear E1.
  assert (hdr m1 p (first B base) ps) as Hp1.
  { eapply only_hdr; [exact Ho1| |exact Hp]. constructor; [|constructor]. unfold apart, before in *. cbn in *. lia. }
  unfold size at 1. erewrite bind_Ok by reflexivity. cbn [um]. rewrite (proj2 Hp1).
  assert (chain m1 B1 base /\ Forall (before (x.1, bs1)) B1 /\ addr_ok (x.1, bs1) /\ Forall addr_ok B1) as (HcB1 & HxB1 & Hax1 & HaB1).
  { assert (chain m1 B base) as HcB'.
    { eapply chain_frame; [exact Ho1| |exact HcB]. eapply Forall_impl; [exact HxB|]. intros y Hy. constructor; [|constructor]. unfold apart, before in *. lia. }
    destruct Hj as [n ns B1 En|B1 En]; [|destruct x; done]. destruct HcB' as [_ HcB']. apply Forall_cons in HxB as [Hxn HxB], HaB as [Han HaB].
    destruct HsB as [HnB _]. split; [done|]. split; [|split; [|done]].
    - rewrite Forall_forall in *. intros y Hy. specialize (HxB y Hy). specialize (HnB y Hy). unfold before in *. cbn in *. lia.
    - unfold addr_ok, before in *. cbn in *. lia. }
  destruct (join_prev m1 fp b (p, ps) (x.1, bs1) B1 (first B base)) as (m2 & E2 & Ho2 & Hm2 & Hc2); [done..|]. cbn [fst snd] in E2.
  erewrite bind_Ok by exact E2. exists m2, (A ++ place (p, ps) (x.1, bs1) B1). split; [reflexivity|]. split; [done|].
  assert (only_headers [x.1; p] m m2) as Ho.
  { eapply headers_trans; (eapply only_more; [|eassumption]); set_solver. }
  split; [done|]. split; [|split].
  - apply chain_app. split; [|done]. assert (first (place (p, ps) (x.1, bs1) B1) base = p) as -> by (unfold place; by case_bool).
    eapply chain_frame; [exact Ho| |exact HcA]. eapply Forall_impl; [exact HAx|]. intros y [Hyp [Hyx _]%Forall_cons]%Forall_cons.
    unfold apart, before in *. repeat constructor; cbn in *; lia.
  - etrans; [|apply place_merges]. replace (A ++ (p, ps) :: x :: B) with ((A ++ [(p, ps)]) ++ x :: B) by (by rewrite <- (assoc_L (++))).
    replace (A ++ (p, ps) :: (x.1, bs1) :: B1) with ((A ++ [(p, ps)]) ++ (x.1, bs1) :: B1) by (by rewrite <- (assoc_L (++))). by apply join_merges.
  - rewrite fmap_app. apply elem_of_app. right. unfold place. case_bool; cbn; apply elem_of_cons; by left.
Qed.

Lemma free_ok s L x : flist s L -> in_heap s x -> hsize (um s) x.1 = x.2 -> Forall (disj x) L ->
  exists s' L', free (x.1 + HEADER) s = Ok tt s' /\ freed s L x s' L'.
Proof.
  intros F Hx Hsz Hd. destruct (insert_split s L x F Hx Hd) as (A & [p ps] & B & EF & HA & HB & Hsort).
  pose proof (flist_addr _ _ F) as Haddr. pose proof (fl_chain _ _ F) as Hc. pose proof (full_sorted _ _ F) as Hs. pose proof (list_units _ _ F) as Hu.
  pose proof (fl_brk _ _ F) as Hbrk. pose proof base_heap. pose proof limit_small.
  destruct (flist_index _ _ F) as (i & n & Hi). rewrite EF in Haddr, Hc, Hs, Hi.
  assert (length (A ++ (p, ps) :: B) = S (length L)) as Hlen by (by rewrite <- EF).
  assert (free_find x.1 (freep s) (heap_units s) s = Ok p s) as Efind.
  { eapply (free_find_walk (um s) A B p ps x Hc Hs); [by rewrite <- EF|done|done|done|exact Hi|].
    apply lookup_lt_Some in Hi. rewrite Hlen in *. rewrite length_app in Hlen. cbn in Hlen. unfold dist. case_decide; lia. }
  destruct (free_links s A p ps B x Hc Haddr) as (m2 & F' & E & Hm2 & Ho & Hc2 & Hmg & Hin); [unfold addr_ok, in_heap in *; lia|unfold in_heap in *; lia|apply F|done..|].
  destruct (with_x L A (p, ps) x B (in_heap s) EF (fl_in _ _ F) Hx) as (L0 & E0 & HL0 & HQ).
  destruct (merges_ok s _ F' Hmg L0 E0 Hsort HL0 ltac:(lia)) as (L' & -> & Hs' & HL' & Hd' & Hbig & Hll).
  exists (mk_ust m2 p (brk s)), L'. split; [done|]. split; [|split; [done|split; [|split; [|split]]]].
  - split; [done|by destruct Hs'|exact HL'|by apply Hin|done|done].
  - eapply only_more; [|exact Ho]. intros a. rewrite elem_of_cons, list_elem_of_singleton. intros [->| ->]; [set_solver|].
    assert (p ∈ ((base, 0) :: L).*1) as Hp by (rewrite EF, fmap_app; set_solver). cbn in Hp. set_solver.
  - intros y Hyh Hy Hyx HyL. assert (Forall (disj y) ((base, 0) :: L')) as [_ Hr]%Forall_cons; [|done].
    apply Hd'; [done|]. rewrite E0. constructor; [|by apply HQ]. right. unfold before. cbn. lia.
  - assert (Exists (fun z => x.2 <= z.2) ((base, 0) :: L')) as [Hz|Hz]%Exists_cons; [|unfold in_heap in Hx; cbn in Hz; lia|done].
    apply Hbig. apply Exists_app. right. apply Exists_cons. right. apply Exists_cons. left. lia.
  - rewrite length_app in *. cbn in *. lia.
Qed.

(** ** [morecore] *)
Lemma flist_grow s L m b : flist s L -> byte_mem m -> brk s <= b <= limit -> only_headers [brk s] (um s) m ->
  flist (mk_ust m (freep s) b) L.
Proof.
  intros F Hm Hb Ho. pose proof (fl_brk _ _ F). pose proof base_heap. split; cbn [um freep brk]; [|apply F| |apply F|lia|done].
  - eapply chain_frame; [exact Ho| |apply (fl_chain _ _ F)]. constructor; [constructor; [|constructor]; unfold apart; cbn; lia|].
    eapply Forall_impl; [apply (fl_in _ _ F)|]. intros y Hy. constructor; [|constructor]. unfold apart, in_heap in *. lia.
  - eapply Forall_impl; [apply (fl_in _ _ F)|]. unfold in_heap. cbn. intros. lia.
Qed.

Lemma sbrk_grow s n : 0 < n -> sbrk n s =
  Ok (if brk s + n <=? limit then brk s else -1) (if brk s + n <=? limit then mk_ust (um s) (freep s) (brk s + n) else s).
Proof. intros Hn. unfold sbrk. erewrite bind_Ok by reflexivity. rewrite (proj2 (Z.ltb_lt _ _)) by lia. by destruct (_ <=? _). Qed.

Definition more_units (nu : Z) : Z := if nu <? 4096 then 4096 else nu.

Lemma more_units_range nu : 0 <= nu -> nu * 16 < 2 ^ 31 -> 4096 <= more_units nu /\ nu <= more_units nu /\ more_units nu * 16 < 2 ^ 31.
Proof. unfold more_units. intros. destruct (Z.ltb_spec nu 4096); lia. Qed.

Lemma morecore_eq s nu : 0 <= brk s -> 0 <= nu -> nu * 16 < 2 ^ 31 -> let u := more_units nu in
  morecore nu s = if brk s + u * 16 <=? limit then (free (brk s + HEADER) ;; gets freep) (mk_ust (store32 (um s) (brk s + 8) u) (freep s) (brk s + u * 16))
                  else Ok 0 s.
Proof.
  intros Hb Hnu Hmax u. destruct (more_units_range nu Hnu Hmax) as (Hm1 & Hm2 & Hm3). fold u in Hm1, Hm2, Hm3. unfold morecore. fold (more_units nu). fold u.
  replace (u * HEADER) with (u * 16) by done. rewrite i32_small by lia. erewrite bind_Ok by (apply sbrk_grow; lia).
  destruct (Z.leb_spec (brk s + u * 16) limit) as [Hle|Hgt]; [|done]. rewrite (proj2 (Z.eqb_neq _ _)) by lia. erewrite bind_Ok by reflexivity.
  cbn [um freep brk]. by rewrite u32_small by (unfold in_range; lia).
Qed.

(** The blocks apart from the free list [L] of [s] stay apart from the free list of [s'],
    and their bytes are the same. *)
Definition keeps (s : ust) (L : list blk) (s' : ust) (L' : list blk) : Prop :=
  forall z, in_heap s z -> Forall (disj z) L -> Forall (disj z) L' /\ forall x, z.1 <= x < z.1 + 16 * z.2 -> load8 (um s') x = load8 (um s) x.

Lemma keeps_headers hs s m' z x : in_heap s z -> only_headers hs (um s) m' -> Forall (fun a => a + 16 <= z.1 \/ z.1 + 16 * z.2 <= a) hs ->
  z.1 <= x < z.1 + 16 * z.2 -> load8 m' x = load8 (um s) x.
Proof. intros Hz Ho Hh Hx. apply Ho. eapply Forall_impl; [exact Hh|]. cbn. intros. lia. Qed.

Lemma outside_list s z L : in_heap s z -> Forall (disj z) L -> Forall (fun a => a + 16 <= z.1 \/ z.1 + 16 * z.2 <= a) (base :: L.*1).
Proof.
  intros Hz Hd. pose proof base_heap. constructor; [unfold in_heap in Hz; left; lia|]. apply Forall_fmap. eapply Forall_impl; [exact Hd|].
  unfold disj, before. cbn. intros. lia.
Qed.

Lemma morecore_ok s L nu : flist s L -> 0 <= nu -> nu * 16 < 2 ^ 31 ->
  (morecore nu s = Ok 0 s /\ limit < brk s + more_units nu * 16) \/
  (exists s' L', morecore nu s = Ok (freep s') s' /\ flist s' L' /\ brk s <= brk s' /\ keeps s L s' L' /\
    Exists (fun z => nu <= z.2) L' /\ (length L' <= S (length L))%nat).
Proof.
  intros F Hnu Hmax. pose proof (fl_brk _ _ F) as Hb. pose proof base_pos. pose proof base_heap. pose proof limit_small.
  destruct (more_units_range nu Hnu Hmax) as (Hm1 & Hm2 & Hm3). rewrite morecore_eq by lia. set (u := more_units nu) in *. cbv zeta.
  destruct (Z.leb_spec (brk s + u * 16) limit) as [Hle|Hgt]; [right|left; split; [done|lia]].
  set (s1 := mk_ust _ _ _). pose proof (store_size (um s) (brk s) u) as Ho.
  assert (flist s1 L) as F1 by (apply flist_grow; [done|apply byte_mem_store32, F|lia|done]).
  destruct (free_ok s1 L (brk s, u) F1) as (s' & L' & E & F' & Hbrk & Ho' & Hd & Hbig & Hlen).
  - unfold in_heap. cbn. lia.
  - cbn. apply load32_store32_eq. unfold in_range. lia.
  - eapply Forall_impl; [apply (fl_in _ _ F)|]. intros y Hy. right. unfold before, in_heap in *. cbn. lia.
  - cbn [fst] in E. exists s', L'. split; [by erewrite bind_Ok by exact E|]. split; [done|]. split; [rewrite Hbrk; cbn; lia|]. split; [|split; [|done]].
    + intros z Hz HzL. split; [apply Hd; [unfold in_heap in Hz; lia..| |done]; left; unfold before, in_heap in *; cbn; lia|].
      intros x. apply (keeps_headers (base :: brk s :: L.*1)); [done| |].
      * eapply headers_trans; [|exact Ho']. eapply only_more; [|exact Ho]. set_solver.
      * pose proof (outside_list s z L Hz HzL) as [Hbz HLz]%Forall_cons. constructor; [done|]. constructor; [unfold in_heap in Hz; lia|done].
    + eapply Exists_impl; [exact Hbig|]. cbn. intros. lia.
Qed.

(** ** Taking a block *)
Definition take_block (nunits prevp p psize : Z) : M ust Z :=
  let! p :=
    (if psize =? nunits then
       let! n := ptr p in set_hptr prevp n ;; ret p
     else
       set_hsize p (psize - nunits) ;;
       let p := p + HEADER * (psize - nunits) in
       set_hsize p nunits ;;
       ret p) in
  set_freep prevp ;;
  ret (p + HEADER).

Definition taken (s : ust) (L : list blk) (s' : ust) (L' : list blk) (y : blk) : Prop :=
  flist s' L' /\ brk s' = brk s /\ in_heap s y /\ hsize (um s') y.1 = y.2 /\ Forall (disj y) L' /\
  keeps s L s' L' /\ (forall z, 1 <= z.2 -> Forall (disj z) L -> disj z y).

Lemma split_pred L A (q p : blk) B : (base, 0) :: L = A ++ q :: p :: B -> exists LA, A ++ [q] = (base, 0) :: LA /\ L = LA ++ p :: B.
Proof.
  destruct A as [|z A]; cbn; intros E; injection E as <- ->; [by exists []|]. exists (A ++ [q]). split; [done|]. by rewrite <- (assoc_L (++)).
Qed.

(** [p] leaves the list, or its part [B'] stays. *)
Lemma flist_replace s LA p ps B B' A q qs m' : flist s (LA ++ (p, ps) :: B) -> A ++ [(q, qs)] = (base, 0) :: LA ->
  chain m' ((A ++ [(q, qs)]) ++ B') base -> byte_mem m' -> sorted B' -> Forall (fun y => p <= y.1) B' -> Forall (in_heap s) B' ->
  flist (mk_ust m' q (brk s)) (LA ++ B').
Proof.
  intros F EA Hc Hm Hs HB Hin. pose proof (fl_sorted _ _ F) as Hso. apply sorted_app in Hso as (HsA & _ & HAB). pose proof (fl_in _ _ F) as Hi.
  apply Forall_app in Hi as [HiA _]. rewrite EA in Hc. split; cbn [um freep brk]; [done| | | |apply F|done].
  - apply sorted_app. split; [done|]. split; [done|]. eapply Forall_impl; [exact HAB|]. intros z [Hz _]%Forall_cons.
    eapply Forall_impl; [exact HB|]. unfold before in *. cbn in *. intros. lia.
  - apply Forall_app. by split.
  - assert (q ∈ (A ++ [(q, qs)]).*1) as Hq by (rewrite fmap_app; set_solver). rewrite EA in Hq. rewrite fmap_app. cbn in Hq. set_solver.
Qed.

Lemma disj_part z p ps a n : 1 <= n -> 1 <= z.2 -> p <= a -> a + 16 * n <= p + 16 * ps -> disj z (p, ps) -> disj z (a, n).
Proof. unfold disj, before. cbn. lia. Qed.

Section Take.
Variables (s : ust) (LA : list blk) (p ps : Z) (B A : list blk) (q qs n : Z).
Notation L := (LA ++ (p, ps) :: B).
Hypothesis F : flist s L.
Hypothesis EA : A ++ [(q, qs)] = (base, 0) :: LA.

Lemma take_facts : chain (um s) A q /\ hdr (um s) q p qs /\ hdr (um s) p (first B base) ps /\ chain (um s) B base /\
  sorted B /\ Forall (before (p, ps)) B /\ Forall (fun y => before y (q, qs)) A /\ Forall (fun y => before y (p, ps)) A /\ before (q, qs) (p, ps) /\
  Forall (before (q, qs)) B /\ Forall (fun y => before y (p, ps)) LA.
Proof.
  pose proof (fl_chain _ _ F) as Hc. pose proof (full_sorted _ _ F) as Hs. change ((base, 0) :: L) with (((base, 0) :: LA) ++ (p, ps) :: B) in *.
  assert (Forall (fun y => before y (p, ps)) ((base, 0) :: LA)) as HLA.
  { apply sorted_app in Hs as (_ & _ & HAp). eapply Forall_impl; [exact HAp|]. by intros y [Hy _]%Forall_cons. }
  pose proof HLA as [_ HLA']%Forall_cons. rewrite <- EA in Hc, Hs, HLA. apply chain_app in Hc as [HcA [Hp HcB]]. apply sorted_app in Hs as (HsA & [HpB HsB] & HAp).
  apply chain_app in HcA as [HcA [Hq _]]. apply sorted_app in HsA as (_ & _ & HAq). apply Forall_app in HAp as [_ [[Hqp HqB]%Forall_cons _]%Forall_cons].
  apply Forall_app in HLA as [HLA _]. repeat (split; [done|]). split; [|done].
  eapply Forall_impl; [exact HAq|]. by intros y [Hy _]%Forall_cons.
Qed.

Lemma q_in : q ∈ base :: L.*1.
Proof.
  assert (q ∈ (A ++ [(q, qs)]).*1) as Hq by (rewrite fmap_app; set_solver). rewrite EA in Hq. rewrite fmap_app. cbn in Hq. set_solver.
Qed.

Lemma take_exact : n = ps -> exists s' L' y, take_block n q p ps s = Ok (y.1 + HEADER) s' /\ y.2 = n /\ taken s L s' L' y.
Proof.
  intros ->. destruct take_facts as (HcA & Hq & Hp & HcB & HsB & HpB & HAq & _ & Hqp & HqB & HLA). pose proof (flist_addr _ _ F) as Ha.
  pose proof (fl_in _ _ F) as Hi. apply Forall_cons in Ha as [_ Ha]. apply Forall_app in Ha as [_ [_ HaB]%Forall_cons]. apply Forall_app in Hi as [_ [Hip HiB]%Forall_cons].
  exists (mk_ust (store64 (um s) q (first B base)) q (brk s)), (LA ++ B), (p, ps).
  split; [unfold take_block; by rewrite Z.eqb_refl, <- (proj1 Hp)|]. split; [done|].
  assert (flist (mk_ust (store64 (um s) q (first B base)) q (brk s)) (LA ++ B)) as F'.
  { eapply flist_replace; [exact F|exact EA| |apply byte_mem_store64, F|done| |done].
    - apply chain_app. split; [apply chain_app; split; [|split; [|done]]|].
      + eapply chain_frame; [apply store_ptr| |exact HcA]. eapply Forall_impl; [exact HAq|]. intros y Hy. constructor; [|constructor]. left. apply Hy.
      + eapply hdr_ptr; [by apply first_range|exact Hq].
      + eapply chain_frame; [apply store_ptr| |exact HcB]. eapply Forall_impl; [exact HqB|]. intros y Hy. constructor; [|constructor]. right. apply Hy.
    - eapply Forall_impl; [exact HpB|]. unfold before. cbn. intros. lia. }
  split; [done|]. split; [done|]. split; [done|]. split; [|split; [|split]].
  - cbn. eapply (only_hdr [q] (um s) _ p); [apply store_ptr| |exact Hp]. constructor; [|constructor]. right. apply Hqp.
  - apply Forall_app. split; [eapply Forall_impl; [exact HLA|]; intros y Hy; by right|eapply Forall_impl; [exact HpB|]; intros y Hy; by left].
  - intros z Hz HzL. split; [apply Forall_app in HzL as [HzA [Hzp HzB]%Forall_cons]; by apply Forall_app|].
    intros x. apply (keeps_headers (base :: L.*1)); [done| |by eapply outside_list].
    eapply only_more; [|apply store_ptr]. intros a ->%list_elem_of_singleton. apply q_in.
  - intros z _ Hz. by apply Forall_app in Hz as [_ [Hzp _]%Forall_cons].
Qed.

Lemma take_tail : 1 <= n < ps -> exists s' L' y, take_block n q p ps s = Ok (y.1 + HEADER) s' /\ y.2 = n /\ taken s L s' L' y.
Proof.
  intros Hn. destruct take_facts as (HcA & Hq & Hp & HcB & HsB & HpB & _ & HAp & Hqp & _ & HLA). pose proof (flist_addr _ _ F) as Ha.
  pose proof (fl_in _ _ F) as Hi. apply Forall_cons in Ha as [_ Ha]. apply Forall_app in Ha as [_ [Hap HaB]%Forall_cons]. apply Forall_app in Hi as [_ [Hip HiB]%Forall_cons].
  set (d := ps - n). set (a := p + 16 * d). set (m' := store32 (store32 (um s) (p + 8) d) (a + 8) n).
  pose proof base_pos. assert (d = ps - n) as Hd by done. assert (a = p + 16 * d) as Had by done.
  assert (in_range 32 d /\ in_range 32 n) as [Hrd Hrn] by (unfold in_range, addr_ok in *; cbn in *; lia).
  exists (mk_ust m' q (brk s)), (LA ++ (p, d) :: B), (a, n). split.
  { unfold take_block. rewrite (proj2 (Z.eqb_neq _ _)) by lia. fold d. cbn. by rewrite (u32_small _ Hrd), (u32_small _ Hrn). }
  split; [done|]. assert (only_headers [p; a] (um s) m') as Ho by (eapply headers_trans; (eapply only_more; [|apply store_size]); set_solver).
  assert (hdr m' p (first B base) d /\ hsize m' a = n) as [Hp' Ha'].
  { split; [|by apply load32_store32_eq]. eapply only_hdr; [apply store_size| |by eapply hdr_size]. constructor; [|constructor]. left. lia. }
  assert (forall y, before y (p, ps) -> Forall (apart y.1) [p; a]) as Hlow by (unfold before, apart; cbn; intros; repeat constructor; lia).
  assert (flist (mk_ust m' q (brk s)) (LA ++ (p, d) :: B)) as F'.
  { eapply flist_replace; [exact F|exact EA| |apply byte_mem_store32, byte_mem_store32, F| | |].
    - apply chain_app. split; [apply chain_app; split; [|split; [|done]]|split; [done|]].
      + eapply chain_frame; [exact Ho| |exact HcA]. eapply Forall_impl; [exact HAp|]. auto.
      + eapply only_hdr; [exact Ho| |exact Hq]. by apply (Hlow (q, qs)).
      + eapply chain_frame; [exact Ho| |exact HcB]. eapply Forall_impl; [exact HpB|]. unfold before, apart. cbn. intros. repeat constructor; lia.
    - split; [|done]. eapply Forall_impl; [exact HpB|]. unfold before. cbn. intros. lia.
    - constructor; [done|]. eapply Forall_impl; [exact HpB|]. unfold before. cbn. intros. lia.
    - constructor; [|done]. unfold in_heap in *. cbn in *. lia. }
  split; [done|]. split; [done|]. split; [unfold in_heap in *; cbn in *; lia|]. split; [done|]. split; [|split].
  - apply Forall_app. split; [|constructor]; [eapply Forall_impl; [exact HLA|]| |eapply Forall_impl; [exact HpB|]]; unfold disj, before; cbn; intros; lia.
  - intros z Hz HzL. apply Forall_app in HzL as [HzA [Hzp HzB]%Forall_cons]. pose proof (proj1 (proj2 Hz)) as Hz1. split.
    + apply Forall_app. split; [done|]. constructor; [|done]. eapply disj_part; [..|exact Hzp]; lia.
    + intros x. apply (keeps_headers [p; a]); [done|done|]. unfold disj, before in Hzp. cbn in Hzp. constructor; [lia|]. constructor; [lia|constructor].
  - intros z Hz1 Hz. apply Forall_app in Hz as [_ [Hzp _]%Forall_cons]. eapply disj_part; [..|exact Hzp]; lia.
Qed.
End Take.

Lemma take_ok s L A q qs p ps B n : flist s L -> (base, 0) :: L = A ++ (q, qs) :: (p, ps) :: B -> 1 <= n <= ps ->
  exists s' L' y, take_block n q p ps s = Ok (y.1 + HEADER) s' /\ y.2 = n /\ taken s L s' L' y.
Proof.
  intros F EF Hn. destruct (split_pred _ _ _ _ _ EF) as (LA & EA & ->).
  destruct (decide (n = ps)); [by eapply take_exact|eapply take_tail; [done..|lia]].
Qed.

(** ** The search *)
Definition more (n : Z) (f : nat) : M ust Z :=
  let! p := morecore n in
  if p =? 0 then ret 0 else let! nx := ptr p in malloc_loop n p nx f.

Lemma malloc_loop_S n q p f s : malloc_loop n q p (S f) s =
  if n <=? hsize (um s) p then take_block n q p (hsize (um s) p) s
  else if p =? freep s then more n f s else malloc_loop n p (hptr (um s) p) f s.
Proof.
  cbn [malloc_loop]. unfold size. erewrite bind_Ok by reflexivity. destruct (n <=? _); [done|]. erewrite bind_Ok by reflexivity. by destruct (_ =? _).
Qed.

Lemma same_index F i j a n k : sorted F -> F !! i = Some (a, n) -> F !! j = Some (a, k) -> i = j.
Proof.
  intros Hs Hi Hj. destruct (lt_eq_lt_dec i j) as [[Hlt|Heq]|Hgt]; [|done|];
    [pose proof (sorted_lookup _ _ _ _ _ Hs Hi Hj Hlt) as Hb|pose proof (sorted_lookup _ _ _ _ _ Hs Hj Hi Hgt) as Hb]; unfold before in Hb; cbn in Hb; lia.
Qed.

Definition found (s : ust) (L : list blk) (n : Z) (r : outcome ust Z) : Prop :=
  exists A q qs p ps B, (base, 0) :: L = A ++ (q, qs) :: (p, ps) :: B /\ n <= ps /\ r = take_block n q p ps s.

Section Scan.
Variables (s : ust) (L : list blk) (n : Z) (k : nat) (fs : Z).
Notation F := ((base, 0) :: L).
Notation d i := (dist (length F) i k).
Hypothesis HL : flist s L.
Hypothesis Hn : 1 <= n.
Hypothesis Hk : F !! k = Some (freep s, fs).

Lemma dist_next i : (i < length F)%nat -> i <> k -> S (d (if decide (S i < length F)%nat then S i else 0%nat)) = d i.
Proof. intros Hi Hne. apply lookup_lt_Some in Hk. unfold dist. repeat case_decide; lia. Qed.

Lemma dist_max i j : (i < length F)%nat -> (j < length F)%nat -> i = k -> j <> i -> (d i < d j)%nat.
Proof. intros Hi Hj -> Hne. apply lookup_lt_Some in Hk. unfold dist. repeat case_decide; lia. Qed.

Lemma dist_inj i j : (i < length F)%nat -> (j < length F)%nat -> d i = d j -> i = j.
Proof. intros Hi Hj. apply lookup_lt_Some in Hk. unfold dist. repeat case_decide; lia. Qed.

Lemma scan fuel : forall i q p ps, F !! i = Some (p, ps) -> (forall i', i = S i' -> exists qs, F !! i' = Some (q, qs)) ->
  (forall j y, F !! j = Some y -> (d i < d j)%nat -> y.2 < n) -> (d i < fuel)%nat ->
  found s L n (malloc_loop n q p fuel s) \/
  (Forall (fun y => y.2 < n) F /\ exists f, fuel = S (d i + f) /\ malloc_loop n q p fuel s = more n f s).
Proof.
  induction fuel as [|f IH]; intros i q p ps Hi Hq Hv Hf; [lia|]. rewrite malloc_loop_S. destruct (chain_next _ _ _ _ _ _ (fl_chain _ _ HL) Hi) as [Hnx ->].
  pose proof (full_sorted _ _ HL) as Hs. pose proof (lookup_lt_Some _ _ _ Hi) as Hlen. destruct (Z.leb_spec n ps) as [Hps|Hps].
  - left. destruct i as [|i]; [injection Hi as <- <-; lia|]. destruct (Hq i eq_refl) as [qs Hq']. exists (take i F), q, qs, p, ps, (drop (S (S i)) F).
    split; [|done]. rewrite <- (drop_S F (p, ps) (S i)) by done. rewrite <- (drop_S F (q, qs) i) by done. by rewrite take_drop.
  - destruct (decide (i = k)) as [->|Hne].
    + assert (p = freep s) as Ep by (pose proof Hk as Hk'; rewrite Hi in Hk'; by injection Hk'). rewrite (proj2 (Z.eqb_eq _ _) Ep). right. split.
      * apply Forall_lookup. intros j y Hj. destruct (decide (j = k)) as [->|Hne]; [rewrite Hi in Hj; by injection Hj as <-|].
        eapply Hv; [exact Hj|]. apply dist_max; [lia|by eapply lookup_lt_Some|done|done].
      * exists f. split; [|done]. unfold dist. rewrite decide_True by lia. lia.
    + rewrite (proj2 (Z.eqb_neq _ _)) by (intros ->; apply Hne; by eapply same_index). pose proof (dist_next i Hlen Hne) as Hd.
      rewrite Hnx, first_drop. assert (forall j y, F !! j = Some y -> (d (if decide (S i < length F)%nat then S i else 0%nat) < d j)%nat -> y.2 < n) as Hv'.
      { intros j y Hj Hlt. destruct (decide (j = i)) as [->|Hji]; [rewrite Hi in Hj; by injection Hj as <-|]. eapply Hv; [exact Hj|].
        enough (d j <> d i) by lia. intros E. apply Hji. apply dist_inj; [by eapply lookup_lt_Some|done|done]. }
      assert (exists b bs, F !! (if decide (S i < length F)%nat then S i else 0%nat) = Some (b, bs) /\
        match F !! S i with Some y => y.1 | None => base end = b) as (b & bs & Hb & ->).
      { destruct (F !! S i) as [[b bs]|] eqn:Hy; [rewrite decide_True by (by eapply lookup_lt_Some); eauto|].
        apply lookup_ge_None in Hy. rewrite decide_False by lia. by exists base, 0. }
      destruct (IH _ p b bs Hb) as [Hfd|(Hall & f' & -> & E)]; [|exact Hv'|lia|by left|right].
      * intros i' Ei. case_decide; [injection Ei as <-; eauto|done].
      * split; [done|]. exists f'. split; [lia|done].
Qed.
End Scan.

(** A search from [freep] on, all the way around. *)
Lemma round s L n fuel : flist s L -> 1 <= n -> (length L < fuel)%nat ->
  let r := malloc_loop n (freep s) (hptr (um s) (freep s)) fuel s in
  found s L n r \/ (Forall (fun y => y.2 < n) L /\ exists f, (fuel <= S (length L + f))%nat /\ r = more n f s).
Proof.
  intros F Hn Hf. cbv zeta. destruct (flist_index _ _ F) as (k & fs & Hk). destruct (chain_next _ _ _ _ _ _ (fl_chain _ _ F) Hk) as [-> _]. rewrite first_drop.
  set (i := if decide (S k < S (length L))%nat then S k else 0%nat). pose proof (lookup_lt_Some _ _ _ Hk) as Hlen.
  assert (exists b bs, ((base, 0) :: L) !! i = Some (b, bs) /\ match ((base, 0) :: L) !! S k with Some y => y.1 | None => base end = b) as (b & bs & Hb & ->).
  { unfold i. destruct (((base, 0) :: L) !! S k) as [[b bs]|] eqn:Hy; [rewrite decide_True by (by apply lookup_lt_Some in Hy); eauto|].
    apply lookup_ge_None in Hy. cbn [length] in Hy. rewrite decide_False by lia. by exists base, 0. }
  assert (dist (length ((base, 0) :: L)) i k = length L) as Hd by (unfold i, dist; cbn [length] in *; repeat case_decide; lia).
  destruct (scan s L n k fs F Hn Hk fuel i (freep s) b bs Hb) as [Hfd|(Hall & f & -> & E)]; [| |lia|by left|right].
  - unfold i. intros i' Ei. case_decide; [injection Ei as <-; eauto|done].
  - intros j y Hj Hlt. apply lookup_lt_Some in Hj. rewrite Hd in Hlt. revert Hlt. unfold dist. cbn [length] in *. case_decide; lia.
  - apply Forall_cons in Hall as [_ Hall]. split; [done|]. exists f. split; [lia|done].
Qed.

Lemma keeps_trans s1 L1 s2 L2 s3 L3 : brk s1 <= brk s2 -> keeps s1 L1 s2 L2 -> keeps s2 L2 s3 L3 -> keeps s1 L1 s3 L3.
Proof.
  intros Hb H1 H2 z Hz HzL. destruct (H1 z Hz HzL) as [Hz2 E2]. destruct (H2 z) as [Hz3 E3]; [unfold in_heap in *; lia|done|]. split; [done|].
  intros x Hx. by rewrite E3, E2.
Qed.

(** What the search does: nothing, when there is no block and no more memory, or it hands
    out a block of [n] units. *)
Inductive malloced (s : ust) (L : list blk) (n : Z) : outcome ust Z -> Prop :=
| malloced_no : limit < brk s + more_units n * 16 -> Forall (fun y => y.2 < n) L -> malloced s L n (Ok 0 s)
| malloced_yes a s' L' : flist s' L' -> brk s <= brk s' -> in_heap s' (a, n) -> hsize (um s') a = n -> Forall (disj (a, n)) L' -> keeps s L s' L' ->
    (forall z, in_heap s z -> Forall (disj z) L -> disj z (a, n)) -> malloced s L n (Ok (a + HEADER) s').

Lemma found_ok s L n s0 L0 r : 1 <= n -> flist s L -> found s L n r -> brk s0 <= brk s -> keeps s0 L0 s L -> malloced s0 L0 n r.
Proof.
  intros Hn F (A & q & qs & p & ps & B & EF & Hps & ->) Hb Hk. destruct (take_ok _ _ _ _ _ _ _ _ n F EF ltac:(lia)) as (s' & L' & [a k] & E & Ek & F' & Hb' & Hin & Hsz & Hd & Hk' & Hz).
  cbn in E, Ek, Hsz. subst k. rewrite E. apply (malloced_yes _ _ _ a s' L'); [done|lia|unfold in_heap in *; lia|done|done|by eapply keeps_trans|].
  intros z Hzi Hzd. apply Hz; [apply Hzi|]. by apply Hk.
Qed.

Lemma keeps_refl s L : keeps s L s L.
Proof. done. Qed.

Lemma search_ok s L n : flist s L -> 1 <= n -> n * 16 < 2 ^ 31 ->
  malloced s L n (malloc_loop n (freep s) (hptr (um s) (freep s)) (2 * heap_units s + 4) s).
Proof.
  intros F Hn Hmax. pose proof (list_units _ _ F) as Hu. pose proof base_pos.
  destruct (round s L n (2 * heap_units s + 4) F Hn ltac:(lia)) as [Hf|(Hall & f & Hf & ->)]; [eapply found_ok; [done|exact F|done|lia|apply keeps_refl]|].
  unfold more. destruct (morecore_ok s L n F ltac:(lia) Hmax) as [[E Hlim]|(s' & L' & E & F' & Hb & Hk & Hbig & Hlen)]; erewrite bind_Ok by exact E.
  - by apply malloced_no.
  - rewrite (proj2 (Z.eqb_neq _ _) (flist_freep _ _ F')). unfold ptr. erewrite bind_Ok by reflexivity.
    destruct (round s' L' n f F' Hn ltac:(lia)) as [Hf'|(Hall' & _)]; [eapply found_ok; [done|exact F'|done|done|done]|].
    exfalso. apply Exists_exists in Hbig as (y & Hy & Hny). rewrite Forall_forall in Hall'. specialize (Hall' y Hy). lia.
Qed.

(** ** A program that uses the allocator *)
Definition units (nbytes : Z) : Z := (nbytes + HEADER - 1) / HEADER + 1.

Lemma units_range nbytes : 0 <= nbytes <= 2 ^ 31 - 64 -> 1 <= units nbytes /\ units nbytes * 16 < 2 ^ 31 /\ nbytes <= 16 * (units nbytes - 1).
Proof.
  intros Hn. unfold units, HEADER. pose proof (Z.div_mod (nbytes + 16 - 1) 16 ltac:(lia)). pose proof (Z.mod_pos_bound (nbytes + 16 - 1) 16 ltac:(lia)). lia.
Qed.

(** The program holds the blocks [live], from the address [malloc] returned to its units. *)
Record held (s : ust) (L : list blk) (live : gmap Z Z) : Prop := {
  hd_block : forall r n, live !! r = Some n -> in_heap s (r - 16, n) /\ hsize (um s) (r - 16) = n /\ Forall (disj (r - 16, n)) L;
  hd_apart : forall r1 n1 r2 n2, live !! r1 = Some n1 -> live !! r2 = Some n2 -> r1 <> r2 -> disj (r1 - 16, n1) (r2 - 16, n2)
}.

Definition fresh_heap (s : ust) : Prop := freep s = 0 /\ heap0 <= brk s <= limit /\ byte_mem (um s).

Definition heap_inv (s : ust) (live : gmap Z Z) : Prop :=
  (fresh_heap s /\ live = ∅) \/ exists L, flist s L /\ held s L live.

Definition same_bytes (live : gmap Z Z) (s s' : ust) : Prop :=
  forall r n x, live !! r = Some n -> r <= x < r + 16 * (n - 1) -> load8 (um s') x = load8 (um s) x.

Inductive hstep : ust * gmap Z Z -> ust * gmap Z Z -> Prop :=
| step_malloc s live nbytes r s' : 0 <= nbytes <= 2 ^ 31 - 64 -> malloc nbytes s = Ok r s' ->
    hstep (s, live) (s', if r =? 0 then live else <[r := units nbytes]> live)
| step_free s live r n s' : live !! r = Some n -> free r s = Ok tt s' -> hstep (s, live) (s', delete r live)
| step_write s live r n x v : live !! r = Some n -> r <= x < r + 16 * (n - 1) ->
    hstep (s, live) (mk_ust (store8 (um s) x v) (freep s) (brk s), live).

Lemma keeps_same s L s' L' live : held s L live -> keeps s L s' L' -> same_bytes live s s'.
Proof.
  intros Hh Hk r n x Hr Hx. destruct (hd_block _ _ _ Hh r n Hr) as (Hi & _ & Hd). apply (Hk _ Hi Hd). cbn. lia.
Qed.

Lemma keeps_held s L s' L' live : held s L live -> keeps s L s' L' -> brk s <= brk s' -> held s' L' live.
Proof.
  intros Hh Hk Hb. split; [|apply Hh]. intros r n Hr. destruct (hd_block _ _ _ Hh r n Hr) as (Hi & Hs & Hd). destruct (Hk _ Hi Hd) as [Hd' E].
  split; [unfold in_heap in *; lia|]. split; [|done]. rewrite <- Hs. apply load32_ext. intros x Hx. apply E. unfold in_heap in Hi. cbn in *. lia.
Qed.

Lemma malloc_eq nbytes s : 0 <= nbytes <= 2 ^ 31 - 64 -> let s1 := if freep s =? 0 then mk_ust (store32 (store64 (um s) base base) (base + 8) 0) base (brk s) else s in
  malloc nbytes s = malloc_loop (units nbytes) (freep s1) (hptr (um s1) (freep s1)) (2 * heap_units s1 + 4) s1.
Proof.
  intros Hn s1. destruct (units_range _ Hn) as (Hu1 & Hu2 & _). unfold malloc. fold (units nbytes). rewrite u32_small by (unfold in_range; lia).
  erewrite bind_Ok by reflexivity. unfold s1. by destruct (freep s =? 0).
Qed.

Lemma init_flist s : fresh_heap s -> flist (mk_ust (store32 (store64 (um s) base base) (base + 8) 0) base (brk s)) [].
Proof.
  intros (_ & Hb & Hm). pose proof base_pos. pose proof base_heap. pose proof heap_limit. pose proof limit_small.
  split; cbn [um freep brk]; [|done|constructor|set_solver|done|by apply byte_mem_store32, byte_mem_store64].
  split; [|done]. cbn [first]. eapply hdr_size; [by unfold in_range|]. split; [|reflexivity]. apply load64_store64_eq. unfold in_range. lia.
Qed.

(** The list that [malloc] searches. *)
Lemma malloc_start s live : heap_inv s live -> exists L, let s1 := if freep s =? 0 then mk_ust (store32 (store64 (um s) base base) (base + 8) 0) base (brk s) else s in
  flist s1 L /\ held s1 L live /\ brk s1 = brk s /\ same_bytes live s s1.
Proof.
  intros [[Hf ->]|(L & F & Hh)].
  - exists []. rewrite (proj1 Hf). cbn [Z.eqb]. split; [by apply init_flist|]. split; [by split; intros * Hr; rewrite lookup_empty in Hr|]. split; [done|].
    intros r n x Hr. by rewrite lookup_empty in Hr.
  - exists L. rewrite (proj2 (Z.eqb_neq _ _) (flist_freep _ _ F)). done.
Qed.

Definition got (s : ust) (live : gmap Z Z) (nbytes r : Z) (s' : ust) : Prop :=
  r <> 0 /\ live !! r = None /\ r + nbytes <= brk s'.

Lemma malloc_held s live nbytes : heap_inv s live -> 0 <= nbytes <= 2 ^ 31 - 64 ->
  exists r s', malloc nbytes s = Ok r s' /\ same_bytes live s s' /\ brk s <= brk s' /\
    ((r = 0 /\ limit < brk s + more_units (units nbytes) * 16 /\ heap_inv s' live) \/
     (got s live nbytes r s' /\ heap_inv s' (<[r := units nbytes]> live))).
Proof.
  intros Hi Hn. destruct (units_range _ Hn) as (Hu1 & Hu2 & Hu3). rewrite (malloc_eq _ _ Hn). destruct (malloc_start s live Hi) as (L & F & Hh & Hb & Hsb).
  cbv zeta. set (s1 := if freep s =? 0 then _ else s) in *. destruct (search_ok s1 L (units nbytes) F Hu1 Hu2) as [Hlim _|a s' L' F' Hb' Hin Hsz Hd Hk Hz].
  - exists 0, s1. split; [done|]. split; [done|]. split; [lia|]. left. split; [done|]. split; [lia|]. right. eauto.
  - exists (a + HEADER), s'. split; [done|]. split; [|split; [lia|right]].
    + intros r n x Hr Hx. rewrite (keeps_same _ _ _ _ _ Hh Hk r n x Hr Hx). by apply (Hsb r n).
    + assert (live !! (a + HEADER) = None) as Hnone.
      { apply eq_None_not_Some. intros [n Hr]. destruct (hd_block _ _ _ Hh _ _ Hr) as (Hi' & _ & Hd'). specialize (Hz _ Hi' Hd').
        unfold disj, before, HEADER in Hz. cbn in Hz. lia. }
      pose proof base_heap. pose proof base_pos. split; [unfold got, in_heap, HEADER in *; cbn in *; split; [lia|split; [done|lia]]|]. right. exists L'. split; [done|].
      pose proof (keeps_held _ _ _ _ _ Hh Hk Hb') as Hh'. split.
      * intros r n Hr. apply lookup_insert_Some in Hr as [[<- <-]|[_ Hr]]; [|by apply Hh']. replace (a + HEADER - 16) with a by (unfold HEADER; lia). done.
      * intros r1 n1 r2 n2 Hr1 Hr2 Hne.
        assert (forall r n, live !! r = Some n -> disj (r - 16, n) (a, units nbytes)) as Hdz by (intros r n Hr; destruct (hd_block _ _ _ Hh _ _ Hr) as (? & _ & ?); by apply Hz).
        replace a with (a + HEADER - 16) in Hdz by (unfold HEADER; lia).
        apply lookup_insert_Some in Hr1 as [[<- <-]|[_ Hr1]], Hr2 as [[<- <-]|[_ Hr2]]; [done|destruct (Hdz _ _ Hr2); [by right|by left]|by apply Hdz|by apply (hd_apart _ _ _ Hh')].
Qed.

Lemma free_held s live r n : heap_inv s live -> live !! r = Some n ->
  exists s', free r s = Ok tt s' /\ same_bytes (delete r live) s s' /\ heap_inv s' (delete r live).
Proof.
  intros [[_ ->]|(L & F & Hh)] Hr; [by rewrite lookup_empty in Hr|]. destruct (hd_block _ _ _ Hh _ _ Hr) as (Hi & Hs & Hd).
  destruct (free_ok s L (r - 16, n) F Hi Hs Hd) as (s' & L' & E & F' & Hb & Ho & Hd' & _). cbn [fst] in E. replace (r - 16 + HEADER) with r in E by (unfold HEADER; lia).
  exists s'. split; [done|].
  assert (forall r1 n1, delete r live !! r1 = Some n1 -> live !! r1 = Some n1 /\ Forall (disj (r1 - 16, n1)) L' /\
    forall x, r1 - 16 <= x < r1 - 16 + 16 * n1 -> load8 (um s') x = load8 (um s) x) as Hoth.
  { intros r1 n1 [Hne H1]%lookup_delete_Some. split; [done|]. destruct (hd_block _ _ _ Hh _ _ H1) as (Hi1 & _ & Hd1).
    pose proof (hd_apart _ _ _ Hh _ _ _ _ H1 Hr ltac:(done)) as Hx. split; [apply Hd'; [unfold in_heap in Hi1; cbn in *; lia..|done|done]|].
    intros x. apply (keeps_headers _ s (um s') (r1 - 16, n1) x Hi1 Ho). pose proof (outside_list _ _ _ Hi1 Hd1) as [Hb1 HL1]%Forall_cons.
    constructor; [done|]. constructor; [|done]. unfold disj, before in Hx. cbn in *. lia. }
  split.
  - intros r1 n1 x H1 Hx. apply (Hoth _ _ H1). lia.
  - right. exists L'. split; [done|]. split; [|intros r1 n1 r2 n2 [H1 _]%Hoth [H2 _]%Hoth; by apply Hh].
    intros r1 n1 H1. destruct (Hoth _ _ H1) as (H1' & HdL & Eb). destruct (hd_block _ _ _ Hh _ _ H1') as (Hi1 & Hs1 & _).
    split; [unfold in_heap in *; lia|]. split; [|done]. rewrite <- Hs1. apply load32_ext. intros x Hx. apply Eb. unfold in_heap in Hi1. cbn in *. lia.
Qed.

Lemma write_held s live r n x v : heap_inv s live -> live !! r = Some n -> r <= x < r + 16 * (n - 1) ->
  heap_inv (mk_ust (store8 (um s) x v) (freep s) (brk s)) live.
Proof.
  intros [[_ ->]|(L & F & Hh)] Hr Hx; [by rewrite lookup_empty in Hr|]. right. exists L. destruct (hd_block _ _ _ Hh _ _ Hr) as (Hi & _ & Hd).
  assert (forall a, a + 16 <= r - 16 \/ r - 16 + 16 * n <= a \/ a = r - 16 -> forall p k, hdr (um s) a p k -> hdr (store8 (um s) x v) a p k) as Hframe.
  { intros a Ha p k [<- <-]. split; [apply load64_ext|apply load32_ext]; intros y Hy; apply load8_store8_ne; lia. }
  split; [split; cbn [um freep brk]; [|apply F..|by apply byte_mem_store8, F]|split; [|apply Hh]].
  - pose proof (outside_list _ _ _ Hi Hd) as Ho. change (base :: L.*1) with (((base, 0) :: L).*1) in Ho. apply Forall_fmap in Ho. pose proof (fl_chain _ _ F) as Hc. revert Ho Hc.
    generalize ((base, 0) :: L) as l. induction l as [|[a k] l IH]; [done|]. intros [Ha Ho]%Forall_cons [Hh1 Hc]. split; [|by apply IH]. apply Hframe; [cbn in Ha; lia|done].
  - intros r1 n1 Hr1. destruct (hd_block _ _ _ Hh _ _ Hr1) as (Hi1 & Hs1 & Hd1). split; [done|]. split; [|done].
    apply (Hframe (r1 - 16) ltac:(destruct (decide (r1 = r)) as [->|Hne]; [lia|pose proof (hd_apart _ _ _ Hh _ _ _ _ Hr1 Hr Hne) as Hx1; unfold disj, before in Hx1; cbn in Hx1; lia]) _ _
      (conj eq_refl Hs1)).
Qed.

Lemma hstep_inv p p' : hstep p p' -> heap_inv p.1 p.2 -> heap_inv p'.1 p'.2.
Proof.
  intros [s live nbytes r s' Hn E|s live r n s' Hr E|s live r n x v Hr Hx] Hi; cbn [fst snd] in *; [| |by eapply write_held].
  - destruct (malloc_held s live nbytes Hi Hn) as (r' & s1 & E' & _ & _ & Hres). rewrite E in E'. injection E' as <- <-.
    destruct Hres as [(-> & _ & Hi')|[[Hr _] Hi']]; [done|]. by rewrite (proj2 (Z.eqb_neq _ _) Hr).
  - destruct (free_held s live r n Hi Hr) as (s1 & E' & _ & Hi'). rewrite E in E'. by injection E' as <-.
Qed.

Lemma hstep_reach s0 s live : fresh_heap s0 -> rtc hstep (s0, ∅) (s, live) -> heap_inv s live.
Proof.
  intros Hf Hr. assert (forall p p', rtc hstep p p' -> heap_inv p.1 p.2 -> heap_inv p'.1 p'.2) as Hi by (induction 1; eauto using hstep_inv).
  apply (Hi _ _ Hr). by left.
Qed.

End Free.

(** ** A program *)
Definition demo_heap : Heap := {| base := 4096; heap0 := 8192; limit := 8192 + 200 * 4096 |}.

Lemma demo_heap_ok : @HeapOk demo_heap.
Proof. split; cbn; lia. Qed.

Definition demo_ust : ust := mk_ust ∅ 0 8192.

(** Two blocks, a write into the second one, and the first one freed. *)
Definition state_of {A} (o : outcome ust A) : ust := match o with Ok _ s => s | _ => demo_ust end.
Definition demo_s1 : ust := state_of (malloc (H := demo_heap) 10 demo_ust).
Definition demo_s2 : ust := state_of (malloc (H := demo_heap) 100 demo_s1).
Definition demo_s3 : ust := mk_ust (store8 (um demo_s2) 73600 65) (freep demo_s2) (brk demo_s2).
Definition demo_s4 : ust := state_of (free (H := demo_heap) 73712 demo_s3).

Lemma demo_heap_steps : rtc (hstep (H := demo_heap)) (demo_ust, ∅) (demo_s4, {[73584 := 8]}).
Proof.
  eapply rtc_l; [apply (step_malloc (H := demo_heap) _ _ 10 73712 demo_s1); [lia|vm_compute; reflexivity]|].
  eapply rtc_l; [apply (step_malloc (H := demo_heap) _ _ 100 73584 demo_s2); [lia|vm_compute; reflexivity]|].
  eapply rtc_l; [apply (step_write (H := demo_heap) _ _ 73584 8 73600 65); [reflexivity|lia]|].
  eapply rtc_l; [apply (step_free (H := demo_heap) _ _ 73712 2 demo_s4); [reflexivity|vm_compute; reflexivity]|].
  reflexivity.
Qed.

Lemma demo_fresh : fresh_heap (H := demo_heap) demo_ust.
Proof. split; [done|]. split; [cbn; lia|apply byte_mem_empty]. Qed.


(** A request near 4 GB: the argument of [sbrk] is an [int], so the break grows by 16 bytes
    only, and the block that is returned ends far beyond it. *)
Lemma malloc_huge_overruns : exists r s', malloc (H := demo_heap) 4294967295 demo_ust = Ok r s' /\ r = 8208 /\ brk s' = 8208.
Proof. eexists _, _. split; [vm_compute; reflexivity|]. split; reflexivity. Qed.
