(* ===== verification/Primes.v ===== *)
(** * user/primes.c: a sieve of processes and pipes

    [main] writes 2 .. 35 into a pipe.  Each further process reads a first number, prints
    it, forks the next process and hands it, through a pipe of their own, the numbers the
    first one does not divide.  A state of the program is [main] and the list of these
    processes, each with the content of the pipe it reads from.  A step is one system call
    of any of them; [pipe] and [fork] are taken to succeed. *)
From Equations Require Import Equations.
From stdpp Require Import base list list_numbers numbers strings relations.
From Stdlib Require Import ZArith Znumtheory Lia.
From S2P Require Import Prelude Mem Kprintf Pipe.
From S2P Require Ulib.
Open Scope Z_scope.

(** The numbers a pipe holds: every read and write is of 4 bytes, which divide its size. *)
Definition pipe_ints : nat := Z.to_nat (PIPESIZE / 4).

(** Where a process is in [prime]. *)
Inductive pstate :=
| Enter                          (** [close(p1[WR])] *)
| First                          (** [read(p1[RD], &p, ...)] *)
| Print (p : Z) (rest : list Z)  (** [fprintf], with the characters left to write *)
| Fork (p : Z)                   (** [pipe(p2); fork()] *)
| Filter (p : Z)                 (** [read(p1[RD], &n, ...)] *)
| Write (p n : Z)                (** [write(p2[WR], &n, ...)] *)
| Close                          (** [close(p1[RD]); close(p2[WR])] *)
| Wait
| Exit.

(** The process and its input pipe. *)
Record stage := mk_stage { inq : list Z; st : pstate }.

(** The process has closed the write end of the pipe to the next one. *)
Definition closed (s : pstate) : bool := match s with Wait | Exit => true | _ => false end.

(** The line of a prime: [fprintf(1, "prime %d\n", p)]. *)
Definition line (p : Z) : list Z := default [] (Ulib.vprintf false (lit "prime %d" ++ [10]) [AInt p]).

Definition divides (p n : Z) : bool := Z.rem n p =? 0.

Definition push (n : Z) (s : stage) : option stage :=
  if (length (inq s) <? pipe_ints)%nat then Some (mk_stage (inq s ++ [n]) (st s)) else None.

(** One step of the first process of [s :: rest]: the processes after it, and what it
    writes to the console; [None] when it blocks.  [up] says that the process before it
    has closed the pipe. *)
Definition prime (up : bool) (s : stage) (rest : list stage) : option (list stage * list Z) :=
  match st s with
  | Enter => Some (mk_stage (inq s) First :: rest, [])
  | First =>
      match inq s with
      | p :: q => Some (mk_stage q (Print p (line p)) :: rest, [])
      | [] => if up then Some (mk_stage [] Exit :: rest, []) else None
      end
  | Print p (c :: cs) => Some (mk_stage (inq s) (Print p cs) :: rest, [c])
  | Print p [] => Some (mk_stage (inq s) (Fork p) :: rest, [])
  | Fork p => Some (mk_stage (inq s) (Filter p) :: mk_stage [] Enter :: rest, [])
  | Filter p =>
      match inq s with
      | n :: q => Some (mk_stage q (if divides p n then Filter p else Write p n) :: rest, [])
      | [] => if up then Some (mk_stage [] Close :: rest, []) else None
      end
  | Write p n =>
      match rest with
      | [] => None
      | c :: rest => c' ← push n c; Some (mk_stage (inq s) (Filter p) :: c' :: rest, [])
      end
  | Close => Some (mk_stage (inq s) Wait :: rest, [])
  | Wait => match rest with mk_stage _ Exit :: _ => Some (mk_stage (inq s) Exit :: rest, []) | _ => None end
  | Exit => None
  end.

(** A step of the [k]-th process. *)
Fixpoint net_step (k : nat) (up : bool) (net : list stage) : option (list stage * list Z) :=
  match net, k with
  | [], _ => None
  | s :: rest, O => prime up s rest
  | s :: rest, S k => '(rest, o) ← net_step k (closed (st s)) rest; Some (s :: rest, o)
  end.

Inductive mstate :=
| MWrite (i : Z)  (** the loop, at [i] *)
| MWait           (** after [close(p1[WR])] *)
| MExit.

Record sys := mk_sys { mst : mstate; net : list stage; out : list Z }.

Definition mclosed (m : mstate) : bool := match m with MWrite _ => false | _ => true end.

Definition main_step (s : sys) : option sys :=
  match mst s with
  | MWrite i =>
      if i <=? 35 then
        match net s with
        | [] => None
        | c :: rest => c' ← push i c; Some (mk_sys (MWrite (i + 1)) (c' :: rest) (out s))
        end
      else Some (mk_sys MWait (net s) (out s))
  | MWait => match net s with mk_stage _ Exit :: _ => Some (mk_sys MExit (net s) (out s)) | _ => None end
  | MExit => None
  end.

(** A step of [main] or of a process. *)
Definition step_of (who : option nat) (s : sys) : option sys :=
  match who with
  | None => main_step s
  | Some k => '(net', o) ← net_step k (mclosed (mst s)) (net s); Some (mk_sys (mst s) net' (out s ++ o))
  end.

Definition step (s s' : sys) : Prop := exists who, step_of who s = Some s'.

(** After the [fork] of [main]. *)
Definition start : sys := mk_sys (MWrite 2) [mk_stage [] Enter] [].

(** ** What is to come *)
Definition survivors (p : Z) (l : list Z) : list Z := List.filter (fun n => negb (divides p n)) l.

Lemma survivors_length p l : (length (survivors p l) <= length l)%nat.
Proof. apply List.filter_length_le. Qed.

(** The first numbers of the processes that [l] goes through. *)
Equations? sieve (l : list Z) : list Z by wf (length l) lt :=
  sieve [] := [];
  sieve (p :: l) := p :: sieve (survivors p l).
Proof. apply Nat.lt_succ_r, survivors_length. Qed.

(** The steps a process with prime [p] takes for its input [l], until it has closed the
    next pipe, and waited. *)
Definition filter_work (p : Z) (l : list Z) : nat := length l + length (survivors p l) + 3.

(** The steps of the last process and its descendants, from [First] on. *)
Equations? last_work (l : list Z) : nat by wf (length l) lt :=
  last_work [] := 1;
  last_work (p :: l) := S (length (line p) + S (S (filter_work p l + S (last_work (survivors p l))))).
Proof. apply Nat.lt_succ_r, survivors_length. Qed.

Definition lines (l : list Z) : list Z := concat (line <$> l).

(** What a process still writes to the next one, when its input is [l]. *)
Definition sends (s : pstate) (l : list Z) : list Z :=
  match s with Filter p => survivors p l | Write p n => n :: survivors p l | _ => [] end.

(** What the processes still print, when [f] is what the first one's pipe still gets. *)
Fixpoint prints (f : list Z) (net : list stage) : list Z :=
  match net with
  | [] => []
  | s :: rest =>
      let l := inq s ++ f in
      match st s with
      | Enter | First => lines (sieve l)
      | Print p cs => cs ++ lines (sieve (survivors p l))
      | Fork p => lines (sieve (survivors p l))
      | _ => prints (sends (st s) l) rest
      end
  end.

Fixpoint work (f : list Z) (net : list stage) : nat :=
  match net with
  | [] => 0
  | s :: rest =>
      let l := inq s ++ f in
      match st s with
      | Enter => S (last_work l)
      | First => last_work l
      | Print p cs => length cs + S (S (filter_work p l + S (last_work (survivors p l))))
      | Fork p => S (filter_work p l + S (last_work (survivors p l)))
      | Filter p => filter_work p l + work (sends (st s) l) rest
      | Write p n => S (filter_work p l) + work (sends (st s) l) rest
      | Close => 2 + work [] rest
      | Wait => 1 + work [] rest
      | Exit => work [] rest
      end
  end.

Definition exited (s : stage) : Prop := s = mk_stage [] Exit.

(** A process that has a successor has forked; one that waits or is gone has no input to
    come, and the processes after one that is gone are gone. *)
Fixpoint ok (f : list Z) (up : bool) (net : list stage) : Prop :=
  match net with
  | [] => False
  | s :: rest =>
      (up = true -> f = []) /\
      match st s with
      | Enter | First | Print _ _ | Fork _ => rest = []
      | Filter _ | Write _ _ => ok (sends (st s) (inq s ++ f)) false rest
      | Close => inq s = [] /\ up = true /\ ok [] false rest
      | Wait => inq s = [] /\ up = true /\ ok [] true rest
      | Exit => inq s = [] /\ up = true /\ Forall exited rest
      end
  end.

Lemma push_later n f c c' rest : push n c = Some c' -> prints (n :: f) (c :: rest) = prints f (c' :: rest) /\
  work (n :: f) (c :: rest) = work f (c' :: rest) /\ (ok (n :: f) false (c :: rest) -> ok f false (c' :: rest)).
Proof.
  unfold push. case_bool; [|done]. intros [= <-]. destruct c as [q s]. cbn [prints work ok inq st].
  assert (q ++ n :: f = (q ++ [n]) ++ f) as -> by (by rewrite <- (assoc_L (++))). split; [done|]. split; [done|]. intros [_ Hok]. split; [done|].
  destruct s; try done; destruct Hok as (_ & ? & _); done.
Qed.

Lemma survivors_cons p n l : survivors p (n :: l) = if divides p n then survivors p l else n :: survivors p l.
Proof. unfold survivors. cbn. by destruct (divides p n). Qed.

Lemma prime_lines_cons p l : lines (p :: l) = line p ++ lines l.
Proof. done. Qed.

(** A step of a process prints what was expected first, and takes one step of work. *)
Lemma prime_step f up s rest net' o : (up = true -> f = []) -> prime up s rest = Some (net', o) -> ok f up (s :: rest) ->
  ok f up net' /\ prints f (s :: rest) = o ++ prints f net' /\ work f (s :: rest) = S (work f net').
Proof.
  intros Hup. destruct s as [q s]. unfold prime. cbn [inq st]. destruct s as [| |p [|c cs]|p|p|p n| | |]; intros E Hok; cbn [ok inq st] in Hok; destruct Hok as [_ Hok].
  - injection E as <- <-. subst rest. done.
  - subst rest. destruct q as [|p q]; [destruct up; [|done]|]; injection E as <- <-.
    + rewrite (Hup eq_refl). cbn [prints work ok inq st app]. rewrite sieve_equation_1, last_work_equation_1. split; [|done]. repeat split. constructor.
    + cbn [prints work ok inq st app]. by rewrite sieve_equation_2, last_work_equation_2, prime_lines_cons.
  - injection E as <- <-. subst rest. done.
  - injection E as <- <-. subst rest. done.
  - injection E as <- <-. subst rest. cbn [prints work ok inq st app sends]. split; [done|]. split; [done|]. lia.
  - destruct q as [|n q]; [destruct up; [|done]|]; injection E as <- <-.
    + rewrite (Hup eq_refl) in *. cbn [prints work ok inq st app sends] in *. split; [done|]. split; [done|]. unfold filter_work. cbn. lia.
    + cbn [prints work ok inq st app sends] in *. rewrite survivors_cons in *. unfold filter_work. rewrite survivors_cons.
      destruct (divides p n); cbn [prints work ok inq st app sends length] in *; (split; [done|]; split; [done|]; unfold filter_work; lia).
  - destruct rest as [|c rest]; [done|]. destruct (push n c) as [c'|] eqn:Ep; [|done]. injection E as <- <-.
    destruct (push_later n (survivors p (q ++ f)) c c' rest Ep) as (E1 & E2 & E3).
    cbn [sends st] in Hok. split; [split; [done|by apply E3]|]. cbn [prints work inq st sends app] in *. split; [exact E1|]. rewrite E2. lia.
  - injection E as <- <-. cbn [prints work ok inq st sends app] in *. destruct Hok as (-> & -> & Hok). split; [|done]. split; [done|]. split; [done|]. split; [done|].
    destruct rest as [|c rest]; [done|]. cbn in *. split; [done|]. destruct Hok as [_ Hok]. destruct (st c); try done; destruct Hok as (_ & ? & _); done.
  - destruct rest as [|[q' []] rest]; try done. injection E as <- <-. cbn [prints work ok inq st sends app] in *. destruct Hok as (-> & -> & Hok).
    split; [|done]. split; [done|]. split; [done|]. split; [done|]. destruct Hok as (_ & -> & _ & Hall). by constructor.
  - done.
Qed.

Lemma exited_stuck k up net : Forall exited net -> net_step k up net = None.
Proof. revert up net. induction k as [|k IH]; intros up [|s net] H; try done; apply Forall_cons in H as [-> H]; cbn; [done|]. by rewrite IH. Qed.

Lemma net_step_ok k : forall f up net net' o, net_step k up net = Some (net', o) -> ok f up net ->
  ok f up net' /\ prints f net = o ++ prints f net' /\ work f net = S (work f net').
Proof.
  induction k as [|k IH]; intros f up [|s rest] net' o E Hok; try done; cbn [net_step] in E.
  - apply (prime_step f up s rest net' o); [apply Hok|done|done].
  - destruct (net_step k _ rest) as [[rest' o']|] eqn:E'; [|done]. injection E as <- <-. destruct s as [q s]. cbn [st] in E'.
    cbn [ok inq st] in Hok. destruct Hok as [Hf Hok].
    assert (forall g u, closed s = u -> ok g u rest -> ok g u rest' /\ prints g rest = o' ++ prints g rest' /\ work g rest = S (work g rest')) as Hstep
      by (intros g u <- Hg; by apply (IH _ (closed s))).
    destruct s as [| |p cs|p|p|p n| | |]; try (subst rest; by destruct k); cbn [prints work ok inq st sends] in *.
    1, 2: destruct (Hstep _ _ eq_refl Hok) as (H1 & H2 & H3); split; [done|]; split; [done|]; lia.
    1, 2: destruct Hok as (-> & -> & Hok); destruct (Hstep _ _ eq_refl Hok) as (H1 & H2 & H3); split; [done|]; split; [done|]; lia.
    destruct Hok as (_ & _ & Hall). by rewrite exited_stuck in E'.
Qed.

(** ** The whole program *)
Definition to_write (m : mstate) : list Z := match m with MWrite i => seqZ i (36 - i) | _ => [] end.

Definition main_work (m : mstate) : nat := match m with MWrite i => length (seqZ i (36 - i)) + 2 | MWait => 1 | MExit => 0 end.

Definition total_work (s : sys) : nat := main_work (mst s) + work (to_write (mst s)) (net s).

Record sys_ok (s : sys) : Prop := {
  so_net : ok (to_write (mst s)) (mclosed (mst s)) (net s);
  so_exit : mst s = MExit -> Forall exited (net s);
  so_out : out s ++ prints (to_write (mst s)) (net s) = lines (sieve (seqZ 2 34))
}.

Lemma start_ok : sys_ok start.
Proof. split; cbn [start mst net out]; [|done|done]. done. Qed.

Lemma to_write_next i : i <=? 35 = true -> to_write (MWrite i) = i :: to_write (MWrite (i + 1)).
Proof.
  intros Hi%Z.leb_le. cbn [to_write]. rewrite seqZ_cons by lia. do 2 f_equal; lia.
Qed.

Lemma main_step_ok s s' : main_step s = Some s' -> sys_ok s -> sys_ok s' /\ total_work s = S (total_work s').
Proof.
  destruct s as [m nt o]. unfold main_step. cbn [mst net out]. intros E [Hn Hx Ho]. cbn [mst net out] in *. destruct m as [i| |]; [|..|done].
  - destruct (i <=? 35) eqn:Hi.
    + destruct nt as [|c rest]; [done|]. destruct (push i c) as [c'|] eqn:Ep; [|done]. injection E as <-. rewrite to_write_next in Hn, Ho by done. cbn [mclosed] in Hn.
      destruct (push_later i (to_write (MWrite (i + 1))) c c' rest Ep) as (E1 & E2 & E3). split.
      * split; cbn [mst net out]; [by apply E3|done|]. by rewrite <- E1.
      * unfold total_work. cbn [mst net]. rewrite to_write_next by done. rewrite E2. cbn [main_work]. apply Z.leb_le in Hi. rewrite !length_seqZ. lia.
    + injection E as <-. apply Z.leb_gt in Hi. assert (to_write (MWrite i) = []) as Ew by (cbn; by apply seqZ_nil; lia). rewrite Ew in *. split.
      * split; cbn [mst net out to_write mclosed]; [|done|done]. destruct nt as [|[q s] rest]; [done|]. cbn in *. split; [done|]. destruct Hn as [_ Hn].
        destruct s; try done; destruct Hn as (_ & ? & _); done.
      * unfold total_work. cbn [mst net main_work]. rewrite Ew. cbn [to_write main_work] in *. rewrite Ew. cbn. lia.
  - destruct nt as [|[q []] rest]; try done. injection E as <-. cbn [ok inq st] in Hn. destruct Hn as (_ & -> & _ & Hall). split; [|done].
    split; cbn [mst net out]; [done|intros _; by constructor|done].
Qed.

Lemma step_ok s s' : step s s' -> sys_ok s -> sys_ok s' /\ total_work s = S (total_work s').
Proof.
  intros [[k|] E] Hs; cbn [step_of] in E; [|by apply main_step_ok]. destruct (net_step k _ (net s)) as [[net' o]|] eqn:E'; [|done]. injection E as <-.
  destruct (net_step_ok k _ _ _ _ _ E' (so_net _ Hs)) as (H1 & H2 & H3). split.
  - split; cbn [mst net out]; [done| |]; [|rewrite <- (assoc_L (++)), <- H2; apply Hs]. intros Em. exfalso. rewrite exited_stuck in E'; [done|by apply Hs].
  - unfold total_work. cbn [mst net]. lia.
Qed.

(** ** No deadlock *)
Lemma net_progress net : forall f up, ok f up net ->
  (exists k r, net_step k up net = Some r) \/ (up = false /\ exists s rest, net = s :: rest /\ inq s = []) \/ (up = true /\ Forall exited net).
Proof.
  induction net as [|[q s] rest IH]; intros f up Hok; [done|]. destruct Hok as [_ Hok]. cbn [st inq sends] in Hok. assert (forall r, prime up (mk_stage q s) rest = Some r ->
    (exists k r, net_step k up (mk_stage q s :: rest) = Some r) \/ (up = false /\ exists s' rest', mk_stage q s :: rest = s' :: rest' /\ inq s' = []) \/
    (up = true /\ Forall exited (mk_stage q s :: rest))) as Hhere by (intros r Hr; left; by exists 0%nat, r).
  assert ((exists k r, net_step k (closed s) rest = Some r) -> exists k r, net_step k up (mk_stage q s :: rest) = Some r) as Hthere.
  { intros (k & [net' o] & E). exists (S k). cbn [net_step st]. rewrite E. by eexists. }
  destruct s as [| |p [|c cs]|p|p|p n| | |]; try (by eapply Hhere); unfold prime in Hhere; cbn [st inq closed] in *.
  - destruct q as [|p q]; [destruct up|]; try (by eapply Hhere). right. left. eauto.
  - destruct q as [|n q]; [destruct up|]; try (by eapply Hhere). right. left. eauto.
  - destruct (IH _ _ Hok) as [Hs|[(_ & c & r & -> & Hc)|(? & _)]]; [by left; apply Hthere| |done]. eapply Hhere. unfold push. by rewrite Hc.
  - destruct Hok as (-> & -> & Hok). destruct (IH _ _ Hok) as [Hs|[(? & _)|(_ & Hall)]]; [by left; apply Hthere|done|].
    destruct rest as [|c r]; [done|]. apply Forall_cons in Hall as [-> _]. by eapply Hhere.
  - destruct Hok as (-> & -> & Hall). right. right. split; [done|]. by constructor.
Qed.

Definition final (s : sys) : Prop := mst s = MExit /\ Forall exited (net s).

Lemma progress s : sys_ok s -> final s \/ exists s', step s s'.
Proof.
  intros [Hn Hx _]. destruct (net_progress _ _ _ Hn) as [(k & [net' o] & E)|Hb].
  { right. eexists. exists (Some k). cbn [step_of]. by rewrite E. }
  destruct s as [m nt o]. cbn [mst net] in *. destruct m as [i| |]; [|..|left; split; [done|by apply Hx]]; right.
  - destruct Hb as [(_ & c & rest & -> & Hc)|[? _]]; [|done]. destruct (i <=? 35) eqn:Hi; eexists; exists None; cbn [step_of]; unfold main_step; cbn [mst net]; rewrite Hi; [|done].
    unfold push. by rewrite Hc.
  - destruct Hb as [[? _]|[_ Hall]]; [done|]. destruct nt as [|c rest]; [done|]. apply Forall_cons in Hall as [-> _]. eexists. by exists None.
Qed.

(** ** What is left of the numbers are the primes *)
Definition primeb (n : Z) : bool := if prime_dec n then true else false.

Definition rough (m x : Z) : bool := forallb (fun d => negb (divides d x)) (seqZ 2 (m - 2)).

Lemma divides_spec p n : 0 < p -> divides p n = true <-> (p | n).
Proof.
  intros Hp. unfold divides. rewrite Z.eqb_eq, <- Z.rem_divide by lia. done.
Qed.

Lemma rough_spec m x : rough m x = true <-> forall d, 2 <= d < m -> ~ (d | x).
Proof.
  unfold rough. rewrite forallb_forall. split; intros Hr d Hd.
  - rewrite <- divides_spec by lia. specialize (Hr d). rewrite <- list_elem_of_In, elem_of_seqZ, negb_true_iff in Hr. rewrite Hr by lia. done.
  - rewrite <- list_elem_of_In, elem_of_seqZ in Hd. specialize (Hr d ltac:(lia)). rewrite <- divides_spec in Hr by lia. by apply negb_true_iff, not_true_is_false.
Qed.

Lemma rough_prime m : 2 <= m -> rough m m = primeb m.
Proof.
  intros Hm. apply eq_true_iff_eq. rewrite rough_spec. unfold primeb. destruct (prime_dec m) as [Hp|Hp].
  - split; [done|]. intros _ d Hd. apply prime_alt in Hp as [_ Hp]. apply Hp. lia.
  - split; [|done]. intros Hr. exfalso. apply Hp, prime_alt. split; [lia|]. intros d Hd. apply Hr. lia.
Qed.

Lemma rough_succ m x : 2 <= m -> rough (m + 1) x = rough m x && negb (divides m x).
Proof.
  intros Hm. unfold rough. replace (m + 1 - 2) with (m - 2 + 1) by lia. rewrite seqZ_app, forallb_app, (seqZ_cons _ 1), (seqZ_nil _ (Z.pred 1)) by lia. cbn [forallb]. replace (2 + (m - 2)) with m by lia. by rewrite andb_true_r.
Qed.

Lemma rough_composite m x : 2 <= m -> primeb m = false -> rough (m + 1) x = rough m x.
Proof.
  intros Hm Hp. rewrite <- rough_prime in Hp by done. rewrite rough_succ by done. destruct (rough m x) eqn:Hx; [|done]. cbn. apply negb_true_iff, not_true_is_false.
  rewrite divides_spec by lia. intros Hd. apply not_true_iff_false in Hp. apply Hp, rough_spec. rewrite rough_spec in Hx. intros d Hd' Hdm. apply (Hx d Hd'). by transitivity m.
Qed.

Lemma survivors_rough m l : 2 <= m -> survivors m (List.filter (rough m) l) = List.filter (rough (m + 1)) l.
Proof.
  intros Hm. unfold survivors. induction l as [|x l IH]; [done|]. cbn. rewrite rough_succ by done. destruct (rough m x); cbn; [|done]. rewrite IH. done.
Qed.

Lemma sieve_rough k : forall m, 2 <= m -> sieve (List.filter (rough m) (seqZ m (Z.of_nat k))) = List.filter primeb (seqZ m (Z.of_nat k)).
Proof.
  induction k as [|k IH]; intros m Hm; [done|]. rewrite seqZ_cons by lia. replace (Z.succ m) with (m + 1) by lia. replace (Z.pred (Z.of_nat (S k))) with (Z.of_nat k) by lia.
  cbn [List.filter]. rewrite rough_prime by done. destruct (primeb m) eqn:Hp.
  - rewrite sieve_equation_2, survivors_rough by done. by rewrite IH by lia.
  - rewrite <- IH by lia. f_equal. apply List.filter_ext. intros x. by rewrite rough_composite.
Qed.

Definition primes_to (n : Z) : list Z := List.filter primeb (seqZ 2 (n - 1)).

Lemma sieve_primes n : 1 <= n -> sieve (seqZ 2 (n - 1)) = primes_to n.
Proof.
  intros Hn. unfold primes_to. pose proof (sieve_rough (Z.to_nat (n - 1)) 2 ltac:(lia)) as E. rewrite Z2Nat.id in E by lia. rewrite <- E. f_equal.
  symmetry. clear. generalize (seqZ 2 (n - 1)). intros l. induction l as [|x l IH]; [done|]. cbn. by f_equal.
Qed.

Lemma steps_ok n s s' : nsteps step n s s' -> sys_ok s -> sys_ok s' /\ total_work s = (n + total_work s')%nat.
Proof.
  induction 1 as [s|n s1 s2 s3 H12 H23 IH]; intros Hs; [done|]. destruct (step_ok _ _ H12 Hs) as [H2 E2]. destruct (IH H2) as [H3 E3]. split; [done|lia].
Qed.

Lemma reach_ok s : rtc step start s -> sys_ok s.
Proof. intros [n Hn]%rtc_nsteps. by apply (steps_ok n start), start_ok. Qed.

Lemma exited_quiet f net : Forall exited net -> prints f net = [].
Proof. intros H. revert f. induction H as [|s net -> _ IH]; intros f; [done|]. apply IH. Qed.

Lemma final_out s : sys_ok s -> final s -> out s = lines (primes_to 35).
Proof. intros Hs [Em Hall]. pose proof (so_out _ Hs) as Ho. rewrite exited_quiet, app_nil_r in Ho by done. rewrite Ho. f_equal. by apply (sieve_primes 35). Qed.

Lemma completes n : forall s, sys_ok s -> total_work s = n -> exists s', nsteps step n s s' /\ final s'.
Proof.
  induction n as [|n IH]; intros s Hs En; (destruct (progress s Hs) as [Hf|[s1 H1]]; [|destruct (step_ok _ _ H1 Hs) as [Hs1 E1]]).
  - exists s. split; [constructor|done].
  - lia.
  - exfalso. destruct Hf as [Em Hall]. unfold total_work in En. rewrite Em in En. cbn [main_work to_write] in En. clear -Hall En. induction Hall as [|s' l -> _ IHl]; [done|]. by apply IHl.
  - destruct (IH s1 Hs1 ltac:(lia)) as (s' & Hn & Hf). exists s'. split; [by econstructor|done].
Qed.

(** C23: However its processes are scheduled, the program primes prints the primes up to 35,
    one line each, in increasing order, and ends: at any time a prefix of these lines is
    printed; the number of steps to the end is the same for every schedule; a state
    without a step, in which all processes would block, is one where they have all exited
    and all lines are printed. *)
Theorem primes_sieve s : rtc step start s ->
  out s `prefix_of` lines (primes_to 35) /\
  (exists s', nsteps step (total_work s) s s' /\ final s' /\ out s' = lines (primes_to 35)) /\
  (forall n s', nsteps step n s s' -> (n <= total_work s)%nat /\
     ((exists s'', step s' s'') \/ n = total_work s /\ final s' /\ out s' = lines (primes_to 35))).
Proof.
  intros Hr. pose proof (reach_ok s Hr) as Hs. split; [|split].
  - pose proof (so_out _ Hs) as Ho. change (seqZ 2 34) with (seqZ 2 (35 - 1)) in Ho. rewrite sieve_primes in Ho by lia. eexists. symmetry. exact Ho.
  - destruct (completes _ s Hs eq_refl) as (s' & Hn & Hf). exists s'. split; [done|]. split; [done|]. apply final_out; [|done]. apply (proj1 (steps_ok _ _ _ Hn Hs)).
  - intros n s' Hn. destruct (steps_ok _ _ _ Hn Hs) as [Hs' E]. split; [lia|]. destruct (progress s' Hs') as [Hf|He]; [right|by left].
    destruct (completes _ s' Hs' eq_refl) as (s2 & Hn2 & _). split; [|split; [done|by apply final_out]].
    enough (total_work s' = 0%nat) by lia. inversion Hn2 as [|m ? s3 ? H3 ? Em]; [done|]. exfalso. destruct H3 as [[k|] E3]; cbn [step_of] in E3; destruct Hf as [Em' Hall].
    + by rewrite exited_stuck in E3.
    + unfold main_step in E3. by rewrite Em' in E3.
Qed.

(** A scheduler that runs the first process that can take a step. *)
Fixpoint first_step (ks : list (option nat)) (s : sys) : option sys :=
  match ks with [] => None | k :: ks => match step_of k s with Some s' => Some s' | None => first_step ks s end end.

Fixpoint run (ks : list (option nat)) (n : nat) (s : sys) : sys :=
  match n with O => s | S n => match first_step ks s with Some s' => run ks n s' | None => s end end.

Lemma run_steps ks n s : rtc step s (run ks n s).
Proof.
  assert (forall s s', first_step ks s = Some s' -> step s s') as Hf.
  { induction ks as [|k ks IH]; intros s1 s2 E; [done|]. cbn in E. destruct (step_of k s1) eqn:Ek; [injection E as <-; by exists k|by apply IH]. }
  revert s. induction n as [|n IH]; intros s; cbn; [done|]. destruct (first_step ks s) as [s'|] eqn:E; [|done]. eapply rtc_l; [by apply Hf|done].
Qed.

Lemma primes_sieve_witness : exists rest, lines (primes_to 35) = out (run (None :: (Some <$> seq 0 12)) 200 start) ++ rest.
Proof. exact (proj1 (primes_sieve _ (run_steps (None :: (Some <$> seq 0 12)) 200 start))). Defined.

(** One schedule in full. *)
Lemma primes_run : let s := run (None :: (Some <$> seq 0 12)) 1000 start in
  mst s = MExit /\ out s = lines [2; 3; 5; 7; 11; 13; 17; 19; 23; 29; 31].
Proof. by vm_compute. Qed.
