(* ===== verification/Mkfs.v ===== *)
(** * mkfs/mkfs.c: the program that writes the file system image

    The image is a file of the host; [img] is its blocks and [nsect] how many of them it
    has.  Opening, seeking and writing the image are taken to succeed, and the host to
    store integers with the low byte first.  A call of [exit(1)] or a failed [assert] is
    [Panic]. *)
From stdpp Require Import base list numbers functions strings.
From Stdlib Require Import ZArith Lia.
From S2P Require Import Prelude Bytes Kprintf.
From S2P Require Import Bio Log Fs FsBlocks.
Open Scope Z_scope.

Definition FSSIZE : Z := 1000.
Definition NINODES : Z := 200.
Definition nbitmap : Z := FSSIZE / (BSIZE * 8) + 1.
Definition ninodeblocks : Z := NINODES / IPB + 1.
Definition nlog : Z := LOGSIZE.
Definition nmeta : Z := 2 + nlog + ninodeblocks + nbitmap.
Definition nblocks : Z := FSSIZE - nmeta.

Record mkfs_st := mk_mkfs { img : Z -> list Z; nsect : Z; freeinode : Z; freeblock : Z }.
Abbreviation K := (M mkfs_st).

(** The bytes of [y], one by one, and then [y] itself. *)
Definition xshort (x : Z) : Z := little_endian_to_Z 8 [u8 x; u8 (Z.shiftr x 8)].
Definition xint (x : Z) : Z := little_endian_to_Z 8 [u8 x; u8 (Z.shiftr x 8); u8 (Z.shiftr x 16); u8 (Z.shiftr x 24)].

(** [struct superblock sb] *)
Definition sb : superblock :=
  mk_sb FSMAGIC (xint FSSIZE) (xint nblocks) (xint NINODES) (xint nlog) (xint 2) (xint (2 + nlog)) (xint (2 + nlog + ninodeblocks)).

(** The block at the offset [sec * BSIZE], an [uint]. *)
Definition sector (sec : Z) : Z := u32 (sec * BSIZE) / BSIZE.

Definition wsect (sec : Z) (buf : list Z) : K unit :=
  modify (fun s => mk_mkfs (<[sector sec := buf]> (img s)) (Z.max (nsect s) (sector sec + 1)) (freeinode s) (freeblock s)).

(** Past its end nothing can be read from the image. *)
Definition rsect (sec : Z) : K (list Z) :=
  let! s := get in
  if sector sec <? nsect s then ret (img s (sector sec)) else panic "read".

Definition winode (inum : Z) (ip : dinode) : K unit :=
  let bn := IBLOCK inum sb in
  let! buf := rsect bn in
  wsect bn (put_dinode (doff inum) ip buf).

Definition rinode (inum : Z) : K dinode :=
  let bn := IBLOCK inum sb in
  let! buf := rsect bn in
  ret (get_dinode (doff inum) buf).

Definition ialloc (type : Z) : K Z :=
  let! inum := gets freeinode in
  modify (fun s => mk_mkfs (img s) (nsect s) (u32 (freeinode s + 1)) (freeblock s)) ;;
  winode inum (mk_dinode (i16 (xshort type)) 0 0 (i16 (xshort 1)) (xint 0) (replicate 13 0)) ;;
  ret inum.

Fixpoint bitmap (buf : list Z) (i : Z) (k : nat) : list Z :=
  match k with O => buf | S k' => bitmap (set_bit buf i) (i + 1) k' end.

Definition balloc (used : Z) : K unit :=
  if negb (used <? BSIZE * 8) then panic "used < BSIZE*8"
  else wsect (sb_bmapstart sb) (bitmap zeros 0 (Z.to_nat used)).

(** [freeblock++] *)
Definition new_block : K Z :=
  let! b := gets freeblock in
  modify (fun s => mk_mkfs (img s) (nsect s) (freeinode s) (u32 (freeblock s + 1))) ;;
  ret b.

Definition set_daddr (k : Z) (a : Z) (d : dinode) : dinode :=
  mk_dinode (d_type d) (d_major d) (d_minor d) (d_nlink d) (d_size d) (<[Z.to_nat k := a]> (d_addrs d)).
Definition set_dsize (n : Z) (d : dinode) : dinode :=
  mk_dinode (d_type d) (d_major d) (d_minor d) (d_nlink d) n (d_addrs d).

(** The block [x] for block [fbn] of the file, and the inode with its address. *)
Definition file_block (din : dinode) (fbn : Z) : K (dinode * Z) :=
  if fbn <? NDIRECT then
    let! din :=
      (if xint (d_addrs din !!! Z.to_nat fbn) =? 0
       then let! b := new_block in ret (set_daddr fbn (xint b) din) else ret din) in
    ret (din, xint (d_addrs din !!! Z.to_nat fbn))
  else
    let! din :=
      (if xint (d_addrs din !!! Z.to_nat NDIRECT) =? 0
       then let! b := new_block in ret (set_daddr NDIRECT (xint b) din) else ret din) in
    let ind := xint (d_addrs din !!! Z.to_nat NDIRECT) in
    let! indirect := rsect ind in
    if get32 (ioff (fbn - NDIRECT)) indirect =? 0 then
      let! b := new_block in
      let indirect := put32 (ioff (fbn - NDIRECT)) (xint b) indirect in
      wsect ind indirect ;;
      ret (din, xint (get32 (ioff (fbn - NDIRECT)) indirect))
    else ret (din, xint (get32 (ioff (fbn - NDIRECT)) indirect)).

(** The loop of [iappend]: [p] is what is left to write. *)
Fixpoint iappend_loop (din : dinode) (off : Z) (p : list Z) (fuel : nat) : K (dinode * Z) :=
  match fuel with
  | O => diverge
  | S f =>
      if 0 <? Z.of_nat (length p) then
        let fbn := off / BSIZE in
        if negb (fbn <? MAXFILE) then panic "fbn < MAXFILE"
        else
          let! (din, x) := file_block din fbn in
          let n1 := Z.min (Z.of_nat (length p)) (u32 ((fbn + 1) * BSIZE - off)) in
          let! buf := rsect x in
          wsect x (putn (Z.to_nat (off - fbn * BSIZE)) (take (Z.to_nat n1) p) buf) ;;
          iappend_loop din (u32 (off + n1)) (drop (Z.to_nat n1) p) f
      else ret (din, off)
  end.

Definition iappend (inum : Z) (p : list Z) : K unit :=
  let! din := rinode inum in
  let! (din, off) := iappend_loop din (xint (d_size din)) p (S (length p)) in
  winode inum (set_dsize (xint off) din).

(** [struct dirent]: [name] fits the zeroed array or is cut by [strncpy]. *)
Definition dirent (inum : Z) (name : list Z) : list Z :=
  Z_to_little_endian 2 8 (xshort inum) ++ strncpy_arr name DIRSIZ.

Definition shortname (arg : list Z) : option (list Z) :=
  let shortname := if strncmp_arr arg (lit "user/") 5 =? 0 then drop 5 arg else arg in
  if existsb (Z.eqb 47) shortname then None
  else Some (if hd 0 shortname =? 95 then drop 1 shortname else shortname).

(** [while((cc = read(fd, buf, sizeof(buf))) > 0) iappend(inum, buf, cc);] *)
Fixpoint append_all (inum : Z) (reads : list (list Z)) : K unit :=
  match reads with [] => ret tt | buf :: reads => iappend inum buf ;; append_all inum reads end.

(** One argument: its name, and what the reads of the file return if it can be opened. *)
Definition add_file (rootino : Z) (f : list Z * option (list (list Z))) : K unit :=
  match shortname f.1, f.2 with
  | None, _ => panic "index(shortname, '/') == 0"
  | _, None => panic "open"
  | Some name, Some reads =>
      let! inum := ialloc T_FILE in
      iappend rootino (dirent inum name) ;;
      append_all inum reads
  end.

Fixpoint add_files (rootino : Z) (files : list (list Z * option (list (list Z)))) : K unit :=
  match files with [] => ret tt | f :: files => add_file rootino f ;; add_files rootino files end.

Fixpoint zero_disk (i : Z) (k : nat) : K unit :=
  match k with O => ret tt | S k' => wsect i zeros ;; zero_disk (i + 1) k' end.

(** [memmove(buf, &sb, sizeof(sb))] *)
Definition sb_block : list Z :=
  put32 0 (sb_magic sb) (put32 4 (sb_size sb) (put32 8 (sb_nblocks sb) (put32 12 (sb_ninodes sb)
    (put32 16 (sb_nlog sb) (put32 20 (sb_logstart sb) (put32 24 (sb_inodestart sb) (put32 28 (sb_bmapstart sb) zeros))))))).

(** The root directory is given full blocks. *)
Definition fix_root (rootino : Z) : K unit :=
  let! din := rinode rootino in
  let off := xint (d_size din) in
  let off := u32 ((off / BSIZE + 1) * BSIZE) in
  winode rootino (set_dsize (xint off) din).

(** [main], from the truncated image on. *)
Definition mkfs (files : list (list Z * option (list (list Z)))) : K unit :=
  modify (fun s => mk_mkfs (img s) (nsect s) (freeinode s) nmeta) ;;
  zero_disk 0 (Z.to_nat FSSIZE) ;;
  wsect 1 sb_block ;;
  let! rootino := ialloc T_DIR in
  if negb (rootino =? ROOTINO) then panic "rootino == ROOTINO"
  else
    iappend rootino (dirent rootino (lit ".")) ;;
    iappend rootino (dirent rootino (lit "..")) ;;
    add_files rootino files ;;
    fix_root rootino ;;
    let! used := gets freeblock in
    balloc used.

(** The empty file, and the initial values of the variables. *)
Definition mkfs_start : mkfs_st := mk_mkfs (fun _ => zeros) 0 1 0.
