(* ===== verification/MkfsSpec.v ===== *)
(** * The image mkfs writes is a file system of the kernel

    Until its last step mkfs keeps the free map in [freeblock] only.  [V] is the image
    with the free map it stands for; on it the invariant [fs_ok] of the kernel's file
    system holds from the beginning, and the lemmas on files that grow apply. *)
From stdpp Require Import base gmap sets list numbers functions strings.
From Stdlib Require Import ZArith Lia FunctionalExtensionality.
From S2P Require Import Prelude Mem Bytes Kprintf Sleeplock.
From S2P Require Import Access Bio BlockCache LogDisk TxDisk Log Fs FsBlocks FsFile FsRw FsSpec FsDir Mkfs.
Open Scope Z_scope.

(** ** Integers and sectors *)
Lemma u8_ones z : u8 z = Z.land z (Z.ones 8).
Proof. unfold u8, wrap. by rewrite Z.land_ones. Qed.

Lemma xint_id x : 0 <= x < 2 ^ 32 -> xint x = x.
Proof.
  intros Hx. unfold xint. rewrite !u8_ones.
  assert ([Z.land x (Z.ones 8); Z.land (x ≫ 8) (Z.ones 8); Z.land (x ≫ 16) (Z.ones 8); Z.land (x ≫ 24) (Z.ones 8)] = Z_to_little_endian 4 8 x) as ->.
  { change (Z_to_little_endian 4 8 x) with [Z.land x (Z.ones 8); Z.land (x ≫ 8) (Z.ones 8); Z.land (x ≫ 8 ≫ 8) (Z.ones 8); Z.land (x ≫ 8 ≫ 8 ≫ 8) (Z.ones 8)].
    rewrite !Z.shiftr_shiftr by lia. done. }
  rewrite little_endian_to_Z_to_little_endian by lia. apply Z.mod_small. lia.
Qed.

Lemma xshort_id x : 0 <= x < 2 ^ 16 -> xshort x = x.
Proof.
  intros Hx. unfold xshort. rewrite !u8_ones.
  assert ([Z.land x (Z.ones 8); Z.land (x ≫ 8) (Z.ones 8)] = Z_to_little_endian 2 8 x) as -> by done.
  rewrite little_endian_to_Z_to_little_endian by lia. apply Z.mod_small. lia.
Qed.

Lemma sector_id x : 0 <= x < 2 ^ 22 -> sector x = x.
Proof. intros Hx. unfold sector. change BSIZE with 1024. rewrite u32_small by lia. apply Z.div_mul. lia. Qed.

Lemma sb_eq : sb = mk_sb FSMAGIC 1000 954 200 30 2 32 45.
Proof. reflexivity. Qed.

Definition mkfs_geom : geom := mk_geom 1 2 30.

Lemma mkfs_layout : layout mkfs_geom sb.
Proof. rewrite sb_eq. split; cbn; try lia; vm_compute; repeat split; discriminate. Qed.

#[local] Opaque sb.

Lemma iblock_mkfs j : 0 <= j < 200 -> IBLOCK j sb = j / 16 + 32 /\ 32 <= IBLOCK j sb < 45.
Proof.
  intros Hj. rewrite sb_eq. unfold IBLOCK. cbn [sb_inodestart]. change IPB with 16. assert (0 <= j / 16 < 13) by (split; [apply Z.div_pos; lia|apply Z.div_lt_upper_bound; lia]).
  rewrite u32_small by lia. lia.
Qed.

(** ** The free map *)
Lemma bitmap_ok k : forall buf i, is_block buf -> 0 <= i -> i + Z.of_nat k <= BPB ->
  is_block (bitmap buf i k) /\ forall b, 0 <= b < BPB -> bit_of (bitmap buf i k) b <> 0 <-> i <= b < i + Z.of_nat k \/ bit_of buf b <> 0.
Proof.
  induction k as [|k IH]; intros buf i Hb Hi Hk; cbn [bitmap].
  - split; [done|]. intros b Hb'. lia.
  - destruct (IH (set_bit buf i) (i + 1)) as [H1 H2]; [by apply set_bit_block|lia|lia|]. split; [done|]. intros b Hb'.
    rewrite H2, set_bit_spec by (done || lia). lia.
Qed.

Definition V (fb : Z) (D : Z -> list Z) : Z -> list Z := <[45 := bitmap zeros 0 (Z.to_nat fb)]> D.

Lemma zeros_bit b : 0 <= b < BPB -> bit_of zeros b = 0.
Proof.
  intros Hb. pose proof (bit_index zeros zeros_block b Hb) as Hi. destruct (lookup_lt_is_Some_2 _ _ Hi) as [x Hx]. unfold bit_of.
  rewrite (list_lookup_total_correct _ _ _ Hx). by apply lookup_replicate in Hx as [-> _].
Qed.

Lemma V_used fb D m : 0 <= fb <= 8192 -> 0 <= m < 1000 -> used sb (V fb D) m <-> m < fb.
Proof.
  intros Hf Hm. unfold used, V. assert (BBLOCK m sb = 45) as ->.
  { rewrite sb_eq. unfold BBLOCK. cbn [sb_bmapstart]. change BPB with 8192. rewrite Z.div_small, u32_small by lia. done. }
  rewrite fn_lookup_insert. change BPB with 8192. rewrite Z.mod_small by lia.
  destruct (bitmap_ok (Z.to_nat fb) zeros 0 zeros_block) as [_ Hbit]; [lia|change BPB with 8192; lia|]. rewrite Hbit, zeros_bit by (change BPB with 8192; lia). lia.
Qed.

Lemma V_other fb D m : m <> 45 -> V fb D m = D m.
Proof. intros. by apply fn_lookup_insert_ne. Qed.

Lemma V_block fb D : 0 <= fb <= 8192 -> (forall n, is_block (D n)) -> forall n, is_block (V fb D n).
Proof.
  intros Hf HD n. unfold V. destruct (decide (n = 45)) as [->|Hn]; [|by rewrite fn_lookup_insert_ne]. rewrite fn_lookup_insert.
  apply (bitmap_ok (Z.to_nat fb) zeros 0 zeros_block); change BPB with 8192; lia.
Qed.

Lemma V_write fb D n d : n <> 45 -> V fb (<[n := d]> D) = <[n := d]> (V fb D).
Proof.
  intros Hn. apply functional_extensionality. intros m. unfold V. destruct (decide (m = 45)) as [->|H1]; [by rewrite fn_lookup_insert, (fn_lookup_insert_ne _ n), fn_lookup_insert by done|].
  rewrite fn_lookup_insert_ne by done. destruct (decide (m = n)) as [->|H2]; [by rewrite !fn_lookup_insert|]. by rewrite !fn_lookup_insert_ne by done.
Qed.

Lemma datastart_eq : datastart sb = 46.
Proof. rewrite sb_eq. reflexivity. Qed.

Lemma alloc_V fb D : 46 <= fb < 1000 -> D fb = zeros -> allocated sb (V fb D) fb (V (fb + 1) D).
Proof.
  intros Hf Hz. split.
  - rewrite datastart_eq, sb_eq. cbn. lia.
  - rewrite V_used by lia. lia.
  - intros m Hm. rewrite sb_eq in Hm. cbn in Hm. rewrite !V_used by lia. lia.
  - rewrite V_other by lia. done.
  - intros m Hm Hne. unfold is_bmap in Hm. rewrite datastart_eq, sb_eq in Hm. cbn in Hm. rewrite !V_other by lia. done.
Qed.

(** ** Blocks for a file

    [nb] is the number of blocks of a file that grows at its end, [need nb] how many
    blocks of the disk that takes. *)
Definition need (nb : Z) : Z := nb + if 12 <? nb then 1 else 0.

Record fgood (fb : Z) (D : Z -> list Z) (l : list Z) (nb : Z) : Prop := {
  fg_fb : 46 <= fb <= 1000;
  fg_zero m : fb <= m -> D m = zeros;
  fg_blk n : is_block (D n);
  fg_iok : iok sb (V fb D) l;
  fg_addr bn : in_file bn -> addr_of (V fb D) l bn <> 0 <-> bn < nb;
  fg_ind : ind l <> 0 <-> 12 < nb
}.

Lemma data_mkfs a : datastart sb <= a < sb_size sb <-> 46 <= a < 1000.
Proof. rewrite datastart_eq, sb_eq. done. Qed.

Lemma not_bmap a : 46 <= a < 1000 -> ~ is_bmap sb a.
Proof. unfold is_bmap. rewrite datastart_eq, sb_eq. cbn. lia. Qed.

Section Alloc.
Context (fb : Z) (D : Z -> list Z) (l : list Z) (Hfb : 46 <= fb < 1000) (Hz : forall m, fb <= m -> D m = zeros)
  (HB : forall n, is_block (D n)) (I : iok sb (V fb D) l).

Lemma mk_alloc : allocated sb (V fb D) fb (V (fb + 1) D).
Proof. apply alloc_V; [done|]. apply Hz. lia. Qed.

Lemma used_data m : data_used sb (V fb D) m -> 46 <= m < fb.
Proof. intros [Hr Hu]. rewrite data_mkfs in Hr. rewrite V_used in Hu by lia. split; lia. Qed.

Lemma mk_direct fbn : 0 <= fbn < 12 -> addr_of (V fb D) l fbn = 0 -> let l' := <[Z.to_nat fbn := fb]> l in
  grown sb (V fb D) l (V (fb + 1) D) l' /\ (forall m, in_file m -> fblock (V (fb + 1) D) l' m = fblock (V fb D) l m) /\
  (forall m, in_file m -> addr_of (V (fb + 1) D) l' m = if decide (m = fbn) then fb else addr_of (V fb D) l m) /\ ind l' = ind l.
Proof.
  intros Hn Ha l'. assert (in_file fbn) as Hin by (unfold in_file; change MAXFILE with 268; lia).
  assert (forall m, in_file m -> addr_of (V (fb + 1) D) l' m = if decide (m = fbn) then fb else addr_of (V fb D) l m) as Hm.
  { intros m Hm. unfold l'. destruct (direct_addr (V (fb + 1) D) l fbn fb m (io_len _ _ _ I) Hin ltac:(change NDIRECT with 12; lia) Hm) as [-> _].
    case_decide; [done|]. by apply (alloc_addr mkfs_geom sb mkfs_layout _ _ _ _ I mk_alloc). }
  assert (ind l' = ind l) as Hind by (refine (proj2 (direct_addr D l fbn fb fbn (io_len _ _ _ I) Hin _ Hin)); change NDIRECT with 12; lia).
  destruct (assign_grown mkfs_geom sb mkfs_layout (V fb D) l fb (V (fb + 1) D) I mk_alloc (V (fb + 1) D) l' fbn) as [G C]; try done.
  - unfold l'. rewrite length_insert. apply I.
  - intros Hb. destruct (decide (ind l = 0)) as [E|E]; [rewrite E in Hb; unfold is_bmap in Hb; rewrite sb_eq in Hb; cbn in Hb; lia|].
    apply (io_ind _ _ _ I), used_data in E. by apply (not_bmap (ind l)); [lia|].
Qed.

Lemma mk_ind : ind l = 0 -> let l' := <[12%nat := fb]> l in
  grown sb (V fb D) l (V (fb + 1) D) l' /\ (forall m, in_file m -> fblock (V (fb + 1) D) l' m = fblock (V fb D) l m) /\
  (forall m, in_file m -> addr_of (V (fb + 1) D) l' m = addr_of (V fb D) l m) /\ ind l' = fb.
Proof.
  intros E l'. destruct (ind_grown mkfs_geom sb mkfs_layout _ l fb _ I mk_alloc E) as [G C]. split; [done|]. split; [done|]. split.
  - intros m Hm. unfold l'. destruct (ind_addr (V (fb + 1) D) l fb m (io_len _ _ _ I) E ltac:(lia) (al_zero _ _ _ _ mk_alloc) Hm) as [-> _].
    by apply (alloc_addr mkfs_geom sb mkfs_layout _ _ _ _ I mk_alloc).
  - unfold l', ind. apply list_lookup_total_insert_eq. rewrite (io_len _ _ _ I). lia.
Qed.

Lemma mk_entry fbn : 12 <= fbn < 268 -> ind l <> 0 -> addr_of (V fb D) l fbn = 0 ->
  let D' := <[ind l := put32 (ioff (fbn - NDIRECT)) fb (D (ind l))]> D in
  grown sb (V fb D) l (V (fb + 1) D') l /\ (forall m, in_file m -> fblock (V (fb + 1) D') l m = fblock (V fb D) l m) /\
  (forall m, in_file m -> addr_of (V (fb + 1) D') l m = if decide (m = fbn) then fb else addr_of (V fb D) l m) /\
  (forall m, fb + 1 <= m -> D' m = zeros) /\ (forall n, is_block (D' n)).
Proof.
  intros Hn Hi Ha D'. assert (in_file fbn) as Hin by (unfold in_file; change MAXFILE with 268; lia).
  pose proof (used_data _ (io_ind _ _ _ I Hi)) as Hir. assert (V (fb + 1) D (ind l) = D (ind l)) as Ei by (apply V_other; lia).
  assert (V (fb + 1) D' = <[ind l := put32 (ioff (fbn - NDIRECT)) fb (V (fb + 1) D (ind l))]> (V (fb + 1) D)) as EV by (rewrite Ei; unfold D'; apply V_write; lia).
  assert (forall m, in_file m -> addr_of (V (fb + 1) D') l m = if decide (m = fbn) then fb else addr_of (V fb D) l m) as Hm.
  { intros m Hm. rewrite EV, entry_addr; [|change NDIRECT with 12; lia|done|done|done|rewrite Ei; apply HB|lia].
    case_decide; [done|]. by apply (alloc_addr mkfs_geom sb mkfs_layout _ _ _ _ I mk_alloc). }
  destruct (assign_grown mkfs_geom sb mkfs_layout (V fb D) l fb (V (fb + 1) D) I mk_alloc (V (fb + 1) D') l fbn) as [G C]; try done.
  - apply I.
  - intros m Hm'. rewrite EV. apply fn_lookup_insert_ne. destruct Hm' as [->|?]; congruence.
  - apply not_bmap. lia.
  - split; [done|]. split; [done|]. split; [done|]. split; intros m.
    + intros Hm'. unfold D'. rewrite fn_lookup_insert_ne by lia. apply Hz. lia.
    + unfold D'. destruct (decide (m = ind l)) as [->|Hne]; [|rewrite fn_lookup_insert_ne by done; apply HB]. rewrite fn_lookup_insert.
      destruct (HB (ind l)). split; [by rewrite length_put32|by apply put32_bytes].
Qed.
End Alloc.

(** ** The steps *)
Lemma new_block_ok D n fi fb : 0 <= fb < 2 ^ 32 - 1 -> new_block (mk_mkfs D n fi fb) = Ok fb (mk_mkfs D n fi (fb + 1)).
Proof. intros Hf. unfold new_block. erewrite bind_Ok by reflexivity. erewrite bind_Ok by reflexivity. cbn. by rewrite u32_small by lia. Qed.

Lemma rsect_ok D fi fb x : 0 <= x < 1000 -> rsect x (mk_mkfs D 1000 fi fb) = Ok (D x) (mk_mkfs D 1000 fi fb).
Proof.
  intros Hx. unfold rsect. erewrite bind_Ok by reflexivity. cbn [nsect img]. rewrite sector_id by lia. by rewrite (proj2 (Z.ltb_lt _ _)) by lia.
Qed.

Lemma wsect_ok D fi fb x d : 0 <= x < 1000 -> wsect x d (mk_mkfs D 1000 fi fb) = Ok tt (mk_mkfs (<[x := d]> D) 1000 fi fb).
Proof. intros Hx. unfold wsect, modify. cbn [img nsect freeinode freeblock]. rewrite sector_id by lia. rewrite Z.max_l by lia. done. Qed.

Definition with_addrs (l : list Z) (d : dinode) : dinode := mk_dinode (d_type d) (d_major d) (d_minor d) (d_nlink d) (d_size d) l.

Lemma with_addrs_id d : with_addrs (d_addrs d) d = d.
Proof. by destruct d. Qed.

Lemma good_addr fb D l nb bn : fgood fb D l nb -> in_file bn -> bn < nb -> 46 <= addr_of (V fb D) l bn < fb.
Proof.
  intros G Hb Hn. pose proof (fg_fb _ _ _ _ G). destruct (io_used _ _ _ (fg_iok _ _ _ _ G) bn Hb) as [Hr Hu]; [by apply (fg_addr _ _ _ _ G)|].
  rewrite data_mkfs in Hr. rewrite V_used in Hu by lia. lia.
Qed.

Lemma good_ind fb D l nb : fgood fb D l nb -> 12 < nb -> 46 <= ind l < fb.
Proof.
  intros G Hn. pose proof (fg_fb _ _ _ _ G). destruct (io_ind _ _ _ (fg_iok _ _ _ _ G)) as [Hr Hu]; [by apply (fg_ind _ _ _ _ G)|].
  rewrite data_mkfs in Hr. rewrite V_used in Hu by lia. lia.
Qed.

Lemma addr_zero fb D l nb bn : fgood fb D l nb -> in_file bn -> nb <= bn -> addr_of (V fb D) l bn = 0.
Proof. intros G Hb Hn. destruct (decide (addr_of (V fb D) l bn = 0)) as [|E]; [done|]. apply (fg_addr _ _ _ _ G) in E; [lia|done]. Qed.

Definition blocked (din : dinode) (fb : Z) (D : Z -> list Z) (nb fbn : Z) (o : outcome mkfs_st (dinode * Z)) (fi fb' nb' : Z) : Prop :=
  exists D' l', o = Ok (with_addrs l' din, addr_of (V fb' D') l' fbn) (mk_mkfs D' 1000 fi fb') /\ fgood fb' D' l' nb' /\
    grown sb (V fb D) (d_addrs din) (V fb' D') l' /\ forall m, in_file m -> fblock (V fb' D') l' m = fblock (V fb D) (d_addrs din) m.

(** The address of a direct block, and of one behind the indirect block. *)
Lemma addr_direct D l bn : 0 <= bn < 12 -> addr_of D l bn = l !!! Z.to_nat bn.
Proof. intros Hb. unfold addr_of. change NDIRECT with 12. by rewrite (proj2 (Z.ltb_lt _ _)) by lia. Qed.

Lemma addr_indirect fb D l bn : 12 <= bn -> ind l <> 0 -> ind l <> 45 -> addr_of (V fb D) l bn = get32 (ioff (bn - NDIRECT)) (D (ind l)).
Proof.
  intros Hb Hi Hn. unfold addr_of. change NDIRECT with 12 at 1. rewrite (proj2 (Z.ltb_ge _ _)), (proj2 (Z.eqb_neq _ _)) by done. by rewrite V_other.
Qed.

Lemma file_block_direct din fbn fb D fi nb : fgood fb D (d_addrs din) nb -> 0 <= fbn <= nb -> fbn < 12 -> let nb' := Z.max nb (fbn + 1) in
  fb + (nb' - nb) <= 1000 -> blocked din fb D nb fbn (file_block din fbn (mk_mkfs D 1000 fi fb)) fi (fb + (nb' - nb)) nb'.
Proof.
  intros G Hn Hd nb' Hf. pose proof (fg_fb _ _ _ _ G) as Hfb. assert (in_file fbn) as Hin by (unfold in_file; change MAXFILE with 268; lia).
  unfold file_block. change NDIRECT with 12. rewrite (proj2 (Z.ltb_lt fbn 12)) by lia. pose proof (addr_direct (V fb D) (d_addrs din) fbn ltac:(lia)) as Ea.
  destruct (decide (fbn < nb)) as [Hlt|Hge].
  - pose proof (good_addr _ _ _ _ _ G Hin Hlt) as Hr. rewrite Ea in Hr. unfold nb'. rewrite Z.max_l by lia. rewrite Z.sub_diag, Z.add_0_r.
    rewrite xint_id by lia. rewrite (proj2 (Z.eqb_neq _ _)) by lia. erewrite bind_Ok by reflexivity. exists D, (d_addrs din).
    rewrite with_addrs_id, xint_id, Ea by lia. split; [done|]. split; [done|]. split; [apply grown_refl, G|done].
  - assert (nb = fbn) as -> by lia. pose proof (addr_zero _ _ _ _ fbn G Hin ltac:(lia)) as Hz. unfold nb' in *. rewrite Z.max_r in * by lia. replace (fb + (fbn + 1 - fbn)) with (fb + 1) in * by lia.
    rewrite <- Ea, Hz. change (xint 0 =? 0) with true. cbv iota. rewrite bind_bind. erewrite bind_Ok by (apply new_block_ok; lia). rewrite xint_id by lia. erewrite bind_Ok by reflexivity.
    destruct (mk_direct fb D (d_addrs din) ltac:(lia) (fg_zero _ _ _ _ G) (fg_iok _ _ _ _ G) fbn ltac:(lia) Hz) as (Gr & C & Ha & Hi).
    exists D, (<[Z.to_nat fbn := fb]> (d_addrs din)). split; [|split; [|done]].
    + rewrite Ha, decide_True by done. cbn [d_addrs set_daddr]. rewrite list_lookup_total_insert_eq by (rewrite (io_len _ _ _ (fg_iok _ _ _ _ G)); lia).
      rewrite xint_id by lia. done.
    + split; [lia|intros m Hm; apply (fg_zero _ _ _ _ G); lia|apply G|apply Gr| |rewrite Hi, (fg_ind _ _ _ _ G); lia].
      intros bn Hbn. rewrite Ha by done. case_decide; [lia|]. rewrite (fg_addr _ _ _ _ G) by done. lia.
Qed.

(** The part of [file_block] after the indirect block is there. *)
Definition file_entry (din : dinode) (fbn ind : Z) : K (dinode * Z) :=
  let! indirect := rsect ind in
  if get32 (ioff (fbn - NDIRECT)) indirect =? 0 then
    let! b := new_block in
    let indirect := put32 (ioff (fbn - NDIRECT)) (xint b) indirect in
    wsect ind indirect ;;
    ret (din, xint (get32 (ioff (fbn - NDIRECT)) indirect))
  else ret (din, xint (get32 (ioff (fbn - NDIRECT)) indirect)).

Lemma file_block_indirect din fbn s : 12 <= fbn -> file_block din fbn s =
  (let! din := (if xint (ind (d_addrs din)) =? 0 then let! b := new_block in ret (set_daddr NDIRECT (xint b) din) else ret din) in
   file_entry din fbn (xint (ind (d_addrs din)))) s.
Proof. intros Hn. unfold file_block. change NDIRECT with 12 at 1. by rewrite (proj2 (Z.ltb_ge _ _)) by lia. Qed.

Lemma file_entry_new din fbn fb D fi : 46 <= fb < 1000 -> (forall m, fb <= m -> D m = zeros) -> (forall n, is_block (D n)) -> iok sb (V fb D) (d_addrs din) ->
  12 <= fbn < 268 -> ind (d_addrs din) <> 0 -> addr_of (V fb D) (d_addrs din) fbn = 0 ->
  exists D', file_entry din fbn (ind (d_addrs din)) (mk_mkfs D 1000 fi fb) = Ok (din, addr_of (V (fb + 1) D') (d_addrs din) fbn) (mk_mkfs D' 1000 fi (fb + 1)) /\
    grown sb (V fb D) (d_addrs din) (V (fb + 1) D') (d_addrs din) /\ (forall m, in_file m -> fblock (V (fb + 1) D') (d_addrs din) m = fblock (V fb D) (d_addrs din) m) /\
    (forall m, in_file m -> addr_of (V (fb + 1) D') (d_addrs din) m = if decide (m = fbn) then fb else addr_of (V fb D) (d_addrs din) m) /\
    (forall m, fb + 1 <= m -> D' m = zeros) /\ (forall n, is_block (D' n)).
Proof.
  intros Hf Hz HB I Hn Hi Ha. destruct (mk_entry fb D (d_addrs din) Hf Hz HB I fbn Hn Hi Ha) as (Gr & C & Had & Hz' & HB').
  set (l := d_addrs din) in *. pose proof (used_data fb D Hf _ (io_ind _ _ _ I Hi)) as Hir.
  exists (<[ind l := put32 (ioff (fbn - NDIRECT)) fb (D (ind l))]> D). split; [|done].
  rewrite (addr_indirect fb D l fbn) in Ha by lia. unfold file_entry. erewrite bind_Ok by (apply rsect_ok; lia). rewrite Ha. change (0 =? 0) with true. cbv iota.
  erewrite bind_Ok by (apply new_block_ok; lia). rewrite xint_id by lia. erewrite bind_Ok by (apply wsect_ok; lia).
  assert (in_file fbn) as Hin by (unfold in_file; change MAXFILE with 268; lia). rewrite Had, decide_True by done.
  destruct (HB (ind l)) as [Hl _]. rewrite get32_put32_eq; [by rewrite xint_id by lia| |lia].
  rewrite Hl. unfold ioff. change (Z.to_nat BSIZE) with 1024%nat. change NDIRECT with 12. lia.
Qed.

Lemma need_12 : need 12 = 12 /\ need 13 = 14 /\ (forall nb, 12 < nb -> need nb = nb + 1) /\ forall nb, nb <= 12 -> need nb = nb.
Proof. unfold need. split; [done|]. split; [done|]. split; intros nb Hn; destruct (Z.ltb_spec 12 nb); lia. Qed.

Lemma file_block_ok din fbn fb D fi nb : fgood fb D (d_addrs din) nb -> 0 <= fbn <= nb -> fbn < 268 -> let nb' := Z.max nb (fbn + 1) in
  fb + (need nb' - need nb) <= 1000 -> blocked din fb D nb fbn (file_block din fbn (mk_mkfs D 1000 fi fb)) fi (fb + (need nb' - need nb)) nb'.
Proof.
  intros G Hn Hmax nb' Hf. pose proof (fg_fb _ _ _ _ G) as Hfb. assert (in_file fbn) as Hin by (unfold in_file; change MAXFILE with 268; lia).
  destruct need_12 as (N1 & N2 & N3 & N4). pose proof (fg_iok _ _ _ _ G) as I. destruct (decide (fbn < 12)) as [Hd|Hd].
  { assert (need nb' - need nb = nb' - nb) as Ec by (destruct (decide (nb <= 12)); [rewrite (N4 nb), (N4 nb') by lia; done|assert (nb' = nb) as -> by lia; lia]).
    rewrite Ec in *. by apply file_block_direct. }
  rewrite file_block_indirect by lia. destruct (decide (12 < nb)) as [Hnb|Hnb].
  - pose proof (good_ind _ _ _ _ G Hnb) as Hir. rewrite xint_id, (proj2 (Z.eqb_neq _ _)) by lia. erewrite bind_Ok by reflexivity. rewrite xint_id by lia.
    rewrite (N3 nb), (N3 nb') in * by lia. destruct (decide (fbn < nb)) as [Hlt|Hge].
    + assert (nb' = nb) as -> by lia. rewrite Z.sub_diag, Z.add_0_r. pose proof (good_addr _ _ _ _ _ G Hin Hlt) as Hr. exists D, (d_addrs din).
      rewrite (addr_indirect fb D (d_addrs din) fbn) in * by lia. unfold file_entry. erewrite bind_Ok by (apply rsect_ok; lia).
      rewrite (proj2 (Z.eqb_neq _ _)) by lia. rewrite xint_id, with_addrs_id by lia. split; [done|]. split; [done|]. split; [by apply grown_refl|done].
    + assert (nb' = nb + 1 /\ fbn = nb) as [-> ->] by lia. replace (fb + (nb + 1 + 1 - (nb + 1))) with (fb + 1) in * by lia.
      destruct (file_entry_new din nb fb D fi) as (D' & E & Gr & C & Ha & Hz' & HB'); [lia|apply G|apply G|done|lia|lia|by eapply addr_zero; [exact G|done|lia]|].
      exists D', (d_addrs din). rewrite with_addrs_id. split; [exact E|]. split; [|done].
      split; [lia|done|done|apply Gr| |rewrite (fg_ind _ _ _ _ G); lia]. intros bn Hbn. rewrite Ha by done. case_decide; [lia|]. rewrite (fg_addr _ _ _ _ G) by done. lia.
  - assert (nb = 12 /\ fbn = 12) as [-> ->] by lia. change (Z.max 12 (12 + 1)) with 13 in nb'. unfold nb' in *. rewrite N1, N2 in *. change (14 - 12) with 2 in *.
    assert (ind (d_addrs din) = 0) as Hi0 by (destruct (decide (ind (d_addrs din) = 0)) as [|E]; [done|]; apply (fg_ind _ _ _ _ G) in E; lia).
    rewrite Hi0. change (xint 0 =? 0) with true. cbv iota. rewrite bind_bind. erewrite bind_Ok by (apply new_block_ok; lia). rewrite xint_id by lia. erewrite bind_Ok by reflexivity.
    destruct (mk_ind fb D (d_addrs din) ltac:(lia) (fg_zero _ _ _ _ G) I Hi0) as (Gr1 & C1 & Ha1 & Hi1). set (din1 := set_daddr NDIRECT fb din).
    change (<[12%nat := fb]> (d_addrs din)) with (d_addrs din1) in *. rewrite Hi1, xint_id by lia.
    destruct (file_entry_new din1 12 (fb + 1) D fi) as (D' & E & Gr & C & Ha & Hz' & HB'); [lia|intros m Hm; apply (fg_zero _ _ _ _ G); lia|apply G|apply Gr1|lia|lia|by rewrite Ha1, (addr_zero _ _ _ _ _ G)|].
    rewrite Hi1 in E. replace (fb + 1 + 1) with (fb + 2) in * by lia. exists D', (d_addrs din1). split; [exact E|]. split; [|split; [by eapply grown_trans; [exact mkfs_layout|..]|intros m Hm; by rewrite C, C1]].
    split; [lia|done|done|apply Gr| |lia]. intros bn Hbn. rewrite Ha by done. case_decide; [lia|]. rewrite Ha1, (fg_addr _ _ _ _ G) by done. lia.
Qed.

(** ** Appending *)
Definition nblks (off : Z) : Z := (off + 1023) / 1024.

Lemma addr_write D l x d m : x <> ind l -> addr_of (<[x := d]> D) l m = addr_of D l m.
Proof. intros Hx. unfold addr_of. destruct (m <? NDIRECT); [done|]. destruct (ind l =? 0); [done|]. by rewrite fn_lookup_insert_ne. Qed.

Lemma wrote_app p k off D l D1 l1 D2 l2 : (k <= length p)%nat -> 0 <= off -> off + Z.of_nat (length p) <= FILEMAX ->
  wrote sb (take k p) off 0 D l D1 l1 -> wrote sb (drop k p) (off + Z.of_nat k) 0 D1 l1 D2 l2 -> wrote sb p off 0 D l D2 l2.
Proof.
  intros Hk Ho Hm (G1 & A1 & B1) (G2 & A2 & B2). rewrite length_take, length_drop in *. rewrite Nat.min_l in * by done. split; [by eapply grown_trans; [exact mkfs_layout|..]|]. split.
  - intros x Hx. destruct (decide (x < off + Z.of_nat k)) as [Hlt|Hge]; [|apply A2; lia].
    rewrite (gr_addr _ _ _ _ _ G2); [apply A1; lia|apply in_file_div; lia|apply A1; lia].
  - intros x Hx. rewrite B2, B1 by done. destruct (decide (x < off \/ off + Z.of_nat (length p) <= x)); [by rewrite !decide_False by lia|].
    rewrite (decide_True (P := off <= x < off + (Z.of_nat (length p) - 0))) by lia. destruct (decide (x < off + Z.of_nat k)).
    + rewrite decide_False, decide_True by lia. rewrite !list_lookup_total_alt, lookup_take_lt by lia. done.
    + rewrite decide_True by lia. rewrite !list_lookup_total_alt, lookup_drop. do 2 f_equal. lia.
Qed.

Lemma wrote_nil off D l : iok sb D l -> wrote sb [] off 0 D l D l.
Proof.
  intros I. split; [by apply grown_refl|]. cbn. split; [intros; lia|]. intros x Hx. rewrite decide_False by lia. done.
Qed.

(** One turn of the loop, once the block is there. *)
Lemma write_chunk fb D l nb fbn off bs D0 l0 fb0 : fgood fb D l nb -> 0 <= off -> fbn = off / BSIZE -> fbn < nb -> bytes bs -> off mod BSIZE + Z.of_nat (length bs) <= BSIZE ->
  off < FILEMAX -> (0 < length bs)%nat -> (forall n, is_block (V fb0 D0 n)) -> grown sb (V fb0 D0) l0 (V fb D) l -> (forall m, in_file m -> fblock (V fb D) l m = fblock (V fb0 D0) l0 m) ->
  let x := addr_of (V fb D) l fbn in let D' := <[x := putn (Z.to_nat (off mod BSIZE)) bs (D x)]> D in
  fgood fb D' l nb /\ wrote sb bs off 0 (V fb0 D0) l0 (V fb D') l.
Proof.
  intros G Ho Efb Hn Hb Hlen Hmax Hpos HB0 G0 C x D'. assert (in_file fbn) as Hin by (subst fbn; apply in_file_div; lia).
  pose proof (good_addr _ _ _ _ _ G Hin Hn) as Hx. fold x in Hx. pose proof (fg_fb _ _ _ _ G) as Hfb. pose proof (fg_iok _ _ _ _ G) as I.
  assert (V fb D' = <[x := putn (Z.to_nat (off mod BSIZE)) bs (D x)]> (V fb D)) as EV by (apply V_write; lia).
  assert (x <> ind l) as Hxi by (apply (io_ind_ne _ _ _ I); [done|]; fold x; lia).
  destruct (write_block mkfs_geom sb mkfs_layout (V fb D) l fbn (putn (Z.to_nat (off mod BSIZE)) bs (D x)) I Hin ltac:(fold x; lia)) as [Gr Cw]. fold x in Gr, Cw. rewrite <- EV in Gr, Cw.
  assert (forall m, in_file m -> addr_of (V fb D') l m = addr_of (V fb D) l m) as Ha by (intros m _; rewrite EV; by apply addr_write).
  split; [|split; [by eapply grown_trans; [exact mkfs_layout|..]|split]].
  - split; [done| | |apply Gr| |apply G].
    + intros m Hm. unfold D'. rewrite fn_lookup_insert_ne by lia. by apply (fg_zero _ _ _ _ G).
    + intros m. unfold D'. destruct (decide (m = x)) as [->|Hne]; [|rewrite fn_lookup_insert_ne by done; apply G]. rewrite fn_lookup_insert.
      destruct (fg_blk _ _ _ _ G x) as [Hl Hy]. split; [by rewrite length_putn|by apply putn_bytes].
    + intros bn Hbn. rewrite Ha by done. by apply G.
  - intros y Hy. rewrite Z.sub_0_r in Hy. assert (y / BSIZE = fbn) as ->.
    { subst fbn. change BSIZE with 1024 in *. Z.div_mod_to_equations. nia. }
    rewrite Ha by done. fold x. lia.
  - intros y Hy. rewrite Z.sub_0_r. rewrite Z.add_0_l.
    apply (fbyte_store (V fb0 D0) l0 (V fb D') l off bs y HB0 Ho Hlen Hy). intros m Hm. rewrite Cw by done. rewrite <- Efb. case_decide as Em; [|by apply C].
    subst m. f_equal. rewrite <- C by done. unfold fblock. fold x. rewrite (proj2 (Z.eqb_neq _ _)) by lia. by rewrite V_other by lia.
Qed.

Lemma chunk_arith off n : 0 <= off -> 0 < n -> let fbn := off / 1024 in let n1 := Z.min n ((fbn + 1) * 1024 - off) in
  0 <= fbn <= nblks off /\ nblks off <= fbn + 1 /\ off - fbn * 1024 = off mod 1024 /\ 1 <= n1 <= n /\ off mod 1024 + n1 <= 1024 /\ nblks (off + n1) = fbn + 1 /\ fbn + 1 <= nblks (off + n).
Proof. intros Ho Hn fbn n1. unfold nblks, fbn, n1. Z.div_mod_to_equations. lia. Qed.

Lemma need_mono a b : a <= b -> need a <= need b.
Proof. unfold need. intros. destruct (Z.ltb_spec 12 a), (Z.ltb_spec 12 b); lia. Qed.

Lemma iappend_loop_ok fi fuel : forall p off din fb D, fgood fb D (d_addrs din) (nblks off) -> bytes p -> 0 <= off -> off + Z.of_nat (length p) <= FILEMAX ->
  (length p < fuel)%nat -> let fb' := fb + (need (nblks (off + Z.of_nat (length p))) - need (nblks off)) in fb' <= 1000 ->
  exists D' l', iappend_loop din off p fuel (mk_mkfs D 1000 fi fb) = Ok (with_addrs l' din, off + Z.of_nat (length p)) (mk_mkfs D' 1000 fi fb') /\
    fgood fb' D' l' (nblks (off + Z.of_nat (length p))) /\ wrote sb p off 0 (V fb D) (d_addrs din) (V fb' D') l'.
Proof.
  induction fuel as [|f IH]; intros p off din fb D G Hb Ho Hm Hf fb' Hfb'; [lia|]. cbn [iappend_loop]. pose proof (fg_fb _ _ _ _ G) as Hfb.
  destruct (Z.ltb_spec 0 (Z.of_nat (length p))) as [Hp|Hp].
  2: { destruct p as [|c p]; [|cbn in Hp; lia]. cbn [length Z.of_nat] in *. subst fb'. rewrite Z.add_0_r, Z.sub_diag, Z.add_0_r in *. exists D, (d_addrs din). rewrite with_addrs_id. split; [done|].
    split; [done|]. apply wrote_nil, G. }
  destruct (chunk_arith off (Z.of_nat (length p)) Ho Hp) as (A1 & A2 & A3 & A4 & A5 & A6 & A7). change BSIZE with 1024 in *. set (fbn := off / 1024) in *.
  assert (in_file fbn) as Hin by (apply (in_file_div off); lia). unfold in_file in Hin. change FILEMAX with (268 * 1024) in *. change MAXFILE with 268 in *.
  rewrite (proj2 (Z.ltb_lt fbn 268)) by lia. cbn [negb]. rewrite u32_small by lia. set (n1 := Z.min (Z.of_nat (length p)) ((fbn + 1) * 1024 - off)) in *.
  assert (Z.max (nblks off) (fbn + 1) = nblks (off + n1)) as Emax by lia. pose proof (need_mono _ _ A7) as Hmono. rewrite <- A6 in Hmono.
  destruct (file_block_ok din fbn fb D fi (nblks off) G A1 ltac:(lia)) as (D1 & l1 & E1 & G1 & Gr1 & C1); [rewrite Emax; lia|]. rewrite Emax in *.
  set (fb1 := fb + (need (nblks (off + n1)) - need (nblks off))) in *. pose proof (fg_fb _ _ _ _ G1) as Hfb1.
  erewrite bind_Ok by exact E1. cbv beta iota zeta. pose proof (good_addr _ _ _ _ fbn G1 ltac:(unfold in_file; change MAXFILE with 268; lia) ltac:(lia)) as Hx.
  erewrite bind_Ok by (apply rsect_ok; lia). erewrite bind_Ok by (apply wsect_ok; lia). rewrite A3, u32_small by lia.
  destruct (write_chunk fb1 D1 l1 _ fbn off (take (Z.to_nat n1) p) D (d_addrs din) fb G1 Ho eq_refl ltac:(lia)) as [G2 W2]; [by apply Forall_take| | | |apply V_block; [lia|apply G]|done|done|].
  { rewrite length_take. change BSIZE with 1024. lia. }
  { change FILEMAX with (268 * 1024). lia. }
  { rewrite length_take. lia. }
  change BSIZE with 1024 in G2, W2. set (D2 := <[_ := _]> D1) in *.
  destruct (IH (drop (Z.to_nat n1) p) (off + n1) (with_addrs l1 din) fb1 D2) as (D3 & l3 & E3 & G3 & W3); [exact G2|by apply Forall_drop|lia|rewrite length_drop; change FILEMAX with (268 * 1024); lia|rewrite length_drop; lia| |].
  { rewrite length_drop. replace (off + n1 + Z.of_nat (length p - Z.to_nat n1)) with (off + Z.of_nat (length p)) by lia. lia. }
  rewrite length_drop in E3, G3, W3. replace (off + n1 + Z.of_nat (length p - Z.to_nat n1)) with (off + Z.of_nat (length p)) in E3, G3, W3 by lia.
  replace (fb1 + (need (nblks (off + Z.of_nat (length p))) - need (nblks (off + n1)))) with fb' in * by lia. exists D3, l3. split; [exact E3|]. split; [done|].
  apply (wrote_app p (Z.to_nat n1) off _ _ (V fb1 D2) l1); [lia|lia|change FILEMAX with (268 * 1024); lia|done|]. rewrite Z2Nat.id by lia. exact W3.
Qed.

(** ** The image *)
Record im (fi fb : Z) (D : Z -> list Z) : Prop := {
  im_fb : 46 <= fb <= 1000;
  im_zero m : fb <= m -> D m = zeros;
  im_blk n : is_block (D n);
  im_fs : fs_ok sb (V fb D);
  im_unused j : 0 <= j < 200 -> j = 0 \/ fi <= j -> d_type (disk_inode sb (V fb D) j) = 0;
  im_good j : 0 <= j < 200 -> live sb (V fb D) j -> fgood fb D (iaddrs sb (V fb D) j) (nblks (isize sb (V fb D) j));
  im_tail j x : 0 <= j < 200 -> live sb (V fb D) j -> isize sb (V fb D) j <= x < FILEMAX -> fbyte (V fb D) (iaddrs sb (V fb D) j) x = 0;
  im_nlink j : 0 <= j < 200 -> live sb (V fb D) j -> d_nlink (disk_inode sb (V fb D) j) = 1;
  im_meta : D 1 = sb_block /\ forall m, 2 <= m < 32 -> D m = zeros
}.

Lemma inum_mkfs j : is_inum sb j <-> 0 <= j < 200.
Proof. unfold is_inum. rewrite sb_eq. done. Qed.

(** The in-memory inode that the lemmas on [iupdate] speak of. *)
Definition ino (j : Z) (d : dinode) : inode :=
  mk_inode 1 j 1 (mk_slk 0 "inode" 0) 1 (d_type d) (d_major d) (d_minor d) (d_nlink d) (d_size d) (d_addrs d).

Lemma dinode_of_ino j d : dinode_of (ino j d) = d.
Proof. by destruct d. Qed.

Section Update.
Context (fi fb : Z) (D : Z -> list Z) (Him : im fi fb D) (j : Z) (Hj : 0 <= j < 200) (Hlive : live sb (V fb D) j).
Let d := disk_inode sb (V fb D) j.
Context (bs : list Z) (fb' : Z) (D1 : Z -> list Z) (l' : list Z).
Let off := d_size d.
Let sz := off + Z.of_nat (length bs).
Context (Hmax : sz <= FILEMAX) (G : fgood fb' D1 l' (nblks sz)) (W : wrote sb bs off 0 (V fb D) (d_addrs d) (V fb' D1) l').
Let d' := set_dsize sz (with_addrs l' d).
Let D' := <[IBLOCK j sb := put_dinode (doff j) d' (D1 (IBLOCK j sb))]> D1.
Let i := ino j d.

Lemma up_size : 0 <= off.
Proof. pose proof (fk_file _ _ (im_fs _ _ _ Him) j) as F. rewrite inum_mkfs in F. specialize (F Hj Hlive). apply (dk_size _ (fo_dinode _ _ _ F)). Qed.

Lemma up_dinode : dinode_of (write_inode i (i_size i + Z.of_nat (length bs)) l') = d'.
Proof. unfold write_inode. cbn [i ino i_size set_addrs]. pose proof up_size. unfold d', sz, off. rewrite Z.max_r by (unfold off in *; cbn; lia). by destruct d. Qed.

Lemma up_disk : V fb' D' = iput_disk sb (write_inode i (i_size i + Z.of_nat (length bs)) l') (V fb' D1).
Proof.
  destruct (iblock_mkfs j Hj) as [_ Hb]. unfold D', iput_disk. rewrite V_write by lia. change (i_inum (write_inode _ _ _)) with j. rewrite up_dinode. by rewrite V_other by lia.
Qed.

Lemma up_writes : writes_file sb (V fb D) (V fb' D') j off bs /\ disk_inode sb (V fb' D') j = d' /\
  (forall k, 0 <= k < 200 -> k <> j -> disk_inode sb (V fb' D') k = disk_inode sb (V fb D) k) /\
  (forall m, 46 <= m < 1000 -> V fb' D' m = V fb' D1 m).
Proof.
  pose proof up_size as Hs. pose proof (fg_fb _ _ _ _ G) as Hfb. assert (dinode_of i = d) as Hsync by apply dinode_of_ino.
  assert (is_inum sb (i_inum i)) as Hj' by (by apply inum_mkfs). assert (forall n, is_block (V fb' D1 n)) as HB by (apply V_block; [lia|apply G]).
  assert (0 <= off <= i_size i) as Ho by (change (i_size i) with off; lia). rewrite up_disk. split; [|split; [|split]].
  - exact (upd_writes mkfs_geom sb mkfs_layout (V fb D) i off bs (V fb' D1) l' (im_fs _ _ _ Him) Hj' Hlive Hsync HB Ho Hmax W).
  - rewrite <- up_dinode. eapply (proj1 (upd_disk mkfs_geom sb mkfs_layout (V fb D) i off bs (V fb' D1) l' (im_fs _ _ _ Him) Hj' Hlive Hsync HB Ho Hmax W)).
  - intros k Hk Hn. eapply (proj2 (upd_disk mkfs_geom sb mkfs_layout (V fb D) i off bs (V fb' D1) l' (im_fs _ _ _ Him) Hj' Hlive Hsync HB Ho Hmax W)); [by apply inum_mkfs|done].
  - intros m Hm. apply (upd_data mkfs_geom sb mkfs_layout); [done|]. by apply data_mkfs.
Qed.

(** The other files keep their blocks. *)
Lemma up_other k : 0 <= k < 200 -> k <> j -> live sb (V fb D) k -> iaddrs sb (V fb' D') k = iaddrs sb (V fb D) k /\ isize sb (V fb' D') k = isize sb (V fb D) k /\
  forall m, owns (V fb D) (iaddrs sb (V fb D) k) m -> V fb' D' m = V fb D m.
Proof.
  intros Hk Hn Hl. destruct up_writes as (_ & _ & Eo & Ed). unfold iaddrs, isize. rewrite Eo by done. split; [done|]. split; [done|]. intros m Ho.
  pose proof (fk_file _ _ (im_fs _ _ _ Him) k ltac:(by apply inum_mkfs) Hl) as F. destruct (owns_used _ _ _ _ (fo_iok _ _ _ F) Ho) as [Hr Hu].
  rewrite Ed by (by apply data_mkfs). apply (gr_frame _ _ _ _ _ (proj1 W)).
  - by apply (data_not_log _ _ mkfs_layout).
  - by intros [_ Hf].
  - apply (fk_apart _ _ (im_fs _ _ _ Him) k j m); (by apply inum_mkfs) || done.
Qed.

Lemma up_im : im fi fb' D'.
Proof.
  destruct up_writes as (Hw & Ej & Eo & Ed). destruct (iblock_mkfs j Hj) as [_ Hb]. pose proof (fg_fb _ _ _ _ G) as Hfb. pose proof (im_fb _ _ _ Him) as Hfb0.
  assert (forall m, m <> IBLOCK j sb -> D' m = D1 m) as HD1 by (intros m Hm; by apply fn_lookup_insert_ne).
  assert (iaddrs sb (V fb' D') j = l' /\ isize sb (V fb' D') j = sz) as [Eaj Esj] by (unfold iaddrs, isize; by rewrite Ej).
  assert (forall m, owns (V fb' D1) l' m -> V fb' D' m = V fb' D1 m) as Hown.
  { intros m Ho. destruct (owns_used _ _ _ _ (fg_iok _ _ _ _ G) Ho) as [Hr _]. apply Ed. by apply data_mkfs. }
  assert (forall m, is_block (D' m)) as HB.
  { intros m. unfold D'. destruct (decide (m = IBLOCK j sb)) as [->|Hne]; [|rewrite fn_lookup_insert_ne by done; apply G]. rewrite fn_lookup_insert.
    destruct (fg_blk _ _ _ _ G (IBLOCK j sb)). split; [by rewrite length_put_dinode|by apply put_dinode_bytes]. }
  assert (forall m, fb' <= m -> D' m = zeros) as HZ by (intros m Hm; rewrite HD1 by lia; by apply (fg_zero _ _ _ _ G)).
  assert (forall k, 0 <= k < 200 -> k <> j -> live sb (V fb' D') k -> live sb (V fb D) k) as Hlv by (intros k Hk Hn; unfold live; by rewrite Eo).
  split; [done|done|done|apply Hw| | | | |].
  - intros k Hk Hu. destruct (decide (k = j)) as [->|Hn]; [by destruct (Hlive (im_unused _ _ _ Him j Hj Hu))|]. rewrite Eo by done. by apply (im_unused _ _ _ Him).
  - intros k Hk Hl. destruct (decide (k = j)) as [->|Hn].
    + rewrite Eaj, Esj. split; [done|done|done|apply (frame_iok sb (V fb' D1)); [apply G|done|]| |apply G].
      * intros m [Hr Hu]. split; [done|]. rewrite data_mkfs in Hr. rewrite V_used in * by lia. done.
      * intros bn Hbn. rewrite (frame_addr (V fb' D1)) by done. by apply G.
    + specialize (Hlv k Hk Hn Hl). destruct (up_other k Hk Hn Hlv) as (-> & -> & Ho). pose proof (im_good _ _ _ Him k Hk Hlv) as Gk.
      assert (fb <= fb') as Hle.
      { destruct (Z.leb_spec fb fb'); [done|]. exfalso. assert (used sb (V fb' D1) fb') as Hu; [|rewrite V_used in Hu by lia; lia].
        apply (gr_used _ _ _ _ _ (proj1 W)); [rewrite sb_eq; cbn; lia|]. rewrite V_used by lia. lia. }
      split; [done|done|done|apply (frame_iok sb (V fb D)); [apply Gk|done|]| |apply Gk].
      * intros m [Hr Hu]. split; [done|]. rewrite data_mkfs in Hr. rewrite V_used in * by lia. lia.
      * intros bn Hbn. rewrite (frame_addr (V fb D)) by done. by apply Gk.
  - intros k x Hk Hl Hx. destruct (decide (k = j)) as [->|Hn].
    + rewrite Eaj, Esj in *. rewrite (fbyte_same (V fb' D1) l'); [|by apply frame_fblock|pose proof up_size; unfold sz in *; lia].
      destruct W as (_ & _ & Wb). pose proof up_size. rewrite Wb, decide_False by (unfold sz in *; lia). apply (im_tail _ _ _ Him j x Hj Hlive). unfold isize. fold d off. unfold sz in Hx. lia.
    + specialize (Hlv k Hk Hn Hl). destruct (up_other k Hk Hn Hlv) as (Ea & Es & Ho). rewrite Ea, Es in *.
      pose proof (fk_file _ _ (im_fs _ _ _ Him) k ltac:(by apply inum_mkfs) Hlv) as F.
      rewrite (fbyte_same (V fb D) (iaddrs sb (V fb D) k)); [by apply (im_tail _ _ _ Him)|by apply frame_fblock|]. pose proof (dk_size _ (fo_dinode _ _ _ F)). unfold isize in Hx. lia.
  - intros k Hk Hl. destruct (decide (k = j)) as [->|Hn]; [rewrite Ej; by apply (im_nlink _ _ _ Him)|]. rewrite Eo by done. apply (im_nlink _ _ _ Him); [done|by apply Hlv].
  - assert (forall m, 1 <= m < 32 -> D' m = D m) as Hlow.
    { intros m Hm. rewrite HD1 by lia. rewrite <- (V_other fb' D1), <- (V_other fb D) by lia. apply (gr_frame _ _ _ _ _ (proj1 W)).
      - unfold is_bmap. rewrite sb_eq. cbn. lia.
      - intros [Hr _]. rewrite data_mkfs in Hr. lia.
      - intros Ho. pose proof (fk_file _ _ (im_fs _ _ _ Him) j ltac:(by apply inum_mkfs) Hlive) as F. destruct (owns_used _ _ _ _ (fo_iok _ _ _ F) Ho) as [Hr _]. rewrite data_mkfs in Hr. lia. }
    destruct (im_meta _ _ _ Him) as [M1 M2]. split; [by rewrite Hlow by lia|]. intros m Hm. rewrite Hlow by lia. by apply M2.
Qed.
End Update.

(** ** The operations on the image *)
Definition afs (fb : Z) (D : Z -> list Z) (k : Z) : option (Z * list Z) := abs_fs sb (V fb D) k.

Lemma rinode_ok fi fb D j : 0 <= j < 200 -> rinode j (mk_mkfs D 1000 fi fb) = Ok (disk_inode sb (V fb D) j) (mk_mkfs D 1000 fi fb).
Proof.
  intros Hj. destruct (iblock_mkfs j Hj) as [_ Hb]. unfold rinode. erewrite bind_Ok by (apply rsect_ok; lia). unfold ret. do 2 f_equal. unfold disk_inode. by rewrite V_other by lia.
Qed.

Lemma winode_ok fi fb D j d : 0 <= j < 200 ->
  winode j d (mk_mkfs D 1000 fi fb) = Ok tt (mk_mkfs (<[IBLOCK j sb := put_dinode (doff j) d (D (IBLOCK j sb))]> D) 1000 fi fb).
Proof.
  intros Hj. destruct (iblock_mkfs j Hj) as [_ Hb]. unfold winode. erewrite bind_Ok by (apply rsect_ok; lia). apply wsect_ok. lia.
Qed.

Lemma afs_live fb D j t c : afs fb D j = Some (t, c) <-> live sb (V fb D) j /\ d_type (disk_inode sb (V fb D) j) = t /\ content sb (V fb D) j = c.
Proof. unfold afs, abs_fs, live. case_decide as E; [split; [done|]; by intros [? _]|]. split; [by intros [= <- <-]|by intros (_ & <- & <-)]. Qed.

Lemma content_size fi fb D j : im fi fb D -> 0 <= j < 200 -> live sb (V fb D) j -> isize sb (V fb D) j = Z.of_nat (length (content sb (V fb D) j)).
Proof.
  intros Him Hj Hl. unfold content. rewrite length_fslice. pose proof (fk_file _ _ (im_fs _ _ _ Him) j ltac:(by apply inum_mkfs) Hl) as F.
  pose proof (dk_size _ (fo_dinode _ _ _ F)). unfold isize. lia.
Qed.

Lemma splice_end bs c : splice (Z.of_nat (length c)) bs c = c ++ bs.
Proof. unfold splice. rewrite Nat2Z.id, take_ge, drop_ge, app_nil_r by lia. done. Qed.

Lemma append_afs fi fb D fb' D' j bs t c : im fi fb D -> 0 <= j < 200 -> afs fb D j = Some (t, c) ->
  writes_file sb (V fb D) (V fb' D') j (d_size (disk_inode sb (V fb D) j)) bs ->
  forall k, 0 <= k < 200 -> afs fb' D' k = if decide (k = j) then Some (t, c ++ bs) else afs fb D k.
Proof.
  intros Him Hj Ha [_ Hw] k Hk. unfold afs. rewrite Hw by (by apply inum_mkfs). case_decide; [|done]. apply afs_live in Ha as (Hl & <- & <-).
  pose proof (content_size fi fb D j Him Hj Hl) as Es. unfold isize in Es. by rewrite Es, splice_end.
Qed.

(** The blocks that a file of [n] bytes takes. *)
Definition cost (n : nat) : Z := need (nblks (Z.of_nat n)).

Lemma iappend_ok fi fb D j t c p : im fi fb D -> 0 <= j < 200 -> afs fb D j = Some (t, c) -> bytes p -> Z.of_nat (length c + length p) <= FILEMAX ->
  let fb' := fb + (cost (length c + length p) - cost (length c)) in fb' <= 1000 ->
  exists D', iappend j p (mk_mkfs D 1000 fi fb) = Ok tt (mk_mkfs D' 1000 fi fb') /\ im fi fb' D' /\
    forall k, 0 <= k < 200 -> afs fb' D' k = if decide (k = j) then Some (t, c ++ p) else afs fb D k.
Proof.
  intros Him Hj Ha Hb Hmax fb' Hf. pose proof Ha as (Hl & Et & Ec)%afs_live. pose proof (content_size fi fb D j Him Hj Hl) as Es. rewrite Ec in Es.
  pose proof (im_good _ _ _ Him j Hj Hl) as G. pose proof (fk_file _ _ (im_fs _ _ _ Him) j ltac:(by apply inum_mkfs) Hl) as F. pose proof (dk_size _ (fo_dinode _ _ _ F)) as Hsz.
  set (d := disk_inode sb (V fb D) j) in *. change (iaddrs sb (V fb D) j) with (d_addrs d) in G. change (isize sb (V fb D) j) with (d_size d) in *.
  unfold iappend. erewrite bind_Ok by (apply rinode_ok; done). fold d. rewrite (xint_id (d_size d)) by lia.
  assert (fb + (need (nblks (d_size d + Z.of_nat (length p))) - need (nblks (d_size d))) = fb') as Ef by (unfold fb', cost; by rewrite Nat2Z.inj_add, Es).
  rewrite Nat2Z.inj_add, <- Es in Hmax.
  destruct (iappend_loop_ok fi (S (length p)) p (d_size d) d fb D G Hb ltac:(lia) ltac:(lia) ltac:(lia) ltac:(lia)) as (D1 & l' & E & G' & W). rewrite Ef in E, G', W.
  erewrite bind_Ok by exact E. cbv beta iota. change FILEMAX with (268 * 1024) in *. rewrite xint_id by lia. rewrite winode_ok by done. eexists. split; [reflexivity|]. split.
  - exact (up_im fi fb D Him j Hj Hl p fb' D1 l' Hmax G' W).
  - apply (append_afs fi fb D fb' _ j p t c Him Hj Ha). exact (proj1 (up_writes fi fb D Him j Hj Hl p fb' D1 l' Hmax G' W)).
Qed.

(** *** A new inode *)
Definition no_addrs : list Z := replicate 13 0.

Lemma no_addr D bn : in_file bn -> addr_of D no_addrs bn = 0.
Proof.
  intros [Hb _]. unfold addr_of. change NDIRECT with 12. destruct (Z.ltb_spec bn 12) as [Hlt|]; [|done]. unfold no_addrs.
  rewrite list_lookup_total_alt. rewrite lookup_replicate_2 by lia. done.
Qed.

Lemma no_owns D m : ~ owns D no_addrs m.
Proof. intros [Hm [->|(bn & Hbn & <-)]]; [done|]. by rewrite no_addr in Hm. Qed.

Lemma no_iok D : iok sb D no_addrs.
Proof. split; [done|..]; intros; try done; by rewrite no_addr in *. Qed.

Lemma no_fbyte D x : 0 <= x < FILEMAX -> fbyte D no_addrs x = 0.
Proof.
  intros Hx. unfold fbyte, fblock. rewrite no_addr by (by apply in_file_div). change (0 =? 0) with true. cbv iota. rewrite list_lookup_total_alt.
  pose proof (Z.mod_pos_bound x BSIZE ltac:(done)). unfold zeros. rewrite lookup_replicate_2 by lia. done.
Qed.

Section NewInode.
Context (fi fb : Z) (D : Z -> list Z) (Him : im fi fb D) (Hfi : 1 <= fi < 200) (t : Z) (Ht : 0 < t < 2 ^ 15).
Let d := mk_dinode t 0 0 1 0 no_addrs.
Let D' := <[IBLOCK fi sb := put_dinode (doff fi) d (D (IBLOCK fi sb))]> D.

Lemma new_dinode : dinode_ok d.
Proof. split; cbn; try (unfold short; lia). by repeat constructor. Qed.

Lemma new_disk : disk_inode sb (V fb D') fi = d /\ forall k, 0 <= k < 200 -> k <> fi -> disk_inode sb (V fb D') k = disk_inode sb (V fb D) k.
Proof.
  destruct (iblock_mkfs fi ltac:(lia)) as [_ Hb]. pose proof (im_fb _ _ _ Him). assert (V fb D' = iput_disk sb (ino fi d) (V fb D)) as ->.
  { unfold D', iput_disk. rewrite V_write by lia. change (i_inum (ino fi d)) with fi. rewrite dinode_of_ino. by rewrite (V_other fb D) by lia. }
  destruct (disk_inode_iput mkfs_geom sb mkfs_layout (ino fi d) (V fb D)) as [E1 E2].
  - apply V_block; [lia|apply Him].
  - rewrite dinode_of_ino. apply new_dinode.
  - cbn. rewrite sb_eq. cbn. lia.
  - rewrite dinode_of_ino in E1. split; [exact E1|]. intros k Hk Hn. apply E2; [rewrite sb_eq; cbn; lia|done].
Qed.

Lemma new_data m : 46 <= m -> V fb D' m = V fb D m.
Proof. intros Hm. destruct (iblock_mkfs fi ltac:(lia)) as [_ Hb]. unfold D'. rewrite V_write by lia. apply fn_lookup_insert_ne. lia. Qed.

Lemma new_live k : 0 <= k < 200 -> live sb (V fb D') k -> k = fi \/ k <> fi /\ live sb (V fb D) k.
Proof. intros Hk Hl. destruct (decide (k = fi)) as [->|Hn]; [by left|right]. split; [done|]. unfold live in *. by rewrite (proj2 new_disk) in Hl. Qed.

Lemma new_other k : 0 <= k < 200 -> k <> fi -> live sb (V fb D) k -> iaddrs sb (V fb D') k = iaddrs sb (V fb D) k /\ isize sb (V fb D') k = isize sb (V fb D) k /\
  (forall m, owns (V fb D) (iaddrs sb (V fb D) k) m -> V fb D' m = V fb D m) /\ file_ok sb (V fb D') k /\ content sb (V fb D') k = content sb (V fb D) k.
Proof.
  intros Hk Hn Hl. pose proof (proj2 new_disk k Hk Hn) as E. pose proof (fk_file _ _ (im_fs _ _ _ Him) k ltac:(by apply inum_mkfs) Hl) as F. pose proof (im_fb _ _ _ Him).
  assert (forall m, owns (V fb D) (iaddrs sb (V fb D) k) m -> V fb D' m = V fb D m) as Ho.
  { intros m Ho. destruct (owns_used _ _ _ _ (fo_iok _ _ _ F) Ho) as [Hr _]. rewrite data_mkfs in Hr. apply new_data. lia. }
  destruct (file_frame sb (V fb D) (V fb D') k F E Ho) as (F' & C & _).
  { intros m [Hr Hu]. split; [done|]. rewrite data_mkfs in Hr. rewrite V_used in * by lia. done. }
  unfold iaddrs, isize. rewrite E. do 2 (split; [done|]). done.
Qed.

Lemma new_self : iaddrs sb (V fb D') fi = no_addrs /\ isize sb (V fb D') fi = 0.
Proof. unfold iaddrs, isize. by rewrite (proj1 new_disk). Qed.

Lemma new_fs : fs_ok sb (V fb D').
Proof.
  destruct new_self as [Ea Es]. pose proof (im_fb _ _ _ Him) as Hfb. split.
  - intros m Hm. rewrite datastart_eq in Hm. rewrite V_used by lia. lia.
  - intros k Hk Hl. rewrite inum_mkfs in Hk. destruct (new_live k Hk Hl) as [->|[Hn Hl']]; [|by apply new_other]. split; rewrite ?Ea, ?Es.
    + apply no_iok.
    + rewrite (proj1 new_disk). apply new_dinode.
    + done.
    + intros x Hx. lia.
  - intros k k' m Hk Hk' Hl Hl' Hn Ho Ho'. rewrite inum_mkfs in Hk, Hk'.
    destruct (new_live k Hk Hl) as [->|[Hn1 Hl1]]; [rewrite Ea in Ho; by apply no_owns in Ho|].
    destruct (new_live k' Hk' Hl') as [->|[Hn2 Hl2]]; [rewrite Ea in Ho'; by apply no_owns in Ho'|].
    destruct (new_other k Hk Hn1 Hl1) as (E1 & _ & O1 & _). destruct (new_other k' Hk' Hn2 Hl2) as (E2 & _ & O2 & _). rewrite E1 in Ho. rewrite E2 in Ho'.
    rewrite (frame_owns (V fb D)) in Ho, Ho' by done. by apply (fk_apart _ _ (im_fs _ _ _ Him) k k' m ltac:(by apply inum_mkfs) ltac:(by apply inum_mkfs) Hl1 Hl2 Hn).
Qed.

Lemma new_im : im (fi + 1) fb D'.
Proof.
  destruct new_self as [Ea Es]. pose proof (im_fb _ _ _ Him) as Hfb. destruct (iblock_mkfs fi ltac:(lia)) as [_ Hb].
  assert (forall m, m <> IBLOCK fi sb -> D' m = D m) as HD by (intros m Hm; by apply fn_lookup_insert_ne).
  assert (forall m, is_block (D' m)) as HB.
  { intros m. unfold D'. destruct (decide (m = IBLOCK fi sb)) as [->|Hne]; [|rewrite fn_lookup_insert_ne by done; apply Him]. rewrite fn_lookup_insert.
    destruct (im_blk _ _ _ Him (IBLOCK fi sb)). split; [by rewrite length_put_dinode|by apply put_dinode_bytes]. }
  assert (forall m, fb <= m -> D' m = zeros) as HZ by (intros m Hm; rewrite HD by lia; by apply (im_zero _ _ _ Him)).
  split; [done|done|done|apply new_fs| | | | |].
  - intros k Hk Hu. rewrite (proj2 new_disk) by lia. apply (im_unused _ _ _ Him); [done|lia].
  - intros k Hk Hl. destruct (new_live k Hk Hl) as [->|[Hn Hl']].
    + rewrite Ea, Es. split; [done|done|done|apply no_iok| |done]. intros bn Hbn. rewrite no_addr by done. unfold in_file in Hbn. change (nblks 0) with 0. lia.
    + destruct (new_other k Hk Hn Hl') as (E1 & E2 & Ho & F & _). rewrite E1, E2. pose proof (im_good _ _ _ Him k Hk Hl') as Gk. pose proof (fo_iok _ _ _ F) as I. rewrite E1 in I.
      split; [done|done|done|done| |apply Gk]. intros bn Hbn. rewrite (frame_addr (V fb D)) by done. by apply Gk.
  - intros k x Hk Hl Hx. destruct (new_live k Hk Hl) as [->|[Hn Hl']]; [rewrite Ea; rewrite Es in Hx; by apply no_fbyte|].
    destruct (new_other k Hk Hn Hl') as (E1 & E2 & Ho & F & _). rewrite E1, E2 in *. pose proof (dk_size _ (fo_dinode _ _ _ F)) as Hsz. change (d_size (disk_inode sb (V fb D') k)) with (isize sb (V fb D') k) in Hsz. rewrite E2 in Hsz.
    rewrite (fbyte_same (V fb D) (iaddrs sb (V fb D) k)); [by apply (im_tail _ _ _ Him)|by apply frame_fblock|lia].
  - intros k Hk Hl. destruct (new_live k Hk Hl) as [->|[Hn Hl']]; [by rewrite (proj1 new_disk)|]. rewrite (proj2 new_disk) by done. by apply (im_nlink _ _ _ Him).
  - destruct (im_meta _ _ _ Him) as [M1 M2]. split; [by rewrite HD by lia|]. intros m Hm. rewrite HD by lia. by apply M2.
Qed.

Lemma ialloc_ok : i16 (xshort t) = t -> ialloc t (mk_mkfs D 1000 fi fb) = Ok fi (mk_mkfs D' 1000 (fi + 1) fb) /\
  forall k, 0 <= k < 200 -> afs fb D' k = if decide (k = fi) then Some (t, []) else afs fb D k.
Proof.
  intros Et. split.
  - unfold ialloc. erewrite bind_Ok by reflexivity. erewrite bind_Ok by reflexivity. cbn [img nsect freeinode freeblock]. rewrite u32_small by lia.
    erewrite bind_Ok by (apply winode_ok; lia). rewrite Et. done.
  - intros k Hk. unfold afs, abs_fs. case_decide as E; (destruct (decide (k = fi)) as [->|Hn]).
    + rewrite (proj1 new_disk) in E. cbn in E. lia.
    + rewrite (proj2 new_disk) in E by done. by rewrite decide_True.
    + rewrite (proj1 new_disk). unfold content. rewrite (proj1 new_self), (proj2 new_self). done.
    + rewrite (proj2 new_disk) in * by done. rewrite decide_False by done. do 2 f_equal. by apply new_other.
Qed.
End NewInode.

(** ** The files *)
Lemma cost_mono a b : (a <= b)%nat -> cost a <= cost b.
Proof. intros. apply need_mono. unfold nblks. apply Z.div_le_mono; lia. Qed.

Lemma append_all_ok fi j t reads : 0 <= j < 200 -> forall fb D c, im fi fb D -> afs fb D j = Some (t, c) -> Forall bytes reads ->
  Z.of_nat (length c + length (concat reads)) <= FILEMAX -> let fb' := fb + (cost (length c + length (concat reads)) - cost (length c)) in fb' <= 1000 ->
  exists D', append_all j reads (mk_mkfs D 1000 fi fb) = Ok tt (mk_mkfs D' 1000 fi fb') /\ im fi fb' D' /\
    forall k, 0 <= k < 200 -> afs fb' D' k = if decide (k = j) then Some (t, c ++ concat reads) else afs fb D k.
Proof.
  intros Hj. induction reads as [|p reads IH]; intros fb D c Him Ha Hb Hmax fb' Hf; cbn [append_all concat length] in *.
  - unfold fb' in *. rewrite Nat.add_0_r, Z.sub_diag, Z.add_0_r in *. exists D. split; [done|]. split; [done|]. intros k Hk. case_decide as E; [|done]. by rewrite E, app_nil_r.
  - apply Forall_cons in Hb as [Hp Hb]. rewrite length_app in *. pose proof (cost_mono (length c + length p) (length c + (length p + length (concat reads))) ltac:(lia)) as Hm.
    assert (fb' = fb + (cost (length c + (length p + length (concat reads))) - cost (length c))) as Ef by (unfold fb'; by rewrite length_app).
    destruct (iappend_ok fi fb D j t c p Him Hj Ha Hp ltac:(lia) ltac:(lia)) as (D1 & E1 & Him1 & A1).
    erewrite bind_Ok by exact E1. set (fb1 := fb + (cost (length c + length p) - cost (length c))) in *.
    destruct (IH fb1 D1 (c ++ p) Him1) as (D2 & E2 & Him2 & A2); [rewrite A1 by done; by rewrite decide_True|done|rewrite length_app; lia|..].
    { rewrite length_app. replace (length c + length p + length (concat reads))%nat with (length c + (length p + length (concat reads)))%nat by lia. lia. }
    rewrite length_app in E2, Him2, A2. replace (length c + length p + length (concat reads))%nat with (length c + (length p + length (concat reads)))%nat in * by lia.
    replace (fb1 + _) with fb' in E2, Him2, A2 by lia. exists D2. split; [exact E2|]. split; [done|]. intros k Hk. rewrite A2 by done. case_decide as E; [by rewrite (assoc_L (++))|].
    rewrite A1 by done. by rewrite decide_False.
Qed.

Abbreviation file := (list Z * option (list (list Z)))%type.

Definition name_of (f : file) : list Z := default [] (shortname f.1).
Definition data_of (f : file) : list Z := concat (default [] f.2).

(** A file of the command line that can be stored. *)
Record file_good (f : file) : Prop := {
  gf_name : exists n, shortname f.1 = Some n;
  gf_bytes : bytes f.1;
  gf_reads : exists r, f.2 = Some r /\ Forall bytes r;
  gf_size : Z.of_nat (length (data_of f)) <= FILEMAX
}.

Fixpoint file_entries (inum : Z) (files : list file) : list Z :=
  match files with [] => [] | f :: files => dirent inum (name_of f) ++ file_entries (inum + 1) files end.

Fixpoint files_cost (files : list file) : Z := match files with [] => 0 | f :: files => cost (length (data_of f)) + files_cost files end.

Lemma length_dirent i n : length (dirent i n) = 16%nat.
Proof. unfold dirent. rewrite length_app, length_strncpy. by rewrite length_le. Qed.

Lemma dirent_bytes i n : bytes n -> bytes (dirent i n).
Proof. intros Hn. apply Forall_app. split; [by apply le_bytes|by apply strncpy_bytes]. Qed.

Lemma short_bytes f : file_good f -> bytes (name_of f).
Proof.
  intros [[n Hn] Hb _ _]. unfold name_of. rewrite Hn. cbn. unfold shortname in Hn. set (a := if _ =? 0 then drop 5 f.1 else f.1) in Hn.
  assert (bytes a) as Ha by (unfold a; destruct (strncmp_arr _ _ _ =? 0); [by apply Forall_drop|done]). destruct (existsb _ a); [done|]. injection Hn as <-. destruct (hd 0 a =? 95); [by apply Forall_drop|done].
Qed.

Lemma length_file_entries files : forall inum, length (file_entries inum files) = (16 * length files)%nat.
Proof. induction files as [|f files IH]; intros inum; cbn [file_entries length]; [done|]. rewrite length_app, length_dirent, IH. lia. Qed.

Lemma cost_0 : cost 0 = 0.
Proof. reflexivity. Qed.

Lemma cost_pos n : 0 <= cost n.
Proof. rewrite <- cost_0. apply cost_mono. lia. Qed.

Lemma add_file_ok fi fb D R f : im fi fb D -> 2 <= fi < 200 -> afs fb D 1 = Some (T_DIR, R) -> file_good f -> Z.of_nat (length R + 16) <= FILEMAX ->
  let fb' := fb + (cost (length R + 16) - cost (length R)) + cost (length (data_of f)) in fb' <= 1000 ->
  exists D', add_file 1 f (mk_mkfs D 1000 fi fb) = Ok tt (mk_mkfs D' 1000 (fi + 1) fb') /\ im (fi + 1) fb' D' /\
    forall k, 0 <= k < 200 -> afs fb' D' k = if decide (k = 1) then Some (T_DIR, R ++ dirent fi (name_of f)) else
      if decide (k = fi) then Some (T_FILE, data_of f) else afs fb D k.
Proof.
  intros Him Hfi HR Hg HmR fb' Hf. pose proof (short_bytes f Hg) as Hnb. destruct Hg as [[n Hn] _ (r & Hr & Hrb) Hsz].
  assert (data_of f = concat r /\ name_of f = n) as [Ed En] by (unfold data_of, name_of; by rewrite Hr, Hn). rewrite Ed in Hsz. rewrite En in *.
  assert (fb' = fb + (cost (length R + 16) - cost (length R)) + cost (length (concat r))) as Ef by (unfold fb'; by rewrite Ed). unfold add_file. rewrite Hn, Hr, Ed.
  assert (i16 (xshort T_FILE) = T_FILE) as Et by reflexivity. destruct (ialloc_ok fi fb D Him ltac:(lia) T_FILE ltac:(done) Et) as [E0 A0].
  pose proof (new_im fi fb D Him ltac:(lia) T_FILE ltac:(done)) as Him0. set (D0 := <[IBLOCK fi sb := _]> D) in *. erewrite bind_Ok by exact E0.
  assert (afs fb D0 1 = Some (T_DIR, R)) as HR0 by (rewrite A0 by lia; by rewrite decide_False by lia). pose proof (cost_mono (length R) (length R + 16) ltac:(lia)) as Hc. pose proof (cost_pos (length (concat r))) as Hcp.
  pose proof (iappend_ok (fi + 1) fb D0 1 T_DIR R (dirent fi n) Him0 ltac:(lia) HR0 (dirent_bytes fi n Hnb)) as Happ. rewrite length_dirent in Happ.
  destruct (Happ HmR ltac:(lia)) as (D1 & E1 & Him1 & A1). set (fb1 := fb + (cost (length R + 16) - cost (length R))) in *.
  erewrite bind_Ok by exact E1. assert (afs fb1 D1 fi = Some (T_FILE, [])) as HF1 by (rewrite A1, decide_False by lia; rewrite A0 by lia; by rewrite decide_True).
  destruct (append_all_ok (fi + 1) fi T_FILE r ltac:(lia) fb1 D1 [] Him1 HF1 Hrb) as (D2 & E2 & Him2 & A2); [cbn [length Nat.add]; done|cbn [length Nat.add]; rewrite cost_0; lia|].
  cbn [length Nat.add app] in E2, Him2, A2. rewrite cost_0, Z.sub_0_r in E2, Him2, A2. rewrite <- Ef in E2, Him2, A2. exists D2. split; [exact E2|]. split; [done|]. intros k Hk. rewrite A2 by done.
  destruct (decide (k = fi)) as [->|Hne]; [by rewrite decide_False by lia|]. rewrite A1 by done. destruct (decide (k = 1)); [done|]. rewrite A0 by done. by rewrite decide_False.
Qed.

Lemma files_cost_pos files : 0 <= files_cost files.
Proof. induction files as [|f files IH]; cbn; [lia|]. pose proof (cost_pos (length (data_of f))). lia. Qed.

Lemma add_files_ok files : forall fi fb D R fb', im fi fb D -> 2 <= fi -> fi + Z.of_nat (length files) <= 200 -> afs fb D 1 = Some (T_DIR, R) -> Forall file_good files ->
  Z.of_nat (length R + 16 * length files) <= FILEMAX -> fb' = fb + (cost (length R + 16 * length files) - cost (length R)) + files_cost files -> fb' <= 1000 ->
  exists D', add_files 1 files (mk_mkfs D 1000 fi fb) = Ok tt (mk_mkfs D' 1000 (fi + Z.of_nat (length files)) fb') /\ im (fi + Z.of_nat (length files)) fb' D' /\
    forall k, 0 <= k < 200 -> afs fb' D' k = if decide (k = 1) then Some (T_DIR, R ++ file_entries fi files) else
      if decide (fi <= k) then match files !! Z.to_nat (k - fi) with Some f => Some (T_FILE, data_of f) | None => afs fb D k end else afs fb D k.
Proof.
  induction files as [|f files IH]; intros fi fb D R fb' Him Hfi Hn HR Hg HmR Ef Hf; cbn [add_files file_entries length files_cost] in *.
  - rewrite Nat.mul_0_r, Nat.add_0_r, Z.sub_diag, !Z.add_0_r in *. subst fb'. exists D. split; [done|]. split; [done|]. intros k Hk. rewrite app_nil_r.
    case_decide as E; [by rewrite E|]. by case_decide.
  - apply Forall_cons in Hg as [Hgf Hg]. pose proof (files_cost_pos files) as Hp. pose proof (cost_mono (length R + 16) (length R + 16 * S (length files)) ltac:(lia)) as Hc.
    destruct (add_file_ok fi fb D R f Him ltac:(lia) HR Hgf ltac:(lia) ltac:(lia)) as (D1 & E1 & Him1 & A1). set (fb1 := fb + (cost (length R + 16) - cost (length R)) + cost (length (data_of f))) in *. erewrite bind_Ok by exact E1.
    assert (length (R ++ dirent fi (name_of f)) = length R + 16)%nat as El by (by rewrite length_app, length_dirent).
    destruct (IH (fi + 1) fb1 D1 (R ++ dirent fi (name_of f)) fb' Him1) as (D2 & E2 & Him2 & A2); [lia|lia|rewrite A1 by lia; by rewrite decide_True|done|rewrite El; lia| |done|].
    { rewrite El. replace (length R + 16 + 16 * length files)%nat with (length R + 16 * S (length files))%nat by lia. subst fb'. unfold fb1. lia. }
    replace (fi + 1 + Z.of_nat (length files)) with (fi + Z.of_nat (S (length files))) in * by lia. exists D2. split; [exact E2|]. split; [done|]. intros k Hk. rewrite A2 by done.
    case_decide; [by rewrite (assoc_L (++))|]. destruct (decide (k = fi)) as [->|Hne].
    + rewrite (decide_False (P := fi + 1 <= fi)), (decide_True (P := fi <= fi)) by lia. rewrite Z.sub_diag. rewrite A1 by done. rewrite decide_False by lia. by rewrite decide_True.
    + assert (afs fb1 D1 k = afs fb D k) as Ek by (rewrite A1 by done; by rewrite !decide_False by done). rewrite Ek.
      destruct (decide (fi <= k)); [|by rewrite decide_False by lia]. rewrite decide_True by lia. by replace (Z.to_nat (k - fi)) with (S (Z.to_nat (k - (fi + 1)))) by lia.
Qed.

(** The size of the root directory is rounded up. *)
Definition pad (n : nat) : nat := (1024 - n mod 1024)%nat.

Lemma pad_arith n : (n mod 1024 <> 0)%nat -> let off := Z.of_nat n in (off / 1024 + 1) * 1024 = off + Z.of_nat (pad n) /\ nblks (off + Z.of_nat (pad n)) = nblks off /\
  (forall x, off <= x < off + Z.of_nat (pad n) -> x / 1024 < nblks off) /\ (0 < pad n)%nat.
Proof.
  intros Hn off. unfold pad, nblks, off. pose proof (Nat.mod_upper_bound n 1024 ltac:(lia)) as Hu. assert (Z.of_nat (n mod 1024) = Z.of_nat n mod 1024) as Em by (by rewrite Nat2Z.inj_mod).
  rewrite Nat2Z.inj_sub, Em by lia. change (Z.of_nat 1024) with 1024. set (m := Z.of_nat n) in *. assert (m mod 1024 <> 0) by lia.
  split; [Z.div_mod_to_equations; lia|]. split; [Z.div_mod_to_equations; lia|]. split; [|lia]. intros x Hx. Z.div_mod_to_equations. lia.
Qed.

Lemma fix_root_ok fi fb D R : im fi fb D -> afs fb D 1 = Some (T_DIR, R) -> (length R mod 1024 <> 0)%nat -> Z.of_nat (length R + pad (length R)) <= FILEMAX ->
  exists D', fix_root 1 (mk_mkfs D 1000 fi fb) = Ok tt (mk_mkfs D' 1000 fi fb) /\ im fi fb D' /\
    forall k, 0 <= k < 200 -> afs fb D' k = if decide (k = 1) then Some (T_DIR, R ++ replicate (pad (length R)) 0) else afs fb D k.
Proof.
  intros Him HR Hm Hmax. assert (0 <= 1 < 200) as Hj by lia. pose proof HR as (Hl & Et & Ec)%afs_live. pose proof (content_size fi fb D 1 Him Hj Hl) as Es. rewrite Ec in Es.
  pose proof (im_good _ _ _ Him 1 Hj Hl) as G. destruct (pad_arith (length R) Hm) as (P1 & P2 & P3 & P4). rewrite Nat2Z.inj_add, <- Es in *. set (sz := isize sb (V fb D) 1) in *.
  set (bs := replicate (pad (length R)) 0). assert (Z.of_nat (length bs) = Z.of_nat (pad (length R))) as Eb by (unfold bs; by rewrite length_replicate). rewrite <- Eb in *.
  assert (wrote sb bs sz 0 (V fb D) (iaddrs sb (V fb D) 1) (V fb D) (iaddrs sb (V fb D) 1)) as W.
  { split; [apply grown_refl, G|]. rewrite Z.sub_0_r. split.
    - intros x Hx. apply (fg_addr _ _ _ _ G); [apply in_file_div; lia|by apply P3].
    - intros x Hx. case_decide as E; [|done]. rewrite (im_tail _ _ _ Him 1 x Hj Hl) by (fold sz; lia). unfold bs.
      rewrite list_lookup_total_alt. unfold bs in E. rewrite length_replicate in E. rewrite lookup_replicate_2 by lia. done. }
  rewrite <- P2 in G. unfold fix_root. erewrite bind_Ok by (by apply rinode_ok). set (d := disk_inode sb (V fb D) 1) in *. change (isize sb (V fb D) 1) with (d_size d) in sz. fold sz.
  assert (0 <= sz) by lia. change FILEMAX with (268 * 1024) in *. rewrite (xint_id sz) by lia. change BSIZE with 1024. rewrite P1, u32_small, xint_id, winode_ok by lia. eexists. split; [reflexivity|].
  change (iaddrs sb (V fb D) 1) with (d_addrs d) in *. pose proof (up_im fi fb D Him 1 Hj Hl bs fb D (d_addrs d) Hmax G W) as H1. pose proof (up_writes fi fb D Him 1 Hj Hl bs fb D (d_addrs d) Hmax G W) as (H2 & _).
  fold d sz in H1, H2. rewrite with_addrs_id in H1, H2. split; [exact H1|]. apply (append_afs fi fb D fb _ 1 bs T_DIR R Him Hj HR). exact H2.
Qed.

(** ** The whole program *)
Definition blank : Z -> list Z := fun _ => zeros.

Lemma zero_disk_ok k : forall i fi fb, 0 <= i -> i + Z.of_nat k <= 1000 -> zero_disk i k (mk_mkfs blank i fi fb) = Ok tt (mk_mkfs blank (i + Z.of_nat k) fi fb).
Proof.
  induction k as [|k IH]; intros i fi fb Hi Hk; cbn [zero_disk]; [by rewrite Z.add_0_r|].
  assert (wsect i zeros (mk_mkfs blank i fi fb) = Ok tt (mk_mkfs blank (i + 1) fi fb)) as E.
  { unfold wsect, modify. cbn [img nsect freeinode freeblock]. rewrite sector_id by lia. rewrite Z.max_r by lia. do 2 f_equal. apply functional_extensionality. intros m. unfold blank.
    destruct (decide (i = m)) as [->|Hne]; [by rewrite fn_lookup_insert|by rewrite fn_lookup_insert_ne]. }
  erewrite bind_Ok by exact E. rewrite IH by lia. do 2 f_equal. lia.
Qed.

Definition disk0 : Z -> list Z := <[1 := sb_block]> blank.

Lemma sb_block_ok : is_block sb_block.
Proof.
  unfold sb_block. split; [by rewrite !length_put32|]. do 8 apply put32_bytes. apply zeros_block.
Qed.

Lemma get16_zeros o : get16 o zeros = 0.
Proof. unfold get16, getn, zeros. rewrite drop_replicate, take_replicate. destruct (2 `min` (Z.to_nat BSIZE - o))%nat as [|[|[|n]]] eqn:E; try done. lia. Qed.

Lemma im_start : im 1 46 disk0.
Proof.
  assert (forall m, 2 <= m -> disk0 m = zeros) as Hz by (intros m Hm; unfold disk0; by rewrite fn_lookup_insert_ne by lia).
  assert (forall j, 0 <= j < 200 -> d_type (disk_inode sb (V 46 disk0) j) = 0) as Hd.
  { intros j Hj. destruct (iblock_mkfs j Hj) as [_ Hb]. unfold disk_inode. rewrite V_other, Hz by lia. cbn [get_dinode d_type]. by rewrite get16_zeros. }
  assert (forall j, 0 <= j < 200 -> ~ live sb (V 46 disk0) j) as Hl by (intros j Hj Hl; by apply Hl, Hd).
  split; [lia|intros; apply Hz; lia| | |intros; by apply Hd|intros j Hj Hlj; by destruct (Hl j Hj)|intros j x Hj Hlj; by destruct (Hl j Hj)|intros j Hj Hlj; by destruct (Hl j Hj)|].
  - intros n. unfold disk0. destruct (decide (n = 1)) as [->|Hn]; [rewrite fn_lookup_insert; apply sb_block_ok|rewrite fn_lookup_insert_ne by done; apply zeros_block].
  - split; [|intros j Hj%inum_mkfs Hlj; by destruct (Hl j Hj)|intros j k m Hj%inum_mkfs _ Hlj; by destruct (Hl j Hj)]. intros m Hm. rewrite datastart_eq in Hm. rewrite V_used by lia. lia.
  - split; [unfold disk0; by rewrite fn_lookup_insert|]. intros m Hm. apply Hz. lia.
Qed.

Lemma sb_decodes : mk_sb (get32 0 sb_block) (get32 4 sb_block) (get32 8 sb_block) (get32 12 sb_block) (get32 16 sb_block) (get32 20 sb_block) (get32 24 sb_block) (get32 28 sb_block) = sb.
Proof. vm_compute. reflexivity. Qed.

(** The command line: the files can be read and stored, and there is room for them. *)
Record args_ok (files : list file) : Prop := {
  ao_files : Forall file_good files;
  ao_inodes : (length files <= 198)%nat;
  ao_root : (length files mod 64 <> 62)%nat;
  ao_room : 46 + cost (16 * (length files + 2)) + files_cost files <= 1000
}.

Definition root_dir (files : list file) : list Z := dirent 1 (lit ".") ++ dirent 1 (lit "..") ++ file_entries 2 files.

Lemma length_root files : length (root_dir files) = (16 * (length files + 2))%nat.
Proof. unfold root_dir. rewrite !length_app, !length_dirent, length_file_entries. lia. Qed.

Lemma lit_bytes : bytes (lit ".") /\ bytes (lit "..").
Proof. by split; repeat constructor. Qed.

Lemma root_blocks n : (n mod 64 <> 62 -> (16 * (n + 2)) mod 1024 <> 0)%nat.
Proof.
  intros Hn E. apply Nat.Div0.mod_divides in E as [[|q] Hq]; [lia|]. apply Hn. replace n with (62 + q * 64)%nat by lia. by rewrite Nat.Div0.mod_add.
Qed.

Lemma mkfs_runs files : args_ok files -> let fb := 46 + cost (16 * (length files + 2)) + files_cost files in
  exists D, mkfs files mkfs_start = Ok tt (mk_mkfs (V fb D) 1000 (2 + Z.of_nat (length files)) fb) /\ im (2 + Z.of_nat (length files)) fb D /\
    forall j, 0 <= j < 200 -> afs fb D j = if decide (j = 1) then Some (T_DIR, root_dir files ++ replicate (pad (length (root_dir files))) 0) else
      if decide (2 <= j) then (fun f => (T_FILE, data_of f)) <$> files !! Z.to_nat (j - 2) else None.
Proof.
  intros [Hg Hn Hmod Hroom] fb. pose proof (files_cost_pos files) as Hcp. assert (forall j, 0 <= j < 200 -> afs 46 disk0 j = None) as A0.
  { intros j Hj. unfold afs, abs_fs. rewrite decide_True; [done|]. apply (im_unused _ _ _ im_start); [done|lia]. }
  unfold mkfs. erewrite bind_Ok by reflexivity. cbn [mkfs_start img nsect freeinode freeblock]. change nmeta with 46. erewrite bind_Ok by (apply (zero_disk_ok 1000 0 1 46); lia). cbn [Z.add Z.of_nat].
  erewrite bind_Ok by (apply (wsect_ok blank 1 46 1 sb_block); lia). fold disk0.
  assert (i16 (xshort T_DIR) = T_DIR) as Et by reflexivity. destruct (ialloc_ok 1 46 disk0 im_start ltac:(lia) T_DIR ltac:(done) Et) as [E1 A1].
  pose proof (new_im 1 46 disk0 im_start ltac:(lia) T_DIR ltac:(done)) as Him1. set (D1 := <[IBLOCK 1 sb := _]> disk0) in *. change (1 + 1) with 2 in *. erewrite bind_Ok by exact E1.
  change (negb (1 =? ROOTINO)) with false. cbv iota. pose proof (cost_mono 32 (16 * (length files + 2)) ltac:(lia)) as Hc32. pose proof (cost_mono 16 32 ltac:(lia)) as Hc16. pose proof (cost_pos 16) as Hc0.
  assert (Z.of_nat (0 + 16) <= FILEMAX /\ Z.of_nat (16 + 16) <= FILEMAX) as [M1 M2] by done.
  pose proof (iappend_ok 2 46 D1 1 T_DIR [] (dirent 1 (lit ".")) Him1 ltac:(lia) ltac:(by rewrite A1 by lia) (dirent_bytes _ _ (proj1 lit_bytes))) as H2. rewrite length_dirent in H2.
  destruct (H2 M1 ltac:(cbn [length Nat.add]; rewrite cost_0; lia)) as (D2 & E2 & Him2 & A2). cbn [length Nat.add app] in E2, Him2, A2. rewrite cost_0, Z.sub_0_r in E2, Him2, A2. erewrite bind_Ok by exact E2.
  pose proof (iappend_ok 2 _ D2 1 T_DIR (dirent 1 (lit ".")) (dirent 1 (lit "..")) Him2 ltac:(lia) ltac:(by rewrite A2 by lia) (dirent_bytes _ _ (proj2 lit_bytes))) as H3. rewrite !length_dirent in H3.
  destruct (H3 M2 ltac:(cbn [Nat.add]; lia)) as (D3 & E3 & Him3 & A3). cbn [Nat.add] in E3, Him3, A3. replace (46 + cost 16 + (cost 32 - cost 16)) with (46 + cost 32) in * by lia. erewrite bind_Ok by exact E3.
  assert (length (dirent 1 (lit ".") ++ dirent 1 (lit "..")) = 32%nat) as El by (by rewrite length_app, !length_dirent).
  destruct (add_files_ok files 2 (46 + cost 32) D3 _ fb Him3 ltac:(lia) ltac:(lia) ltac:(by rewrite A3 by lia) Hg) as (D4 & E4 & Him4 & A4); [rewrite El; change FILEMAX with (268 * 1024); lia| |done|].
  { rewrite El. unfold fb. replace (32 + 16 * length files)%nat with (16 * (length files + 2))%nat by lia. lia. }
  rewrite <- (assoc_L (++)) in A4. fold (root_dir files) in A4. erewrite bind_Ok by exact E4.
  destruct (fix_root_ok _ fb D4 (root_dir files) Him4 ltac:(by rewrite A4 by lia)) as (D5 & E5 & Him5 & A5).
  { rewrite length_root. by apply root_blocks. }
  { rewrite length_root. unfold pad. change FILEMAX with (268 * 1024). lia. }
  erewrite bind_Ok by exact E5. erewrite bind_Ok by reflexivity. cbn [freeblock]. exists D5. split; [|split; [done|]].
  - unfold balloc. change BSIZE with 1024. rewrite (proj2 (Z.ltb_lt _ _)) by (unfold fb; lia). cbn [negb]. rewrite wsect_ok by (rewrite sb_eq; cbn; lia). by do 2 f_equal.
  - intros j Hj. rewrite A5 by done. case_decide as Ej; [done|]. rewrite A4 by done. rewrite decide_False by done. destruct (decide (2 <= j)).
    + destruct (files !! _); [done|]. cbn. rewrite A3, A2, A1, A0 by done. by rewrite !decide_False by lia.
    + rewrite A3, A2, A1, A0 by done. by rewrite !decide_False by lia.
Qed.

(** C7: mkfs writes an image that the kernel can use.  On a command line whose files can be
    read, fit the disk and have inodes, it ends, and the image it leaves has the layout the
    kernel's file system relies on, the superblock it reads, an empty log, and satisfies
    the invariant that [readi] and [writei] preserve: no block is shared or missing, and
    the free map marks exactly the blocks that are taken.  Inode 1 is the root directory
    with the entries of all files, padded with unused entries, each file is an inode with
    its content, and the other inodes are free. *)
Theorem mkfs_image files : args_ok files ->
  exists D fi fb, mkfs files mkfs_start = Ok tt (mk_mkfs D 1000 fi fb) /\ layout mkfs_geom sb /\
    mk_sb (get32 0 (D 1)) (get32 4 (D 1)) (get32 8 (D 1)) (get32 12 (D 1)) (get32 16 (D 1)) (get32 20 (D 1)) (get32 24 (D 1)) (get32 28 (D 1)) = sb /\
    (forall m, 2 <= m < 32 -> D m = zeros) /\ (forall m, is_block (D m)) /\ fs_ok sb D /\ (forall m, 0 <= m < 1000 -> used sb D m <-> m < fb) /\
    forall j, is_inum sb j -> abs_fs sb D j =
      if decide (j = 1) then Some (T_DIR, root_dir files ++ replicate (pad (length (root_dir files))) 0) else
      if decide (2 <= j) then (fun f => (T_FILE, data_of f)) <$> files !! Z.to_nat (j - 2) else None.
Proof.
  intros Ha. destruct (mkfs_runs files Ha) as (D & E & Him & A). eexists _, _, _. split; [exact E|]. set (fb := 46 + _ + _) in *. pose proof (im_fb _ _ _ Him) as Hfb.
  destruct (im_meta _ _ _ Him) as [M1 M2]. split; [apply mkfs_layout|]. split; [rewrite V_other, M1 by lia; apply sb_decodes|].
  split; [intros m Hm; rewrite V_other by lia; by apply M2|]. split; [apply V_block; [lia|apply Him]|]. split; [apply Him|].
  split; [intros m Hm; apply V_used; lia|]. intros j Hj%inum_mkfs. by apply A.
Qed.

Definition demo_args : list file := [(lit "user/_cat", Some [[127; 69; 76]; [70]]); (lit "README", Some [lit "xv6"])].

Lemma demo_args_ok : args_ok demo_args.
Proof.
  split; [|cbn; lia|done|done]. repeat constructor; cbn; try done; eauto; eexists; (split; [done|]); by repeat constructor.
Qed.

(** An image with two files. *)
Lemma mkfs_image_witness : exists D fi fb, mkfs demo_args mkfs_start = Ok tt (mk_mkfs D 1000 fi fb) /\ fs_ok sb D /\
  abs_fs sb D 2 = Some (T_FILE, [127; 69; 76; 70]) /\ abs_fs sb D 3 = Some (T_FILE, lit "xv6") /\ abs_fs sb D 4 = None.
Proof.
  destruct (mkfs_image demo_args demo_args_ok) as (D & fi & fb & E & _ & _ & _ & _ & Hfs & _ & A). exists D, fi, fb. split; [exact E|]. split; [exact Hfs|].
  rewrite !A by (apply inum_mkfs; lia). split; [reflexivity|]. split; reflexivity.
Defined.
