(* ===== verification/MkfsBoot.v ===== *)
(** * From mkfs to an open file

    The kernel mounts the image mkfs wrote and looks up a file of the command line in its
    root directory: mkfs, the block cache, the log, path names and inodes together. *)
From stdpp Require Import base gmap gmultiset list numbers functions strings.
From Stdlib Require Import ZArith Lia.
From S2P Require Import Prelude Mem Bytes Kprintf Sleeplock Access.
From S2P Require Import Bio BlockCache BioSpec Log LogDisk LogSpec LogOps TxDisk Fs FsBlocks FsFile FsRw FsSpec FsDir File FileSpec FsPath Mkfs MkfsSpec.
From S2P Require Kalloc Vm VmSpec Pipe.
Open Scope Z_scope.

(** ** The root directory of the image *)

Lemma entries_concat ds : Forall (fun de => length de = 16%nat) ds -> entries (concat ds) = ds.
Proof.
  intros Hd. assert (length (concat ds) = 16 * length ds)%nat as Hl.
  { induction Hd as [|de ds Hde Hd IH]; [done|]. cbn. rewrite length_app, Hde, IH. lia. }
  apply list_eq. intros k. rewrite entries_lookup, Hl, (Nat.mul_comm 16), Nat.div_mul by lia. clear Hl. case_decide as Hk; [|by rewrite lookup_ge_None_2 by lia].
  revert k Hk. induction Hd as [|de ds Hde Hd IH]; intros k Hk; [cbn in Hk; lia|]. cbn [concat]. unfold entry. destruct k as [|k].
  - change ((de :: ds) !! 0%nat) with (Some de). unfold getn. by rewrite Nat.mul_0_r, drop_0, take_app_le, take_ge by lia.
  - change ((de :: ds) !! S k) with (ds !! k). rewrite <- IH by (cbn in Hk; lia). unfold getn, entry. f_equal. unfold getn. rewrite drop_app_ge by lia. do 2 f_equal. lia.
Qed.

Fixpoint dirents (inum : Z) (files : list file) : list (list Z) :=
  match files with [] => [] | f :: files => dirent inum (name_of f) :: dirents (inum + 1) files end.

Definition root_entries (files : list file) : list (list Z) :=
  dirent 1 (lit ".") :: dirent 1 (lit "..") :: dirents 2 files ++ replicate (pad (length (root_dir files)) / 16) (replicate 16 0).

Lemma dirents_concat files : forall inum, concat (dirents inum files) = file_entries inum files.
Proof. induction files as [|f files IH]; intros inum; cbn; [done|]. by rewrite IH. Qed.

Lemma pad_16 n : exists q, pad (16 * n) = (16 * q)%nat.
Proof.
  exists (64 - n mod 64)%nat. unfold pad. change 1024%nat with (16 * 64)%nat. rewrite Nat.Div0.mul_mod_distr_l. pose proof (Nat.mod_upper_bound n 64 ltac:(lia)). lia.
Qed.

Lemma root_concat files : root_dir files ++ replicate (pad (length (root_dir files))) 0 = concat (root_entries files).
Proof.
  unfold root_entries. cbn [concat]. rewrite concat_app, dirents_concat. unfold root_dir at 1. rewrite <- !(assoc_L (++)). do 3 f_equal. rewrite length_root.
  destruct (pad_16 (length files + 2)) as [q ->].
  rewrite (Nat.mul_comm 16 q), Nat.div_mul by lia. induction q as [|q IH]; [done|].
  change (concat (replicate (S q) (replicate 16 0))) with (replicate 16 0 ++ concat (replicate q (replicate 16 0))). rewrite <- IH. change (S q * 16)%nat with (16 + q * 16)%nat. by rewrite replicate_add.
Qed.

Lemma dirents_len files : forall inum, Forall (fun de => length de = 16%nat) (dirents inum files).
Proof. induction files as [|f files IH]; intros inum; cbn; constructor; [apply length_dirent|apply IH]. Qed.

Lemma root_entries_eq files : entries (root_dir files ++ replicate (pad (length (root_dir files))) 0) = root_entries files.
Proof.
  rewrite root_concat. apply entries_concat. unfold root_entries. repeat (apply Forall_cons; split; [apply length_dirent|]). apply Forall_app.
  split; [apply dirents_len|by apply Forall_replicate].
Qed.

Lemma dirent_fields i n : 0 <= i < 2 ^ 16 -> de_inum (dirent i n) = i /\ de_name (dirent i n) = strncpy_arr n DIRSIZ.
Proof.
  intros Hi. unfold de_inum, de_name, dirent. rewrite xshort_id by done. assert (length (Z_to_little_endian 2 8 i) = 2%nat) as Hl by (by rewrite length_le). split.
  - unfold get16, getn. rewrite drop_0, take_app_le, take_ge by lia. by apply le_roundtrip.
  - unfold getn. rewrite drop_app_ge, Hl by lia. cbn [Nat.sub drop]. rewrite drop_0. apply take_ge. by rewrite length_strncpy.
Qed.

Lemma names_dirent n i m : 0 < i < 2 ^ 16 -> names n (dirent i m) <-> same_name n m.
Proof. intros Hi. unfold names, same_name. destruct (dirent_fields i m) as [-> ->]; [lia|]. rewrite strncpy_idem. split; [tauto|]. split; [lia|done]. Qed.

(** What the root directory has under a name. *)
Definition root_lookup (files : list file) (n : list Z) : option Z :=
  if decide (same_name n (lit ".")) then Some 1 else if decide (same_name n (lit "..")) then Some 1 else
  (fun x : nat * file => 2 + Z.of_nat x.1) <$> list_find (fun f => same_name n (name_of f)) files.

Lemma find_dirents n files : forall inum, 0 < inum -> inum + Z.of_nat (length files) <= 2 ^ 16 ->
  (fun x => de_inum x.2) <$> list_find (names n) (dirents inum files) =
  (fun x : nat * file => inum + Z.of_nat x.1) <$> list_find (fun f => same_name n (name_of f)) files.
Proof.
  induction files as [|f files IH]; intros inum Hi Hn; cbn [dirents list_find length] in *; [done|]. destruct (decide (same_name n (name_of f))) as [Hs|Hs].
  - rewrite decide_True by (apply names_dirent; [lia|done]). cbn [fmap option_fmap option_map fst snd]. f_equal. destruct (dirent_fields inum (name_of f)) as [-> _]; lia.
  - rewrite decide_False by (rewrite names_dirent by lia; done). specialize (IH (inum + 1) ltac:(lia) ltac:(lia)).
    destruct (list_find (names n) (dirents (inum + 1) files)) as [[]|], (list_find _ files) as [[]|]; cbn in *; try done. injection IH as ->. f_equal. lia.
Qed.

Lemma root_lookup_ok files n : (length files <= 198)%nat -> dir_lookup (root_dir files ++ replicate (pad (length (root_dir files))) 0) n = root_lookup files n.
Proof.
  intros Hlen. unfold dir_lookup, dir_find, root_lookup. rewrite root_entries_eq. unfold root_entries. cbn [list_find].
  destruct (decide (same_name n (lit "."))) as [Hs|Hs].
  { rewrite decide_True by (by apply names_dirent). reflexivity. }
  rewrite decide_False by (by rewrite names_dirent). destruct (decide (same_name n (lit ".."))) as [Hs2|Hs2].
  { rewrite decide_True by (by apply names_dirent). reflexivity. }
  rewrite decide_False by (by rewrite names_dirent). rewrite <- (find_dirents n files 2) by lia. rewrite find_app.
  assert (list_find (names n) (replicate (pad (length (root_dir files)) / 16) (replicate 16 0)) = None) as ->.
  { apply list_find_None, Forall_replicate. intros [Hz _]. by apply Hz. }
  by destruct (list_find (names n) (dirents 2 files)) as [[]|].
Qed.

(** ** Mounting *)
Definition sb_of (d : list Z) : superblock :=
  mk_sb (get32 0 d) (get32 4 d) (get32 8 d) (get32 12 d) (get32 16 d) (get32 20 d) (get32 24 d) (get32 28 d).

Section Mount.
Context {B U : Type} `{BufCacheLaws B}.

Lemma readsb_ok (s : fs_st (log_st B) U) dev v D : bc_rep dev (lbc (ftx s)) v -> fresh D v ->
  exists c, readsb dev s = Ok tt (set_fsb (sb_of (D 1)) (set_ftx (set_lbc c (ftx s)) s)) /\ bc_rep dev c v.
Proof.
  intros R [F1 F2 F3 F4]. destruct (bc_bread_ok dev _ v 1 R ltac:(lia)) as (b & c1 & E1 & Hb & R1).
  - split; [rewrite F3; intros b n Hb; by rewrite lookup_empty in Hb|rewrite F4; intros n Hn; by apply elem_of_empty in Hn].
  - split; [rewrite F4; apply not_elem_of_empty|rewrite F3; intros b Hb; by rewrite lookup_empty in Hb].
  - right. exists ∅. split; [by rewrite size_empty; vm_compute; lia|]. intros n Hn. by rewrite F2 in Hn.
  - rewrite F2. done.
  - set (v1 := v_add_ref 1 1 _) in R1. assert (v_held v1 !! b = Some 1) as Hb1 by (apply lookup_insert_eq).
    destruct (bc_handle dev c1 v1 b 1 R1 Hb1) as [_ Ed]. assert (v_block v1 1 = D 1) as Eb by (change (v_block v 1 = D 1); rewrite (bc_clean dev _ v 1 R), F1; [done|apply F2]).
    destruct (bc_brelse_ok dev c1 v1 b 1 R1 Hb1) as (c2 & E2 & R2); [intros _; rewrite Eb; symmetry; apply F1|].
    exists c2. split.
    + unfold readsb, f_bread, on_tx, tx_bread, log_tx, on_bc. unfold bind at 1, zoom at 1, zoom at 1. rewrite E1. erewrite bind_Ok by reflexivity.
      erewrite bind_Ok by reflexivity. cbn [tx_data ftx set_ftx lbc set_lbc]. rewrite Ed, Eb. unfold f_brelse, on_tx, zoom, tx_brelse, on_bc, zoom. cbn [ftx set_ftx set_fsb lbc set_lbc].
      rewrite E2. by destruct s as [[] ? ? ? ? ? ? ? ?].
    + assert (v_add_ref (-1) 1 (v_set_held (delete b (v_held v1)) v1) ≡ v) as Ev; [|by rewrite Ev in R2]. split; try done; cbn.
      * intros n. unfold insert, fn_insert. repeat case_decide; subst; rewrite ?F2; done.
      * by rewrite delete_insert_id by done.
Qed.
End Mount.

(** ** The directories of the image *)
Section Image.
Context (files : list file) (D : blocks) (Hlen : (length files <= 198)%nat) (Hfs : fs_ok sb D).
Hypothesis content_ok : forall j, is_inum sb j -> abs_fs sb D j =
  if decide (j = 1) then Some (T_DIR, root_dir files ++ replicate (pad (length (root_dir files))) 0) else
  if decide (2 <= j) then (fun f => (T_FILE, data_of f)) <$> files !! Z.to_nat (j - 2) else None.
Hypothesis nlink_ok : forall j, is_inum sb j -> live sb D j -> d_nlink (disk_inode sb D j) = 1.

Lemma image_abs j t c : abs_fs sb D j = Some (t, c) -> live sb D j /\ d_type (disk_inode sb D j) = t /\ content sb D j = c.
Proof. unfold abs_fs, live. case_decide; [done|]. by intros [= <- <-]. Qed.

Lemma image_linked j x : is_inum sb j -> abs_fs sb D j = Some x -> linked sb D j.
Proof. destruct x as [t c]. intros Hj (Hl & _)%image_abs. split; [done|]. split; [done|]. by rewrite nlink_ok. Qed.

Lemma image_root : linked sb D 1 /\ d_type (disk_inode sb D 1) = T_DIR /\ forall n, dir_lookup (content sb D 1) n = root_lookup files n.
Proof.
  assert (is_inum sb 1) as Hj by (apply inum_mkfs; lia). pose proof (content_ok 1 Hj) as E. rewrite decide_True in E by done.
  split; [by eapply image_linked|]. apply image_abs in E as (_ & Et & Ec). split; [done|]. intros n. rewrite Ec. by apply root_lookup_ok.
Qed.

Lemma image_file k f : files !! k = Some f -> let j := 2 + Z.of_nat k in linked sb D j /\ d_type (disk_inode sb D j) = T_FILE /\ content sb D j = data_of f.
Proof.
  intros Hk j. pose proof (lookup_lt_Some _ _ _ Hk). assert (is_inum sb j) as Hj by (apply inum_mkfs; lia). pose proof (content_ok j Hj) as E.
  rewrite decide_False, decide_True in E by lia. replace (Z.to_nat (j - 2)) with k in E by lia. rewrite Hk in E. cbn in E.
  split; [by eapply image_linked|]. by apply image_abs in E as (_ & Et & Ec).
Qed.

Lemma image_dirs : dirs_ok sb D.
Proof.
  destruct image_root as (Hr & _ & Hlook). intros j (Hj & Hl & _) Ht. assert (j = 1) as ->.
  { pose proof (content_ok j Hj) as E. destruct (decide (j = 1)) as [->|_]; [done|]. unfold abs_fs in E. rewrite decide_False in E by done.
    destruct (decide (2 <= j)); [|done]. destruct (files !! Z.to_nat (j - 2)); [|done]. rewrite Ht in E. discriminate E. }
  split.
  - pose proof (content_ok 1 Hj) as E. rewrite decide_True in E by done. apply image_abs in E as (_ & _ & Ec). pose proof (length_content sb D 1) as El.
    pose proof (dk_size _ (fo_dinode _ _ _ (fk_file _ _ Hfs 1 Hj Hl))) as Hs. change (d_size (disk_inode sb D 1)) with (isize sb D 1) in Hs.
    rewrite Ec, length_app, length_replicate, length_root in El. destruct (pad_16 (length files + 2)) as [q Eq]. rewrite Eq in El.
    assert (isize sb D 1 = Z.of_nat (length files + 2 + q) * 16) as -> by lia. by apply Z.mod_mul.
  - intros n j'. rewrite Hlook. unfold root_lookup. destruct (decide (same_name n (lit "."))); [by intros [= <-]|]. destruct (decide (same_name n (lit ".."))); [by intros [= <-]|].
    destruct (list_find _ files) as [[k f]|] eqn:E; [|done]. intros [= <-]. apply list_find_Some in E as (Hk & _). by apply image_file in Hk as (? & _).
Qed.
End Image.

(** ** The machine *)
Section Boot.
Context {U : Type} `{UserAccessLaws U}.
Implicit Types (s : fs_st (log_st bio_st) U).

(** The file system's memory when the machine starts, with the disk [D]. *)
Definition boot_fs (pid : Z) (D : blocks) (u : U) (pt : Z) (cwd : nat) : fs_st (log_st bio_st) U :=
  mk_fs (boot_log pid D) (mk_sb 0 0 0 0 0 0 0 0) (replicate NINODE inhabitant) u pid pt cwd [] [].

(** What the first process does to read from a file: [iinit] of [main], [fsinit] of
    [forkret], and [exec] up to its first [readi]. *)
Definition mount_and_read (path : list Z) (n : Z) : M (fs_st (log_st bio_st) U) Z :=
  iinit ;;
  fsinit ROOTDEV ;;
  on_tx begin_op ;;
  let! r := namei path in
  match r with
  | None => ret (-1)
  | Some ip => ilock (Some ip) ;; modify (set_local (replicate (Z.to_nat n) 0)) ;; readi ip DLocal 0 n
  end.

Lemma mount_ok s pid D : ftx s = boot_log pid D -> (forall m, is_block (D m)) -> sb_of (D 1) = sb -> D 2 = zeros ->
  exists ls w, fsinit ROOTDEV s = Ok tt (set_fsb sb (set_ftx ls s)) /\ log_idle mkfs_geom ls w /\ forall m, ~ g_log mkfs_geom m -> v_block w m = D m.
Proof.
  intros Es HB Hsb Hz. assert (log_blocks (D 2) = []) as Hlog by (rewrite Hz; vm_compute; reflexivity).
  assert (valid_log 2 30 D) as Hval by (split; rewrite Hlog; [done|by constructor|intros b Hb; by apply elem_of_nil in Hb]).
  assert (bc_rep ROOTDEV (lbc (ftx s)) (boot_view D)) as R by (rewrite Es; by apply boot_rep).
  pose proof (boot_bootable 2 30 pid D Hval ltac:(done) ltac:(lia) ltac:(lia)) as Bt. destruct (readsb_ok s ROOTDEV (boot_view D) D R (bt_fresh _ _ _ _ _ Bt)) as (c & E1 & R1).
  rewrite Es, Hsb in E1. set (l1 := set_lbc c (boot_log pid D)) in *. assert (bootable 2 30 D l1 (boot_view D)) as Bt1 by (destruct Bt; by split).
  destruct (initlog_ok ROOTDEV 2 30 l1 (boot_view D) D R1 Bt1) as (ls & w & ws & E2 & Hrec & _). destruct (initlog_ops ROOTDEV 2 30 l1 (boot_view D) D ls R1 Bt1 E2) as [Eo Ec].
  assert (log_idle mkfs_geom ls w) as I.
  { destruct Hrec as [C1 C2 C3 C4 C5 C6 C7 C8 C9 C10 C11 C12]. split; try done. intros m. rewrite C12, Hlog, decide_False; [done|]. apply not_elem_of_nil. }
  exists ls, w. split; [|split; [exact I|]].
  - unfold fsinit. erewrite bind_Ok by exact E1. erewrite bind_Ok by reflexivity. cbn [fsb set_fsb]. change (negb (sb_magic sb =? FSMAGIC)) with false. cbv iota.
    change (sb_logstart sb) with 2. change (sb_nlog sb) with 30. unfold on_tx, zoom. cbn [ftx set_fsb set_ftx]. rewrite E2. by destruct s.
  - intros m Hm. rewrite <- (idle_clean mkfs_geom ls w m I Hm), (rc_content _ _ _ _ _ _ _ Hrec m Hm). by apply recovered_empty.
Qed.

(** No inode is in use. *)
Lemma empty_cache pid D l : Forall (fun x => i_ref x = 0 /\ sl_locked (i_lock x) = 0) l -> cache_ok mkfs_geom sb pid D ∅ None l.
Proof.
  intros Hl. assert (forall k x, l !! k = Some x -> i_ref x = 0 /\ sl_locked (i_lock x) = 0) as Hk by (intros k x Hx; exact (Forall_lookup_1 _ _ _ _ Hl Hx)). split.
  - intros k x [Hr Hs]%Hk. split; [lia|done|lia].
  - intros k k' x y [Hr _]%Hk _ Hp. lia.
  - intros j Hj. by apply gmultiset_elem_of_empty in Hj.
  - by rewrite gmultiset_size_empty.
Qed.

(** A name without slashes and NULs is one element. *)
Lemma elems_one e : c_string e -> SLASH ∉ e -> e <> [] -> elems (SLASH :: e) = [take DIRSIZ e].
Proof.
  intros Hc Hs Hne. unfold elems. cbn. assert (forall cur, components cur e = flush (cur ++ e)) as ->.
  { clear Hne Hc. induction e as [|c e IH]; intros cur; [by rewrite app_nil_r|]. cbn. destruct (Z.eqb_spec c SLASH); [set_solver|]. rewrite IH by set_solver. by rewrite <- (assoc_L (++)). }
  by destruct e.
Qed.

Lemma c_string_slash e : c_string e -> c_string (SLASH :: e).
Proof. unfold c_string. intros He. apply not_elem_of_cons. done. Qed.

Lemma shortname_no_slash f n : shortname f = Some n -> SLASH ∉ n /\ (c_string f -> c_string n).
Proof.
  unfold shortname, c_string. set (a := if _ =? 0 then drop 5 f else f). assert (forall x, x ∈ a -> x ∈ f) as Ha by (unfold a; destruct (_ =? 0); [intros x; apply subseteq_drop|done]).
  destruct (existsb (Z.eqb 47) a) eqn:E; [done|]. intros [= <-]. assert (47 ∉ a) as H47.
  { intros Hin. apply (proj2 (not_true_iff_false _) E), existsb_exists. exists 47. split; [by apply list_elem_of_In|done]. }
  destruct (hd 0 a =? 95); [|split; [done|set_solver]]. split; [intros Hin%subseteq_drop; done|intros Hf Hin%subseteq_drop; by apply Hf, Ha].
Qed.

(** The image mkfs wrote, mounted, inside the first transaction. *)
Record mounted (laws : TxDiskLaws (log_st bio_st)) (files : list file) (fb : Z) (D : blocks) s : Prop := {
  mo_names : at_names mkfs_geom sb s D ∅ ∅ None;
  mo_cache : length (icache s) = NINODE;
  mo_unused : Forall (fun x => i_ref x = 0 /\ sl_locked (i_lock x) = 0) (icache s);
  mo_content j : is_inum sb j -> abs_fs sb D j =
    if decide (j = 1) then Some (T_DIR, root_dir files ++ replicate (pad (length (root_dir files))) 0) else
    if decide (2 <= j) then (fun f => (T_FILE, data_of f)) <$> files !! Z.to_nat (j - 2) else None;
  mo_nlink j : is_inum sb j -> live sb D j -> d_nlink (disk_inode sb D j) = 1;
  mo_used m : 46 <= m < 1000 -> used sb D m <-> m < fb
}.

Lemma mkfs_mounted files pid u pt cwd : args_ok files -> let fb := 46 + cost (16 * (length files + 2)) + files_cost files in
  exists I fi, mkfs files mkfs_start = Ok tt (mk_mkfs I 1000 fi fb) /\ exists laws D s, mounted laws files fb D s /\
    forall A (k : M (fs_st (log_st bio_st) U) A), (iinit ;; fsinit ROOTDEV ;; on_tx begin_op ;; k) (boot_fs pid I u pt cwd) = k s.
Proof.
  intros Ha fb. destruct (mkfs_runs files Ha) as (D & E & Him & A). fold fb in E, Him, A. pose proof (im_fb _ _ _ Him) as Hfb.
  destruct (im_meta _ _ _ Him) as [M1 M2]. eexists (V fb D), _. split; [exact E|]. pose proof (V_block fb D ltac:(lia) (im_blk _ _ _ Him)) as HB.
  set (s1 := set_icache (set_lock (initsleeplock "inode") <$> replicate NINODE inhabitant) (boot_fs pid (V fb D) u pt cwd)).
  destruct (mount_ok s1 pid (V fb D) eq_refl HB) as (ls & w & E2 & I & Hext); [rewrite V_other, M1 by lia; apply sb_decodes|rewrite V_other by lia; apply M2; lia|].
  destruct (fs_ok_ext mkfs_geom sb mkfs_layout (V fb D) (v_block w) Hext (im_fs _ _ _ Him)) as [F Habs].
  destruct (begin_op_tx mkfs_geom ls w I) as (ls1 & E3 & R3). set (laws := log_tx_laws (v_disk w) (v_writes w) 1 : TxDiskLaws (log_st bio_st)) in *.
  set (s3 := set_ftx ls1 (set_fsb sb (set_ftx ls s1))). assert (forall j, is_inum sb j -> disk_inode sb (v_block w) j = disk_inode sb (V fb D) j) as Hdi.
  { intros j Hj. unfold disk_inode. rewrite Hext; [done|]. by apply (iblock_not_log _ _ mkfs_layout), (iblock_ok _ _ mkfs_layout). }
  assert (Forall (fun x => i_ref x = 0 /\ sl_locked (i_lock x) = 0) (icache s3)) as Hun by (apply Forall_fmap, Forall_replicate; by split).
  exists laws, (v_block w), s3. split; [split|].
  - split; [reflexivity|exact R3|by apply empty_cache|exact F|vm_compute; reflexivity].
  - reflexivity.
  - exact Hun.
  - intros j Hj. rewrite Habs by exact Hj. apply A. by apply inum_mkfs.
  - intros j Hj Hl. unfold live in Hl. rewrite Hdi in Hl |- * by exact Hj. apply (im_nlink _ _ _ Him); [by apply inum_mkfs|exact Hl].
  - intros m Hm. unfold used. rewrite Hext; [apply V_used; lia|]. apply (bmap_not_log _ _ mkfs_layout), (bblock_bmap _ _ mkfs_layout). rewrite sb_eq. cbn. lia.
  - intros X k. erewrite bind_Ok by reflexivity. fold s1. erewrite bind_Ok by exact E2.
    assert (on_tx begin_op (set_fsb sb (set_ftx ls s1)) = Ok tt s3) as E5 by (unfold on_tx, zoom; cbn [ftx set_fsb set_ftx]; by rewrite E3).
    by erewrite bind_Ok by exact E5.
Qed.

Section Mounted.
Context (laws : TxDiskLaws (log_st bio_st)) (files : list file) (fb : Z) (D : blocks) (s : fs_st (log_st bio_st) U).
Context (Hlen : (length files <= 198)%nat) (Mo : mounted laws files fb D s).

Lemma mounted_dirs : dirs_ok sb D.
Proof. exact (image_dirs files D Hlen (an_fs _ _ _ _ _ _ _ (mo_names _ _ _ _ _ Mo)) (mo_content _ _ _ _ _ Mo) (mo_nlink _ _ _ _ _ Mo)). Qed.

Lemma mounted_root : linked sb D 1 /\ d_type (disk_inode sb D 1) = T_DIR /\ forall n, dir_lookup (content sb D 1) n = root_lookup files n.
Proof. exact (image_root files D Hlen (mo_content _ _ _ _ _ Mo) (mo_nlink _ _ _ _ _ Mo)). Qed.

(** [namei] of a file of the command line. *)
Lemma mounted_namei k f : let name := name_of f in
  list_find (fun f' => same_name name (name_of f')) files = Some (k, f) -> ~ same_name name (lit ".") -> ~ same_name name (lit "..") ->
  c_string name -> SLASH ∉ name -> name <> [] ->
  exists ip s1, namei (SLASH :: name) s = Ok (Some ip) s1 /\ ref_to (icache s1) ip (2 + Z.of_nat k) /\ at_names mkfs_geom sb s1 D ∅ {[+ 2 + Z.of_nat k +]} None.
Proof.
  intros name Hfind Hd1 Hd2 Hcn Hns Hne. destruct mounted_root as (Hroot & Ht & Hlook). pose proof (c_string_slash name Hcn) as Hcs.
  destruct (namex_path mkfs_geom sb mkfs_layout s D ∅ ∅ (SLASH :: name) (replicate DIRSIZ 0) false 1 (mo_names _ _ _ _ _ Mo) mounted_dirs eq_refl eq_refl Hroot Hcs ltac:(by rewrite length_replicate))
    as (r & nm & s1 & E1 & S1 & W).
  { rewrite (mo_cache _ _ _ _ _ Mo). vm_compute. lia. }
  { by rewrite gmultiset_size_empty. }
  assert (same_name (take DIRSIZ name) name) as Htk by apply strncpy_take. rewrite (elems_one name Hcn Hns Hne) in W. cbn [walk] in W.
  rewrite Ht, (dir_lookup_same _ _ _ Htk), Hlook in W. unfold root_lookup in W.
  rewrite (decide_False (P := same_name name (lit "."))), (decide_False (P := same_name name (lit ".."))), Hfind in W by done.
  cbn [negb andb Z.eqb fmap option_fmap option_map mbind option_bind fst] in W. change (negb (T_DIR =? T_DIR)) with false in W. cbv iota in W.
  destruct W as (ip & -> & Hr & _ & A1 & _). exists ip, s1. rewrite (left_id_L ∅ (⊎)) in A1. split; [|done]. unfold namei. by erewrite bind_Ok by exact E1.
Qed.

(** [ilock] and [readi] of the inode found. *)
Lemma mounted_read s1 ip k f n : files !! k = Some f -> at_names mkfs_geom sb s1 D ∅ {[+ 2 + Z.of_nat k +]} None -> ref_to (icache s1) ip (2 + Z.of_nat k) ->
  0 <= n <= Z.of_nat (length (data_of f)) ->
  exists s', (ilock (Some ip) ;; modify (set_local (replicate (Z.to_nat n) 0)) ;; readi ip DLocal 0 n) s1 = Ok n s' /\ flocal s' = take (Z.to_nat n) (data_of f).
Proof.
  intros Hk A1 Hr Hn. destruct (image_file files D Hlen (mo_content _ _ _ _ _ Mo) (mo_nlink _ _ _ _ _ Mo) k f Hk) as (_ & _ & Hcont).
  destruct (ilock_step mkfs_geom sb mkfs_layout s1 D ∅ _ ip _ A1 Hr) as (s2 & E3 & A2 & S2 & Hr2). erewrite bind_Ok by exact E3. erewrite bind_Ok by reflexivity.
  destruct (at_names_locked _ _ s2 D ∅ _ ip _ A2 Hr2) as (i & Lf & Ei & Hi). pose proof (locked_size _ _ _ _ _ _ _ Lf) as [El Hsz]. rewrite Ei, Hcont in El.
  assert (locked_file mkfs_geom sb (set_local (replicate (Z.to_nat n) 0) s2) ip i D ∅) as Lf' by (destruct Lf as [[] ? ? ? ?]; split; [by split|done..]).
  destruct (readi_local mkfs_geom sb mkfs_layout (set_local (replicate (Z.to_nat n) 0) s2) ip i D ∅ 0 n Lf' (an_room _ _ _ _ _ _ _ A2)) as (t & E4 & _); [lia|lia|lia|cbn; by rewrite length_replicate|].
  eexists. split; [exact E4|]. cbn [flocal set_local]. by rewrite Ei, Hcont.
Qed.
End Mounted.

(** C6: From mkfs to a file's bytes.  On the image mkfs writes for a command line, the kernel
    that starts from it finds every file of the command line under its name in the root
    directory, and reads the bytes the host's file had: [iinit], [fsinit] with the
    superblock and the recovery of the log, [begin_op], [namei], [ilock] and [readi] all
    return, from any memory of the process.  (Of files of the same name the first is found;
    a file named [.] or [..] is hidden by the directory's own entry.) *)
Theorem boot_reads_file files k f n pid u pt cwd : let name := name_of f in
  args_ok files -> list_find (fun f' => same_name name (name_of f')) files = Some (k, f) -> c_string f.1 -> name <> [] ->
  ~ same_name name (lit ".") -> ~ same_name name (lit "..") -> 0 <= n <= Z.of_nat (length (data_of f)) ->
  exists D fi fb s', mkfs files mkfs_start = Ok tt (mk_mkfs D 1000 fi fb) /\
    mount_and_read (SLASH :: name) n (boot_fs pid D u pt cwd) = Ok n s' /\ flocal s' = take (Z.to_nat n) (data_of f).
Proof.
  intros name Ha Hfind Hc Hne Hd1 Hd2 Hn. destruct (mkfs_mounted files pid u pt cwd Ha) as (I & fi & E & laws & D & s & Mo & Ek). pose proof (ao_inodes _ Ha) as Hlen.
  pose proof Hfind as (Hk & _)%list_find_Some. pose proof (Forall_lookup_1 _ _ _ _ (ao_files _ Ha) Hk) as [[nm Hnm] _ _ _].
  assert (name = nm) as Enm by (unfold name, name_of; by rewrite Hnm). destruct (shortname_no_slash _ _ Hnm) as [Hns Hcn]. rewrite <- Enm in Hns, Hcn.
  destruct (mounted_namei laws files _ D s Hlen Mo k f Hfind Hd1 Hd2 (Hcn Hc) Hns Hne) as (ip & s1 & E1 & Hr & A1).
  destruct (mounted_read laws files _ D s Hlen Mo s1 ip k f n Hk A1 Hr Hn) as (s' & E2 & Hl). eexists I, fi, _, s'. split; [exact E|]. split; [|exact Hl].
  unfold mount_and_read. rewrite Ek. by erewrite bind_Ok by exact E1.
Qed.
End Boot.

(** ** The image of two files *)
#[local] Existing Instances Kalloc.demo_linker Kalloc.demo_linker_ok.

Lemma boot_reads_file_witness : exists I fi fb (s s' : fs_st (log_st bio_st) Kalloc.kmem_st),
  mkfs demo_args mkfs_start = Ok tt (mk_mkfs I 1000 fi fb) /\ ftx s = boot_log 1 I /\ mount_and_read (lit "/README") 3 s = Ok 3 s' /\ flocal s' = lit "xv6".
Proof.
  destruct Pipe.demo_user as (u & pt & _).
  destruct (boot_reads_file demo_args 1 (lit "README", Some [lit "xv6"]) 3 1 u pt 0%nat demo_args_ok) as (I & fi & fb & s' & E & Er & El).
  - vm_compute. reflexivity.
  - vm_compute. intros H. repeat (apply elem_of_cons in H as [H|H]; [discriminate|]). by apply elem_of_nil in H.
  - discriminate.
  - vm_compute. discriminate.
  - vm_compute. discriminate.
  - vm_compute. split; discriminate.
  - exists I, fi, fb, (boot_fs 1 I u pt 0), s'. split; [exact E|]. split; [reflexivity|]. split; [exact Er|exact El].
Defined.

Lemma demo_mounted : exists laws D (s : fs_st (log_st bio_st) Kalloc.kmem_st), mounted laws demo_args 49 D s.
Proof.
  destruct Pipe.demo_user as (u & pt & _). destruct (mkfs_mounted demo_args 1 u pt 0%nat demo_args_ok) as (I & fi & _ & laws & D & s & Mo & _). by exists laws, D, s.
Qed.

(** [nameiparent] of the path of a new file: the root directory and its name. *)
Lemma namex_resolves_witness : exists (s s' : fs_st (log_st bio_st) Kalloc.kmem_st) ip name,
  namex (lit "//new") true (replicate DIRSIZ 0) s = Ok (Some ip, name) s' /\ same_name name (lit "new").
Proof.
  destruct demo_mounted as (laws & D & s & Mo). assert (length demo_args <= 198)%nat as Hlen by (vm_compute; lia).
  destruct (mounted_root _ _ _ _ _ Hlen Mo) as (Hroot & Ht & _).
  destruct (namex_resolves mkfs_geom sb mkfs_layout s D ∅ ∅ (lit "//new") (replicate DIRSIZ 0) true 1 (mo_names _ _ _ _ _ Mo) (mounted_dirs _ _ _ _ _ Hlen Mo) eq_refl eq_refl Hroot)
    as (r & name & s' & E & _ & W).
  - vm_compute. intros H. repeat (apply elem_of_cons in H as [H|H]; [discriminate|]). by apply elem_of_nil in H.
  - reflexivity.
  - rewrite (mo_cache _ _ _ _ _ Mo). vm_compute. lia.
  - rewrite gmultiset_size_empty. reflexivity.
  - change (elems (lit "//new")) with [lit "new"] in W. cbn [walk] in W. rewrite Ht in W. change (negb (T_DIR =? T_DIR)) with false in W.
    change (true && bool_decide ((@nil (list Z)) = [])) with true in W. cbv iota in W. destruct W as (ip & -> & _ & _ & _ & Hl). destruct (Hl eq_refl) as (e & [= <-] & Hs).
    exists s, s', ip, name. split; [exact E|exact Hs].
Defined.


Lemma mkfs_free D fb k : (forall m, 46 <= m < 1000 -> used sb D m <-> m < fb) -> 46 <= fb -> fb + Z.of_nat k <= 1000 -> has_free sb D k.
Proof.
  intros Hu Hfb Hk. exists (list_to_set (seqZ fb (Z.of_nat k))). split.
  - rewrite size_list_to_set by apply NoDup_seqZ. rewrite length_seqZ. lia.
  - intros b [Hb1 Hb2]%elem_of_list_to_set%elem_of_seqZ. split; [rewrite data_mkfs; lia|]. rewrite Hu by lia. lia.
Qed.

Lemma mkfs_budget l k : (k <= 4)%nat -> budget mkfs_geom sb 10 l ∅ k.
Proof.
  intros Hk. unfold budget. assert (size (bmaps sb) = 1%nat) as Hb by (vm_compute; reflexivity).
  assert (size (bmaps sb ∪ inds l ∪ ∅) <= 2)%nat as Hs.
  { rewrite (right_id_L ∅ (∪)). assert (size (bmaps sb ∪ inds l) <= size (bmaps sb) + size (inds l))%nat by (rewrite size_union_alt; pose proof (subseteq_size (inds l ∖ bmaps sb) (inds l) ltac:(set_solver)); lia).
    unfold inds in *. destruct (ind l =? 0); rewrite ?size_empty, ?size_singleton in *; lia. }
  unfold ineed. split; [destruct (ind l =? 0); lia|]. vm_compute. discriminate.
Qed.

(** The references of the cache are counts of a multiset that fits an [int]. *)
Lemma cache_refs gm spb pid D R lk l : cache_ok gm spb pid D R lk l -> Forall (fun x => 0 <= i_ref x < 2 ^ 31 - 1) l.
Proof.
  intros C. apply Forall_lookup_2. intros k x Hx. pose proof (en_nonneg _ _ _ _ _ _ _ _ (ck_entry _ _ _ _ _ _ _ C k x Hx)).
  destruct (decide (i_ref x = 0)); [lia|]. destruct (entry_used _ _ _ _ _ _ _ C k x Hx ltac:(lia)) as (_ & ? & _). lia.
Qed.

(** A new name in the root directory. *)
Lemma dirlink_refines_witness : exists (s s' : fs_st (log_st bio_st) Kalloc.kmem_st) dp, dirlink dp (lit "new") 2 s = Ok 0 s'.
Proof.
  destruct demo_mounted as (laws & D & s & Mo). assert (length demo_args <= 198)%nat as Hlen by (vm_compute; lia).
  destruct (mounted_root _ _ _ _ _ Hlen Mo) as (Hroot & Ht & Hlook). pose proof Hroot as (Hj & Hl & _). destruct (mounted_dirs _ _ _ _ _ Hlen Mo 1 Hroot Ht) as [Hmod _].
  destruct (iget_step mkfs_geom sb s D ∅ ∅ None 1 (mo_names _ _ _ _ _ Mo) Hj Hl) as (dp & s1 & _ & A1 & S1 & Hr & _); [rewrite (mo_cache _ _ _ _ _ Mo); vm_compute; lia|by rewrite gmultiset_size_empty|].
  destruct (ilock_step mkfs_geom sb mkfs_layout s1 D ∅ _ dp 1 A1 Hr) as (s2 & _ & A2 & S2 & Hr2). destruct (at_names_locked _ _ s2 D ∅ _ dp 1 A2 Hr2) as (i & Lf & Ei & Hi).
  pose proof (lf_sync _ _ _ _ _ _ _ Lf) as Hsync. rewrite Ei in Hsync. pose proof (locked_size _ _ _ _ _ _ _ Lf) as [Hsz _]. rewrite Ei in Hsz.
  assert (content sb D 1 = root_dir demo_args ++ replicate (pad (length (root_dir demo_args))) 0) as Hc.
  { pose proof (mo_content _ _ _ _ _ Mo 1 Hj) as E. rewrite decide_True in E by done. by apply image_abs in E as (_ & _ & ?). }
  rewrite Hc in Hsz. change (length _) with 1024%nat in Hsz. assert (length (icache s2) = NINODE) as Hl2 by (destruct S1 as (_&_&_&_&E1), S2 as (_&_&_&_&E2); rewrite E2, E1; apply Mo).
  pose proof (dirlink_refines mkfs_geom sb mkfs_layout 10 s2 dp i D ∅ (lit "new") 2) as Th. cbv zeta in Th. rewrite Ei, Hlook in Th.
  replace (root_lookup demo_args (lit "new")) with (@None Z) in Th by (vm_compute; reflexivity). destruct Th as (s' & _ & _ & _ & E & _).
  - split; [exact Lf| |]; [change (d_type (dinode_of i) = T_DIR)|change (d_size (dinode_of i) mod DIRENT = 0)]; by rewrite Hsync.
  - destruct Hr2 as (x & Hx & Hp & _). assert (x = i) by congruence. subst. lia.
  - exact (cache_refs _ _ _ _ _ _ _ (an_cache _ _ _ _ _ _ _ A2)).
  - apply (cache_free _ _ _ _ _ _ _ (an_cache _ _ _ _ _ _ _ A2)). rewrite Hl2, (left_id_L ∅ (⊎)). vm_compute. lia.
  - change (lit "new") with [110; 101; 119]. repeat (apply Forall_cons; split; [lia|]). apply Forall_nil_2.
  - lia.
  - unfold DIRENT. change FILEMAX with (268 * 1024). lia.
  - apply (mkfs_free D 49); [apply Mo|lia|]. unfold ineed. destruct (ind _ =? 0); lia.
  - apply mkfs_budget. lia.
  - by exists s2, s', dp.
Defined.
