(* ===== verification/Usys.v ===== *)
(** * What a user program sees of the kernel

    The system calls of user/user.h are the interface [Sys]; a program is a computation
    over it that may end early, by [exit] or by a successful [exec].  [fork] returns one of
    its values: a run of the program is the run of one process, parent or child.  Strings
    are their characters, without the terminating NUL. *)
From stdpp Require Import base list numbers strings.
From Stdlib Require Import ZArith Lia.
From S2P Require Import Prelude Mem Bytes Kprintf.
From S2P Require Fs Ulib.
Open Scope Z_scope.

(** [exec] answers whether it replaced the program; [read] and [fstat] also what they
    stored. *)
Class Sys (S : Type) := {
  fork : M S Z;
  wait : M S Z;
  pipe : M S (Z * (Z * Z));
  write : Z -> list Z -> M S Z;
  read : Z -> Z -> M S (Z * list Z);
  close : Z -> M S Z;
  kill : Z -> M S Z;
  exec : list Z -> list (list Z) -> M S bool;
  open : list Z -> Z -> M S Z;
  mknod : list Z -> Z -> Z -> M S Z;
  unlink : list Z -> M S Z;
  fstat : Z -> M S (Z * Fs.stat);
  link : list Z -> list Z -> M S Z;
  mkdir : list Z -> M S Z;
  dup : Z -> M S Z;
  getpid : M S Z;
  sleep : Z -> M S Z
}.

(** How a process ends. *)
Inductive fin := Exit (status : Z) | Exec (path : list Z) (argv : list (list Z)).

Definition P (S A : Type) : Type := M S (fin + A).
Definition pret {S A} (a : A) : P S A := ret (inr a).
Definition pbind {S A B} (m : P S A) (k : A -> P S B) : P S B :=
  bind m (fun r => match r with inl e => ret (inl e) | inr a => k a end).
Definition sys {S A} (m : M S A) : P S A := bind m (fun a => ret (inr a)).
Definition exit {S A} (status : Z) : P S A := ret (inl (Exit status)).
(** Undefined in C, and out of fuel. *)
Definition stuck {S A} : P S A := undefined.
Definition nofuel {S A} : P S A := diverge.

Declare Scope prog_scope.
Delimit Scope prog_scope with prog.
Notation "'let*' x := m 'in' k" := (pbind m (fun x => k))
  (at level 200, x pattern, m at level 100, k at level 200) : prog_scope.
Notation "m ;;; k" := (pbind m (fun _ => k)) (at level 60, right associativity) : prog_scope.
Open Scope prog_scope.

Section Laws.
Context {S A B : Type}.

Lemma pbind_ret (m : P S A) (k : A -> P S B) s a s' : m s = Ok (inr a) s' -> pbind m k s = k a s'.
Proof. intros E. unfold pbind. by erewrite bind_Ok by exact E. Qed.

Lemma pbind_fin (m : P S A) (k : A -> P S B) s e s' : m s = Ok (inl e) s' -> pbind m k s = Ok (inl e) s'.
Proof. intros E. unfold pbind. by erewrite bind_Ok by exact E. Qed.

Lemma sys_ok (m : M S A) s a s' : m s = Ok a s' -> sys m s = Ok (inr a) s'.
Proof. intros E. unfold sys. by erewrite bind_Ok by exact E. Qed.

Lemma psys (m : M S A) (k : A -> P S B) s a s' : m s = Ok a s' -> pbind (sys m) k s = k a s'.
Proof. intros E. apply pbind_ret. by apply sys_ok. Qed.
End Laws.

Section Lib.
Context {W : Type} `{Sys W}.

(** ** user/ulib.c and user/printf.c *)

Definition stat (n : list Z) : P W (Z * Fs.stat) :=
  let* fd := sys (open n 0) in
  if fd <? 0 then pret (-1, Fs.mk_stat 0 0 0 0 0)
  else
    let* r := sys (fstat fd) in
    let* _ := sys (close fd) in
    pret r.

(** [exec] does not return when it succeeds. *)
Definition execv (path : list Z) (argv : list (list Z)) : P W unit :=
  let* ok := sys (exec path argv) in
  if ok : bool then ret (inl (Exec path argv)) else pret tt.

Definition putc (fd c : Z) : P W unit := let* _ := sys (write fd [c]) in pret tt.

Fixpoint putcs (fd : Z) (cs : list Z) : P W unit :=
  match cs with [] => pret tt | c :: cs => putc fd c ;;; putcs fd cs end.

Definition fprintf (fd : Z) (fmt : list Z) (ap : list va_arg) : P W unit :=
  match Ulib.vprintf false fmt ap with Some cs => putcs fd cs | None => stuck end.
Definition printf (fmt : list Z) (ap : list va_arg) : P W unit := fprintf 1 fmt ap.
End Lib.

(** A line of a message, with its newline. *)
Definition ln (m : string) : list Z := lit m ++ [10].
