(* ===== verification/Coreutils.v ===== *)
(** * The small user programs

    user/cat.c, echo.c, wc.c, ls.c, find.c, xargs.c, sleep.c, kill.c, ln.c, rm.c, mkdir.c,
    init.c, zombie.c, pingpong.c, forktest.c and stressfs.c, and the random numbers of
    grind.c, over the system calls of [Usys].  [argv] has the name of the program first.  A loop that
    reads until the end takes fuel.  An access outside an array is [stuck]. *)
From stdpp Require Import base list numbers strings.
From Stdlib Require Import ZArith Lia.
From S2P Require Import Prelude Mem Bytes Kprintf Usys.
From S2P Require Fs File Ulib Syscall Exec.
Open Scope Z_scope.

Section Programs.
Context {W : Type} `{Sys W}.

(** [for(i = 1; i < argc; i++)] *)
Definition args (argv : list (list Z)) : list (list Z) := tl argv.

(** ** cat.c *)
Fixpoint cat (fd : Z) (fuel : nat) : P W unit :=
  match fuel with
  | O => nofuel
  | S f =>
      let* (n, buf) := sys (read fd 512) in
      if 0 <? n then
        let* w := sys (write 1 (take (Z.to_nat n) buf)) in
        if negb (w =? n) then fprintf 2 (ln "cat: write error") [] ;;; exit 1
        else cat fd f
      else if n <? 0 then fprintf 2 (ln "cat: read error") [] ;;; exit 1
      else pret tt
  end.

Fixpoint cat_files (files : list (list Z)) (fuel : nat) : P W unit :=
  match files with
  | [] => exit 0
  | a :: files =>
      let* fd := sys (open a 0) in
      if fd <? 0 then fprintf 2 (ln "cat: cannot open %s") [AStr (Some a)] ;;; exit 1
      else
        cat fd fuel ;;;
        let* _ := sys (close fd) in
        cat_files files fuel
  end.

Definition cat_main (argv : list (list Z)) (fuel : nat) : P W unit :=
  if (length argv <=? 1)%nat then cat 0 fuel ;;; exit 0 else cat_files (args argv) fuel.

(** ** echo.c *)
Fixpoint echo_args (l : list (list Z)) : P W unit :=
  match l with
  | [] => exit 0
  | a :: l =>
      let* _ := sys (write 1 a) in
      let* _ := sys (write 1 (match l with [] => [10] | _ => [32] end)) in
      echo_args l
  end.
Definition echo_main (argv : list (list Z)) : P W unit := echo_args (args argv).

(** ** wc.c *)

(** [l], [w], [c] and [inword] *)
Record counts := mk_counts { wl : Z; ww : Z; wchars : Z; inword : bool }.

Definition separators : list Z := [32; 13; 9; 10; 11].

(** The body of the inner loop; the counters are [int]s, and [c] is the largest. *)
Definition wc_byte (s : counts) (b : Z) : option counts :=
  if 2 ^ 31 <=? wchars s + 1 then None
  else
    let l := if b =? 10 then wl s + 1 else wl s in
    if existsb (Z.eqb b) separators then Some (mk_counts l (ww s) (wchars s + 1) false)
    else if negb (inword s) then Some (mk_counts l (ww s + 1) (wchars s + 1) true)
    else Some (mk_counts l (ww s) (wchars s + 1) true).

Fixpoint wc_buf (s : counts) (buf : list Z) : option counts :=
  match buf with [] => Some s | b :: buf => s ← wc_byte s b; wc_buf s buf end.

Fixpoint wc_loop (fd : Z) (s : counts) (fuel : nat) : P W (Z * counts) :=
  match fuel with
  | O => nofuel
  | S f =>
      let* (n, buf) := sys (read fd 512) in
      if 0 <? n then match wc_buf s (take (Z.to_nat n) buf) with Some s => wc_loop fd s f | None => stuck end
      else pret (n, s)
  end.

Definition wc (fd : Z) (name : list Z) (fuel : nat) : P W unit :=
  let* (n, s) := wc_loop fd (mk_counts 0 0 0 false) fuel in
  if n <? 0 then printf (ln "wc: read error") [] ;;; exit 1
  else printf (ln "%d %d %d %s") [AInt (wl s); AInt (ww s); AInt (wchars s); AStr (Some name)].

Fixpoint wc_files (files : list (list Z)) (fuel : nat) : P W unit :=
  match files with
  | [] => exit 0
  | a :: files =>
      let* fd := sys (open a 0) in
      if fd <? 0 then printf (ln "wc: cannot open %s") [AStr (Some a)] ;;; exit 1
      else
        wc fd a fuel ;;;
        let* _ := sys (close fd) in
        wc_files files fuel
  end.

Definition wc_main (argv : list (list Z)) (fuel : nat) : P W unit :=
  if (length argv <=? 1)%nat then wc 0 [] fuel ;;; exit 0 else wc_files (args argv) fuel.

(** ** ls.c *)

(** The characters after the last slash, padded with blanks to 14. *)
Definition fmtname (path : list Z) : list Z :=
  let p := Exec.last_elem path path in
  if (Fs.DIRSIZ <=? length p)%nat then p else p ++ replicate (Fs.DIRSIZ - length p) 32.

(** [memmove(p, de.name, DIRSIZ); p[DIRSIZ] = 0;] *)
Definition ls_path (path de : list Z) : list Z := path ++ [47] ++ CStringFacts.cstr (Fs.de_name de).

Fixpoint ls_loop (fd : Z) (path : list Z) (fuel : nat) : P W unit :=
  match fuel with
  | O => nofuel
  | S f =>
      let* (n, de) := sys (read fd 16) in
      if negb (n =? 16) then pret tt
      else if Fs.de_inum de =? 0 then ls_loop fd path f
      else
        let buf := ls_path path de in
        let* (r, st) := stat buf in
        (if r <? 0 then printf (ln "ls: cannot stat %s") [AStr (Some buf)]
         else printf (ln "%s %d %d %d") [AStr (Some (fmtname buf)); AInt (Fs.st_type st); AInt (Fs.st_ino st); AInt (Fs.st_size st)]) ;;;
        ls_loop fd path f
  end.

Definition ls (path : list Z) (fuel : nat) : P W unit :=
  let* fd := sys (open path 0) in
  if fd <? 0 then fprintf 2 (ln "ls: cannot open %s") [AStr (Some path)]
  else
    let* (r, st) := sys (fstat fd) in
    if r <? 0 then
      fprintf 2 (ln "ls: cannot stat %s") [AStr (Some path)] ;;;
      let* _ := sys (close fd) in pret tt
    else
      (if Fs.st_type st =? Fs.T_FILE then
         printf (ln "%s %d %d %l") [AStr (Some (fmtname path)); AInt (Fs.st_type st); AInt (Fs.st_ino st); APtr (Fs.st_size st)]
       else if Fs.st_type st =? Fs.T_DIR then
         if 512 <? Z.of_nat (length path) + 1 + Z.of_nat Fs.DIRSIZ + 1 then printf (ln "ls: path too long") []
         else ls_loop fd path fuel
       else pret tt) ;;;
      let* _ := sys (close fd) in pret tt.

Fixpoint ls_all (paths : list (list Z)) (fuel : nat) : P W unit :=
  match paths with [] => exit 0 | a :: paths => ls a fuel ;;; ls_all paths fuel end.

Definition ls_main (argv : list (list Z)) (fuel : nat) : P W unit :=
  if (length argv <? 2)%nat then ls (lit ".") fuel ;;; exit 0 else ls_all (args argv) fuel.

(** ** find.c *)

(** Where a path is in memory: the messages print its address. *)
Variable address : list Z -> Z.

(** [strcpy(buf, path)], the slash and [memmove(p, de.name, DIRSIZ)] on the 512 bytes of
    [buf]; a name of 14 characters is left without a terminator. *)
Definition find_path (path de : list Z) : option (list Z) :=
  if 512 <? Z.of_nat (length path) + 1 + Z.of_nat Fs.DIRSIZ then None
  else if existsb (Z.eqb 0) (Fs.de_name de) then Some (path ++ [47] ++ CStringFacts.cstr (Fs.de_name de))
  else None.

(** ulib.c: [strcmp] of two strings *)
Fixpoint ustrcmp (p q : list Z) : Z :=
  match p with
  | [] => 0 - hd 0 q
  | c :: p' => if c =? hd 0 q then ustrcmp p' (tl q) else c - hd 0 q
  end.

Fixpoint find (path file : list Z) (fuel : nat) : P W unit :=
  match fuel with
  | O => nofuel
  | S f =>
      let* fd := sys (open path 0) in
      if fd <? 0 then fprintf 2 (ln "can not open%d") [AInt (address path)] ;;; exit 1
      else
        let* (r, st) := sys (fstat fd) in
        if r <? 0 then
          fprintf 2 (ln "can not stat%d") [AInt (address path)] ;;;
          let* _ := sys (close fd) in exit 1
        else if Fs.st_type st =? Fs.T_FILE then
          fprintf 2 (lit "please find file in dir") [] ;;;
          let* _ := sys (close fd) in pret tt
        else if Fs.st_type st =? Fs.T_DIR then
          if 512 <? Z.of_nat (length path) + 1 then stuck else find_loop fd path file f
        else pret tt
  end
with find_loop (fd : Z) (path file : list Z) (fuel : nat) : P W unit :=
  match fuel with
  | O => nofuel
  | S f =>
      let* (n, de) := sys (read fd 16) in
      if negb (n =? 16) then pret tt
      else if Fs.de_inum de =? 0 then find_loop fd path file f
      else match find_path path de with
      | None => stuck
      | Some buf =>
          let* (r, st) := stat buf in
          (if r <? 0 then fprintf 2 (ln "find: cannot stat %s") [AStr (Some buf)]
           else if Fs.st_type st =? Fs.T_DIR then
             if hd 0 (Fs.de_name de) =? 46 then pret tt else find buf file f
           else if Fs.st_type st =? Fs.T_FILE then
             if ustrcmp file (CStringFacts.cstr (Fs.de_name de)) =? 0 then fprintf 1 (ln "%s") [AStr (Some buf)] else pret tt
           else pret tt) ;;;
          find_loop fd path file f
      end
  end.

(** With no arguments the path is a null pointer. *)
Definition find_main (argv : list (list Z)) (fuel : nat) : P W unit :=
  let argc := u8 (Z.of_nat (length argv)) in
  (if 3 <? argc then fprintf 2 (ln "need less argument") [] ;;; exit 1
   else match argc =? 2, argv with
   | true, _ :: a1 :: _ => find (lit ".") a1 fuel
   | false, _ :: a1 :: a2 :: _ => find a1 a2 fuel
   | _, _ => stuck
   end) ;;;
  exit 0.

(** ** xargs.c *)

(** [line] holds the first [linenum] characters of the 128 of the array. *)
Fixpoint xargs_loop (command : list Z) (args : list (list Z)) (line : list Z) (fuel : nat) : P W unit :=
  match fuel with
  | O => nofuel
  | S f =>
      let* (n, b) := sys (read 0 1) in
      if 0 <? n then
        let buf := hd 0 b in
        if (128 <=? length line)%nat then stuck
        else if buf =? 10 then
          if (Exec.MAXARG <=? length args)%nat then stuck
          else
            let* pid := sys fork in
            if pid <? 0 then fprintf 2 (lit "xargs: fork error") [] ;;; xargs_loop command args line f
            else if pid =? 0 then execv command (args ++ [CStringFacts.cstr line]) ;;; exit 0
            else let* _ := sys wait in xargs_loop command args [] f
        else xargs_loop command args (line ++ [buf]) f
      else pret tt
  end.

Definition xargs_main (argv : list (list Z)) (fuel : nat) : P W unit :=
  let argc := u8 (Z.of_nat (length argv)) in
  (match argv with
   | _ :: a1 :: _ =>
       if 1 <? argc then
         if (Fs.DIRSIZ <=? length a1)%nat then stuck
         else
           let args := take (Z.to_nat (argc - 1)) (args argv) in
           if (Exec.MAXARG <? length args)%nat then stuck else xargs_loop a1 args [] fuel
       else fprintf 2 (lit "a command shoud be given") [] ;;; exit 1
   | _ => fprintf 2 (lit "a command shoud be given") [] ;;; exit 1
   end) ;;;
  exit 0.

(** ** sleep.c *)
Inductive cmd_parse := wrong_char | success_parse | toomany_char.

Definition parse_cmd (argv : list (list Z)) : option cmd_parse :=
  if (2 <? length argv)%nat then Some toomany_char
  else a ← argv !! 1%nat;
    Some (if forallb (fun c => (48 <=? c) && (c <=? 57)) a then success_parse else wrong_char).

Definition sleep_main (argv : list (list Z)) : P W unit :=
  if (length argv =? 1)%nat then printf (lit "Please enter the parameters!") [] ;;; exit (-1)
  else match parse_cmd argv with
  | None => stuck
  | Some toomany_char => printf (ln "Too many args! ") [] ;;; exit (-1)
  | Some wrong_char => printf (ln "Cannot input alphabet, number only ") [] ;;; exit (-1)
  | Some success_parse =>
      match argv !! 1%nat with
      | Some a => let* _ := sys (sleep (Ulib.atoi a)) in exit 0
      | None => stuck
      end
  end.

(** ** kill.c, ln.c, rm.c, mkdir.c *)
Fixpoint kill_all (pids : list (list Z)) : P W unit :=
  match pids with
  | [] => exit 0
  | a :: pids => let* _ := sys (kill (Ulib.atoi a)) in kill_all pids
  end.
Definition kill_main (argv : list (list Z)) : P W unit :=
  if (length argv <? 2)%nat then fprintf 2 (ln "usage: kill pid...") [] ;;; exit 1 else kill_all (args argv).

Definition ln_main (argv : list (list Z)) : P W unit :=
  match argv with
  | [_; old; new] =>
      let* r := sys (link old new) in
      (if r <? 0 then fprintf 2 (ln "link %s %s: failed") [AStr (Some old); AStr (Some new)] else pret tt) ;;;
      exit 0
  | _ => fprintf 2 (ln "Usage: ln old new") [] ;;; exit 1
  end.

Fixpoint rm_all (files : list (list Z)) : P W unit :=
  match files with
  | [] => exit 0
  | a :: files =>
      let* r := sys (unlink a) in
      if r <? 0 then fprintf 2 (ln "rm: %s failed to delete") [AStr (Some a)] ;;; exit 0 else rm_all files
  end.
Definition rm_main (argv : list (list Z)) : P W unit :=
  if (length argv <? 2)%nat then fprintf 2 (ln "Usage: rm files...") [] ;;; exit 1 else rm_all (args argv).

Fixpoint mkdir_all (files : list (list Z)) : P W unit :=
  match files with
  | [] => exit 0
  | a :: files =>
      let* r := sys (mkdir a) in
      if r <? 0 then fprintf 2 (ln "mkdir: %s failed to create") [AStr (Some a)] ;;; exit 0 else mkdir_all files
  end.
Definition mkdir_main (argv : list (list Z)) : P W unit :=
  if (length argv <? 2)%nat then fprintf 2 (ln "Usage: mkdir files...") [] ;;; exit 1 else mkdir_all (args argv).

(** ** init.c *)

(** The inner loop: until the shell [pid] is waited for. *)
Fixpoint init_wait (pid : Z) (fuel : nat) : P W unit :=
  match fuel with
  | O => nofuel
  | S f =>
      let* wpid := sys wait in
      if wpid =? pid then pret tt
      else if wpid <? 0 then printf (ln "init: wait returned an error") [] ;;; exit 1
      else init_wait pid f
  end.

Fixpoint init_loop (fuel : nat) : P W unit :=
  match fuel with
  | O => nofuel
  | S f =>
      printf (ln "init: starting sh") [] ;;;
      let* pid := sys fork in
      if pid <? 0 then printf (ln "init: fork failed") [] ;;; exit 1
      else if pid =? 0 then
        execv (lit "sh") [lit "sh"] ;;;
        printf (ln "init: exec sh failed") [] ;;; exit 1
      else init_wait pid f ;;; init_loop f
  end.

Definition init_main (fuel : nat) : P W unit :=
  let* fd := sys (open (lit "console") Syscall.O_RDWR) in
  (if fd <? 0 then
     let* _ := sys (mknod (lit "console") File.CONSOLE 0) in
     let* _ := sys (open (lit "console") Syscall.O_RDWR) in pret tt
   else pret tt) ;;;
  let* _ := sys (dup 0) in
  let* _ := sys (dup 0) in
  init_loop fuel.

(** ** zombie.c *)
Definition zombie_main : P W unit :=
  let* pid := sys fork in
  (if 0 <? pid then let* _ := sys (sleep 5) in pret tt else pret tt) ;;;
  exit 0.

(** ** pingpong.c *)

(** [printf("%d: received %s\n", getpid(), buf)]: the string ends at the first NUL of the
    20 bytes. *)
Definition received (buf : list Z) : P W unit :=
  let* pid := sys getpid in
  if existsb (Z.eqb 0) buf then printf (ln "%d: received %s") [AInt pid; AStr (Some (CStringFacts.cstr buf))] else stuck.

(** [buf] is what the stack holds, and [after] the 15 bytes behind the literal "pong",
    which the child writes too. *)
Definition pingpong_main (buf after : list Z) : P W unit :=
  let* (r, child_fd) := sys pipe in
  if r <? 0 then stuck else
  let* (r, parent_fd) := sys pipe in
  if r <? 0 then stuck else
  let* pid := sys fork in
  if pid =? 0 then
    let* _ := sys (close parent_fd.2) in
    let* (_, bs) := sys (read parent_fd.1 4) in
    received (putn 0 bs buf) ;;;
    let* _ := sys (close child_fd.1) in
    let* _ := sys (write child_fd.2 (lit "pong" ++ [0] ++ after)) in
    exit 0
  else
    let* _ := sys (close parent_fd.1) in
    let* _ := sys (write parent_fd.2 (lit "ping")) in
    let* _ := sys (close child_fd.2) in
    let* (_, bs) := sys (read child_fd.1 20) in
    received (putn 0 bs buf) ;;;
    exit 0.

(** ** forktest.c *)
Definition print (s : list Z) : P W unit := let* _ := sys (write 1 s) in pret tt.

(** The first loop, with what is left of [N] and the [n] children so far. *)
Fixpoint forktest_forks (k n : nat) : P W nat :=
  match k with
  | O => pret n
  | S k =>
      let* pid := sys fork in
      if pid <? 0 then pret n
      else if pid =? 0 then exit 0
      else forktest_forks k (S n)
  end.

Fixpoint forktest_waits (n : nat) : P W unit :=
  match n with
  | O => pret tt
  | S n =>
      let* r := sys wait in
      if r <? 0 then print (ln "wait stopped early") ;;; exit 1 else forktest_waits n
  end.

Definition forktest_N : nat := 1000.

Definition forktest : P W unit :=
  print (ln "fork test") ;;;
  let* n := forktest_forks forktest_N 0 in
  if (n =? forktest_N)%nat then print (ln "fork claimed to work N times!") ;;; exit 1
  else
    forktest_waits n ;;;
    let* r := sys wait in
    if negb (r =? -1) then print (ln "wait got too many") ;;; exit 1
    else print (ln "fork test OK").

Definition forktest_main : P W unit := forktest ;;; exit 0.

(** ** stressfs.c *)

(** The loop that forks: it leaves with the first [i] whose fork is the parent's. *)
Fixpoint stressfs_forks (k : nat) (i : Z) : P W Z :=
  match k with
  | O => pret i
  | S k => let* pid := sys fork in if 0 <? pid then pret i else stressfs_forks k (i + 1)
  end.

Fixpoint times (n : nat) (m : P W unit) : P W unit :=
  match n with O => pret tt | S n => m ;;; times n m end.

Definition stressfs_main : P W unit :=
  printf (ln "stressfs starting") [] ;;;
  let* i := stressfs_forks 4 0 in
  printf (ln "write %d") [AInt i] ;;;
  let path := lit "stressfs" ++ [48 + i] in
  let* fd := sys (open path (Z.lor Syscall.O_CREATE Syscall.O_RDWR)) in
  times 20 (let* _ := sys (write fd (replicate 512 97)) in pret tt) ;;;
  let* _ := sys (close fd) in
  printf (ln "read") [] ;;;
  let* fd := sys (open path Syscall.O_RDONLY) in
  times 20 (let* _ := sys (read fd 512) in pret tt) ;;;
  let* _ := sys (close fd) in
  let* _ := sys wait in
  exit 0.
End Programs.

(** ** grind.c: [do_rand] *)
Definition do_rand (ctx : Z) : Z * Z :=
  let x := ctx mod 0x7ffffffe + 1 in
  let hi := Z.quot x 127773 in
  let lo := Z.rem x 127773 in
  let x := 16807 * lo - 2836 * hi in
  let x := if x <? 0 then x + 0x7fffffff else x in
  let x := x - 1 in
  (i32 x, u64 x).
