(* ===== verification/CoreSpec.v ===== *)
(** * What the small user programs do

    [view] is what a program can tell of the kernel: its open files, what it wrote, what
    its standard input still holds, and what its forks will return.  [SysLaws] is what the
    kernel promises about it for the files of a [tree]; the theorems about find and
    xargs are proved from the laws, and [tree_of] is the tree of a disk. *)
From stdpp Require Import base gmap list numbers strings.
From Stdlib Require Import ZArith Lia.
From S2P Require Import Prelude Mem Bytes Kprintf Usys Coreutils.
From S2P Require Import BlockCache LogDisk FsBlocks FsSpec FsRw FsDir FsPath.
From S2P Require Fs Ulib Syscall Exec Proc.
Open Scope Z_scope.

(** ** do_rand *)

(** C37: [do_rand] is the generator of Park and Miller: for [x] the state brought to
    1 .. 2^31 - 2, the next one is 7^5 * x mod (2^31 - 1), computed without leaving 31 bits;
    the result is one less, in 0 .. 2^31 - 3, and is the next state. *)
Theorem do_rand_park_miller ctx :
  let x := ctx mod 0x7ffffffe + 1 in
  let y := (7 ^ 5 * x) mod (2 ^ 31 - 1) in
  do_rand ctx = (y - 1, y - 1) /\ 0 <= y - 1 <= 0x7ffffffd /\
  - 2 ^ 31 < 16807 * (Z.rem x 127773) - 2836 * (Z.quot x 127773) < 2 ^ 31.
Proof.
  cbv zeta. assert (0 <= ctx mod 0x7ffffffe < 0x7ffffffe) as Hr by (apply Z.mod_pos_bound; lia).
  unfold do_rand. set (x := ctx mod 0x7ffffffe + 1). assert (1 <= x <= 0x7ffffffe) as Hx by lia. clearbody x.
  rewrite Z.quot_div_nonneg, Z.rem_mod_nonneg by lia.
  pose proof (Z.div_mod x 127773 ltac:(lia)) as Hd. pose proof (Z.mod_pos_bound x 127773 ltac:(lia)) as Hlo.
  set (hi := x / 127773) in *. set (lo := x mod 127773) in *. assert (0 <= hi <= 16807) by lia.
  set (y := 16807 * lo - 2836 * hi) in *. assert (y <> 0) as Hy.
  { unfold y. intros E. lia. }
  assert (((7 ^ 5 * x) mod (2 ^ 31 - 1)) = if y <? 0 then y + 0x7fffffff else y) as ->.
  { symmetry. destruct (Z.ltb_spec y 0); eapply Z.mod_unique_pos; try (unfold y in *; lia).
    - instantiate (1 := hi - 1). unfold y in *. lia.
    - instantiate (1 := hi). unfold y in *. lia. }
  destruct (Z.ltb_spec y 0); rewrite i32_small, u64_small by (unfold y in *; lia); (split; [done|]); unfold y in *; lia.
Qed.

(** ** Files as a tree *)

Record tree := mk_tree { t_type : Z -> Z; t_content : Z -> list Z; t_cwd : Z }.

Fixpoint twalk (t : tree) (j : Z) (es : list (list Z)) : option Z :=
  match es with
  | [] => Some j
  | e :: es' => if negb (t_type t j =? Fs.T_DIR) then None else j' ← dir_lookup (t_content t j) e; twalk t j' es'
  end.

Definition resolve (t : tree) (path : list Z) : option Z :=
  twalk t (if hd 0 path =? Fs.SLASH then Fs.ROOTINO else t_cwd t) (elems path).

(** The tree of a disk: paths lead where [namex] leads. *)
Definition tree_of (sb : Fs.superblock) (D : blocks) (cwd : Z) : tree :=
  mk_tree (fun j => Fs.d_type (disk_inode sb D j)) (content sb D) cwd.

Lemma walk_tree sb D cwd es : forall j, walk sb D false j es = twalk (tree_of sb D cwd) j es.
Proof.
  induction es as [|e es IH]; intros j; cbn [walk twalk tree_of t_type t_content]; [done|]. destruct (negb _); [done|].
  cbn [andb]. destruct (dir_lookup _ e) as [j'|]; cbn [mbind option_bind]; [apply IH|done].
Qed.

Lemma twalk_app t es e : forall j, twalk t j (es ++ [e]) =
  d ← twalk t j es; if negb (t_type t d =? Fs.T_DIR) then None else dir_lookup (t_content t d) e.
Proof.
  induction es as [|e' es IH]; intros j; cbn [app twalk mbind option_bind].
  - destruct (negb _); [done|]. by destruct (dir_lookup _ e).
  - destruct (negb _); [done|]. destruct (dir_lookup _ e') as [j'|]; cbn [mbind option_bind]; [apply IH|done].
Qed.

(** A name is added to a path. *)
Definition under (path name : list Z) : list Z := path ++ [Fs.SLASH] ++ name.

Lemma components_app p q : forall cur, components cur (p ++ Fs.SLASH :: q) = components cur p ++ elems q.
Proof.
  induction p as [|c p IH]; intros cur; cbn; [done|]. destruct (c =? Fs.SLASH); [|apply IH].
  by rewrite IH, (assoc_L (++)).
Qed.

Lemma components_name q : forall cur, Fs.SLASH ∉ q -> components cur q = flush (cur ++ q).
Proof.
  induction q as [|c q IH]; intros cur Hq; cbn; [by rewrite app_nil_r|]. apply not_elem_of_cons in Hq as [Hc Hq].
  destruct (Z.eqb_spec c Fs.SLASH); [congruence|]. by rewrite IH, <- (assoc_L (++)).
Qed.

Lemma resolve_under t path name d : path <> [] -> name <> [] -> Fs.SLASH ∉ name -> (length name <= Fs.DIRSIZ)%nat ->
  resolve t path = Some d -> t_type t d = Fs.T_DIR -> resolve t (under path name) = dir_lookup (t_content t d) name.
Proof.
  intros Hp Hn Hs Hl Hr Ht. unfold resolve, under in *.
  replace (hd 0 (path ++ [Fs.SLASH] ++ name)) with (hd 0 path) by (by destruct path).
  replace (elems (path ++ [Fs.SLASH] ++ name)) with (elems path ++ [name]).
  - rewrite twalk_app, Hr. cbn [mbind option_bind]. by rewrite Ht.
  - unfold elems. cbn [app]. rewrite components_app. unfold elems. rewrite (components_name name []) by done.
    cbn [app]. by rewrite flush_ne, take_ge by done.
Qed.

(** ** What the kernel promises *)

(** The open files with their inodes and offsets, beside the console at 0, 1 and 2; the
    bytes written to the console, with the descriptor; what standard input delivers; the
    results of the next forks. *)
Record view := mk_view { v_fds : gmap Z (Z * Z); v_out : list (Z * Z); v_in : list Z; v_forks : list Z }.

Definition set_fds (f : gmap Z (Z * Z) -> gmap Z (Z * Z)) v := mk_view (f (v_fds v)) (v_out v) (v_in v) (v_forks v).
Definition add_out (fd : Z) (bs : list Z) v := mk_view (v_fds v) (v_out v ++ (pair fd <$> bs)) (v_in v) (v_forks v).
Definition set_in (l : list Z) v := mk_view (v_fds v) (v_out v) l (v_forks v).
Definition set_forks (l : list Z) v := mk_view (v_fds v) (v_out v) (v_in v) l.

(** A device here is one whose number the kernel knows. *)
Definition openable (t : tree) (j : Z) : Prop := t_type t j = Fs.T_DIR \/ t_type t j = Fs.T_FILE \/ t_type t j = Fs.T_DEVICE.
Definition path_ok (path : list Z) : Prop := c_string path /\ Z.of_nat (length path) < Syscall.MAXPATH.

Class SysLaws (W : Type) `{Sys W} (t : tree) := {
  view_of : W -> view;
  law_open s path j : resolve t path = Some j -> path_ok path -> openable t j -> (size (v_fds (view_of s)) < Proc.NOFILE - 3)%nat ->
    exists fd s', open path 0 s = Ok fd s' /\ 3 <= fd /\ v_fds (view_of s) !! fd = None /\ view_of s' = set_fds (insert fd (j, 0)) (view_of s);
  law_missing s path : resolve t path = None -> path_ok path -> exists s', open path 0 s = Ok (-1) s' /\ view_of s' = view_of s;
  law_fstat s fd j off : v_fds (view_of s) !! fd = Some (j, off) ->
    exists st s', fstat fd s = Ok (0, st) s' /\ Fs.st_type st = t_type t j /\ view_of s' = view_of s;
  law_close s fd x : v_fds (view_of s) !! fd = Some x -> exists s', close fd s = Ok 0 s' /\ view_of s' = set_fds (delete fd) (view_of s);
  law_read s fd j off n : 3 <= fd -> v_fds (view_of s) !! fd = Some (j, off) -> t_type t j <> Fs.T_DEVICE -> 0 <= off -> 0 <= n ->
    let bs := take (Z.to_nat n) (drop (Z.to_nat off) (t_content t j)) in
    exists s', read fd n s = Ok (Z.of_nat (length bs), bs) s' /\
      view_of s' = set_fds (insert fd (j, off + Z.of_nat (length bs))) (view_of s);
  law_write s fd bs : fd = 1 \/ fd = 2 -> exists s', write fd bs s = Ok (Z.of_nat (length bs)) s' /\ view_of s' = add_out fd bs (view_of s);
  law_getc s : match v_in (view_of s) with
    | [] => exists s', read 0 1 s = Ok (0, []) s' /\ view_of s' = view_of s
    | c :: l => exists s', read 0 1 s = Ok (1, [c]) s' /\ view_of s' = set_in l (view_of s)
    end;
  law_fork s pid l : v_forks (view_of s) = pid :: l -> exists s', fork s = Ok pid s' /\ view_of s' = set_forks l (view_of s);
  law_wait s : exists r s', wait s = Ok r s' /\ view_of s' = view_of s
}.

Section Output.
Context {W : Type} `{SysLaws W t}.

Lemma putcs_out fd cs : fd = 1 \/ fd = 2 -> forall s, exists s', putcs fd cs s = Ok (inr tt) s' /\ view_of s' = add_out fd cs (view_of s).
Proof.
  intros Hfd. induction cs as [|c cs IH]; intros s; cbn [putcs].
  - exists s. split; [done|]. unfold add_out. cbn. rewrite app_nil_r. by destruct (view_of s).
  - destruct (law_write s fd [c] Hfd) as (s1 & E1 & V1). destruct (IH s1) as (s2 & E2 & V2). exists s2. split.
    + erewrite pbind_ret; [exact E2|]. unfold putc. by erewrite psys by exact E1.
    + rewrite V2, V1. unfold add_out. cbn. by rewrite <- (assoc_L (++)).
Qed.

Lemma fprintf_out fd fmt ap cs s : fd = 1 \/ fd = 2 -> Ulib.vprintf false fmt ap = Some cs ->
  exists s', fprintf fd fmt ap s = Ok (inr tt) s' /\ view_of s' = add_out fd cs (view_of s).
Proof. intros Hfd E. unfold fprintf. rewrite E. by apply putcs_out. Qed.

Lemma stat_ok s path j : resolve t path = Some j -> path_ok path -> openable t j -> (size (v_fds (view_of s)) < Proc.NOFILE - 3)%nat ->
  exists st s', stat path s = Ok (inr (0, st)) s' /\ Fs.st_type st = t_type t j /\ view_of s' = view_of s.
Proof.
  intros Hr Hp Ho Hsz. destruct (law_open s path j Hr Hp Ho Hsz) as (fd & s1 & E1 & Hfd & Hn & V1).
  destruct (law_fstat s1 fd j 0) as (st & s2 & E2 & Hst & V2). { rewrite V1. apply lookup_insert_eq. }
  destruct (law_close s2 fd (j, 0)) as (s3 & E3 & V3). { rewrite V2, V1. apply lookup_insert_eq. }
  exists st, s3. split; [|split; [done|]].
  - unfold stat. erewrite psys by exact E1. destruct (Z.ltb_spec fd 0); [lia|]. erewrite psys by exact E2. by erewrite psys by exact E3.
  - rewrite V3, V2, V1. unfold set_fds. cbn. rewrite delete_insert_id by done. by destruct (view_of s).
Qed.
End Output.

(** ** find *)

Definition name_of (de : list Z) : list Z := CStringFacts.cstr (Fs.de_name de).

(** A directory that is whole entries, whose names in use are different, shorter than 14
    characters and without slashes, and name files that can be opened. *)
Record dir_ok (t : tree) (d : Z) : Prop := {
  do_whole : (length (t_content t d) mod 16 = 0)%nat;
  do_entry de : de ∈ entries (t_content t d) -> Fs.de_inum de <> 0 ->
    0 ∈ Fs.de_name de /\ name_of de <> [] /\ Fs.SLASH ∉ name_of de /\
    dir_lookup (t_content t d) (name_of de) = Some (Fs.de_inum de) /\ openable t (Fs.de_inum de)
}.

(** What is to be found: the paths of the files called [file] below directory [d], in the
    order of the entries, and the number of directories below it; [None] when the tree
    is deeper than [depth] or a path too long for the kernel. *)
Section Found.
Context (t : tree) (file : list Z).

Definition found_entry (rec : list Z -> Z -> option (list (list Z) * nat)) (path de : list Z) : option (list (list Z) * nat) :=
  let buf := under path (name_of de) in
  let j := Fs.de_inum de in
  if j =? 0 then Some ([], 0%nat)
  else if Syscall.MAXPATH <=? Z.of_nat (length buf) then None
  else if t_type t j =? Fs.T_DIR then
    if hd 0 (name_of de) =? 46 then Some ([], 0%nat) else prod_map id S <$> rec buf j
  else Some (if (t_type t j =? Fs.T_FILE) && bool_decide (file = name_of de) then [buf] else [], 0%nat).

Fixpoint found_in (rec : list Z -> Z -> option (list (list Z) * nat)) (path : list Z) (es : list (list Z)) : option (list (list Z) * nat) :=
  match es with
  | [] => Some ([], 0%nat)
  | de :: es =>
      x ← found_entry rec path de;
      y ← found_in rec path es;
      Some (x.1 ++ y.1, (x.2 + y.2)%nat)
  end.

Fixpoint found (depth : nat) (path : list Z) (d : Z) : option (list (list Z) * nat) :=
  match depth with
  | O => None
  | S k => found_in (found k) path (entries (t_content t d))
  end.

(** A directory find goes into, with its path. *)
Inductive below (path : list Z) (d : Z) : list Z -> Z -> Prop :=
| below_here : below path d path d
| below_sub p d' de : below path d p d' -> de ∈ entries (t_content t d') -> Fs.de_inum de <> 0 ->
    t_type t (Fs.de_inum de) = Fs.T_DIR -> hd 0 (name_of de) <> 46 -> below path d (under p (name_of de)) (Fs.de_inum de).

(** [x] is the path of a file called [file]. *)
Definition to_find (path : list Z) (d : Z) (x : list Z) : Prop :=
  exists p d' de, below path d p d' /\ de ∈ entries (t_content t d') /\ Fs.de_inum de <> 0 /\
    t_type t (Fs.de_inum de) = Fs.T_FILE /\ name_of de = file /\ x = under p file.

Lemma below_trans path d p d1 q d2 : below path d p d1 -> below p d1 q d2 -> below path d q d2.
Proof. intros H1 H2. induction H2; [done|by eapply below_sub]. Qed.

Lemma below_first path d q d2 : below path d q d2 -> (q = path /\ d2 = d) \/
  exists de, de ∈ entries (t_content t d) /\ Fs.de_inum de <> 0 /\ t_type t (Fs.de_inum de) = Fs.T_DIR /\ hd 0 (name_of de) <> 46 /\
    below (under path (name_of de)) (Fs.de_inum de) q d2.
Proof.
  induction 1 as [|p d' de Hb IH Hin Hn Ht Hd]; [by left|right]. destruct IH as [[-> ->]|(de' & ? & ? & ? & ? & Hb')].
  - exists de. split_and!; try done. constructor.
  - exists de'. split_and!; try done. by eapply below_sub.
Qed.

Definition entry_finds (path de x : list Z) : Prop :=
  Fs.de_inum de <> 0 /\
  (t_type t (Fs.de_inum de) = Fs.T_FILE /\ name_of de = file /\ x = under path file \/
   t_type t (Fs.de_inum de) = Fs.T_DIR /\ hd 0 (name_of de) <> 46 /\ to_find (under path (name_of de)) (Fs.de_inum de) x).

Lemma to_find_entry path d x : to_find path d x <-> exists de, de ∈ entries (t_content t d) /\ entry_finds path de x.
Proof.
  split.
  - intros (p & d' & de & Hb & Hin & Hn & Ht & Hf & ->). apply below_first in Hb as [[-> ->]|(de' & Hin' & Hn' & Ht' & Hd' & Hb)].
    + exists de. split; [done|]. split; [done|]. by left.
    + exists de'. split; [done|]. split; [done|]. right. split_and!; try done. exists p, d', de. by split_and!.
  - intros (de & Hin & Hn & [(Ht & Hf & ->)|(Ht & Hd & p & d' & de' & Hb & ?)]).
    + exists path, d, de. split_and!; try done. constructor.
    + exists p, d', de'. split; [|done]. eapply below_trans; [|exact Hb]. eapply below_sub; [constructor|done..].
Qed.

Lemma found_in_spec rec path es out n :
  (forall p d o k, rec p d = Some (o, k) -> forall x, x ∈ o <-> to_find p d x) ->
  found_in rec path es = Some (out, n) -> forall x, x ∈ out <-> exists de, de ∈ es /\ entry_finds path de x.
Proof.
  intros Hrec. revert out n. induction es as [|de es IH]; intros out n E x; cbn [found_in] in E.
  { injection E as <- <-. split; [by intros ?%elem_of_nil|]. by intros (? & ?%elem_of_nil & _). }
  apply bind_Some in E as ([o1 n1] & E1 & ([o2 n2] & E2 & E)%bind_Some). injection E as <- <-. cbn [fst].
  rewrite elem_of_app, (IH o2 n2 E2 x). assert (x ∈ o1 <-> entry_finds path de x) as ->.
  2: { split; [intros [?|(de' & ? & ?)]; eexists; (split; [|done]); by constructor|]. intros (de' & [->|?]%elem_of_cons & ?); [by left|right; by exists de']. }
  unfold found_entry in E1. unfold entry_finds. destruct (Z.eqb_spec (Fs.de_inum de) 0); [injection E1 as <- <-; set_solver|].
  destruct (_ <=? _); [done|]. destruct (Z.eqb_spec (t_type t (Fs.de_inum de)) Fs.T_DIR) as [Ht|Ht].
  - rewrite Ht. destruct (Z.eqb_spec (hd 0 (name_of de)) 46); [injection E1 as <- <-; set_solver|].
    apply fmap_Some in E1 as ([o k] & Er & [= -> ->]). rewrite (Hrec _ _ _ _ Er x). naive_solver.
  - injection E1 as <- <-. destruct (Z.eqb_spec (t_type t (Fs.de_inum de)) Fs.T_FILE); cbn [andb]; [|set_solver].
    case_bool_decide as Hf; rewrite ?list_elem_of_singleton, ?elem_of_nil; [rewrite <- Hf|]; naive_solver.
Qed.

Lemma found_spec depth : forall path d out n, found depth path d = Some (out, n) -> forall x, x ∈ out <-> to_find path d x.
Proof.
  induction depth as [|k IH]; intros path d out n E x; [done|]. cbn [found] in E.
  rewrite to_find_entry. by apply (found_in_spec (found k) path _ out n).
Qed.
End Found.

Lemma cstr_c_string l : c_string (CStringFacts.cstr l).
Proof. unfold c_string. induction l as [|c l IH]; cbn; [by apply not_elem_of_nil|]. destruct (Z.eqb_spec c 0); [by apply not_elem_of_nil|]. apply not_elem_of_cons. split; [congruence|done]. Qed.

Lemma cstr_short l : 0 ∈ l -> (length (CStringFacts.cstr l) < length l)%nat.
Proof.
  induction l as [|c l IH]; cbn; [by intros ?%elem_of_nil|]. intros [<-|Hin]%elem_of_cons; [cbn; lia|].
  destruct (c =? 0); cbn; [lia|]. specialize (IH Hin). lia.
Qed.

Lemma hd_cstr l : hd 0 (CStringFacts.cstr l) = hd 0 l.
Proof. destruct l as [|c l]; cbn; [done|]. by destruct (Z.eqb_spec c 0). Qed.

Lemma ustrcmp_eq p : c_string p -> forall q, c_string q -> ustrcmp p q = 0 <-> p = q.
Proof.
  unfold c_string. induction p as [|c p IH]; intros Hp q Hq; cbn [ustrcmp].
  - destruct q as [|c q]; cbn; [done|]. apply not_elem_of_cons in Hq as [? _]. split; [lia|done].
  - apply not_elem_of_cons in Hp as [Hc Hp]. destruct q as [|c' q]; cbn [hd tl].
    + destruct (Z.eqb_spec c 0); [congruence|]. split; [lia|done].
    + apply not_elem_of_cons in Hq as [_ Hq]. destruct (Z.eqb_spec c c') as [<-|]; [rewrite IH by done|]; split; intros; try congruence; lia.
Qed.

(** Each path on a line of its own. *)
Definition lines_of (paths : list (list Z)) : list Z := concat ((fun p => p ++ [10]) <$> paths).

Lemma lines_of_app a b : lines_of (a ++ b) = lines_of a ++ lines_of b.
Proof. unfold lines_of. by rewrite fmap_app, concat_app. Qed.

Section Find.
Context {W : Type} `{SysLaws W t} (address : list Z -> Z) (file : list Z) (Hfile : c_string file).
Hypothesis dirs : forall d, t_type t d = Fs.T_DIR -> dir_ok t d.

(** The paths [out] were printed, and [n] files opened and not closed. *)
Record went (v v' : view) (out : list (list Z)) (n : nat) : Prop := {
  w_out : v_out v' = v_out v ++ (pair 1 <$> lines_of out);
  w_in : v_in v' = v_in v /\ v_forks v' = v_forks v;
  w_size : size (v_fds v') = (size (v_fds v) + n)%nat
}.

Lemma went_trans v1 v2 v3 o1 o2 n1 n2 : went v1 v2 o1 n1 -> went v2 v3 o2 n2 -> went v1 v3 (o1 ++ o2) (n1 + n2).
Proof.
  intros [O1 [I1 F1] S1] [O2 [I2 F2] S2]. split; [|split; congruence|lia].
  by rewrite O2, O1, lines_of_app, fmap_app, (assoc_L (++)).
Qed.

Lemma went_fds v fds : size fds = size (v_fds v) -> went v (set_fds (fun _ => fds) v) [] 0.
Proof. intros E. split; cbn; [by rewrite app_nil_r|done|lia]. Qed.

(** [find] on directory [d]. *)
Definition find_ok (path : list Z) (d : Z) (out : list (list Z)) (n : nat) : Prop :=
  path <> [] -> path_ok path -> resolve t path = Some d -> t_type t d = Fs.T_DIR ->
  exists N, forall fuel s, (N <= fuel)%nat -> (size (v_fds (view_of s)) + n < Proc.NOFILE - 4)%nat ->
  exists s', find address path file fuel s = Ok (inr tt) s' /\ went (view_of s) (view_of s') out (S n) /\ v_fds (view_of s) ⊆ v_fds (view_of s').

(** What the loop does with an entry once [stat] found its type [ty]. *)
Definition entry_action (de buf : list Z) (ty : Z) (f : nat) : P W unit :=
  if ty =? Fs.T_DIR then
    if hd 0 (Fs.de_name de) =? 46 then pret tt else find address buf file f
  else if ty =? Fs.T_FILE then
    if ustrcmp file (CStringFacts.cstr (Fs.de_name de)) =? 0 then fprintf 1 (ln "%s") [AStr (Some buf)] else pret tt
  else pret tt.

(** The entry of a directory, by its path. *)
Lemma entry_path path d de : path <> [] -> path_ok path -> resolve t path = Some d -> t_type t d = Fs.T_DIR ->
  de ∈ entries (t_content t d) -> Fs.de_inum de <> 0 ->
  let buf := under path (name_of de) in Z.of_nat (length buf) < Syscall.MAXPATH ->
  resolve t buf = Some (Fs.de_inum de) /\ path_ok buf /\ openable t (Fs.de_inum de) /\ find_path path de = Some buf /\ buf <> [].
Proof.
  intros Hne [Hcs Hpl] Hr Ht Hin Hn buf Hbl. destruct (do_entry _ _ (dirs d Ht) de Hin Hn) as (Hz & Hnn & Hs & Hl & Ho).
  pose proof (cstr_short _ Hz) as Hshort. assert (length (Fs.de_name de) <= 14)%nat as Hlen by (unfold Fs.de_name, getn; rewrite length_take; unfold Fs.DIRSIZ; lia).
  split; [unfold buf; erewrite resolve_under; try done; unfold name_of, Fs.DIRSIZ in *; lia|]. split; [|split; [done|split]].
  - split; [|done]. pose proof (cstr_c_string (Fs.de_name de)) as Hc. unfold buf, under, name_of, c_string in *.
    rewrite !not_elem_of_app. split_and!; [done| |done]. apply not_elem_of_cons. split; [done|apply not_elem_of_nil].
  - unfold find_path. unfold Syscall.MAXPATH in Hpl. destruct (Z.ltb_spec 512 (Z.of_nat (length path) + 1 + Z.of_nat Fs.DIRSIZ)); [unfold Fs.DIRSIZ in *; lia|].
    assert (existsb (Z.eqb 0) (Fs.de_name de) = true) as ->; [|done]. apply existsb_exists. exists 0. split; [by apply list_elem_of_In|done].
  - unfold buf, under. by destruct path.
Qed.

Lemma entry_action_ok rec path d de out n :
  (forall p j o k, rec p j = Some (o, k) -> find_ok p j o k) ->
  path <> [] -> path_ok path -> resolve t path = Some d -> t_type t d = Fs.T_DIR ->
  de ∈ entries (t_content t d) -> Fs.de_inum de <> 0 -> found_entry t file rec path de = Some (out, n) ->
  let buf := under path (name_of de) in Z.of_nat (length buf) < Syscall.MAXPATH /\
  exists N, forall f s, (N <= f)%nat -> (size (v_fds (view_of s)) + n < Proc.NOFILE - 3)%nat ->
  exists s', entry_action de buf (t_type t (Fs.de_inum de)) f s = Ok (inr tt) s' /\ went (view_of s) (view_of s') out n /\
    v_fds (view_of s) ⊆ v_fds (view_of s').
Proof.
  intros Hrec Hne Hp Hr Ht Hin Hn E buf. unfold found_entry in E. fold buf in E. destruct (Z.eqb_spec (Fs.de_inum de) 0); [done|].
  destruct (Z.leb_spec Syscall.MAXPATH (Z.of_nat (length buf))) as [|Hbl]; [done|]. split; [done|].
  destruct (entry_path path d de Hne Hp Hr Ht Hin Hn Hbl) as (Hrb & Hpb & Ho & _ & Hbn). fold buf in Hrb, Hpb, Hbn. unfold entry_action.
  assert (forall s : W, went (view_of s) (view_of s) [] 0) as Hsame. { intros s. split; [by rewrite app_nil_r|done|lia]. }
  destruct (Z.eqb_spec (t_type t (Fs.de_inum de)) Fs.T_DIR) as [Hd|Hd].
  - rewrite <- hd_cstr. fold (name_of de). destruct (hd 0 (name_of de) =? 46).
    + injection E as <- <-. exists 0%nat. intros f s _ _. exists s. by split_and!.
    + apply fmap_Some in E as ([o k] & Er & [= -> ->]). destruct (Hrec _ _ _ _ Er Hbn Hpb Hrb Hd) as (N & HN). exists N. intros f s Hf Hsz. apply HN; [done|lia].
  - injection E as <- <-. exists 0%nat. intros f s _ _. destruct (Z.eqb_spec (t_type t (Fs.de_inum de)) Fs.T_FILE) as [Hf|Hf]; cbn [andb].
    2: { exists s. by split_and!. }
    pose proof (ustrcmp_eq file Hfile (name_of de) (cstr_c_string _)) as Heq. unfold name_of at 1 in Heq.
    destruct (Z.eqb_spec (ustrcmp file (CStringFacts.cstr (Fs.de_name de))) 0) as [E0|E0].
    + rewrite bool_decide_true by (by apply Heq). destruct (fprintf_out 1 (ln "%s") [AStr (Some buf)] (buf ++ [10]) s) as (s' & E' & V'); [by left|done|].
      exists s'. split; [done|]. rewrite V'. split; [|done]. split; cbn; [|done|lia]. by rewrite app_nil_r.
    + rewrite bool_decide_false by (by rewrite <- Heq). exists s. by split_and!.
Qed.

(** Reading the next entry, or the end of the directory. *)
Lemma read_dirent s fd d k : 3 <= fd -> t_type t d = Fs.T_DIR -> v_fds (view_of s) !! fd = Some (d, 16 * Z.of_nat k) ->
  match entries (t_content t d) !! k with
  | Some de => exists s', read fd 16 s = Ok (16, de) s' /\ view_of s' = set_fds (insert fd (d, 16 * Z.of_nat (S k))) (view_of s)
  | None => (length (entries (t_content t d)) <= k)%nat -> exists n bs s', read fd 16 s = Ok (n, bs) s' /\ n <> 16 /\
      view_of s' = set_fds (insert fd (d, 16 * Z.of_nat k)) (view_of s)
  end.
Proof.
  intros H3 Ht Hfd. pose proof (do_whole _ _ (dirs d Ht)) as Hm. set (c := t_content t d) in *.
  pose proof (Nat.div_mod (length c) 16 ltac:(lia)) as Hdiv. rewrite Hm in Hdiv.
  destruct (law_read s fd d (16 * Z.of_nat k) 16 H3 Hfd) as (s' & E & V); [rewrite Ht; done|lia|lia|]. fold c in E, V.
  replace (Z.to_nat (16 * Z.of_nat k)) with (16 * k)%nat in * by lia. change (take (Z.to_nat 16) (drop (16 * k) c)) with (entry c k) in *.
  rewrite entries_lookup, length_entries. case_decide as Hk.
  - assert (length (entry c k) = 16%nat) as Hl by (apply length_getn; lia). rewrite Hl in *. exists s'. split; [exact E|]. rewrite V. do 3 f_equal. lia.
  - intros _. assert (length (entry c k) = 0%nat) as Hl by (unfold entry, getn; rewrite length_take, length_drop; lia). rewrite Hl in *.
    eexists _, _, s'. split; [exact E|]. split; [done|]. rewrite V. do 3 f_equal. lia.
Qed.

Lemma find_loop_entry rec path d k de out n :
  (forall p j o k, rec p j = Some (o, k) -> find_ok p j o k) ->
  path <> [] -> path_ok path -> resolve t path = Some d -> t_type t d = Fs.T_DIR ->
  entries (t_content t d) !! k = Some de -> found_entry t file rec path de = Some (out, n) ->
  exists N, forall fuel s fd, (N <= fuel)%nat -> 3 <= fd -> v_fds (view_of s) !! fd = Some (d, 16 * Z.of_nat k) ->
    (size (v_fds (view_of s)) + n < Proc.NOFILE - 3)%nat ->
  exists s', find_loop address fd path file (S fuel) s = find_loop address fd path file fuel s' /\ went (view_of s) (view_of s') out n /\
    v_fds (view_of s') !! fd = Some (d, 16 * Z.of_nat (S k)) /\ delete fd (v_fds (view_of s)) ⊆ v_fds (view_of s').
Proof.
  intros Hrec Hne Hp Hr Ht Hk E. pose proof (list_elem_of_lookup_2 _ _ _ Hk) as Hin.
  assert (exists N, Fs.de_inum de <> 0 -> Z.of_nat (length (under path (name_of de))) < Syscall.MAXPATH /\
    forall f s, (N <= f)%nat -> (size (v_fds (view_of s)) + n < Proc.NOFILE - 3)%nat ->
    exists s', entry_action de (under path (name_of de)) (t_type t (Fs.de_inum de)) f s = Ok (inr tt) s' /\
      went (view_of s) (view_of s') out n /\ v_fds (view_of s) ⊆ v_fds (view_of s')) as (N & HN).
  { destruct (decide (Fs.de_inum de = 0)); [by exists 0%nat|]. destruct (entry_action_ok rec path d de out n) as (? & N & HN); try done. by exists N. }
  exists N. intros fuel s fd Hf H3 Hfd Hsz. pose proof (read_dirent s fd d k H3 Ht Hfd) as Hrd. rewrite Hk in Hrd. destruct Hrd as (s1 & Er & V1).
  assert (size (v_fds (view_of s1)) = size (v_fds (view_of s))) as Hs1 by (rewrite V1; cbn; by rewrite map_size_insert_Some).
  assert (went (view_of s) (view_of s1) [] 0) as W1 by (rewrite V1; by apply went_fds; rewrite V1 in Hs1).
  assert (v_fds (view_of s1) !! fd = Some (d, 16 * Z.of_nat (S k))) as Hfd1 by (rewrite V1; apply lookup_insert_eq).
  assert (delete fd (v_fds (view_of s)) ⊆ v_fds (view_of s1)) as Hsub1 by (rewrite V1; cbn; rewrite <- insert_delete_eq; apply insert_subseteq, lookup_delete_eq).
  cbn [find_loop]. erewrite psys by exact Er. cbv beta iota. cbn [Z.eqb Pos.eqb negb]. destruct (Z.eqb_spec (Fs.de_inum de) 0) as [Ez|Hn].
  { unfold found_entry in E. rewrite Ez in E. injection E as <- <-. exists s1. by split_and!. }
  destruct (HN Hn) as [Hbl HN']. destruct (entry_path path d de Hne Hp Hr Ht Hin Hn Hbl) as (Hrb & Hpb & Ho & -> & _).
  destruct (stat_ok s1 _ _ Hrb Hpb Ho ltac:(lia)) as (st & s2 & E2 & Hst & V2). destruct (HN' fuel s2 Hf ltac:(rewrite V2; lia)) as (s3 & E3 & W3 & Hsub3).
  rewrite V2 in W3, Hsub3. erewrite pbind_ret by exact E2. cbv beta iota. cbn [Z.ltb Z.compare]. rewrite Hst. erewrite pbind_ret by exact E3.
  exists s3. split; [done|]. split; [by apply (went_trans _ _ _ [] out 0 n W1)|]. split; [by eapply lookup_weaken|by etrans].
Qed.

Lemma find_loop_ok rec path d :
  (forall p j o k, rec p j = Some (o, k) -> find_ok p j o k) ->
  path <> [] -> path_ok path -> resolve t path = Some d -> t_type t d = Fs.T_DIR ->
  forall es k out n, drop k (entries (t_content t d)) = es -> found_in t file rec path es = Some (out, n) ->
  exists N, forall fuel s fd, (N <= fuel)%nat -> 3 <= fd -> v_fds (view_of s) !! fd = Some (d, 16 * Z.of_nat k) ->
    (size (v_fds (view_of s)) + n < Proc.NOFILE - 3)%nat ->
  exists s', find_loop address fd path file fuel s = Ok (inr tt) s' /\ went (view_of s) (view_of s') out n /\
    delete fd (v_fds (view_of s)) ⊆ v_fds (view_of s').
Proof.
  intros Hrec Hne Hp Hr Ht. induction es as [|de es IH]; intros k out n Hdrop E; cbn [found_in] in E.
  - injection E as <- <-. exists 1%nat. intros [|fuel] s fd Hf H3 Hfd Hsz; [lia|]. pose proof (read_dirent s fd d k H3 Ht Hfd) as Hrd.
    assert (length (entries (t_content t d)) <= k)%nat as Hk.
    { pose proof (length_drop (entries (t_content t d)) k) as Hl. rewrite Hdrop in Hl. cbn [length] in Hl. lia. }
    rewrite (lookup_ge_None_2 _ _ Hk) in Hrd. destruct (Hrd Hk) as (m & bs & s' & Er & Hm & V). exists s'. split; [|split].
    + cbn [find_loop]. erewrite psys by exact Er. cbv beta iota. by destruct (Z.eqb_spec m 16).
    + rewrite V. apply went_fds. by rewrite map_size_insert_Some by done.
    + rewrite V. cbn. rewrite insert_id by done. apply delete_subseteq.
  - apply bind_Some in E as ([o1 n1] & E1 & ([o2 n2] & E2 & E)%bind_Some). injection E as <- <-. cbn [fst snd].
    assert (entries (t_content t d) !! k = Some de) as Hk by (by apply (f_equal head) in Hdrop; rewrite head_lookup, lookup_drop, Nat.add_0_r in Hdrop).
    destruct (IH (S k) o2 n2) as (N2 & IH2); [|done|]. { rewrite <- Nat.add_1_r, <- drop_drop, Hdrop. done. }
    destruct (find_loop_entry rec path d k de o1 n1) as (N1 & IH1); try done.
    exists (S (N1 + N2)). intros [|fuel] s fd Hf H3 Hfd Hsz; [lia|]. destruct (IH1 fuel s fd) as (s1 & -> & W1 & Hfd1 & Hsub1); [lia|done|done|lia|].
    pose proof (w_size _ _ _ _ W1). destruct (IH2 fuel s1 fd) as (s2 & E' & W2 & Hsub2); [lia|done|done|lia|].
    exists s2. split; [done|]. split; [by eapply went_trans|]. etrans; [|exact Hsub2]. rewrite <- (delete_delete_eq (v_fds (view_of s)) fd). by apply delete_mono.
Qed.

Lemma find_finds depth : forall path d out n, found t file depth path d = Some (out, n) -> find_ok path d out n.
Proof.
  induction depth as [|depth IH]; intros path d out n E Hne Hp Hr Ht; [done|]. cbn [found] in E.
  destruct (find_loop_ok _ path d IH Hne Hp Hr Ht _ 0 out n eq_refl E) as (N & HN). exists (S N). intros [|fuel] s Hf Hsz; [lia|].
  destruct (law_open s path d Hr Hp ltac:(by left) ltac:(lia)) as (fd & s1 & E1 & Hfd & Hn & V1).
  assert (v_fds (view_of s1) !! fd = Some (d, 0)) as Hfd1 by (rewrite V1; apply lookup_insert_eq).
  destruct (law_fstat s1 fd d 0 Hfd1) as (st & s2 & E2 & Hst & V2).
  assert (size (v_fds (view_of s2)) = S (size (v_fds (view_of s)))) as Hs2 by (rewrite V2, V1; cbn; by rewrite map_size_insert_None).
  destruct (HN fuel s2 fd) as (s3 & E3 & W3 & Hsub); [lia|done|by rewrite V2|lia|]. exists s3. split; [|split].
  - cbn [find]. erewrite psys by exact E1. destruct (Z.ltb_spec fd 0); [lia|]. erewrite psys by exact E2. cbv beta iota. cbn [Z.ltb Z.compare].
    rewrite Hst, Ht. change (Fs.T_DIR =? Fs.T_FILE) with false. rewrite Z.eqb_refl. cbv iota. destruct Hp as [_ Hp]. unfold Syscall.MAXPATH in Hp.
    by destruct (Z.ltb_spec 512 (Z.of_nat (length path) + 1)); [lia|].
  - destruct W3 as [O3 [I3 F3] S3]. split; [|split|lia]; rewrite ?O3, ?I3, ?F3, V2, V1; done.
  - etrans; [|exact Hsub]. rewrite V2, V1. cbn. by rewrite delete_insert_id.
Qed.
End Find.

(** C26: [find] prints every file called [file] that is reachable from the directory
    through directories whose names do not begin with a dot, each path once for every
    entry and on a line of its own, and nothing else, and exits with 0; it never closes a
    directory, so [S n] descriptors stay open, for the directory and the [n] below it, and
    it needs that many and one more. *)
Theorem find_prints_matches {W : Type} `{SysLaws W t} address prog path file d depth out n s :
  (forall d, t_type t d = Fs.T_DIR -> dir_ok t d) -> c_string file -> path <> [] -> path_ok path ->
  resolve t path = Some d -> t_type t d = Fs.T_DIR -> found t file depth path d = Some (out, n) ->
  (size (v_fds (view_of s)) + n < Proc.NOFILE - 4)%nat ->
  (forall x, x ∈ out <-> to_find t file path d x) /\
  exists N, forall fuel, (N <= fuel)%nat -> exists s', find_main address [prog; path; file] fuel s = Ok (inl (Exit 0)) s' /\
    went (view_of s) (view_of s') out (S n).
Proof.
  intros Hdirs Hf Hne Hp Hr Ht E Hsz. split; [by apply (found_spec t file depth path d out n)|].
  destruct (find_finds address file Hf Hdirs depth path d out n E Hne Hp Hr Ht) as (N & HN). exists N. intros fuel Hfuel.
  destruct (HN fuel s Hfuel Hsz) as (s' & E' & Hw & _). exists s'. split; [|done]. unfold find_main.
  change (u8 (Z.of_nat (length [prog; path; file]))) with 3. cbn [Z.ltb Z.compare Pos.compare Pos.compare_cont Z.eqb Pos.eqb]. by erewrite pbind_ret by exact E'.
Qed.

(** ** xargs *)

(** The lines of the input, and what follows the last newline. *)
Fixpoint split_lines (cur input : list Z) : list (list Z) * list Z :=
  match input with
  | [] => ([], cur)
  | c :: input => if c =? 10 then let r := split_lines [] input in (cur :: r.1, r.2) else split_lines (cur ++ [c]) input
  end.

Definition short (l : list Z) : Prop := (length l < 128)%nat.

Lemma split_short input : forall cur, Forall short ((split_lines cur input).1 ++ [(split_lines cur input).2]) -> short cur.
Proof.
  induction input as [|c input IH]; intros cur; cbn [split_lines]; [cbn; by intros [? _]%Forall_cons|].
  destruct (c =? 10); [cbn; by intros [? _]%Forall_cons|]. intros Hs%IH. unfold short in *. rewrite length_app in Hs. lia.
Qed.

Lemma cstr_id l : c_string l -> CStringFacts.cstr l = l.
Proof.
  unfold c_string. induction l as [|c l IH]; [done|]. intros [Hc Hl]%not_elem_of_cons.
  rewrite CStringFacts.cstr_cons_nz by congruence. by rewrite IH.
Qed.

Section Xargs.
Context {W : Type} `{SysLaws W t} (command : list Z) (args : list (list Z)) (Hargs : (length args < Exec.MAXARG)%nat).

Lemma xargs_end line fuel s : v_in (view_of s) = [] ->
  exists s', xargs_loop command args line (S fuel) s = Ok (inr tt) s' /\ view_of s' = view_of s.
Proof.
  intros Hin. pose proof (law_getc s) as Hg. rewrite Hin in Hg. destruct Hg as (s1 & E1 & V1). exists s1. split; [|done].
  cbn [xargs_loop]. by erewrite psys by exact E1.
Qed.

Lemma xargs_char line fuel s c l : v_in (view_of s) = c :: l -> c <> 10 -> short line ->
  exists s', xargs_loop command args line (S fuel) s = xargs_loop command args (line ++ [c]) fuel s' /\ view_of s' = set_in l (view_of s).
Proof.
  intros Hin Hc Hl. pose proof (law_getc s) as Hg. rewrite Hin in Hg. destruct Hg as (s1 & E1 & V1). exists s1. split; [|done].
  cbn [xargs_loop]. erewrite psys by exact E1. cbv beta iota zeta. cbn [Z.ltb Z.compare hd]. unfold short in Hl.
  rewrite (proj2 (Nat.leb_gt _ _) Hl). by destruct (Z.eqb_spec c 10).
Qed.

Lemma xargs_newline line fuel s l pid r : v_in (view_of s) = 10 :: l -> v_forks (view_of s) = pid :: r -> 0 <= pid -> short line -> c_string line ->
  exists s', view_of s' = set_in l (set_forks r (view_of s)) /\
    xargs_loop command args line (S fuel) s = if pid =? 0 then (execv command (args ++ [line]) ;;; exit 0) s' else xargs_loop command args [] fuel s'.
Proof.
  intros Hin Hfk Hpid Hl Hc. pose proof (law_getc s) as Hg. rewrite Hin in Hg. destruct Hg as (s1 & E1 & V1).
  destruct (law_fork s1 pid r) as (s2 & E2 & V2); [by rewrite V1|]. destruct (law_wait s2) as (w & s3 & E3 & V3). unfold short in Hl.
  exists (if pid =? 0 then s2 else s3). split; [destruct (pid =? 0); rewrite ?V3, V2, V1; done|]. cbn [xargs_loop]. erewrite psys by exact E1. cbv beta iota zeta.
  cbn [Z.ltb Z.compare hd]. rewrite (proj2 (Nat.leb_gt _ _) Hl), (proj2 (Nat.leb_gt _ _) Hargs), Z.eqb_refl. erewrite psys by exact E2.
  destruct (Z.ltb_spec pid 0); [lia|]. destruct (pid =? 0); [by rewrite cstr_id|]. by erewrite psys by exact E3.
Qed.

(** Every line starts one child.  The process is the parent in the first forks, which
    return [pids], and the child in the next one. *)
Lemma xargs_loop_ok input : forall line fuel s pids rest, v_in (view_of s) = input -> c_string (line ++ input) -> (length input < fuel)%nat ->
  v_forks (view_of s) = pids ++ rest -> Forall (Z.lt 0) pids -> Forall short ((split_lines line input).1 ++ [(split_lines line input).2]) ->
  (length pids = length (split_lines line input).1 -> exists s', xargs_loop command args line fuel s = Ok (inr tt) s' /\
    view_of s' = set_in [] (set_forks rest (view_of s))) /\
  (forall l r, rest = 0 :: r -> (split_lines line input).1 !! length pids = Some l -> exists s' i, view_of s' = set_in i (set_forks r (view_of s)) /\
    xargs_loop command args line fuel s = (execv command (args ++ [l]) ;;; exit 0) s').
Proof.
  unfold c_string. induction input as [|c input IH]; intros line [|fuel] s pids rest Hin Hc Hf Hfk Hpid Hs; cbn [length] in Hf; try lia; cbn [split_lines] in *.
  - split; [|by intros l r _ ?]. intros Hl. destruct pids; [|done]. destruct (xargs_end line fuel s Hin) as (s' & E & V). exists s'. split; [done|].
    rewrite V. cbn in Hfk. destruct (view_of s); cbn in *. by subst.
  - destruct (Z.eqb_spec c 10) as [->|Hn].
    + cbn [fst snd app length] in *. apply Forall_cons in Hs as [Hline Hs]. apply not_elem_of_app in Hc as [Hcl Hci]. apply not_elem_of_cons in Hci as [_ Hci].
      destruct pids as [|pid pids]; cbn [length app lookup list_lookup] in *.
      * split; [done|]. intros l r -> [= <-]. destruct (xargs_newline line fuel s input 0 r Hin Hfk ltac:(lia) Hline Hcl) as (s' & V & E). by exists s', input.
      * apply Forall_cons in Hpid as [Hp Hpid]. destruct (xargs_newline line fuel s input pid (pids ++ rest) Hin Hfk ltac:(lia) Hline Hcl) as (s1 & V1 & E1).
        destruct (Z.eqb_spec pid 0); [lia|]. rewrite E1. destruct (IH [] fuel s1 pids rest) as [Ha Hb]; [by rewrite V1|done|lia|by rewrite V1|done|done|].
        rewrite V1 in Ha, Hb. split; [intros [= Hl]; by apply Ha|]. intros l r Hrest Hl. by apply Hb.
    + destruct (xargs_char line fuel s c input Hin Hn) as (s1 & E1 & V1).
      { apply split_short in Hs. unfold short in *. rewrite length_app in Hs. lia. }
      rewrite E1. destruct (IH (line ++ [c]) fuel s1 pids rest) as [Ha Hb]; [by rewrite V1|by rewrite <- (assoc_L (++))|lia|by rewrite V1|done|done|].
      rewrite V1 in Ha, Hb. by split.
Qed.
End Xargs.

(** C27: [xargs] runs its command once for every line of its input that ends in a newline,
    in order, with the line as the last argument.  The process whose fork for line [i]
    returns 0 executes the command with that line, and exits with 0 if it cannot; the
    process whose forks all return a child reads the whole input and exits with 0.  What
    follows the last newline is not run. *)
Theorem xargs_runs_lines {W : Type} `{SysLaws W t} prog command more s fuel pids rest :
  let input := v_in (view_of s) in
  let lines := (split_lines [] input).1 in
  (length command < Fs.DIRSIZ)%nat -> (S (length more) < Exec.MAXARG)%nat ->
  c_string input -> Forall short (lines ++ [(split_lines [] input).2]) -> (length input < fuel)%nat ->
  v_forks (view_of s) = pids ++ rest -> Forall (Z.lt 0) pids ->
  (length pids = length lines -> exists s', xargs_main (prog :: command :: more) fuel s = Ok (inl (Exit 0)) s' /\
    view_of s' = set_in [] (set_forks rest (view_of s))) /\
  (forall l r, rest = 0 :: r -> lines !! length pids = Some l ->
    exists s' i, view_of s' = set_in i (set_forks r (view_of s)) /\
    forall ok s2, exec command (command :: more ++ [l]) s' = Ok ok s2 ->
      xargs_main (prog :: command :: more) fuel s = Ok (inl (if ok : bool then Exec command (command :: more ++ [l]) else Exit 0)) s2).
Proof.
  intros input lines Hcmd Hmore Hc Hs Hf Hfk Hpid. unfold Exec.MAXARG in Hmore.
  assert (xargs_main (prog :: command :: more) fuel s =
    pbind (xargs_loop command (command :: more) [] fuel) (fun _ => exit 0) s) as Hmain.
  { unfold xargs_main. cbn [length]. rewrite u8_small by lia. destruct (Z.ltb_spec 1 (Z.of_nat (S (S (length more))))); [|lia].
    rewrite (proj2 (Nat.leb_gt _ _) Hcmd). cbv zeta. unfold Coreutils.args. cbn [tl]. rewrite take_ge by (cbn; lia).
    cbn [length]. by rewrite (proj2 (Nat.ltb_ge _ _)) by (unfold Exec.MAXARG; lia). }
  rewrite Hmain. destruct (xargs_loop_ok command (command :: more) ltac:(unfold Exec.MAXARG; cbn; lia) input [] fuel s pids rest eq_refl Hc Hf Hfk Hpid Hs) as [Ha Hb]. split.
  - intros Hl. destruct (Ha Hl) as (s' & E & V). exists s'. split; [by erewrite pbind_ret by exact E|done].
  - intros l r Hr Hl. destruct (Hb l r Hr Hl) as (s' & i & V & E). exists s', i. split; [done|]. intros ok s2 Ex.
    apply pbind_fin. rewrite E. unfold execv. destruct ok; [apply pbind_fin|erewrite pbind_ret; [done|]]; by erewrite psys by exact Ex.
Qed.

(** ** A kernel with these laws *)

Section Kernel.
Context (t : tree).

Definition free_fd (m : gmap Z (Z * Z)) : option Z := head (filter (fun fd => m !! fd = None) (seqZ 3 13)).
Definition answer {A} (f : view -> A * view) : M view A := fun v => let '(a, v') := f v in Ok a v'.

#[local] Instance view_sys : Sys view := {
  fork := answer (fun v => match v_forks v with pid :: l => (pid, set_forks l v) | [] => (-1, v) end);
  wait := answer (fun v => (-1, v));
  pipe := answer (fun v => (-1, (0, 0), v));
  write fd bs := answer (fun v => if (fd =? 1) || (fd =? 2) then (Z.of_nat (length bs), add_out fd bs v) else (-1, v));
  read fd n := answer (fun v =>
    if fd =? 0 then match v_in v with [] => (0, [], v) | l => (Z.of_nat (length (take (Z.to_nat n) l)), take (Z.to_nat n) l, set_in (drop (Z.to_nat n) l) v) end
    else match v_fds v !! fd with
    | Some (j, off) =>
        let bs := take (Z.to_nat n) (drop (Z.to_nat off) (t_content t j)) in
        (Z.of_nat (length bs), bs, set_fds (insert fd (j, off + Z.of_nat (length bs))) v)
    | None => (-1, [], v)
    end);
  close fd := answer (fun v => match v_fds v !! fd with Some _ => (0, set_fds (delete fd) v) | None => (-1, v) end);
  kill _ := answer (fun v => (-1, v));
  exec _ _ := answer (fun v => (true, v));
  open path _ := answer (fun v => match resolve t path, free_fd (v_fds v) with Some j, Some fd => (fd, set_fds (insert fd (j, 0)) v) | _, _ => (-1, v) end);
  mknod _ _ _ := answer (fun v => (-1, v));
  unlink _ := answer (fun v => (-1, v));
  fstat fd := answer (fun v => match v_fds v !! fd with
    | Some (j, _) => (0, Fs.mk_stat 1 j (t_type t j) 1 (Z.of_nat (length (t_content t j))), v)
    | None => (-1, Fs.mk_stat 0 0 0 0 0, v)
    end);
  link _ _ := answer (fun v => (-1, v));
  mkdir _ := answer (fun v => (-1, v));
  dup _ := answer (fun v => (-1, v));
  getpid := answer (fun v => (1, v));
  sleep _ := answer (fun v => (0, v))
}.

Lemma free_fd_some m : (size m < 13)%nat -> exists fd, free_fd m = Some fd /\ 3 <= fd /\ m !! fd = None.
Proof.
  intros Hm. unfold free_fd. destruct (filter (fun fd => m !! fd = None) (seqZ 3 13)) as [|fd l] eqn:E.
  - exfalso. assert (list_to_set (C := gset Z) (seqZ 3 13) ⊆ dom m) as Hsub.
    { intros fd Hin%elem_of_list_to_set. apply elem_of_dom. destruct (m !! fd) eqn:Ef; [by eexists|].
      assert (fd ∈ @nil Z) as []%elem_of_nil. rewrite <- E. by apply list_elem_of_filter. }
    apply subseteq_size in Hsub. rewrite size_dom, size_list_to_set in Hsub by apply NoDup_seqZ. rewrite length_seqZ in Hsub. lia.
  - exists fd. assert (fd ∈ filter (fun fd => m !! fd = None) (seqZ 3 13)) as [? Hin%elem_of_seqZ]%list_elem_of_filter by (rewrite E; constructor).
    split_and!; [done|lia|done].
Qed.

#[local] Instance view_laws : @SysLaws view view_sys t.
Proof.
  refine {| view_of v := v |}; cbn.
  - intros v path j Hr _ _ Hsz. destruct (free_fd_some (v_fds v) Hsz) as (fd & E & ? & ?). exists fd. eexists. unfold answer. by rewrite Hr, E.
  - intros v path Hr _. eexists. unfold answer. by rewrite Hr.
  - intros v fd j off E. unfold answer. rewrite E. by eexists _, _.
  - intros v fd x E. unfold answer. rewrite E. by eexists.
  - intros v fd j off n H3 E _ _ _. unfold answer. rewrite E. destruct (Z.eqb_spec fd 0); [lia|]. by eexists.
  - intros v fd bs [-> | ->]; by eexists.
  - intros v. unfold answer. destruct (v_in v) as [|c l]; by eexists.
  - intros v pid l E. unfold answer. rewrite E. by eexists.
  - intros v. by eexists _, _.
Defined.
End Kernel.

(** A root directory with a directory [d] and a file [f]; [d] has a file [f] too. *)
Definition demo_dirent (inum : Z) (name : string) : list Z := [inum; 0] ++ Fs.strncpy_arr (lit name) Fs.DIRSIZ.
Definition demo_tree : tree := {|
  t_type j := if (j =? 1) || (j =? 2) then Fs.T_DIR else Fs.T_FILE;
  t_content j :=
    if j =? 1 then demo_dirent 1 "." ++ demo_dirent 1 ".." ++ demo_dirent 2 "d" ++ demo_dirent 3 "f"
    else if j =? 2 then demo_dirent 2 "." ++ demo_dirent 1 ".." ++ demo_dirent 0 "g" ++ demo_dirent 4 "f"
    else lit "text";
  t_cwd := 1
|}.
Definition demo_view : view := mk_view ∅ [] (lit "a" ++ [10] ++ lit "bc" ++ [10] ++ lit "d") [5; 0].

Definition dir_okb (t : tree) (d : Z) : bool :=
  bool_decide (length (t_content t d) mod 16 = 0)%nat &&
  forallb (fun de => (Fs.de_inum de =? 0) ||
    bool_decide (0 ∈ Fs.de_name de /\ name_of de <> [] /\ Fs.SLASH ∉ name_of de /\
      dir_lookup (t_content t d) (name_of de) = Some (Fs.de_inum de) /\
      (t_type t (Fs.de_inum de) = Fs.T_DIR \/ t_type t (Fs.de_inum de) = Fs.T_FILE \/ t_type t (Fs.de_inum de) = Fs.T_DEVICE)))
    (entries (t_content t d)).

Lemma dir_okb_ok t d : dir_okb t d = true -> dir_ok t d.
Proof.
  intros [Hw He]%andb_true_iff. split; [by apply bool_decide_eq_true in Hw|]. intros de Hin Hn.
  rewrite forallb_forall in He. apply list_elem_of_In, He, orb_true_iff in Hin as [?%Z.eqb_eq|Hok%bool_decide_eq_true]; done.
Qed.

Lemma demo_dirs d : t_type demo_tree d = Fs.T_DIR -> dir_ok demo_tree d.
Proof.
  intros Ht. apply dir_okb_ok. assert (d = 1 \/ d = 2) as [-> | ->]; [|by vm_compute..].
  unfold demo_tree, t_type in Ht. destruct (Z.eqb_spec d 1), (Z.eqb_spec d 2); auto. discriminate Ht.
Qed.

Ltac nul_free := unfold c_string; match goal with |- 0 ∉ ?l => exact (bool_decide_unpack (0 ∉ l) I) end.

Lemma find_prints_matches_witness : exists N, forall fuel, (N <= fuel)%nat -> exists s',
  @find_main view (view_sys demo_tree) (fun _ => 0) [lit "find"; lit "."; lit "f"] fuel demo_view = Ok (inl (Exit 0)) s' /\
  went demo_view s' [lit "./d/f"; lit "./f"] 2.
Proof.
  apply (@find_prints_matches view (view_sys demo_tree) demo_tree (view_laws demo_tree) (fun _ => 0) (lit "find") (lit ".") (lit "f") 1 3 [lit "./d/f"; lit "./f"] 1 demo_view);
    [exact demo_dirs|nul_free|done|split; [nul_free|done]|by vm_compute|done|by vm_compute|vm_compute; lia].
Defined.

Lemma xargs_runs_lines_witness : exists s',
  @xargs_main view (view_sys demo_tree) [lit "xargs"; lit "echo"; lit "x"] 10 demo_view =
  Ok (inl (Exec (lit "echo") [lit "echo"; lit "x"; lit "bc"])) s' /\ v_out s' = [].
Proof.
  destruct (@xargs_runs_lines view (view_sys demo_tree) demo_tree (view_laws demo_tree) (lit "xargs") (lit "echo") [lit "x"] demo_view 10 [5] [0]) as [_ Hb];
    [cbn; unfold Fs.DIRSIZ; lia|cbn; unfold Exec.MAXARG; lia|nul_free|repeat constructor; cbn; lia|cbn; lia|done|by repeat constructor|].
  destruct (Hb (lit "bc") [] eq_refl eq_refl) as (s' & i & V & E). exists s'. split; [by apply (E true s')|]. change s' with (@view_of view (view_sys demo_tree) demo_tree (view_laws demo_tree) s'). by rewrite V.
Defined.
